(** * Chalk object model (apps/lib/chalk/obj.c)

    A shallow embedding of the low level object manipulation routines of the
    Chalk interpreter, and the properties of them that its specification
    states.  Objects live in a heap indexed by address; every routine is a
    computation over that heap which either returns or stops on a failed
    assertion or an invalid memory access. *)

From stdpp Require Import gmap list fin_maps strings pretty.
From Stdlib Require Import NArith ZArith Lia.
From Stdlib.Strings Require Import Byte Ascii.

Local Open Scope N_scope.

#[local] Set Warnings "-register-all".

(** ** Machine types *)

(** ULONG and UINTN are 32-bit unsigned integers (procdef.h:
    [typedef UINT32 UINTN], [MAX_UINTN] is [0xFFFFFFFF]); arithmetic on them
    wraps around. *)

Definition MAX_ULONG : N := 0xFFFFFFFF.
Definition MAX_UINTN : N := 0xFFFFFFFF.

Definition ULONG (x : N) : N := x mod (MAX_ULONG + 1).
Definition UINTN (x : N) : N := x mod (MAX_UINTN + 1).

(** Pointers are addresses; [NULL] is address zero.  An address is a UINTN
    (procdef.h: [MAX_ADDRESS] is [MAX_UINTN]), so a pointer takes four
    bytes, and the size of a block in bytes, a [size_t], is a UINTN too. *)

Definition NULL : N := 0.

Definition sizeof_PVOID : N := 4.

(** errno values returned as status codes. *)

Definition ENOMEM : Z := 12%Z.
Definition EINVAL : Z := 22%Z.
Definition ERANGE : Z := 34%Z.

(** ** Data model *)

(** The object type tags, in the order of their declaration: the order is
    the one [ChalkObjectTypeNames] is indexed by. *)

Inductive CHALK_OBJECT_TYPE :=
  | ChalkObjectInvalid
  | ChalkObjectNull
  | ChalkObjectInteger
  | ChalkObjectString
  | ChalkObjectDict
  | ChalkObjectList
  | ChalkObjectFunction.

Definition TypeValue (t : CHALK_OBJECT_TYPE) : N :=
  match t with
  | ChalkObjectInvalid => 0
  | ChalkObjectNull => 1
  | ChalkObjectInteger => 2
  | ChalkObjectString => 3
  | ChalkObjectDict => 4
  | ChalkObjectList => 5
  | ChalkObjectFunction => 6
  end.

Definition ChalkObjectTypeNames (t : CHALK_OBJECT_TYPE) : string :=
  match t with
  | ChalkObjectInvalid => "INVALID"
  | ChalkObjectNull => "null"
  | ChalkObjectInteger => "integer"
  | ChalkObjectString => "string"
  | ChalkObjectDict => "dict"
  | ChalkObjectList => "list"
  | ChalkObjectFunction => "function"
  end.

(** The members of the CHALK_OBJECT union.  A string owns its buffer
    ([Size] bytes and a terminator), a list owns its slot array (a [NULL]
    slot is a hole); both are embedded by value, as no other object points
    into them.  A dictionary holds the addresses of its entry nodes in list
    order (the intrusive circular list threaded through the nodes). *)

Inductive CHALK_UNION :=
  | CHALK_INVALID
  | CHALK_NULL
  | CHALK_INT (Value : Z)
  | CHALK_STRING (String : list byte) (Size : N)
  | CHALK_DICT (EntryList : list N) (Count : N) (Generation : N)
  | CHALK_LIST (Array : list N) (Count : N)
  | CHALK_FUNCTION (Arguments : N) (Body : N) (Script : N).

Record CHALK_OBJECT := {
  ReferenceCount : N;
  Payload : CHALK_UNION
}.

Definition HeaderType (o : CHALK_OBJECT) : CHALK_OBJECT_TYPE :=
  match Payload o with
  | CHALK_INVALID => ChalkObjectInvalid
  | CHALK_NULL => ChalkObjectNull
  | CHALK_INT _ => ChalkObjectInteger
  | CHALK_STRING _ _ => ChalkObjectString
  | CHALK_DICT _ _ _ => ChalkObjectDict
  | CHALK_LIST _ _ => ChalkObjectList
  | CHALK_FUNCTION _ _ _ => ChalkObjectFunction
  end.

Definition IsType (o : CHALK_OBJECT) (t : CHALK_OBJECT_TYPE) : bool :=
  TypeValue (HeaderType o) =? TypeValue t.

Record CHALK_DICT_ENTRY := {
  Key : N;
  Value : N
}.

Record CHALK_DICT_ITERATOR := {
  Next : N;
  IteratorGeneration : N
}.

(** What an allocated address holds. *)

Inductive Block :=
  | Raw
  | Obj (o : CHALK_OBJECT)
  | DictEntry (e : CHALK_DICT_ENTRY)
  | DictIterator (i : CHALK_DICT_ITERATOR).

(** The state of the process: the heap, the outcomes of the coming
    allocation requests ([false]: the allocator returns no memory; an
    exhausted list: every request succeeds) and what was written to the
    error stream, as the list of its lines: every message of this module
    is one line, written by one [fprintf] whose format ends with the
    newline, and is kept without that newline. *)

Record State := {
  Heap : gmap N Block;
  Allocations : list bool;
  Stderr : list string
}.

Definition WithHeap (s : State) (h : gmap N Block) : State :=
  {| Heap := h; Allocations := Allocations s; Stderr := Stderr s |}.

(** ** Computations *)

Inductive Crash :=
  | AssertionFailure
  | NullDereference
  | InvalidPointer
  | OutOfBounds
  | OutOfFuel.

Inductive Result (A : Type) :=
  | Done (a : A)
  | Fault (c : Crash).

Arguments Done {A} a.
Arguments Fault {A} c.

Definition M (A : Type) : Type := State → Result (A * State).

Global Instance Result_ret : MRet Result := λ A a, Done a.
Global Instance Result_bind : MBind Result := λ A B f m,
  match m with
  | Done a => f a
  | Fault c => Fault c
  end.

Global Instance M_ret : MRet M := λ A a s, Done (a, s).
Global Instance M_bind : MBind M := λ A B f m s,
  match m s with
  | Done (a, s') => f a s'
  | Fault c => Fault c
  end.

Definition halt {A} (c : Crash) : M A := λ _, Fault c.

Definition read {A} (f : gmap N Block → Result A) : M A := λ s,
  match f (Heap s) with
  | Done a => Done (a, s)
  | Fault c => Fault c
  end.

Definition assert (b : bool) : M unit :=
  if b then mret tt else halt AssertionFailure.

(** [fprintf(stderr, ...)] of one line: [Message] is the line written,
    without the newline that ends it. *)

Definition Report (s : State) (Message : string) : State :=
  {| Heap := Heap s; Allocations := Allocations s;
     Stderr := Stderr s ++ [Message] |}.

Definition fprintf_stderr (Message : string) : M unit := λ s,
  Done (tt, Report s Message).

(** *** Memory *)

Definition LoadObject (h : gmap N Block) (Object : N) : Result CHALK_OBJECT :=
  if Object =? NULL then Fault NullDereference
  else match h !! Object with
       | Some (Obj o) => Done o
       | _ => Fault InvalidPointer
       end.

Definition LoadEntry (h : gmap N Block) (Entry : N) : Result CHALK_DICT_ENTRY :=
  if Entry =? NULL then Fault NullDereference
  else match h !! Entry with
       | Some (DictEntry e) => Done e
       | _ => Fault InvalidPointer
       end.

Definition LoadIterator (h : gmap N Block) (Iterator : N)
    : Result CHALK_DICT_ITERATOR :=
  if Iterator =? NULL then Fault NullDereference
  else match h !! Iterator with
       | Some (DictIterator i) => Done i
       | _ => Fault InvalidPointer
       end.

Definition Store (Address : N) (b : Block) : M unit := λ s,
  Done (tt, WithHeap s (<[Address := b]> (Heap s))).

Definition SetReferenceCount (o : CHALK_OBJECT) (c : N) : CHALK_OBJECT :=
  {| ReferenceCount := c; Payload := Payload o |}.

Definition SetPayload (o : CHALK_OBJECT) (p : CHALK_UNION) : CHALK_OBJECT :=
  {| ReferenceCount := ReferenceCount o; Payload := p |}.

(** [ChalkAllocate] for a block that is addressed: a fresh address, or
    [NULL] when the allocator has no memory. *)

Definition ChalkNull : N := 1.

Definition FreshAddress (h : gmap N Block) : N :=
  fresh ({[NULL; ChalkNull]} ∪ dom h).

Definition NextAllocation (Outcomes : list bool) : bool * list bool :=
  match Outcomes with
  | [] => (true, [])
  | b :: rest => (b, rest)
  end.

Definition ChalkAllocate : M N := λ s,
  let '(Success, Rest) := NextAllocation (Allocations s) in
  if Success
  then let Address := FreshAddress (Heap s) in
       Done (Address, {| Heap := <[Address := Raw]> (Heap s);
                         Allocations := Rest; Stderr := Stderr s |})
  else Done (NULL, {| Heap := Heap s; Allocations := Rest;
                      Stderr := Stderr s |}).

(** [ChalkAllocate] and [ChalkReallocate] for a buffer embedded by value,
    given the size requested in bytes, a UINTN that the caller computes
    (with its wrap-around).  What is observed is whether memory was
    returned; the block returned has [Bytes] bytes, so that an array of
    pointers in it has [Bytes / sizeof_PVOID] slots, whatever number the
    caller meant to ask for.  A request for no bytes is answered by the C
    library as it chooses, with NULL or with a block of no bytes: the
    outcome is the allocator's as for every request.  (A library that
    answers NULL to a reallocation to no bytes may free the old block;
    the old block is kept here.) *)

Definition ChalkAllocateBuffer (Bytes : N) : M bool := λ s,
  let '(Success, Rest) := NextAllocation (Allocations s) in
  Done (Success, {| Heap := Heap s; Allocations := Rest; Stderr := Stderr s |}).

Definition ChalkReallocate (Bytes : N) : M bool := ChalkAllocateBuffer Bytes.

Definition ChalkFree (Address : N) : M unit := λ s,
  Done (tt, WithHeap s (delete Address (Heap s))).

Definition ReadObject (Object : N) : M CHALK_OBJECT :=
  read (λ h, LoadObject h Object).

Definition ReadEntry (Entry : N) : M CHALK_DICT_ENTRY :=
  read (λ h, LoadEntry h Entry).

Definition ReadIterator (Iterator : N) : M CHALK_DICT_ITERATOR :=
  read (λ h, LoadIterator h Iterator).

(** ** Reference counting *)

Definition ChalkObjectAddReference (Object : N) : M unit :=
  o ← ReadObject Object;
  assert (negb (IsType o ChalkObjectInvalid));;
  assert (negb (ReferenceCount o =? 0) && (ReferenceCount o <? 0x10000000));;
  Store Object (Obj (SetReferenceCount o (ULONG (ReferenceCount o + 1)))).

(** Unlinking a node from the entry list it is on. *)

Fixpoint LIST_REMOVE (Entry : N) (EntryList : list N) : list N :=
  match EntryList with
  | [] => []
  | First :: Rest =>
      if First =? Entry then Rest else First :: LIST_REMOVE Entry Rest
  end.

(** The teardown routines call back into [ChalkObjectReleaseReference];
    they take it as [Release]. *)

Section Teardown.

Variable Release : N → M unit.

Definition ChalkDestroyDictEntry (Dict Entry : N) : M unit :=
  e ← ReadEntry Entry;
  d ← ReadObject Dict;
  match Payload d with
  | CHALK_DICT EntryList Count Generation =>
      Store Dict
        (Obj (SetPayload d
                (CHALK_DICT (LIST_REMOVE Entry EntryList) Count Generation)))
  | _ => halt InvalidPointer
  end;;
  Release (Key e);;
  (if negb (Value e =? NULL) then Release (Value e) else mret tt);;
  ChalkFree Entry.

(** The loop of [ChalkDestroyDict] runs while the entry list is not empty;
    [Rounds] bounds the number of its iterations. *)

Fixpoint ChalkDestroyDict (Rounds : nat) (Dict : N) : M unit :=
  d ← ReadObject Dict;
  match Payload d with
  | CHALK_DICT [] Count _ => assert (Count =? 0)
  | CHALK_DICT (Entry :: _) _ _ =>
      match Rounds with
      | O => halt OutOfFuel
      | S Rounds' =>
          ChalkDestroyDictEntry Dict Entry;;
          d' ← ReadObject Dict;
          match Payload d' with
          | CHALK_DICT EntryList Count Generation =>
              Store Dict
                (Obj (SetPayload d'
                        (CHALK_DICT EntryList (ULONG (Count + MAX_ULONG))
                           Generation)))
          | _ => halt InvalidPointer
          end;;
          ChalkDestroyDict Rounds' Dict
      end
  | _ => halt InvalidPointer
  end.

(** The loop of [ChalkDestroyList], over the slots from [Index] on; the
    count is read from the list in every iteration. *)

Fixpoint ChalkDestroyListFrom (List : N) (Array : list N) (Index : N)
    : M unit :=
  l ← ReadObject List;
  match Payload l with
  | CHALK_LIST _ Count =>
      if Index <? Count
      then match Array with
           | [] => halt OutOfBounds
           | Element :: Rest =>
               (if negb (Element =? NULL) then Release Element else mret tt);;
               ChalkDestroyListFrom List Rest (ULONG (Index + 1))
           end
      else mret tt
  | _ => halt InvalidPointer
  end.

Definition ChalkDestroyList (List : N) : M unit :=
  l ← ReadObject List;
  match Payload l with
  | CHALK_LIST Array _ => ChalkDestroyListFrom List Array 0
  | _ => halt InvalidPointer
  end.

Definition ChalkGutObject (Rounds : nat) (Object : N) : M unit :=
  o ← ReadObject Object;
  match Payload o with
  | CHALK_NULL =>
      fprintf_stderr "Error: Reference counting problem on null object.";;
      halt AssertionFailure
  | CHALK_INT _ => mret tt
  | CHALK_STRING _ _ => mret tt
  | CHALK_LIST _ _ => ChalkDestroyList Object
  | CHALK_DICT _ _ _ => ChalkDestroyDict Rounds Object
  | CHALK_FUNCTION Arguments _ _ =>
      if negb (Arguments =? NULL) then Release Arguments else mret tt
  | CHALK_INVALID => halt AssertionFailure
  end;;
  o' ← ReadObject Object;
  Store Object (Obj (SetPayload o' CHALK_INVALID)).

End Teardown.

(** [fuel] bounds the nesting of releases (an object whose count reaches
    zero releases what it owns). *)

Fixpoint ChalkObjectReleaseReference (fuel : nat) (Object : N) : M unit :=
  match fuel with
  | O => halt OutOfFuel
  | S fuel' =>
      o ← ReadObject Object;
      assert (negb (IsType o ChalkObjectInvalid));;
      assert (negb (ReferenceCount o =? 0) && (ReferenceCount o <? 0x10000000));;
      let Count := ULONG (ReferenceCount o + MAX_ULONG) in
      Store Object (Obj (SetReferenceCount o Count));;
      if Count =? 0
      then ChalkGutObject (ChalkObjectReleaseReference fuel') fuel' Object;;
           ChalkFree Object
      else mret tt
  end.

(** ** Scalars *)

Definition ChalkCreateNull : M N :=
  ChalkObjectAddReference ChalkNull;;
  mret ChalkNull.

Definition ChalkCreateInteger (Value : Z) : M N :=
  Int ← ChalkAllocate;
  if Int =? NULL then mret NULL
  else
    Store Int (Obj {| ReferenceCount := 1; Payload := CHALK_INT Value |});;
    mret Int.

(** [InitialValue] is the caller's buffer, if any; [Size] bytes of it are
    copied and a terminator is appended. *)

Definition ChalkCreateString (InitialValue : option (list byte)) (Size : N)
    : M N :=
  String ← ChalkAllocate;
  if String =? NULL then mret NULL
  else
    let AllocateSize := ULONG (Size + 1) in
    Buffer ← ChalkAllocateBuffer AllocateSize;
    if negb Buffer then ChalkFree String;; mret NULL
    else
      let Source := default [] InitialValue in
      if (AllocateSize <? Size + 1) || (N.of_nat (length Source) <? Size)
      then halt OutOfBounds
      else
        Store String
          (Obj {| ReferenceCount := 1;
                  Payload := CHALK_STRING
                               (take (N.to_nat Size) Source ++ [x00]) Size |});;
        mret String.

(** The C library routines on terminated buffers. *)

Fixpoint strlen (String : list byte) : Result N :=
  match String with
  | [] => Fault OutOfBounds
  | Character :: Rest =>
      if Byte.to_N Character =? 0 then Done 0
      else Length ← strlen Rest; Done (Length + 1)
  end.

Fixpoint strcmp (Left Right : list byte) : Result Z :=
  match Left, Right with
  | l :: Left', r :: Right' =>
      if negb (Byte.to_N l =? Byte.to_N r)
      then Done (Z.of_N (Byte.to_N l) - Z.of_N (Byte.to_N r))%Z
      else if Byte.to_N l =? 0 then Done 0%Z
      else strcmp Left' Right'
  | _, _ => Fault OutOfBounds
  end.

(** ** Comparison *)

Definition Sign (Left Right : N) : Z :=
  if Left <? Right then (-1)%Z else if Right <? Left then 1%Z else 0%Z.

(** The loop over the slots of two lists of [Count] slots each, from
    [Index] on, with [Remaining] iterations to go; it stops at the first
    pair of elements that differ. *)

Fixpoint ChalkCompareElements (Compare : N → N → Result Z)
    (Left Right : list N) (Remaining : nat) (Index : nat) : Result Z :=
  match Remaining with
  | O => Done 0%Z
  | S Remaining' =>
      match Left !! Index, Right !! Index with
      | Some l, Some r =>
          Result ← Compare l r;
          if negb (Result =? 0)%Z then Done Result
          else ChalkCompareElements Compare Left Right Remaining' (S Index)
      | _, _ => Fault OutOfBounds
      end
  end.

(** [fuel] bounds the nesting of the lists compared.  (The loop index of
    the source is an INT compared with the ULONG count; it stays below the
    count.) *)

Fixpoint ChalkCompareObjects (fuel : nat) (h : gmap N Block) (Left Right : N)
    : Result Z :=
  match fuel with
  | O => Fault OutOfFuel
  | S fuel' =>
      l ← LoadObject h Left;
      r ← LoadObject h Right;
      if negb (TypeValue (HeaderType l) =? TypeValue (HeaderType r))
      then
        if TypeValue (HeaderType l) <? TypeValue (HeaderType r)
        then Done (-1)%Z else Done 1%Z
      else
        match Payload l, Payload r with
        | CHALK_NULL, _ => Done 0%Z
        | CHALK_INT LeftValue, CHALK_INT RightValue =>
            if (LeftValue <? RightValue)%Z then Done (-1)%Z
            else if (LeftValue >? RightValue)%Z then Done 1%Z
            else Done 0%Z
        | CHALK_STRING LeftString _, CHALK_STRING RightString _ =>
            Result ← strcmp LeftString RightString;
            if (Result <? 0)%Z then Done (-1)%Z
            else if (Result >? 0)%Z then Done 1%Z
            else Done Result
        | CHALK_LIST LeftArray LeftCount, CHALK_LIST RightArray RightCount =>
            if LeftCount <? RightCount then Done (-1)%Z
            else if RightCount <? LeftCount then Done 1%Z
            else ChalkCompareElements (ChalkCompareObjects fuel' h)
                   LeftArray RightArray (N.to_nat LeftCount) 0
        | _, _ => Done (Sign Left Right)
        end
  end.

(** ** Lists *)

(** Adding a reference to every element of a slot array that is not a
    hole. *)

Fixpoint ChalkAddReferences (Array : list N) : M unit :=
  match Array with
  | [] => mret tt
  | Element :: Rest =>
      (if negb (Element =? NULL) then ChalkObjectAddReference Element
       else mret tt);;
      ChalkAddReferences Rest
  end.

(** The array is requested with [Size * sizeof(PVOID)] bytes, a product
    of UINTNs.  Without initial values the bytes obtained are zeroed and
    the count is set to [Size]: when the product wraps, the array has
    fewer slots than the count.  Initial values are the caller's array of
    [Size] pointers, which is in memory: its size in bytes is that
    product, which does not wrap, and the new array takes all of it. *)

Definition ChalkCreateList (InitialValues : option (list N)) (Size : N)
    : M N :=
  List ← ChalkAllocate;
  if List =? NULL then mret NULL
  else
    Store List (Obj {| ReferenceCount := 1; Payload := CHALK_LIST [] 0 |});;
    (if negb (Size =? 0)
     then
       let Bytes := UINTN (Size * sizeof_PVOID) in
       Buffer ← ChalkAllocateBuffer Bytes;
       if negb Buffer then ChalkFree List;; mret NULL
       else
         match InitialValues with
         | Some Values =>
             if N.of_nat (length Values) <? Size then halt OutOfBounds
             else
               let Array := take (N.to_nat Size) Values in
               Store List (Obj {| ReferenceCount := 1;
                                  Payload := CHALK_LIST Array Size |});;
               ChalkAddReferences Array;;
               mret List
         | None =>
             Store List
               (Obj {| ReferenceCount := 1;
                       Payload :=
                         CHALK_LIST
                           (replicate (N.to_nat (Bytes / sizeof_PVOID)) NULL)
                           Size |});;
             mret List
         end
     else mret List).

Definition ChalkListLookup (List : N) (Index : N) : M N :=
  l ← ReadObject List;
  match Payload l with
  | CHALK_LIST Array Count =>
      if Count <=? Index then mret NULL
      else
        match Array !! N.to_nat Index with
        | None => halt OutOfBounds
        | Some Object =>
            (if negb (Object =? NULL) then ChalkObjectAddReference Object
             else mret tt);;
            mret Object
        end
  | _ => halt AssertionFailure
  end.

(** To grow, the array is reallocated to [sizeof(PVOID) * (Index + 1)]
    bytes and [sizeof(PVOID) * (Index + 1 - Count)] bytes are zeroed from
    slot [Count] on; [Index + 1] and the gap are ULONGs and the products
    UINTNs.  [Slots] is the number of slots of the new block and [Gap] the
    number of slots zeroed: zeroing past the end of the block is an access
    out of bounds. *)

Definition ChalkListSetElement (fuel : nat) (ListObject : N) (Index : N)
    (Object : N) : M Z :=
  l ← ReadObject ListObject;
  match Payload l with
  | CHALK_LIST Array Count =>
      Grown ←
        (if Count <=? Index
         then
           let NewCount := ULONG (Index + 1) in
           let Bytes := UINTN (sizeof_PVOID * NewCount) in
           NewBuffer ← ChalkReallocate Bytes;
           if negb NewBuffer then mret false
           else
             let Slots := Bytes / sizeof_PVOID in
             let Gap := UINTN (sizeof_PVOID * ULONG (Index + 1 - Count))
                        / sizeof_PVOID in
             if Slots <? Count + Gap then halt OutOfBounds
             else
               Store ListObject
                 (Obj (SetPayload l
                         (CHALK_LIST
                            (take (N.to_nat Count) Array
                               ++ replicate (N.to_nat Gap) NULL)
                            NewCount)));;
               mret true
         else mret true);
      if negb Grown then mret ENOMEM
      else
        l1 ← ReadObject ListObject;
        match Payload l1 with
        | CHALK_LIST Array1 _ =>
            match Array1 !! N.to_nat Index with
            | None => halt OutOfBounds
            | Some Old =>
                (if negb (Old =? NULL)
                 then ChalkObjectReleaseReference fuel Old else mret tt);;
                l2 ← ReadObject ListObject;
                match Payload l2 with
                | CHALK_LIST Array2 Count2 =>
                    Store ListObject
                      (Obj (SetPayload l2
                              (CHALK_LIST (<[N.to_nat Index := Object]> Array2)
                                 Count2)));;
                    (if negb (Object =? NULL)
                     then ChalkObjectAddReference Object else mret tt);;
                    mret 0%Z
                | _ => halt InvalidPointer
                end
            end
        | _ => halt InvalidPointer
        end
  | _ => halt AssertionFailure
  end.

(** ** Dictionaries *)

(** The scan of [ChalkDictLookup] over the entry nodes in list order. *)

Fixpoint ChalkDictLookupFrom (Compare : N → N → Result Z) (h : gmap N Block)
    (EntryList : list N) (KeyObject : N) : Result N :=
  match EntryList with
  | [] => Done NULL
  | CurrentEntry :: Rest =>
      Entry ← LoadEntry h CurrentEntry;
      Result ← Compare (Key Entry) KeyObject;
      if (Result =? 0)%Z then Done CurrentEntry
      else ChalkDictLookupFrom Compare h Rest KeyObject
  end.

Definition ChalkDictLookup (fuel : nat) (h : gmap N Block)
    (DictObject KeyObject : N) : Result N :=
  d ← LoadObject h DictObject;
  match Payload d with
  | CHALK_DICT EntryList _ _ =>
      ChalkDictLookupFrom (ChalkCompareObjects fuel h) h EntryList KeyObject
  | _ => Fault AssertionFailure
  end.

(** The branch of [ChalkDictSetElement] for a key that has no entry: a
    node is allocated and zeroed, takes the key (with a reference), goes at
    the tail of the entry list, and the generation and the count go up.  It
    returns [NULL] when there is no memory for the node. *)

Definition ChalkDictNewEntry (DictObject KeyObject : N) : M N :=
  Entry ← ChalkAllocate;
  if Entry =? NULL then mret NULL
  else
    Store Entry (DictEntry {| Key := KeyObject; Value := NULL |});;
    ChalkObjectAddReference KeyObject;;
    d ← ReadObject DictObject;
    match Payload d with
    | CHALK_DICT EntryList Count Generation =>
        Store DictObject
          (Obj (SetPayload d
                  (CHALK_DICT (EntryList ++ [Entry]) (ULONG (Count + 1))
                     (UINTN (Generation + 1)))));;
        mret Entry
    | _ => halt InvalidPointer
    end.

(** [LValue] tells whether the caller passed a place for the address of the
    value slot; the slot is designated by its entry node, and [NULL] stands
    for a place that was not written. *)

Definition ChalkDictSetElement (fuel : nat) (DictObject KeyObject
    ValueObject : N) (LValue : bool) : M (Z * N) :=
  d ← ReadObject DictObject;
  assert (IsType d ChalkObjectDict);;
  assert (negb (KeyObject =? NULL));;
  k ← ReadObject KeyObject;
  if negb (IsType k ChalkObjectInteger) && negb (IsType k ChalkObjectString)
  then
    fprintf_stderr ("Cannot add type " +:+ ChalkObjectTypeNames (HeaderType k)
                      +:+ " as dictionary key.");;
    mret (EINVAL, NULL)
  else
    Found ← read (λ h, ChalkDictLookup fuel h DictObject KeyObject);
    Entry ←
      (if Found =? NULL then ChalkDictNewEntry DictObject KeyObject
       else mret Found);
    if Entry =? NULL then mret (ENOMEM, NULL)
    else
      ChalkObjectAddReference ValueObject;;
      e ← ReadEntry Entry;
      (if negb (Value e =? NULL)
       then ChalkObjectReleaseReference fuel (Value e) else mret tt);;
      e' ← ReadEntry Entry;
      Store Entry (DictEntry {| Key := Key e'; Value := ValueObject |});;
      mret (0%Z, if LValue then Entry else NULL).

(** The loop of [ChalkCreateDict] over the entries of the source. *)

Fixpoint ChalkDictCopyEntries (fuel : nat) (Dict : N) (EntryList : list N)
    : M N :=
  match EntryList with
  | [] => mret Dict
  | CurrentEntry :: Rest =>
      Entry ← ReadEntry CurrentEntry;
      '(Status, _) ←
        ChalkDictSetElement fuel Dict (Key Entry) (Value Entry) false;
      if negb (Status =? 0)%Z
      then ChalkObjectReleaseReference fuel Dict;; mret NULL
      else ChalkDictCopyEntries fuel Dict Rest
  end.

Definition ChalkCreateDict (fuel : nat) (Source : N) : M N :=
  Dict ← ChalkAllocate;
  if Dict =? NULL then mret NULL
  else
    Store Dict (Obj {| ReferenceCount := 1; Payload := CHALK_DICT [] 0 0 |});;
    if negb (Source =? NULL)
    then
      s ← ReadObject Source;
      match Payload s with
      | CHALK_DICT EntryList _ _ => ChalkDictCopyEntries fuel Dict EntryList
      | _ => halt AssertionFailure
      end
    else mret Dict.

(** *** Dictionary iteration *)

Definition ChalkDictInitializeIterator (Dict : N) : M (Z * N) :=
  d ← ReadObject Dict;
  match Payload d with
  | CHALK_DICT EntryList _ Generation =>
      Iterator ← ChalkAllocate;
      if Iterator =? NULL then mret (ENOMEM, NULL)
      else
        Store Iterator
          (DictIterator {| Next := match EntryList with
                                   | [] => NULL
                                   | First :: _ => First
                                   end;
                           IteratorGeneration := Generation |});;
        mret (0%Z, Iterator)
  | _ => halt AssertionFailure
  end.

(** The node after [Entry] on the entry list; [NULL] when the node after it
    is the list head. *)

Fixpoint ListEntryNext (Entry : N) (EntryList : list N) : Result N :=
  match EntryList with
  | [] => Fault InvalidPointer
  | First :: Rest =>
      if First =? Entry
      then Done match Rest with
                | [] => NULL
                | Following :: _ => Following
                end
      else ListEntryNext Entry Rest
  end.

(** The second component is what was stored through [Iteration], if
    anything was. *)

Definition ChalkDictIterate (Dict : N) (Context : N) : M (Z * option N) :=
  d ← ReadObject Dict;
  match Payload d with
  | CHALK_DICT EntryList _ Generation =>
      Iterator ← ReadIterator Context;
      if negb (IteratorGeneration Iterator =? Generation)
      then
        fprintf_stderr "Error: Dictionary changed while iterating.";;
        mret (ERANGE, None)
      else if Next Iterator =? NULL then mret (0%Z, Some NULL)
      else
        Entry ← ReadEntry (Next Iterator);
        Following ← read (λ _, ListEntryNext (Next Iterator) EntryList);
        Store Context
          (DictIterator {| Next := Following;
                           IteratorGeneration := IteratorGeneration Iterator |});;
        mret (0%Z, Some (Key Entry))
  | _ => halt AssertionFailure
  end.

Definition ChalkDictDestroyIterator (Context : N) : M N :=
  if negb (Context =? NULL) then ChalkFree Context;; mret NULL
  else mret Context.

(** ** Functions, copies and truth values *)

Definition ChalkCreateFunction (Arguments Body Script : N) : M N :=
  Function ← ChalkAllocate;
  if Function =? NULL then mret NULL
  else
    Store Function
      (Obj {| ReferenceCount := 1;
              Payload := CHALK_FUNCTION Arguments Body Script |});;
    (if negb (Arguments =? NULL) then ChalkObjectAddReference Arguments
     else mret tt);;
    mret Function.

Definition ChalkObjectCopy (fuel : nat) (Source : N) : M N :=
  Object ← ReadObject Source;
  match Payload Object with
  | CHALK_NULL => ChalkCreateNull
  | CHALK_INT Value => ChalkCreateInteger Value
  | CHALK_STRING Text Size => ChalkCreateString (Some Text) Size
  | CHALK_LIST Array Count =>
      ChalkCreateList (match Array with [] => None | _ => Some Array end) Count
  | CHALK_DICT _ _ _ => ChalkCreateDict fuel Source
  | CHALK_FUNCTION Arguments Body Script =>
      ChalkCreateFunction Arguments Body Script
  | CHALK_INVALID => halt AssertionFailure
  end.

Definition ChalkObjectGetBooleanValue (Object : N) : M bool :=
  o ← ReadObject Object;
  match Payload o with
  | CHALK_NULL => mret false
  | CHALK_INT Value => mret (negb (Value =? 0)%Z)
  | CHALK_STRING _ Size => mret (negb (Size =? 0))
  | CHALK_LIST _ Count => mret (negb (Count =? 0))
  | CHALK_DICT EntryList _ _ =>
      mret (negb (match EntryList with [] => true | _ => false end))
  | CHALK_FUNCTION _ _ _ => mret true
  | CHALK_INVALID => halt AssertionFailure
  end.

(** ** Built-in functions

    The built-ins fetch their arguments from the interpreter by name
    ([ChalkCGetVariable]); here they receive the objects fetched. *)

Definition ChalkFunctionLength (Object : N) : M (Z * N) :=
  assert (negb (Object =? NULL));;
  o ← ReadObject Object;
  Length ←
    match Payload o with
    | CHALK_STRING Text _ => read (λ _, strlen Text)
    | CHALK_LIST _ Count => mret Count
    | CHALK_DICT _ Count _ => mret Count
    | _ => mret 0
    end;
  ReturnValue ← ChalkCreateInteger (Z.of_N (UINTN Length));
  if ReturnValue =? NULL then mret (ENOMEM, ReturnValue)
  else mret (0%Z, ReturnValue).

Definition ChalkFunctionGet (fuel : nat) (Object KeyObject : N) : M (Z * N) :=
  assert (negb (Object =? NULL) && negb (KeyObject =? NULL));;
  o ← ReadObject Object;
  if negb (IsType o ChalkObjectDict) && negb (IsType o ChalkObjectNull)
  then
    fprintf_stderr "Error: get() passed non-dictionary object";;
    mret (EINVAL, NULL)
  else
    Found ←
      (if IsType o ChalkObjectDict
       then
         Entry ← read (λ h, ChalkDictLookup fuel h Object KeyObject);
         if negb (Entry =? NULL)
         then
           e ← ReadEntry Entry;
           ChalkObjectAddReference (Value e);;
           mret (Value e)
         else mret NULL
       else mret NULL);
    ReturnValue ← (if Found =? NULL then ChalkCreateNull else mret Found);
    mret (0%Z, ReturnValue).

(** ** Sample states *)

(** The state of a process that has allocated nothing: the heap holds the
    one null object, with its single reference. *)

Definition InitialState : State :=
  {| Heap := {[ChalkNull := Obj {| ReferenceCount := 1;
                                   Payload := CHALK_NULL |}]};
     Allocations := [];
     Stderr := [] |}.

(** A heap with an empty dictionary at address 2, an empty list at 3 and
    the integer 7 at 4. *)

Definition SampleState : State :=
  {| Heap := <[4 := Obj {| ReferenceCount := 1; Payload := CHALK_INT 7 |}]>
            (<[3 := Obj {| ReferenceCount := 1; Payload := CHALK_LIST [] 0 |}]>
            (<[2 := Obj {| ReferenceCount := 1;
                           Payload := CHALK_DICT [] 0 0 |}]>
               (Heap InitialState)));
     Allocations := [];
     Stderr := [] |}.

(** A heap with the three-byte string [a], zero, [b] at address 2, as
    [ChalkCreateString] builds it. *)

Definition EmbeddedZeroState : State :=
  {| Heap := <[2 := Obj {| ReferenceCount := 1;
                           Payload := CHALK_STRING [x61; x00; x62; x00] 3 |}]>
               (Heap InitialState);
     Allocations := [];
     Stderr := [] |}.

(** A heap with a list of three holes at address 2, as
    [ChalkCreateList] builds it without initial values, and the integer 7
    at 3. *)

Definition ThreeHolesState : State :=
  {| Heap := <[3 := Obj {| ReferenceCount := 1; Payload := CHALK_INT 7 |}]>
            (<[2 := Obj {| ReferenceCount := 1;
                           Payload := CHALK_LIST [NULL; NULL; NULL] 3 |}]>
               (Heap InitialState));
     Allocations := [];
     Stderr := [] |}.

(** ** Vocabulary of the properties *)

(** The number of slots of [Array] that hold [Object]. *)

Definition References (Object : N) (Array : list N) : N :=
  if Object =? NULL then 0
  else N.of_nat (length (filter (λ Element, Element = Object) Array)).

Definition AddToReferenceCount (k : N) (b : Block) : Block :=
  match b with
  | Obj o => Obj (SetReferenceCount o (ReferenceCount o + k))
  | _ => b
  end.

(** What a release leaves in place, from state [s] to state [s']: every
    object of [s'] was an object of [s] and, unless it is in [Except], has
    the payload it had (only its reference count may differ); every entry
    node of [s'] was in [s] as it is; the iterators are the same. *)

Definition Keeps (Except : N → Prop) (s s' : State) : Prop :=
  (∀ p o', Heap s' !! p = Some (Obj o') →
           ∃ o, Heap s !! p = Some (Obj o) ∧
                (¬ Except p → Payload o = Payload o')) ∧
  (∀ p e, Heap s' !! p = Some (DictEntry e) →
          Heap s !! p = Some (DictEntry e)) ∧
  (∀ p i, Heap s' !! p = Some (DictIterator i) ↔
          Heap s !! p = Some (DictIterator i)).

Definition Nowhere : N → Prop := λ _, False.

(** A heap in which the dictionary at address 2 maps the string [a]
    (address 3) to the integer 1 (address 4) through the entry node at 5,
    an iterator over it (address 6) was initialized at generation 1, and
    the string [b] (address 7) and the integer 2 (address 8) are not in the
    dictionary. *)

Definition IteratingState : State :=
  {| Heap :=
       <[8 := Obj {| ReferenceCount := 1; Payload := CHALK_INT 2 |}]>
      (<[7 := Obj {| ReferenceCount := 1;
                     Payload := CHALK_STRING [x62; x00] 1 |}]>
      (<[6 := DictIterator {| Next := 5; IteratorGeneration := 1 |}]>
      (<[5 := DictEntry {| Key := 3; Value := 4 |}]>
      (<[4 := Obj {| ReferenceCount := 1; Payload := CHALK_INT 1 |}]>
      (<[3 := Obj {| ReferenceCount := 2;
                     Payload := CHALK_STRING [x61; x00] 1 |}]>
      (<[2 := Obj {| ReferenceCount := 1; Payload := CHALK_DICT [5] 1 1 |}]>
         (Heap InitialState)))))));
     Allocations := [];
     Stderr := [] |}.

(** ** Sequences of dictionary operations *)

(** The operations of this module on a dictionary that exists, and the
    effect of a sequence of them on one dictionary.  ([ChalkDictAdd] and
    the copy made by [ChalkCreateDict] are sequences of
    [ChalkDictSetElement] calls on the destination; a release that brings
    the count to zero ends the life of the dictionary.) *)

Inductive DictOperation :=
  | DictSetElement (KeyObject ValueObject : N) (LValue : bool)
  | DictLookup (KeyObject : N)
  | DictInitializeIterator
  | DictIterate (Context : N)
  | DictDestroyIterator (Context : N)
  | DictAddReference
  | DictReleaseReference.

Definition ChalkDictOperation (fuel : nat) (Dict : N) (op : DictOperation)
    : M unit :=
  match op with
  | DictSetElement KeyObject ValueObject LValue =>
      ChalkDictSetElement fuel Dict KeyObject ValueObject LValue;; mret tt
  | DictLookup KeyObject =>
      read (λ h, ChalkDictLookup fuel h Dict KeyObject);; mret tt
  | DictInitializeIterator => ChalkDictInitializeIterator Dict;; mret tt
  | DictIterate Context => ChalkDictIterate Dict Context;; mret tt
  | DictDestroyIterator Context => ChalkDictDestroyIterator Context;; mret tt
  | DictAddReference => ChalkObjectAddReference Dict
  | DictReleaseReference => ChalkObjectReleaseReference fuel Dict
  end.

Fixpoint ChalkDictOperations (fuel : nat) (Dict : N)
    (ops : list DictOperation) : M unit :=
  match ops with
  | [] => mret tt
  | op :: rest =>
      ChalkDictOperation fuel Dict op;; ChalkDictOperations fuel Dict rest
  end.

(** A heap with a list at address 2 whose one slot holds the list at 3,
    whose one slot holds the integer 1 at 4; the integer 2 at 5 is in no
    list. *)

Definition NestedListState : State :=
  {| Heap :=
       <[5 := Obj {| ReferenceCount := 1; Payload := CHALK_INT 2 |}]>
      (<[4 := Obj {| ReferenceCount := 1; Payload := CHALK_INT 1 |}]>
      (<[3 := Obj {| ReferenceCount := 1; Payload := CHALK_LIST [4] 1 |}]>
      (<[2 := Obj {| ReferenceCount := 1; Payload := CHALK_LIST [3] 1 |}]>
         (Heap InitialState))));
     Allocations := [];
     Stderr := [] |}.

(** ** Values and their natural order *)

(** The data an object stands for, for the kinds that are compared by
    content: Null, Integers, Strings (by their bytes, without the
    terminator) and Lists of such values. *)

Inductive ChalkValue :=
  | NullValue
  | IntegerValue (Value : Z)
  | StringValue (Bytes : list byte)
  | ListValue (Elements : list ChalkValue).

Fixpoint Depth (v : ChalkValue) : nat :=
  match v with
  | ListValue Elements => S (foldr Nat.max 0%nat (map Depth Elements))
  | _ => 0%nat
  end.

(** [Represents h Object v]: in the heap [h], the object at [Object] stands
    for the value [v].  A String has no zero byte before its terminator; a
    List has no hole, and each slot stands for the corresponding element. *)

Inductive Represents (h : gmap N Block) : N → ChalkValue → Prop :=
  | RepresentsNull Object o :
      Object ≠ NULL →
      h !! Object = Some (Obj o) →
      Payload o = CHALK_NULL →
      Represents h Object NullValue
  | RepresentsInteger Object o Value :
      Object ≠ NULL →
      h !! Object = Some (Obj o) →
      Payload o = CHALK_INT Value →
      Represents h Object (IntegerValue Value)
  | RepresentsString Object o Bytes :
      Object ≠ NULL →
      h !! Object = Some (Obj o) →
      Payload o = CHALK_STRING (Bytes ++ [x00]) (N.of_nat (length Bytes)) →
      Forall (λ c, c ≠ x00) Bytes →
      Represents h Object (StringValue Bytes)
  | RepresentsList Object o Array Elements :
      Object ≠ NULL →
      h !! Object = Some (Obj o) →
      Payload o = CHALK_LIST Array (N.of_nat (length Elements)) →
      Forall2 (Represents h) Array Elements →
      Represents h Object (ListValue Elements).

(** The order of the specification.  Values of different kinds are ordered
    by kind (Null, Integer, String, List, as the type tags are); Integers
    numerically; Strings byte by byte, a proper prefix first; Lists by
    length, and lists of one length by their first differing elements. *)

Definition KindOrder (v : ChalkValue) : N :=
  match v with
  | NullValue => TypeValue ChalkObjectNull
  | IntegerValue _ => TypeValue ChalkObjectInteger
  | StringValue _ => TypeValue ChalkObjectString
  | ListValue _ => TypeValue ChalkObjectList
  end.

Fixpoint CompareBytes (Left Right : list byte) : Z :=
  match Left, Right with
  | [], [] => 0%Z
  | [], _ :: _ => (-1)%Z
  | _ :: _, [] => 1%Z
  | l :: Left', r :: Right' =>
      if Byte.to_N l <? Byte.to_N r then (-1)%Z
      else if Byte.to_N r <? Byte.to_N l then 1%Z
      else CompareBytes Left' Right'
  end.

Fixpoint NaturalCompare (Left Right : ChalkValue) {struct Left} : Z :=
  match Left, Right with
  | NullValue, NullValue => 0%Z
  | IntegerValue l, IntegerValue r =>
      if (l <? r)%Z then (-1)%Z else if (r <? l)%Z then 1%Z else 0%Z
  | StringValue l, StringValue r => CompareBytes l r
  | ListValue ls, ListValue rs =>
      if (length ls <? length rs)%nat then (-1)%Z
      else if (length rs <? length ls)%nat then 1%Z
      else (fix Elementwise (ls : list ChalkValue) (rs : list ChalkValue) : Z :=
              match ls, rs with
              | l :: ls', r :: rs' =>
                  if (NaturalCompare l r =? 0)%Z then Elementwise ls' rs'
                  else NaturalCompare l r
              | _, _ => 0%Z
              end) ls rs
  | _, _ => if KindOrder Left <? KindOrder Right then (-1)%Z else 1%Z
  end.

(** The strict lexicographic order on byte strings. *)

Inductive BytesLess : list byte → list byte → Prop :=
  | BytesLessPrefix r Right : BytesLess [] (r :: Right)
  | BytesLessHead l r Left Right :
      Byte.to_N l < Byte.to_N r → BytesLess (l :: Left) (r :: Right)
  | BytesLessTail c Left Right :
      BytesLess Left Right → BytesLess (c :: Left) (c :: Right).

(** A set [Live] of addresses in which comparison finds what it reads:
    every member is the address of an object; the slots of a List member
    are as many as its count and are members themselves (so none is a
    hole); the buffer of a String member has a terminator. *)

Definition Comparable (h : gmap N Block) (Live : N → Prop) : Prop :=
  ∀ p, Live p →
    p ≠ NULL ∧
    ∃ o, h !! p = Some (Obj o) ∧
         match Payload o with
         | CHALK_LIST Array Count =>
             Count = N.of_nat (length Array) ∧ Forall Live Array
         | CHALK_STRING Text _ => x00 ∈ Text
         | _ => True
         end.

(** A heap with two distinct lists of one slot each, both slots holes. *)

Definition TwoHolesState : State :=
  {| Heap :=
       <[3 := Obj {| ReferenceCount := 1; Payload := CHALK_LIST [NULL] 1 |}]>
      (<[2 := Obj {| ReferenceCount := 1; Payload := CHALK_LIST [NULL] 1 |}]>
         (Heap InitialState));
     Allocations := [];
     Stderr := [] |}.

(** The comparison of two lists of one length, element by element. *)

Fixpoint CompareElementwise (Left Right : list ChalkValue) : Z :=
  match Left, Right with
  | l :: Left', r :: Right' =>
      if (NaturalCompare l r =? 0)%Z then CompareElementwise Left' Right'
      else NaturalCompare l r
  | _, _ => 0%Z
  end.

(** A heap with two integers 1 (addresses 2 and 3) and two lists of one
    slot, the list at 4 holding the first and the list at 5 the second. *)

Definition EqualListsState : State :=
  {| Heap :=
       <[5 := Obj {| ReferenceCount := 1; Payload := CHALK_LIST [3] 1 |}]>
      (<[4 := Obj {| ReferenceCount := 1; Payload := CHALK_LIST [2] 1 |}]>
      (<[3 := Obj {| ReferenceCount := 2; Payload := CHALK_INT 1 |}]>
      (<[2 := Obj {| ReferenceCount := 2; Payload := CHALK_INT 1 |}]>
         (Heap InitialState))));
     Allocations := [];
     Stderr := [] |}.

(** ** Vocabulary of the dictionary and comparison properties *)

(** The message of [ChalkDictIterate] for a generation mismatch. *)

Definition DictionaryChanged : string :=
  "Error: Dictionary changed while iterating.".

(** The heap after the new-entry branch of [ChalkDictSetElement]: a node
    for the key at a fresh address, one more reference on the key, and the
    node at the tail of the entry list of the dictionary. *)

Definition HeapWithNewEntry (h : gmap N Block) (DictObject KeyObject : N)
    (d k : CHALK_OBJECT) (EntryList : list N) (Count Generation : N)
    : gmap N Block :=
  <[DictObject :=
      Obj (SetPayload d
             (CHALK_DICT (EntryList ++ [FreshAddress h]) (ULONG (Count + 1))
                (UINTN (Generation + 1))))]>
    (<[KeyObject := Obj (SetReferenceCount k (ReferenceCount k + 1))]>
       (<[FreshAddress h := DictEntry {| Key := KeyObject; Value := NULL |}]>
          h)).

(** What the call did, for each way [ChalkDictSetElement] returns: the
    status returned and the entry that the lookup of the key found ([NULL]
    if none) index the cases. *)

Inductive SetElementOutcome (s s' : State) (DictObject KeyObject
    ValueObject : N) (EntryList : list N) (Count Generation : N)
    : Z → N → Prop :=
  | KeyRejected (k : CHALK_OBJECT) :
      Heap s !! KeyObject = Some (Obj k) →
      HeaderType k ≠ ChalkObjectInteger →
      HeaderType k ≠ ChalkObjectString →
      Heap s' = Heap s →
      SetElementOutcome s s' DictObject KeyObject ValueObject
        EntryList Count Generation EINVAL NULL
  | NoMemory :
      Heap s' = Heap s →
      SetElementOutcome s s' DictObject KeyObject ValueObject
        EntryList Count Generation ENOMEM NULL
  | KeyInserted (d' : CHALK_OBJECT) :
      Heap s !! FreshAddress (Heap s) = None →
      Heap s' !! FreshAddress (Heap s)
        = Some (DictEntry {| Key := KeyObject; Value := ValueObject |}) →
      Heap s' !! DictObject = Some (Obj d') →
      Payload d' = CHALK_DICT (EntryList ++ [FreshAddress (Heap s)])
                     (ULONG (Count + 1)) (UINTN (Generation + 1)) →
      (∀ p e, p ≠ FreshAddress (Heap s) →
              Heap s' !! p = Some (DictEntry e) →
              Heap s !! p = Some (DictEntry e)) →
      SetElementOutcome s s' DictObject KeyObject ValueObject
        EntryList Count Generation 0%Z NULL
  | ValueReplaced (Found : N) (e : CHALK_DICT_ENTRY) :
      Found ≠ NULL →
      Heap s !! Found = Some (DictEntry e) →
      Heap s' !! Found
        = Some (DictEntry {| Key := Key e; Value := ValueObject |}) →
      (∀ d', Heap s' !! DictObject = Some (Obj d') →
             Payload d' = CHALK_DICT EntryList Count Generation) →
      (∀ p e', p ≠ Found →
               Heap s' !! p = Some (DictEntry e') →
               Heap s !! p = Some (DictEntry e')) →
      SetElementOutcome s s' DictObject KeyObject ValueObject
        EntryList Count Generation 0%Z Found.

(** Two heaps hold the same iterators. *)

Definition SameIterators (h h' : gmap N Block) : Prop :=
  ∀ p i, h' !! p = Some (DictIterator i) ↔ h !! p = Some (DictIterator i).

Definition NotIterator (b : option Block) : Prop :=
  ∀ i, b ≠ Some (DictIterator i).

(** The sign [ChalkCompareObjects] makes of the result of [strcmp]. *)

Definition SignOf (z : Z) : Z :=
  if (z <? 0)%Z then (-1)%Z else if (z >? 0)%Z then 1%Z else z.

(** A comparison that returned, or that the fuel of the model cut short:
    one that did not stop on an invalid access. *)

Definition Completes (r : Result Z) : Prop :=
  (∃ z, r = Done z) ∨ r = Fault OutOfFuel.

(** ** Vocabulary of the fuel bound *)

(** The sum of the reference counts of the objects of a heap. *)

Definition BlockReferences (b : Block) : N :=
  match b with
  | Obj o => ReferenceCount o
  | _ => 0
  end.

Definition TotalReferences (h : gmap N Block) : N :=
  map_fold (λ _ b Total, BlockReferences b + Total) 0 h.

(** [Within m s Q]: from the state [s], the computation [m] does not run
    out of fuel, and when it returns, its result and final state satisfy
    [Q]. *)

Definition Within {A} (m : M A) (s : State) (Q : A → State → Prop) : Prop :=
  m s ≠ Fault OutOfFuel ∧ ∀ a s', m s = Done (a, s') → Q a s'.

(** [Spends Fuel Strict m]: from a state whose reference counts sum to less
    than [Fuel], [m] does not run out of fuel, and leaves a sum that is
    not larger (smaller, when [Strict]). *)

Definition Spends (Fuel : N) (Strict : bool) (m : M unit) : Prop :=
  ∀ s, TotalReferences (Heap s) < Fuel →
       Within m s
         (λ _ s', if Strict
                  then TotalReferences (Heap s') < TotalReferences (Heap s)
                  else TotalReferences (Heap s') ≤ TotalReferences (Heap s)).

(** * The other routines of the module *)

(** ** String concatenation *)

(** [ChalkStringAdd] makes an empty String, drops its one-byte buffer, and
    gives it a buffer of [Size + 1] bytes (a ULONG sum) into which it copies
    [Size] bytes of each operand.  The second component of the result is
    what was stored through [Result], if anything was. *)

Definition ChalkStringAdd (fuel : nat) (Left Right : N)
    : M (Z * option N) :=
  l ← ReadObject Left;
  (if negb (IsType l ChalkObjectString) then halt AssertionFailure
   else r ← ReadObject Right; assert (IsType r ChalkObjectString));;
  String ← ChalkCreateString None 0;
  if String =? NULL then mret (ENOMEM, None)
  else
    l ← ReadObject Left;
    r ← ReadObject Right;
    match Payload l, Payload r with
    | CHALK_STRING LeftText LeftSize, CHALK_STRING RightText RightSize =>
        let Size := ULONG (LeftSize + RightSize) in
        let Capacity := ULONG (Size + 1) in
        Buffer ← ChalkAllocateBuffer Capacity;
        o ← ReadObject String;
        if negb Buffer
        then
          Store String (Obj (SetPayload o (CHALK_STRING [] 0)));;
          ChalkObjectReleaseReference fuel String;;
          mret (ENOMEM, None)
        else if (N.of_nat (length LeftText) <? LeftSize)
                || (N.of_nat (length RightText) <? RightSize)
                || (Capacity <? LeftSize + RightSize)
                || (Capacity <=? Size)
        then halt OutOfBounds
        else
          Store String
            (Obj (SetPayload o
                    (CHALK_STRING
                       (take (N.to_nat LeftSize) LeftText
                          ++ take (N.to_nat RightSize) RightText ++ [x00])
                       Size)));;
          mret (0%Z, Some String)
    | _, _ => halt AssertionFailure
    end.

(** ** List concatenation and iteration *)

(** The loop of [ChalkListAdd]: slot [Index] of the destination takes the
    element at [Index - Count] of the addition, which gains a reference;
    both lists are read from the heap in every iteration (they may be one
    list). *)

Fixpoint ChalkListAddFrom (Destination Addition : N) (Remaining : nat)
    (Index : N) : M unit :=
  match Remaining with
  | O => mret tt
  | S Remaining' =>
      l ← ReadObject Destination;
      r ← ReadObject Addition;
      match Payload l, Payload r with
      | CHALK_LIST Array Count, CHALK_LIST RightArray _ =>
          match RightArray !! N.to_nat (Index - Count) with
          | None => halt OutOfBounds
          | Some Element =>
              if N.of_nat (length Array) <=? Index then halt OutOfBounds
              else
                Store Destination
                  (Obj (SetPayload l
                          (CHALK_LIST (<[N.to_nat Index := Element]> Array)
                             Count)));;
                (if negb (Element =? NULL)
                 then ChalkObjectAddReference Element else mret tt);;
                ChalkListAddFrom Destination Addition Remaining'
                  (ULONG (Index + 1))
          end
      | _, _ => halt InvalidPointer
      end
  end.

(** The array is reallocated to [NewSize * sizeof(PVOID)] bytes, a product
    of UINTNs: it has the slots that fit in them, which are fewer than
    [NewSize] when the product wraps.  The slots past the old ones are
    assigned by the loop before anything reads them (they are written as
    [NULL] until then); the loop stops on an access out of bounds when it
    reaches a slot that the block does not have. *)

Definition ChalkListAdd (Destination Addition : N) : M Z :=
  l ← ReadObject Destination;
  (if negb (IsType l ChalkObjectList) then halt AssertionFailure
   else r ← ReadObject Addition; assert (IsType r ChalkObjectList));;
  r ← ReadObject Addition;
  match Payload l, Payload r with
  | CHALK_LIST Array Count, CHALK_LIST _ RightCount =>
      let NewSize := ULONG (Count + RightCount) in
      let Bytes := UINTN (NewSize * sizeof_PVOID) in
      NewArray ← ChalkReallocate Bytes;
      if negb NewArray then mret ENOMEM
      else
        Store Destination
          (Obj (SetPayload l
                  (CHALK_LIST
                     (resize (N.to_nat (Bytes / sizeof_PVOID)) NULL Array)
                     Count)));;
        ChalkListAddFrom Destination Addition (N.to_nat (NewSize - Count))
          Count;;
        l' ← ReadObject Destination;
        match Payload l' with
        | CHALK_LIST Array' _ =>
            Store Destination
              (Obj (SetPayload l' (CHALK_LIST Array' NewSize)));;
            mret 0%Z
        | _ => halt InvalidPointer
        end
  | _, _ => halt AssertionFailure
  end.

(** The context of a list iterator is the index of the next slot to look
    at, kept in a pointer.  The results are the status, the context stored
    and, for [ChalkListIterate], what was stored through [Iteration]. *)

Definition ChalkListInitializeIterator (List : N) : M (Z * N) :=
  l ← ReadObject List;
  assert (IsType l ChalkObjectList);;
  mret (0%Z, 0).

(** The loop of [ChalkListIterate] from [Index], with [Remaining] slots
    before the count is reached: the context and the element found. *)

Fixpoint ChalkListIterateFrom (Array : list N) (Remaining : nat) (Index : N)
    : Result (N * N) :=
  match Remaining with
  | O => Done (UINTN Index, NULL)
  | S Remaining' =>
      match Array !! N.to_nat Index with
      | None => Fault OutOfBounds
      | Some Element =>
          if Element =? NULL
          then ChalkListIterateFrom Array Remaining' (ULONG (Index + 1))
          else Done (UINTN (ULONG (Index + 1)), Element)
      end
  end.

Definition ChalkListIterate (List : N) (Context : N) : M (Z * N * N) :=
  l ← ReadObject List;
  match Payload l with
  | CHALK_LIST Array Count =>
      let Index := ULONG (UINTN Context) in
      '(Context', Iteration) ←
        read (λ _, ChalkListIterateFrom Array (N.to_nat (Count - Index)) Index);
      mret (0%Z, Context', Iteration)
  | _ => halt AssertionFailure
  end.

Definition ChalkListDestroyIterator (List : N) (Context : N) : M N :=
  mret NULL.

(** ** Dictionary union *)

(** The loop of [ChalkDictAdd]: the entry after the current one is taken
    from the list of the addition before the element is set in the
    destination; [NULL] stands for the list head, where the walk ends.
    [Rounds] bounds the number of iterations. *)

Fixpoint ChalkDictAddFrom (fuel Rounds : nat) (Destination Addition : N)
    (CurrentEntry : N) : M Z :=
  if CurrentEntry =? NULL then mret 0%Z
  else
    match Rounds with
    | O => halt OutOfFuel
    | S Rounds' =>
        Entry ← ReadEntry CurrentEntry;
        a ← ReadObject Addition;
        match Payload a with
        | CHALK_DICT EntryList _ _ =>
            NextEntry ← read (λ _, ListEntryNext CurrentEntry EntryList);
            '(Status, _) ←
              ChalkDictSetElement fuel Destination (Key Entry) (Value Entry)
                false;
            if negb (Status =? 0)%Z then mret Status
            else ChalkDictAddFrom fuel Rounds' Destination Addition NextEntry
        | _ => halt InvalidPointer
        end
    end.

Definition ChalkDictAdd (fuel Rounds : nat) (Destination Addition : N)
    : M Z :=
  d ← ReadObject Destination;
  assert (IsType d ChalkObjectDict);;
  a ← ReadObject Addition;
  match Payload a with
  | CHALK_DICT EntryList _ _ =>
      ChalkDictAddFrom fuel Rounds Destination Addition
        match EntryList with
        | [] => NULL
        | First :: _ => First
        end
  | _ => halt AssertionFailure
  end.

(** ** Vocabulary of the properties of the other routines *)

Definition RemoveFromReferenceCount (k : N) (b : Block) : Block :=
  match b with
  | Obj o => Obj (SetReferenceCount o (ReferenceCount o - k))
  | _ => b
  end.

(** The elements of a slot array can each give up one reference per slot
    they are in and stay alive. *)

Definition SharedElements (h : gmap N Block) (Array : list N) : Prop :=
  ∀ Element, Element ∈ Array → Element ≠ NULL →
    ∃ v, h !! Element = Some (Obj v) ∧
         HeaderType v ≠ ChalkObjectInvalid ∧
         References Element Array < ReferenceCount v < 0x10000000.

(** The heap with one reference more, or one less, on the object at an
    address; [NULL] is the address of no object. *)

Definition HeapAddReference (Object : N) (h : gmap N Block) : gmap N Block :=
  if Object =? NULL then h else alter (AddToReferenceCount 1) Object h.

Definition HeapReleaseReference (Object : N) (h : gmap N Block)
    : gmap N Block :=
  if Object =? NULL then h else alter (RemoveFromReferenceCount 1) Object h.

(** A list object with the slot [Index] of its array holding [Object]. *)

Definition SetSlot (Index : nat) (Object : N) (b : Block) : Block :=
  match b with
  | Obj o =>
      match Payload o with
      | CHALK_LIST Array Count =>
          Obj (SetPayload o (CHALK_LIST (<[Index := Object]> Array) Count))
      | _ => b
      end
  | _ => b
  end.

(** A caller's loop over a list: [n] calls of [ChalkListIterate], each
    with the context the call before it stored; for each call, the status
    it returned and what it stored through [Iteration]. *)

Fixpoint ChalkListIterations (n : nat) (List Context : N)
    : M (list (Z * N)) :=
  match n with
  | O => mret []
  | S n' =>
      '(Status, Context', Iteration) ← ChalkListIterate List Context;
      Rest ← ChalkListIterations n' List Context';
      mret ((Status, Iteration) :: Rest)
  end.

(** What a comparison with an Integer or a String sees of an address is
    the same in two heaps: the same failure to read an object, or objects
    of one type, with one payload when they are Integers or Strings. *)

Definition SameComparand (h h' : gmap N Block) (p : N) : Prop :=
  match LoadObject h p, LoadObject h' p with
  | Done o, Done o' =>
      HeaderType o = HeaderType o' ∧
      (HeaderType o = ChalkObjectInteger ∨ HeaderType o = ChalkObjectString →
       Payload o = Payload o')
  | Fault c, Fault c' => c = c'
  | _, _ => False
  end.

(** A caller's loop over a dictionary: [n] calls of [ChalkDictIterate] on
    one iterator, and what they stored through [Iteration]. *)

Fixpoint ChalkDictIterations (n : nat) (Dict Context : N)
    : M (list (option N)) :=
  match n with
  | O => mret []
  | S n' =>
      '(_, Iteration) ← ChalkDictIterate Dict Context;
      Rest ← ChalkDictIterations n' Dict Context;
      mret (Iteration :: Rest)
  end.

(** The entry nodes of a dictionary: each address of the entry list is
    that of an allocated node. *)

Definition EntryNodes (h : gmap N Block) (EntryList : list N)
    (Entries : list CHALK_DICT_ENTRY) : Prop :=
  Forall2 (λ Entry e, Entry ≠ NULL ∧ h !! Entry = Some (DictEntry e))
    EntryList Entries.

(** ** Printing *)

(** What is written to the file is returned as text.  The conversions of
    [fprintf] that are used: [%lld] (a signed decimal number), [%c], [%s]
    (the bytes before the terminator), [\x%02X] (two upper case
    hexadecimal digits), [%*s] with an empty string (as many spaces as the
    width) and [%p], whose form is left to the C library and is given by
    [FormatPointer]. *)

Definition DoubleQuote : string := String "034"%char EmptyString.

Definition NewLine : string := String "010"%char EmptyString.

Definition HexDigit (n : N) : ascii :=
  match n with
  | 0 => "0" | 1 => "1" | 2 => "2" | 3 => "3" | 4 => "4" | 5 => "5"
  | 6 => "6" | 7 => "7" | 8 => "8" | 9 => "9" | 10 => "A" | 11 => "B"
  | 12 => "C" | 13 => "D" | 14 => "E" | _ => "F"
  end%char.

Fixpoint printf_s (Text : list byte) : Result string :=
  match Text with
  | [] => Fault OutOfBounds
  | Character :: Rest =>
      if Byte.to_N Character =? 0 then Done EmptyString
      else Tail ← printf_s Rest; Done (String (ascii_of_byte Character) Tail)
  end.

(** A width above the largest INT is read as a negative one, which pads on
    the other side of the (empty) string to the absolute value. *)

Fixpoint Spaces (n : nat) : string :=
  match n with
  | O => EmptyString
  | S n' => String " "%char (Spaces n')
  end.

Definition Padding (Width : N) : string :=
  Spaces (N.to_nat (if Width <? 0x80000000 then Width
                    else 0x100000000 - Width)).

(** The switch of [ChalkPrintObject] on a character of a String that is
    printed inside a list or a dictionary. *)

Definition EscapeCharacter (Character : byte) : string :=
  let c := Byte.to_N Character in
  if c =? 13 then "\r"
  else if c =? 10 then "\n"
  else if c =? 11 then "\v"
  else if c =? 9 then "\t"
  else if c =? 12 then "\f"
  else if c =? 8 then "\b"
  else if c =? 7 then "\a"
  else if c =? 92 then "\\"
  else if c =? 34 then "\" +:+ DoubleQuote
  else if (c <? 32) || (128 <=? c)
  then "\x" +:+ String (HexDigit (c / 16))
                  (String (HexDigit (c mod 16)) EmptyString)
  else String (ascii_of_byte Character) EmptyString.

Fixpoint EscapeString (Text : list byte) : string :=
  match Text with
  | [] => EmptyString
  | Character :: Rest => EscapeCharacter Character +:+ EscapeString Rest
  end.

(** The loop over the slots of a list, from [Index], with [Remaining]
    slots to go: the elements, one level deeper, with a comma after each
    but the last, and a line break and indentation after the comma in
    lists of five slots and more. *)

Fixpoint ChalkPrintElements (Print : N → N → M string) (Array : list N)
    (Count RecursionDepth : N) (Remaining : nat) (Index : N) : M string :=
  match Remaining with
  | O => mret EmptyString
  | S Remaining' =>
      match Array !! N.to_nat Index with
      | None => halt OutOfBounds
      | Some Element =>
          Text ← Print Element (ULONG (RecursionDepth + 1));
          let Separator :=
            if Index <? ULONG (Count + MAX_ULONG)
            then ", " +:+ (if 5 <=? Count
                           then NewLine
                                  +:+ Padding (ULONG (RecursionDepth + 1))
                           else EmptyString)
            else EmptyString in
          Rest ← ChalkPrintElements Print Array Count RecursionDepth
                   Remaining' (ULONG (Index + 1));
          mret (Text +:+ Separator +:+ Rest)
      end
  end.

(** The loop over the entries of a dictionary: key, colon, value, and a
    line break and indentation before the next entry. *)

Fixpoint ChalkPrintEntries (Print : N → N → M string) (EntryList : list N)
    (RecursionDepth : N) : M string :=
  match EntryList with
  | [] => mret EmptyString
  | CurrentEntry :: Rest =>
      Entry ← ReadEntry CurrentEntry;
      KeyText ← Print (Key Entry) (ULONG (RecursionDepth + 1));
      ValueText ← Print (Value Entry) (ULONG (RecursionDepth + 1));
      let Separator :=
        match Rest with
        | [] => EmptyString
        | _ => NewLine +:+ Padding (ULONG (RecursionDepth + 1))
        end in
      Others ← ChalkPrintEntries Print Rest RecursionDepth;
      mret (KeyText +:+ " : " +:+ ValueText +:+ Separator +:+ Others)
  end.

(** [fuel] bounds the nesting of the calls.  The reference count of the
    object being printed is overwritten with a marker, by which the object
    is recognized when it is reached again from inside itself, and is put
    back at the end. *)

Fixpoint ChalkPrintObject (FormatPointer : N → string) (fuel : nat)
    (Object : N) (RecursionDepth : N) : M string :=
  match fuel with
  | O => halt OutOfFuel
  | S fuel' =>
      if Object =? NULL then mret "0"
      else
        o ← ReadObject Object;
        if ReferenceCount o =? MAX_ULONG
        then
          match Payload o with
          | CHALK_LIST _ _ => mret "[...]"
          | CHALK_DICT _ _ _ => mret "{...}"
          | _ => halt AssertionFailure
          end
        else
          Store Object (Obj (SetReferenceCount o MAX_ULONG));;
          Text ←
            match Payload o with
            | CHALK_NULL => mret "null"
            | CHALK_INT Value => mret (pretty Value)
            | CHALK_STRING Text Size =>
                if RecursionDepth =? 0 then read (λ _, printf_s Text)
                else if Size =? 0 then mret (DoubleQuote +:+ DoubleQuote)
                else if N.of_nat (length Text) <? Size then halt OutOfBounds
                else mret (DoubleQuote
                             +:+ EscapeString (take (N.to_nat Size) Text)
                             +:+ DoubleQuote)
            | CHALK_LIST Array Count =>
                Elements ←
                  ChalkPrintElements (ChalkPrintObject FormatPointer fuel')
                    Array Count RecursionDepth (N.to_nat Count) 0;
                mret ("[" +:+ Elements +:+ "]")
            | CHALK_DICT EntryList _ _ =>
                Entries ←
                  ChalkPrintEntries (ChalkPrintObject FormatPointer fuel')
                    EntryList RecursionDepth;
                mret ("{" +:+ Entries +:+ "}")
            | CHALK_FUNCTION _ Body _ =>
                mret ("Function at " +:+ FormatPointer Body)
            | CHALK_INVALID => halt AssertionFailure
            end;
          o' ← ReadObject Object;
          Store Object (Obj (SetReferenceCount o' (ReferenceCount o)));;
          mret Text
  end.

(** The loop of the print built-in over the slots of a list: the elements
    that are not holes, at depth zero, with a space between them. *)

Fixpoint ChalkPrintArguments (Print : N → N → M string) (Array : list N)
    (Remaining : nat) (Index : N) (First : bool) : M string :=
  match Remaining with
  | O => mret EmptyString
  | S Remaining' =>
      match Array !! N.to_nat Index with
      | None => halt OutOfBounds
      | Some Element =>
          if Element =? NULL
          then ChalkPrintArguments Print Array Remaining'
                 (UINTN (Index + 1)) First
          else
            Text ← Print Element 0;
            Rest ← ChalkPrintArguments Print Array Remaining'
                     (UINTN (Index + 1)) false;
            mret ((if First then EmptyString else " ") +:+ Text +:+ Rest)
      end
  end.

(** The built-in receives the object fetched from the interpreter; its
    results are the status and what was written to the standard output. *)

Definition ChalkFunctionPrint (FormatPointer : N → string) (fuel : nat)
    (Object : N) : M (Z * string) :=
  assert (negb (Object =? NULL));;
  o ← ReadObject Object;
  Text ←
    match Payload o with
    | CHALK_LIST Array Count =>
        ChalkPrintArguments (ChalkPrintObject FormatPointer fuel) Array
          (N.to_nat Count) 0 true
    | _ => ChalkPrintObject FormatPointer fuel Object 0
    end;
  mret (0%Z, Text).

(** The number of objects of a heap that do not carry the marker. *)

Definition Unmarked (b : Block) : N :=
  match b with
  | Obj o => if ReferenceCount o =? MAX_ULONG then 0 else 1
  | _ => 0
  end.

Definition UnmarkedObjects (h : gmap N Block) : N :=
  map_fold (λ _ b Total, Unmarked b + Total) 0 h.

(** Reading back what [EscapeString] wrote. *)

Definition HexValue (c : ascii) : option N :=
  let n := N_of_ascii c in
  if (48 <=? n) && (n <=? 57) then Some (n - 48)
  else if (65 <=? n) && (n <=? 70) then Some (n - 55)
  else None.

Fixpoint Unescape (Text : string) : option (list byte) :=
  match Text with
  | EmptyString => Some []
  | String c Rest =>
      if N_of_ascii c =? 92
      then
        match Rest with
        | EmptyString => None
        | String e Rest' =>
            match N_of_ascii e with
            | 114 => cons x0d <$> Unescape Rest'
            | 110 => cons x0a <$> Unescape Rest'
            | 118 => cons x0b <$> Unescape Rest'
            | 116 => cons x09 <$> Unescape Rest'
            | 102 => cons x0c <$> Unescape Rest'
            | 98 => cons x08 <$> Unescape Rest'
            | 97 => cons x07 <$> Unescape Rest'
            | 92 => cons x5c <$> Unescape Rest'
            | 34 => cons x22 <$> Unescape Rest'
            | 120 =>
                match Rest' with
                | String High (String Low Rest'') =>
                    High' ← HexValue High;
                    Low' ← HexValue Low;
                    Character ← Byte.of_N (16 * High' + Low');
                    cons Character <$> Unescape Rest''
                | _ => None
                end
            | _ => None
            end
        end
      else cons (byte_of_ascii c) <$> Unescape Rest
  end.

Fixpoint Characters (Text : string) : list ascii :=
  match Text with
  | EmptyString => []
  | String c Rest => c :: Characters Rest
  end.

Definition SevenBitPrintable (c : ascii) : bool :=
  (32 <=? N_of_ascii c) && (N_of_ascii c <=? 127).

(** ** Vocabulary of the properties of dictionaries *)

(** The objects that the entries of a dictionary hold: the key and the
    value of each, in list order. *)

Definition HeldObjects (Entries : list CHALK_DICT_ENTRY) : list N :=
  flat_map (λ e, [Key e; Value e]) Entries.

(** The objects of a list are live, and each can take one more reference
    per place of the list. *)

Definition LiveObjects (h : gmap N Block) (Objects : list N) : Prop :=
  ∀ Element, Element ∈ Objects → Element ≠ NULL →
    ∃ v, h !! Element = Some (Obj v) ∧
         HeaderType v ≠ ChalkObjectInvalid ∧
         0 < ReferenceCount v ∧
         ReferenceCount v + N.of_nat (length Objects) < 0x10000000.

(** The keys of the entries are Integers or Strings. *)

Definition ScalarKeys (h : gmap N Block) (Entries : list CHALK_DICT_ENTRY)
    : Prop :=
  Forall (λ e, Key e ≠ NULL ∧
               ∃ k, h !! Key e = Some (Obj k) ∧
                    (HeaderType k = ChalkObjectInteger
                     ∨ HeaderType k = ChalkObjectString)) Entries.

(** No key of the entries compares as 0 with a key after it. *)

Definition DistinctKeys (fuel : nat) (h : gmap N Block)
    (Entries : list CHALK_DICT_ENTRY) : Prop :=
  ∀ (i j : nat) ei ej, (i < j)%nat →
    Entries !! i = Some ei → Entries !! j = Some ej →
    ∃ z, ChalkCompareObjects (S fuel) h (Key ei) (Key ej) = Done z ∧
         z ≠ 0%Z.

(** The block at an address is the same in two heaps, up to references
    added to it. *)

Definition RecountedAt (h h' : gmap N Block) (p : N) : Prop :=
  ∃ n, h' !! p = AddToReferenceCount n <$> h !! p.

(** * Properties *)

(** ** Running computations *)

Lemma bind_Done {A B} (m : M A) (f : A → M B) s a s' :
  m s = Done (a, s') → (m ≫= f) s = f a s'.
Proof. intros H. unfold mbind, M_bind. by rewrite H. Qed.

Lemma bind_Fault {A B} (m : M A) (f : A → M B) s c :
  m s = Fault c → (m ≫= f) s = Fault c.
Proof. intros H. unfold mbind, M_bind. by rewrite H. Qed.

Lemma bind_Done_inv {A B} (m : M A) (f : A → M B) s r :
  (m ≫= f) s = Done r → ∃ a s', m s = Done (a, s') ∧ f a s' = Done r.
Proof.
  unfold mbind, M_bind. destruct (m s) as [[a s']|c]; [eauto | discriminate].
Qed.

Lemma NULL_eqb (a : N) : a ≠ NULL → (a =? NULL) = false.
Proof. intros H. by apply N.eqb_neq. Qed.

Lemma LoadObject_Done h a o :
  a ≠ NULL → h !! a = Some (Obj o) → LoadObject h a = Done o.
Proof. intros Ha Hh. unfold LoadObject. by rewrite NULL_eqb, Hh. Qed.

Lemma LoadObject_inv h a o :
  LoadObject h a = Done o → a ≠ NULL ∧ h !! a = Some (Obj o).
Proof.
  unfold LoadObject. destruct (N.eqb_spec a NULL) as [|Hne]; [discriminate|].
  destruct (h !! a) as [[| o' | |]|]; try discriminate.
  intros [= ->]. done.
Qed.

Lemma LoadEntry_Done h a e :
  a ≠ NULL → h !! a = Some (DictEntry e) → LoadEntry h a = Done e.
Proof. intros Ha Hh. unfold LoadEntry. by rewrite NULL_eqb, Hh. Qed.

Lemma LoadEntry_inv h a e :
  LoadEntry h a = Done e → a ≠ NULL ∧ h !! a = Some (DictEntry e).
Proof.
  unfold LoadEntry. destruct (N.eqb_spec a NULL) as [|Hne]; [discriminate|].
  destruct (h !! a) as [[| | e' |]|]; try discriminate.
  intros [= ->]. done.
Qed.

Lemma LoadIterator_Done h a i :
  a ≠ NULL → h !! a = Some (DictIterator i) → LoadIterator h a = Done i.
Proof. intros Ha Hh. unfold LoadIterator. by rewrite NULL_eqb, Hh. Qed.

Lemma LoadIterator_inv h a i :
  LoadIterator h a = Done i → a ≠ NULL ∧ h !! a = Some (DictIterator i).
Proof.
  unfold LoadIterator. destruct (N.eqb_spec a NULL) as [|Hne]; [discriminate|].
  destruct (h !! a) as [[| | | i']|]; try discriminate.
  intros [= ->]. done.
Qed.

Lemma ReadObject_Done s a o :
  a ≠ NULL → Heap s !! a = Some (Obj o) → ReadObject a s = Done (o, s).
Proof.
  intros Ha Hh. unfold ReadObject, read. by rewrite (LoadObject_Done _ _ o).
Qed.

Lemma ReadObject_inv s a o s' :
  ReadObject a s = Done (o, s') →
  s' = s ∧ a ≠ NULL ∧ Heap s !! a = Some (Obj o).
Proof.
  unfold ReadObject, read.
  destruct (LoadObject (Heap s) a) as [o'|] eqn:E; [|discriminate].
  intros [= -> ->]. by apply LoadObject_inv in E.
Qed.

Lemma ReadEntry_Done s a e :
  a ≠ NULL → Heap s !! a = Some (DictEntry e) → ReadEntry a s = Done (e, s).
Proof.
  intros Ha Hh. unfold ReadEntry, read. by rewrite (LoadEntry_Done _ _ e).
Qed.

Lemma ReadEntry_inv s a e s' :
  ReadEntry a s = Done (e, s') →
  s' = s ∧ a ≠ NULL ∧ Heap s !! a = Some (DictEntry e).
Proof.
  unfold ReadEntry, read.
  destruct (LoadEntry (Heap s) a) as [e'|] eqn:E; [|discriminate].
  intros [= -> ->]. by apply LoadEntry_inv in E.
Qed.

Lemma ReadIterator_Done s a i :
  a ≠ NULL → Heap s !! a = Some (DictIterator i) →
  ReadIterator a s = Done (i, s).
Proof.
  intros Ha Hh. unfold ReadIterator, read.
  by rewrite (LoadIterator_Done _ _ i).
Qed.

Lemma ReadIterator_inv s a i s' :
  ReadIterator a s = Done (i, s') →
  s' = s ∧ a ≠ NULL ∧ Heap s !! a = Some (DictIterator i).
Proof.
  unfold ReadIterator, read.
  destruct (LoadIterator (Heap s) a) as [i'|] eqn:E; [|discriminate].
  intros [= -> ->]. by apply LoadIterator_inv in E.
Qed.

Lemma read_inv {A} (f : gmap N Block → Result A) s a s' :
  read f s = Done (a, s') → s' = s ∧ f (Heap s) = Done a.
Proof.
  unfold read. destruct (f (Heap s)); [|discriminate]. by intros [= -> ->].
Qed.

Lemma assert_inv b s u s' : assert b s = Done (u, s') → s' = s ∧ b = true.
Proof. destruct b; simpl; [by intros [= _ ->] | discriminate]. Qed.

Lemma IsType_true o t : IsType o t = true ↔ HeaderType o = t.
Proof.
  unfold IsType. rewrite N.eqb_eq.
  split; [|by intros ->]. by destruct (HeaderType o), t.
Qed.

Lemma IsType_false o t : IsType o t = false ↔ HeaderType o ≠ t.
Proof.
  rewrite <- IsType_true. destruct (IsType o t); split; congruence.
Qed.

(** ** Truth values *)

(** C8: the truth value of an object is false for Null, the non-zeroness of
    an Integer, the non-emptiness of a String (by its stored size), of a
    List (by its slot count) and of a Dict (by its entry list), and true for
    a Function; the object and the rest of the state are left as they are. *)
Theorem ChalkObjectGetBooleanValue_coercion (s : State) (Object : N)
    (o : CHALK_OBJECT) :
  Object ≠ NULL →
  Heap s !! Object = Some (Obj o) →
  HeaderType o ≠ ChalkObjectInvalid →
  ∃ b : bool,
    ChalkObjectGetBooleanValue Object s = Done (b, s) ∧
    match Payload o with
    | CHALK_INVALID => False
    | CHALK_NULL => b = false
    | CHALK_INT Value => b = true ↔ Value ≠ 0%Z
    | CHALK_STRING _ Size => b = true ↔ Size ≠ 0
    | CHALK_LIST _ Count => b = true ↔ Count ≠ 0
    | CHALK_DICT EntryList _ _ => b = true ↔ ∃ Entry, Entry ∈ EntryList
    | CHALK_FUNCTION _ _ _ => b = true
    end.
Proof.
  intros Hnull Hobj Hvalid.
  unfold ChalkObjectGetBooleanValue.
  rewrite (bind_Done _ _ s o s) by by apply ReadObject_Done.
  unfold HeaderType in Hvalid.
  destruct (Payload o) as [| |v|str size|entries count gen|arr count|a b c];
    try done; (eexists; split; [reflexivity|]); try done.
  - rewrite negb_true_iff, Z.eqb_neq. done.
  - rewrite negb_true_iff, N.eqb_neq. done.
  - destruct entries as [|e rest]; simpl.
    + split; [done|]. intros [e He]. by apply elem_of_nil in He.
    + split; [|done]. intros _. exists e. apply elem_of_cons. by left.
  - rewrite negb_true_iff, N.eqb_neq. done.
Qed.

Lemma ChalkObjectGetBooleanValue_coercion_witness :
  ∃ b : bool,
    ChalkObjectGetBooleanValue ChalkNull InitialState
      = Done (b, InitialState) ∧ b = false.
Proof.
  apply (ChalkObjectGetBooleanValue_coercion InitialState ChalkNull
           {| ReferenceCount := 1; Payload := CHALK_NULL |});
    [done | reflexivity | done].
Defined.

(** ** Rejected dictionary keys *)

(** C6: setting an element under a key that is neither an Integer nor a
    String returns EINVAL after writing a message to the error stream; the
    heap afterwards is the heap before, so the dictionary, its entries, its
    counters and every reference count are what they were. *)
Theorem ChalkDictSetElement_invalid_key (fuel : nat) (s : State)
    (DictObject KeyObject ValueObject : N) (LValue : bool)
    (d k : CHALK_OBJECT) :
  DictObject ≠ NULL →
  Heap s !! DictObject = Some (Obj d) →
  HeaderType d = ChalkObjectDict →
  KeyObject ≠ NULL →
  Heap s !! KeyObject = Some (Obj k) →
  HeaderType k ≠ ChalkObjectInteger →
  HeaderType k ≠ ChalkObjectString →
  ∃ s',
    ChalkDictSetElement fuel DictObject KeyObject ValueObject LValue s
      = Done ((EINVAL, NULL), s') ∧
    s' = Report s ("Cannot add type " +:+ ChalkObjectTypeNames (HeaderType k)
                     +:+ " as dictionary key.") ∧
    Heap s' = Heap s ∧
    Allocations s' = Allocations s.
Proof.
  intros Hd Hdict Hdt Hk Hkey Hint Hstr.
  eexists. split; [|split; [reflexivity|split; reflexivity]].
  unfold ChalkDictSetElement.
  rewrite (bind_Done _ _ s d s) by by apply ReadObject_Done.
  apply IsType_true in Hdt. rewrite Hdt. simpl assert.
  rewrite (bind_Done _ _ s tt s) by done.
  rewrite (NULL_eqb KeyObject) by done. simpl assert.
  rewrite (bind_Done _ _ s tt s) by done.
  rewrite (bind_Done _ _ s k s) by by apply ReadObject_Done.
  apply IsType_false in Hint, Hstr. rewrite Hint, Hstr. simpl.
  reflexivity.
Qed.

Lemma ChalkDictSetElement_invalid_key_witness :
  ∃ s',
    ChalkDictSetElement 1 2 3 4 false SampleState = Done ((EINVAL, NULL), s') ∧
    s' = Report SampleState "Cannot add type list as dictionary key." ∧
    Heap s' = Heap SampleState ∧
    Allocations s' = Allocations SampleState.
Proof.
  apply (ChalkDictSetElement_invalid_key 1 SampleState 2 3 4 false
           {| ReferenceCount := 1; Payload := CHALK_DICT [] 0 0 |}
           {| ReferenceCount := 1; Payload := CHALK_LIST [] 0 |});
    (done || reflexivity).
Defined.

(** ** Allocation *)

Lemma FreshAddress_spec (h : gmap N Block) :
  h !! FreshAddress h = None ∧ FreshAddress h ≠ NULL ∧
  FreshAddress h ≠ ChalkNull.
Proof.
  unfold FreshAddress.
  pose proof (is_fresh ({[NULL; ChalkNull]} ∪ dom h)) as Hfresh.
  split; [|split].
  - apply not_elem_of_dom. set_solver.
  - set_solver.
  - set_solver.
Qed.

Lemma ChalkAllocate_success (s : State) (Rest : list bool) :
  NextAllocation (Allocations s) = (true, Rest) →
  ChalkAllocate s
    = Done (FreshAddress (Heap s),
            {| Heap := <[FreshAddress (Heap s) := Raw]> (Heap s);
               Allocations := Rest; Stderr := Stderr s |}).
Proof. intros H. unfold ChalkAllocate. by rewrite H. Qed.

Lemma ChalkAllocate_failure (s : State) (Rest : list bool) :
  NextAllocation (Allocations s) = (false, Rest) →
  ChalkAllocate s
    = Done (NULL, {| Heap := Heap s; Allocations := Rest;
                     Stderr := Stderr s |}).
Proof. intros H. unfold ChalkAllocate. by rewrite H. Qed.

Lemma ChalkCreateInteger_success (s : State) (Rest : list bool) (Value : Z) :
  NextAllocation (Allocations s) = (true, Rest) →
  ChalkCreateInteger Value s
    = Done (FreshAddress (Heap s),
            {| Heap := <[FreshAddress (Heap s) :=
                           Obj {| ReferenceCount := 1;
                                  Payload := CHALK_INT Value |}]> (Heap s);
               Allocations := Rest; Stderr := Stderr s |}).
Proof.
  intros H. unfold ChalkCreateInteger.
  rewrite (bind_Done _ _ _ _ _ (ChalkAllocate_success s Rest H)).
  destruct (FreshAddress_spec (Heap s)) as (_ & Hnull & _).
  rewrite NULL_eqb by done.
  unfold mbind, M_bind, Store, WithHeap, mret, M_ret. simpl.
  by rewrite insert_insert_eq.
Qed.

Lemma ChalkObjectAddReference_Done (s : State) (Object : N)
    (o : CHALK_OBJECT) :
  Object ≠ NULL →
  Heap s !! Object = Some (Obj o) →
  HeaderType o ≠ ChalkObjectInvalid →
  0 < ReferenceCount o < 0x10000000 →
  ChalkObjectAddReference Object s
    = Done (tt, WithHeap s
                  (<[Object := Obj (SetReferenceCount o (ReferenceCount o + 1))]>
                     (Heap s))).
Proof.
  intros Hnull Hobj Hvalid [Hpos Hmax].
  unfold ChalkObjectAddReference.
  rewrite (bind_Done _ _ s o s) by by apply ReadObject_Done.
  apply IsType_false in Hvalid. rewrite Hvalid. simpl assert.
  rewrite (bind_Done _ _ s tt s) by done.
  assert ((ReferenceCount o =? 0) = false) as -> by (apply N.eqb_neq; lia).
  assert ((ReferenceCount o <? 0x10000000) = true) as ->
    by (by apply N.ltb_lt).
  simpl assert. rewrite (bind_Done _ _ s tt s) by done.
  unfold Store, ULONG, MAX_ULONG.
  rewrite N.mod_small by lia. done.
Qed.

Lemma ChalkObjectAddReference_inv (s s' : State) (Object : N) (u : unit) :
  ChalkObjectAddReference Object s = Done (u, s') →
  ∃ o, Object ≠ NULL ∧ Heap s !! Object = Some (Obj o) ∧
       HeaderType o ≠ ChalkObjectInvalid ∧
       0 < ReferenceCount o < 0x10000000 ∧
       s' = WithHeap s
              (<[Object := Obj (SetReferenceCount o (ReferenceCount o + 1))]>
                 (Heap s)).
Proof.
  unfold ChalkObjectAddReference. intros H.
  apply bind_Done_inv in H as (o & s1 & Hread & H).
  apply ReadObject_inv in Hread as (-> & Hnull & Hobj).
  apply bind_Done_inv in H as (? & s1 & Hassert & H).
  apply assert_inv in Hassert as (-> & Hvalid).
  apply bind_Done_inv in H as (? & s1 & Hassert & H).
  apply assert_inv in Hassert as (-> & Hrange).
  apply negb_true_iff, IsType_false in Hvalid.
  apply andb_true_iff in Hrange as [Hpos Hmax].
  apply negb_true_iff, N.eqb_neq in Hpos. apply N.ltb_lt in Hmax.
  exists o. repeat split; try done; try lia.
  unfold Store, ULONG, MAX_ULONG in H.
  rewrite N.mod_small in H by lia. by injection H as <-.
Qed.

(** ** The length built-in *)

Lemma to_N_zero (c : byte) : Byte.to_N c = 0 → c = x00.
Proof.
  intros H. pose proof (Byte.of_to_N c) as Hc. rewrite H in Hc.
  simpl in Hc. congruence.
Qed.

Lemma strlen_stops_at_zero (Prefix Rest : list byte) :
  Forall (λ c, c ≠ x00) Prefix →
  strlen (Prefix ++ x00 :: Rest) = Done (N.of_nat (length Prefix)).
Proof.
  induction 1 as [|c Prefix Hc _ IH]; [done|].
  cbn [app strlen length].
  destruct (N.eqb_spec (Byte.to_N c) 0) as [Hz|_].
  { by apply to_N_zero in Hz. }
  rewrite IH. unfold mbind, Result_bind. f_equal. lia.
Qed.

(** C3 (as the code has it): the length built-in measures a String with
    [strlen] and not by its stored [Size]: for a buffer whose first zero
    byte comes after [Prefix], it returns the Integer [length Prefix],
    whatever the stored size is.  The result is the stored size only when
    the string holds no zero byte before its terminator. *)
Theorem ChalkFunctionLength_string_stops_at_zero (s : State) (Object : N)
    (o : CHALK_OBJECT) (Prefix Rest : list byte) (Size : N)
    (Pending : list bool) :
  Object ≠ NULL →
  Heap s !! Object = Some (Obj o) →
  Payload o = CHALK_STRING (Prefix ++ x00 :: Rest) Size →
  Forall (λ c, c ≠ x00) Prefix →
  N.of_nat (length Prefix) ≤ MAX_UINTN →
  NextAllocation (Allocations s) = (true, Pending) →
  ∃ ReturnValue s',
    ChalkFunctionLength Object s = Done ((0%Z, ReturnValue), s') ∧
    Heap s' !! ReturnValue
      = Some (Obj {| ReferenceCount := 1;
                     Payload := CHALK_INT (Z.of_nat (length Prefix)) |}).
Proof.
  intros Hnull Hobj Hpay Hprefix Hmax Halloc.
  unfold ChalkFunctionLength.
  rewrite (NULL_eqb Object) by done. simpl assert.
  rewrite (bind_Done _ _ s tt s) by done.
  rewrite (bind_Done _ _ s o s) by by apply ReadObject_Done.
  rewrite Hpay.
  rewrite (bind_Done _ _ s (N.of_nat (length Prefix)) s)
    by (unfold read; by rewrite strlen_stops_at_zero).
  erewrite bind_Done by by apply ChalkCreateInteger_success.
  destruct (FreshAddress_spec (Heap s)) as (_ & Hfresh & _).
  rewrite NULL_eqb by done.
  do 2 eexists. split; [reflexivity|]. simpl.
  rewrite lookup_insert_eq. do 3 f_equal.
  unfold UINTN. rewrite N.mod_small by (unfold MAX_UINTN in *; lia).
  f_equal. lia.
Qed.

Lemma ChalkFunctionLength_string_stops_at_zero_witness :
  ChalkCreateString (Some [x61; x00; x62]) 3 InitialState
    = Done (2, EmbeddedZeroState) ∧
  ∃ ReturnValue s',
    ChalkFunctionLength 2 EmbeddedZeroState = Done ((0%Z, ReturnValue), s') ∧
    Heap s' !! ReturnValue
      = Some (Obj {| ReferenceCount := 1; Payload := CHALK_INT 1 |}).
Proof.
  split; [vm_compute; reflexivity|].
  apply (ChalkFunctionLength_string_stops_at_zero EmbeddedZeroState 2
           {| ReferenceCount := 1;
              Payload := CHALK_STRING [x61; x00; x62; x00] 3 |}
           [x61] [x62; x00] 3 []).
  - done.
  - reflexivity.
  - reflexivity.
  - by repeat constructor.
  - vm_compute. discriminate.
  - reflexivity.
Defined.

(** ** The get built-in *)

(** C10: the get built-in takes a Dict or the Null object.  When the object
    is Null, or a Dict in which the lookup of the key finds no entry, it
    returns 0 and the null object, to which it has added a reference (and
    changes nothing else); when the kind of the object is neither Dict nor
    Null it writes a message and returns EINVAL, and it returns EINVAL in no
    other case. *)
Theorem ChalkFunctionGet_null_or_missing (fuel : nat) (s : State)
    (Object KeyObject : N) (o n : CHALK_OBJECT) :
  Object ≠ NULL →
  KeyObject ≠ NULL →
  Heap s !! Object = Some (Obj o) →
  Heap s !! ChalkNull = Some (Obj n) →
  HeaderType n ≠ ChalkObjectInvalid →
  0 < ReferenceCount n < 0x10000000 →
  (HeaderType o ≠ ChalkObjectDict → HeaderType o ≠ ChalkObjectNull →
     ChalkFunctionGet fuel Object KeyObject s
       = Done ((EINVAL, NULL),
               Report s "Error: get() passed non-dictionary object")) ∧
  (HeaderType o = ChalkObjectNull ∨
   (HeaderType o = ChalkObjectDict ∧
    ChalkDictLookup fuel (Heap s) Object KeyObject = Done NULL) →
     ChalkFunctionGet fuel Object KeyObject s
       = Done ((0%Z, ChalkNull),
               WithHeap s
                 (<[ChalkNull :=
                      Obj (SetReferenceCount n (ReferenceCount n + 1))]>
                    (Heap s)))) ∧
  (∀ Status ReturnValue s',
     ChalkFunctionGet fuel Object KeyObject s
       = Done ((Status, ReturnValue), s') →
     Status = EINVAL ↔
     HeaderType o ≠ ChalkObjectDict ∧ HeaderType o ≠ ChalkObjectNull).
Proof.
  intros Hobject Hkey Hobj Hnull Hvalid Hrange.
  assert (Hcreate : ChalkCreateNull s
            = Done (ChalkNull,
                    WithHeap s
                      (<[ChalkNull :=
                           Obj (SetReferenceCount n (ReferenceCount n + 1))]>
                         (Heap s)))).
  { unfold ChalkCreateNull.
    by erewrite bind_Done by by apply ChalkObjectAddReference_Done. }
  unfold ChalkFunctionGet.
  rewrite (NULL_eqb Object), (NULL_eqb KeyObject) by done. simpl assert.
  rewrite (bind_Done _ _ s tt s) by done.
  rewrite (bind_Done _ _ s o s) by by apply ReadObject_Done.
  destruct (IsType o ChalkObjectDict) eqn:Edict;
    destruct (IsType o ChalkObjectNull) eqn:Enull; cbn [negb andb].
  - apply IsType_true in Edict, Enull. congruence.
  - apply IsType_true in Edict. apply IsType_false in Enull.
    split; [done|]. split.
    + intros [Hn|[_ Hlookup]]; [congruence|].
      rewrite (bind_Done _ _ s NULL s).
      * simpl. by rewrite (bind_Done _ _ _ _ _ Hcreate).
      * rewrite (bind_Done _ _ s NULL s); [done|].
        unfold read. by rewrite Hlookup.
    + intros Status ReturnValue s' H.
      apply bind_Done_inv in H as (Found & s1 & _ & H).
      apply bind_Done_inv in H as (rv & s2 & _ & H).
      injection H as <- <- <-. split; [discriminate|]. intros [? _]. done.
  - apply IsType_false in Edict. apply IsType_true in Enull.
    split; [done|]. split.
    + intros _. rewrite (bind_Done _ _ s NULL s) by done.
      simpl. by rewrite (bind_Done _ _ _ _ _ Hcreate).
    + intros Status ReturnValue s' H.
      apply bind_Done_inv in H as (Found & s1 & _ & H).
      apply bind_Done_inv in H as (rv & s2 & _ & H).
      injection H as <- <- <-. split; [discriminate|]. intros [_ ?]. done.
  - apply IsType_false in Edict, Enull.
    split; [done|]. split.
    + intros [?|[? _]]; congruence.
    + intros Status ReturnValue s' H. injection H as <- <- <-. done.
Qed.

Lemma ChalkFunctionGet_null_or_missing_witness :
  ChalkFunctionGet 1 2 4 SampleState
    = Done ((0%Z, ChalkNull),
            WithHeap SampleState
              (<[ChalkNull := Obj {| ReferenceCount := 2;
                                     Payload := CHALK_NULL |}]>
                 (Heap SampleState))).
Proof.
  destruct (ChalkFunctionGet_null_or_missing 1 SampleState 2 4
              {| ReferenceCount := 1; Payload := CHALK_DICT [] 0 0 |}
              {| ReferenceCount := 1; Payload := CHALK_NULL |})
    as (_ & Hmissing & _);
    [done | done | reflexivity | reflexivity | done | done |].
  apply Hmissing. right. split; reflexivity.
Defined.

(** ** Lists: setting an element beyond the end *)

Lemma ChalkReallocate_success (Bytes : N) (s : State)
    (Pending : list bool) :
  NextAllocation (Allocations s) = (true, Pending) →
  ChalkReallocate Bytes s
    = Done (true, {| Heap := Heap s; Allocations := Pending;
                     Stderr := Stderr s |}).
Proof.
  intros H. unfold ChalkReallocate, ChalkAllocateBuffer. by rewrite H.
Qed.

(** An array whose size in bytes is a UINTN gets the slots asked for. *)

Lemma ArrayBytes_small (Slots : N) :
  sizeof_PVOID * Slots ≤ MAX_UINTN →
  UINTN (sizeof_PVOID * Slots) = sizeof_PVOID * Slots.
Proof. intros H. unfold UINTN, MAX_UINTN in *. apply N.mod_small. lia. Qed.

Lemma ArraySlots_small (Slots : N) :
  sizeof_PVOID * Slots ≤ MAX_UINTN →
  UINTN (sizeof_PVOID * Slots) / sizeof_PVOID = Slots.
Proof.
  intros H. rewrite ArrayBytes_small by done.
  rewrite N.mul_comm. by apply N.div_mul.
Qed.

Lemma insert_beyond_end (Array : list N) (Index : nat) (Object : N) :
  (length Array ≤ Index)%nat →
  <[Index := Object]> (Array ++ replicate (Index + 1 - length Array) NULL)
  = Array ++ replicate (Index - length Array) NULL ++ [Object].
Proof.
  intros Hle.
  rewrite insert_app_r_alt by done. f_equal.
  replace (Index + 1 - length Array)%nat with (S (Index - length Array))
    by lia.
  rewrite replicate_S_end.
  rewrite insert_app_r_alt by (rewrite length_replicate; lia).
  rewrite length_replicate, Nat.sub_diag. done.
Qed.

(** C5 (as amended): on a list of [n] slots, setting the element at an
    index [i] not below [n], for which the size in bytes of an array of
    [i + 1] pointers is a UINTN (that is, [i + 1] is at most [0x3FFFFFFF]),
    succeeds when the allocator returns memory: the list then has [i + 1]
    slots, the first [n] as before, the slots from [n] to [i - 1] holes,
    and slot [i] holding the object, whose reference count has gone up by
    one; nothing else in the heap changes.  Looking up a hole or an index
    beyond the end returns NULL and changes nothing, whereas looking up
    slot [i] returns the object stored, an address other than NULL even
    when the object is the null object. *)
Theorem ChalkListSetElement_beyond_end (fuel : nat) (s : State)
    (ListObject Index Object : N) (l v : CHALK_OBJECT) (Array : list N)
    (Pending : list bool) :
  ListObject ≠ NULL →
  Heap s !! ListObject = Some (Obj l) →
  Payload l = CHALK_LIST Array (N.of_nat (length Array)) →
  N.of_nat (length Array) ≤ Index →
  sizeof_PVOID * (Index + 1) ≤ MAX_UINTN →
  NextAllocation (Allocations s) = (true, Pending) →
  Object ≠ NULL →
  Heap s !! Object = Some (Obj v) →
  HeaderType v ≠ ChalkObjectInvalid →
  0 < ReferenceCount v < 0x10000000 →
  ∃ (s' : State) (l' v' : CHALK_OBJECT) (Array' : list N),
    ChalkListSetElement fuel ListObject Index Object s = Done (0%Z, s') ∧
    Heap s' !! ListObject = Some (Obj l') ∧
    Payload l' = CHALK_LIST Array' (Index + 1) ∧
    Array' = Array ++ replicate (N.to_nat Index - length Array) NULL
               ++ [Object] ∧
    length Array' = N.to_nat (Index + 1) ∧
    (∀ j : nat, (j < length Array)%nat → Array' !! j = Array !! j) ∧
    (∀ j : nat, (length Array ≤ j < N.to_nat Index)%nat →
                Array' !! j = Some NULL) ∧
    Array' !! N.to_nat Index = Some Object ∧
    Heap s' !! Object = Some (Obj v') ∧
    ReferenceCount v' = ReferenceCount v + 1 ∧
    (∀ p, p ≠ ListObject → p ≠ Object → Heap s' !! p = Heap s !! p) ∧
    (∀ j : N, N.of_nat (length Array) ≤ j < Index ∨ Index < j →
              ChalkListLookup ListObject j s' = Done (NULL, s')) ∧
    (ReferenceCount v + 1 < 0x10000000 →
     ∃ s'', ChalkListLookup ListObject Index s' = Done (Object, s'')).
Proof.
  intros Hlist Hl Hpay Hle Hbytes Halloc Hobject Hv Hvalid Hrange.
  assert (Hmax : Index < MAX_ULONG)
    by (unfold sizeof_PVOID, MAX_UINTN, MAX_ULONG in *; lia).
  set (n := length Array) in *.
  set (Array1 := Array ++ replicate (N.to_nat Index + 1 - n) NULL).
  set (Array' := Array ++ replicate (N.to_nat Index - n) NULL ++ [Object]).
  set (s1 := {| Heap := Heap s; Allocations := Pending; Stderr := Stderr s |}).
  set (l1 := SetPayload l (CHALK_LIST Array1 (Index + 1))).
  set (s2 := WithHeap s1 (<[ListObject := Obj l1]> (Heap s1))).
  set (l2 := SetPayload l1 (CHALK_LIST Array' (Index + 1))).
  set (s3 := WithHeap s2 (<[ListObject := Obj l2]> (Heap s2))).
  assert (Hlen' : length Array' = N.to_nat (Index + 1)).
  { unfold Array'. rewrite !length_app, length_replicate. simpl. lia. }
  assert (Hat : Array' !! N.to_nat Index = Some Object).
  { unfold Array'. rewrite lookup_app_r by lia.
    rewrite lookup_app_r by (rewrite length_replicate; lia).
    rewrite length_replicate, Nat.sub_diag. done. }
  assert (Hset : ∃ v', ChalkListSetElement fuel ListObject Index Object s
                       = Done (0%Z, WithHeap s3 (<[Object := Obj v']> (Heap s3)))
                     ∧ Heap s3 !! Object
                       = Some (Obj (SetReferenceCount v' (ReferenceCount v)))
                     ∧ ReferenceCount v' = ReferenceCount v + 1
                     ∧ HeaderType v' ≠ ChalkObjectInvalid
                     ∧ (Object = ListObject → Payload v' = Payload l2)).
  { assert (Hs3 : ∃ v3, Heap s3 !! Object = Some (Obj v3) ∧
                        HeaderType v3 ≠ ChalkObjectInvalid ∧
                        ReferenceCount v3 = ReferenceCount v ∧
                        (Object = ListObject → v3 = l2)).
    { destruct (decide (Object = ListObject)) as [->|Hne].
      - exists l2. simpl. rewrite lookup_insert_eq.
        rewrite Hl in Hv. injection Hv as <-. done.
      - exists v. simpl. rewrite !lookup_insert_ne by done. done. }
    destruct Hs3 as (v3 & Hv3 & Hvalid3 & Hrc3 & Hsame).
    exists (SetReferenceCount v3 (ReferenceCount v3 + 1)).
    split; [|split; [|split; [|split]]].
    - unfold ChalkListSetElement.
      rewrite (bind_Done _ _ s l s) by by apply ReadObject_Done.
      rewrite Hpay.
      assert ((N.of_nat n <=? Index) = true) as -> by by apply N.leb_le.
      assert (HULONG : ULONG (Index + 1) = Index + 1).
      { unfold ULONG. apply N.mod_small. unfold MAX_ULONG in *. lia. }
      assert (Hgap : ULONG (Index + 1 - N.of_nat n) = Index + 1 - N.of_nat n).
      { unfold ULONG. apply N.mod_small. unfold MAX_ULONG in *. lia. }
      rewrite (bind_Done _ _ s true s2).
      2:{ cbv zeta.
          rewrite (bind_Done _ _ _ _ _
                     (ChalkReallocate_success _ s Pending Halloc)).
          cbn [negb]. rewrite HULONG, Hgap.
          rewrite (ArraySlots_small (Index + 1)) by done.
          rewrite (ArraySlots_small (Index + 1 - N.of_nat n))
            by (unfold sizeof_PVOID in *; lia).
          assert ((Index + 1 <? N.of_nat n + (Index + 1 - N.of_nat n)) = false)
            as -> by (apply N.ltb_ge; lia).
          rewrite Nat2N.id. unfold n at 1. rewrite firstn_all.
          replace (N.to_nat (Index + 1 - N.of_nat n))
            with (N.to_nat Index + 1 - n)%nat by lia.
          done. }
      cbn [negb].
      rewrite (bind_Done _ _ s2 l1 s2)
        by (apply ReadObject_Done; [done|]; simpl; by rewrite lookup_insert_eq).
      cbn [l1 SetPayload Payload].
      assert (Array1 !! N.to_nat Index = Some NULL) as ->.
      { unfold Array1. rewrite lookup_app_r by lia.
        apply lookup_replicate_2. lia. }
      assert ((NULL =? NULL) = true) as -> by done. cbn [negb].
      rewrite (bind_Done _ _ s2 tt s2) by done.
      rewrite (bind_Done _ _ s2 l1 s2)
        by (apply ReadObject_Done; [done|]; simpl; by rewrite lookup_insert_eq).
      cbn [l1 SetPayload Payload].
      rewrite (bind_Done _ _ s2 tt s3).
      2:{ unfold Store, s3, l2, l1, Array1, Array', SetPayload. simpl.
          by rewrite insert_beyond_end by lia. }
      rewrite (NULL_eqb Object) by done. cbn [negb].
      rewrite (bind_Done _ _ s3 tt _
                 (ChalkObjectAddReference_Done s3 Object v3 Hobject Hv3 Hvalid3
                    ltac:(lia))).
      done.
    - rewrite Hv3. do 2 f_equal. destruct v3. unfold SetReferenceCount. simpl.
      simpl in Hrc3. by rewrite Hrc3.
    - simpl. lia.
    - done.
    - intros Heq. simpl. by rewrite (Hsame Heq). }
  destruct Hset as (v' & Hrun & Hs3 & Hrc & Hvalid' & Hsame).
  assert (Hlist' : ∃ l', Heap (WithHeap s3 (<[Object := Obj v']> (Heap s3)))
                           !! ListObject = Some (Obj l') ∧
                         Payload l' = CHALK_LIST Array' (Index + 1)).
  { destruct (decide (Object = ListObject)) as [Heq|Hne].
    - exists v'. simpl. rewrite Heq at 1. rewrite lookup_insert_eq.
      split; [done|]. by rewrite (Hsame Heq).
    - exists l2. simpl. rewrite lookup_insert_ne by done.
      by rewrite lookup_insert_eq. }
  destruct Hlist' as (l' & Hl' & Hpay').
  exists (WithHeap s3 (<[Object := Obj v']> (Heap s3))), l', v', Array'.
  split; [done|]. split; [done|]. split; [done|]. split; [done|].
  split; [done|]. split.
  { intros j Hj. unfold Array'. by rewrite lookup_app_l by done. }
  split.
  { intros j Hj. unfold Array'. rewrite lookup_app_r by lia.
    rewrite lookup_app_l by (rewrite length_replicate; lia).
    apply lookup_replicate_2. lia. }
  split; [done|]. split; [by simpl; rewrite lookup_insert_eq|].
  split; [done|]. split.
  { intros p Hp1 Hp2. simpl. by rewrite !lookup_insert_ne by done. }
  split.
  - intros j Hj. unfold ChalkListLookup.
    erewrite bind_Done by by apply ReadObject_Done.
    rewrite Hpay'.
    destruct (N.leb_spec (Index + 1) j) as [|Hlt]; [done|].
    assert (Array' !! N.to_nat j = Some NULL) as ->.
    { unfold Array'. rewrite lookup_app_r by lia.
      rewrite lookup_app_l by (rewrite length_replicate; lia).
      apply lookup_replicate_2. lia. }
    done.
  - intros Hroom. unfold ChalkListLookup.
    erewrite bind_Done by by apply ReadObject_Done.
    rewrite Hpay'.
    assert ((Index + 1 <=? Index) = false) as -> by (apply N.leb_gt; lia).
    rewrite Hat. rewrite (NULL_eqb Object) by done. cbn [negb].
    erewrite bind_Done.
    2:{ apply (ChalkObjectAddReference_Done _ Object v'); try done.
        - by simpl; rewrite lookup_insert_eq.
        - lia. }
    by eexists.
Qed.

Lemma ChalkListSetElement_beyond_end_witness :
  (List ← ChalkCreateList None 3;
   Integer ← ChalkCreateInteger 7;
   mret (List, Integer)) InitialState = Done ((2, 3), ThreeHolesState) ∧
  ∃ s' l' v',
    ChalkListSetElement 0 2 5 3 ThreeHolesState = Done (0%Z, s') ∧
    Heap s' !! 2 = Some (Obj l') ∧
    Payload l' = CHALK_LIST [NULL; NULL; NULL; NULL; NULL; 3] 6 ∧
    Heap s' !! 3 = Some (Obj v') ∧
    ReferenceCount v' = 2 ∧
    ChalkListLookup 2 4 s' = Done (NULL, s').
Proof.
  split; [vm_compute; reflexivity|].
  destruct (ChalkListSetElement_beyond_end 0 ThreeHolesState 2 5 3
              {| ReferenceCount := 1;
                 Payload := CHALK_LIST [NULL; NULL; NULL] 3 |}
              {| ReferenceCount := 1; Payload := CHALK_INT 7 |}
              [NULL; NULL; NULL] [])
    as (s' & l' & v' & Array' & Hrun & Hlist & Hpay & Harray & _ & _ & _ & _
        & Hobject & Hcount & Hframe & Hholes & _);
    [done | reflexivity | reflexivity | done | by vm_compute | reflexivity
    | done | reflexivity | done | done |].
  exists s', l', v'. split; [done|]. split; [done|].
  split; [by rewrite Hpay, Harray|]. split; [done|]. split; [done|].
  apply Hholes. left. done.
Defined.

(** C5 (as the claim states it) fails at the index [0x40000000] on the list
    of three holes, the allocator returning memory: the reallocation is
    asked for [4 * 0x40000001] bytes, which is 4 as a UINTN, and zeroing
    the gap from slot 3 on runs past the end of that block.  The call
    does not return. *)
Lemma ChalkListSetElement_beyond_end_counterexample :
  NextAllocation (Allocations ThreeHolesState) = (true, []) ∧
  ChalkListSetElement 0 2 0x40000000 3 ThreeHolesState = Fault OutOfBounds ∧
  ¬ ∃ s' l' Array',
      ChalkListSetElement 0 2 0x40000000 3 ThreeHolesState = Done (0%Z, s') ∧
      Heap s' !! 2 = Some (Obj l') ∧
      Payload l' = CHALK_LIST Array' (0x40000000 + 1).
Proof.
  assert (Hrun : ChalkListSetElement 0 2 0x40000000 3 ThreeHolesState
                 = Fault OutOfBounds) by (vm_compute; reflexivity).
  split; [reflexivity|]. split; [exact Hrun|].
  intros (s' & l' & Array' & Hdone & _). rewrite Hrun in Hdone. discriminate.
Qed.

(** ** What releasing a reference leaves in place *)

Tactic Notation "bind_inv" hyp(H) "as" ident(a) ident(s) ident(Hs) :=
  apply bind_Done_inv in H as (a & s & Hs & H).

Lemma Keeps_refl (Except : N → Prop) (s : State) : Keeps Except s s.
Proof. split; [|split]; [eauto | eauto | done]. Qed.

Lemma Keeps_heap (Except : N → Prop) (s s' : State) :
  Heap s' = Heap s → Keeps Except s s'.
Proof. intros H. unfold Keeps. rewrite H. apply Keeps_refl. Qed.

Lemma Keeps_trans (Except : N → Prop) (s1 s2 s3 : State) :
  Keeps Except s1 s2 → Keeps Except s2 s3 → Keeps Except s1 s3.
Proof.
  intros (Ho1 & He1 & Hi1) (Ho2 & He2 & Hi2). split; [|split].
  - intros p o3 H3.
    destruct (Ho2 p o3 H3) as (o2 & H2 & Hp2).
    destruct (Ho1 p o2 H2) as (o1 & H1 & Hp1).
    exists o1. split; [done|]. intros Hx. rewrite Hp1, Hp2; done.
  - eauto.
  - intros p i. by rewrite Hi2, Hi1.
Qed.

Lemma Keeps_weaken (Except Except' : N → Prop) (s s' : State) :
  (∀ p, Except p → Except' p) → Keeps Except s s' → Keeps Except' s s'.
Proof.
  intros Hsub (Ho & He & Hi). split; [|split]; [|done|done].
  intros p o' H'. destruct (Ho p o' H') as (o & H & Hp).
  exists o. split; [done|]. intros Hx. apply Hp. eauto.
Qed.

Lemma Keeps_Store (Except : N → Prop) (s : State) (a : N)
    (o o' : CHALK_OBJECT) :
  Heap s !! a = Some (Obj o) →
  Except a ∨ Payload o = Payload o' →
  Keeps Except s (WithHeap s (<[a := Obj o']> (Heap s))).
Proof.
  intros Ha Hor. split; [|split]; simpl.
  - intros p o2. destruct (decide (a = p)) as [<-|Hne].
    + rewrite lookup_insert_eq. intros [= <-]. exists o. split; [done|].
      intros Hx. by destruct Hor.
    + rewrite lookup_insert_ne by done. eauto.
  - intros p e. destruct (decide (a = p)) as [<-|Hne].
    + by rewrite lookup_insert_eq.
    + by rewrite lookup_insert_ne.
  - intros p i. destruct (decide (a = p)) as [<-|Hne].
    + rewrite lookup_insert_eq, Ha. split; discriminate.
    + by rewrite lookup_insert_ne.
Qed.

Lemma Keeps_ChalkFree (Except : N → Prop) (s : State) (a : N) :
  (∀ i, Heap s !! a ≠ Some (DictIterator i)) →
  Keeps Except s (WithHeap s (delete a (Heap s))).
Proof.
  intros Ha. split; [|split]; simpl.
  - intros p o'. destruct (decide (a = p)) as [<-|Hne].
    + by rewrite lookup_delete_eq.
    + rewrite lookup_delete_ne by done. eauto.
  - intros p e. destruct (decide (a = p)) as [<-|Hne].
    + by rewrite lookup_delete_eq.
    + by rewrite lookup_delete_ne.
  - intros p i. destruct (decide (a = p)) as [<-|Hne].
    + rewrite lookup_delete_eq. split; [discriminate|]. intros H. by apply Ha in H.
    + by rewrite lookup_delete_ne.
Qed.

Lemma Keeps_iterator_free (Except : N → Prop) (s s' : State) (a : N) :
  Keeps Except s s' →
  (∀ i, Heap s !! a ≠ Some (DictIterator i)) →
  ∀ i, Heap s' !! a ≠ Some (DictIterator i).
Proof. intros (_ & _ & Hi) Ha i H'. apply Hi in H'. by apply Ha in H'. Qed.

Section ReleaseFrame.

Variable Release : N → M unit.

Hypothesis Release_Keeps :
  ∀ a s s' u, Release a s = Done (u, s') → Keeps Nowhere s s'.

Lemma Release_Keeps_any (Except : N → Prop) a s s' u :
  Release a s = Done (u, s') → Keeps Except s s'.
Proof.
  intros H. apply (Keeps_weaken Nowhere); [done|]. by eapply Release_Keeps.
Qed.

Lemma OptionalRelease_Keeps (Except : N → Prop) (b : bool) a s s' u :
  (if b then Release a else mret tt) s = Done (u, s') → Keeps Except s s'.
Proof.
  destruct b; [apply Release_Keeps_any|].
  intros [= _ ->]. apply Keeps_refl.
Qed.

Lemma ChalkDestroyDictEntry_Keeps (Dict Entry : N) s s' u :
  ChalkDestroyDictEntry Release Dict Entry s = Done (u, s') →
  Keeps (λ p, p = Dict) s s'.
Proof.
  unfold ChalkDestroyDictEntry. intros H.
  bind_inv H as e s0 Hread. apply ReadEntry_inv in Hread as (-> & _ & He).
  bind_inv H as d s0 Hread. apply ReadObject_inv in Hread as (-> & _ & Hd).
  bind_inv H as u1 s1 Hunlink.
  assert (Hstore : Keeps (λ p, p = Dict) s s1).
  { destruct (Payload d); try discriminate.
    injection Hunlink as _ <-. eapply Keeps_Store; eauto. }
  bind_inv H as u2 s2 Hkey.
  apply (Release_Keeps_any (λ p, p = Dict)) in Hkey.
  bind_inv H as u3 s3 Hvalue.
  apply (OptionalRelease_Keeps (λ p, p = Dict)) in Hvalue.
  injection H as _ <-.
  assert (Hall : Keeps (λ p, p = Dict) s s3)
    by eauto using Keeps_trans.
  eapply Keeps_trans; [exact Hall|].
  apply Keeps_ChalkFree. eapply Keeps_iterator_free; [exact Hall|].
  intros i. rewrite He. discriminate.
Qed.

Lemma ChalkDestroyDict_Keeps (Rounds : nat) (Dict : N) s s' u :
  ChalkDestroyDict Release Rounds Dict s = Done (u, s') →
  Keeps (λ p, p = Dict) s s'.
Proof.
  revert s. induction Rounds as [|Rounds IH]; intros s H; simpl in H.
  - bind_inv H as d s0 Hread. apply ReadObject_inv in Hread as (-> & _ & _).
    destruct (Payload d) as [| | | |[|Entry Rest] Count Generation| |];
      try discriminate.
    apply assert_inv in H as (-> & _). apply Keeps_refl.
  - bind_inv H as d s0 Hread. apply ReadObject_inv in Hread as (-> & _ & _).
    destruct (Payload d) as [| | | |[|Entry Rest] Count Generation| |];
      try discriminate.
    { apply assert_inv in H as (-> & _). apply Keeps_refl. }
    bind_inv H as u1 s1 Hentry. apply ChalkDestroyDictEntry_Keeps in Hentry.
    bind_inv H as d' s0 Hread. apply ReadObject_inv in Hread as (-> & _ & Hd).
    bind_inv H as u2 s2 Hcount.
    assert (Hstore : Keeps (λ p, p = Dict) s1 s2).
    { destruct (Payload d'); try discriminate.
      injection Hcount as _ <-. eapply Keeps_Store; eauto. }
    apply IH in H. eauto using Keeps_trans.
Qed.

Lemma ChalkDestroyListFrom_Keeps (List : N) (Array : list N) (Index : N)
    s s' u :
  ChalkDestroyListFrom Release List Array Index s = Done (u, s') →
  Keeps (λ p, p = List) s s'.
Proof.
  revert Index s. induction Array as [|Element Rest IH]; intros Index s H;
    simpl in H.
  - bind_inv H as l s0 Hread. apply ReadObject_inv in Hread as (-> & _ & _).
    destruct (Payload l); try discriminate.
    destruct (Index <? Count); [discriminate|].
    injection H as _ <-. apply Keeps_refl.
  - bind_inv H as l s0 Hread. apply ReadObject_inv in Hread as (-> & _ & _).
    destruct (Payload l); try discriminate.
    destruct (Index <? Count).
    + bind_inv H as u1 s1 Helement.
      apply (OptionalRelease_Keeps (λ p, p = List)) in Helement.
      apply IH in H. eauto using Keeps_trans.
    + injection H as _ <-. apply Keeps_refl.
Qed.

Lemma ChalkGutObject_Keeps (Rounds : nat) (Object : N) s s' u :
  ChalkGutObject Release Rounds Object s = Done (u, s') →
  Keeps (λ p, p = Object) s s'.
Proof.
  unfold ChalkGutObject. intros H.
  bind_inv H as o s0 Hread. apply ReadObject_inv in Hread as (-> & _ & _).
  bind_inv H as u1 s1 Hgut.
  assert (Hkeeps : Keeps (λ p, p = Object) s s1).
  { destruct (Payload o) as [| | | | | |Arguments Body Script].
    - discriminate.
    - bind_inv Hgut as u2 s2 Hprint. discriminate.
    - injection Hgut as _ <-. apply Keeps_refl.
    - injection Hgut as _ <-. apply Keeps_refl.
    - by apply ChalkDestroyDict_Keeps in Hgut.
    - unfold ChalkDestroyList in Hgut. bind_inv Hgut as l s2 Hread.
      apply ReadObject_inv in Hread as (-> & _ & _).
      destruct (Payload l); try discriminate.
      by apply ChalkDestroyListFrom_Keeps in Hgut.
    - by apply (OptionalRelease_Keeps (λ p, p = Object)) in Hgut. }
  bind_inv H as o' s2 Hread. apply ReadObject_inv in Hread as (-> & _ & Ho).
  injection H as _ <-.
  eapply Keeps_trans; [exact Hkeeps|]. eapply Keeps_Store; eauto.
Qed.

End ReleaseFrame.

Lemma ChalkObjectReleaseReference_Keeps (fuel : nat) (Object : N) s s' u :
  ChalkObjectReleaseReference fuel Object s = Done (u, s') →
  Keeps Nowhere s s'.
Proof.
  revert Object s s' u. induction fuel as [|fuel IH]; intros Object s s' u H;
    [discriminate|].
  simpl in H.
  bind_inv H as o s0 Hread. apply ReadObject_inv in Hread as (-> & _ & Ho).
  bind_inv H as u1 s0 Hassert. apply assert_inv in Hassert as (-> & _).
  bind_inv H as u2 s0 Hassert. apply assert_inv in Hassert as (-> & _).
  bind_inv H as u3 s1 Hstore. injection Hstore as _ <-.
  set (s1 := WithHeap s _) in *.
  assert (Hstore : Keeps Nowhere s s1) by (eapply Keeps_Store; eauto).
  destruct (ULONG (ReferenceCount o + MAX_ULONG) =? 0).
  - bind_inv H as u4 s2 Hgut. apply (ChalkGutObject_Keeps _ IH) in Hgut.
    injection H as _ <-.
    assert (Hobj : ∃ o1, Heap s1 !! Object = Some (Obj o1))
      by (eexists; simpl; by rewrite lookup_insert_eq).
    destruct Hobj as (o1 & Hobj).
    destruct Hstore as (Ho1 & He1 & Hi1). destruct Hgut as (Ho2 & He2 & Hi2).
    split; [|split]; simpl.
    + intros p o'. destruct (decide (Object = p)) as [<-|Hne].
      { by rewrite lookup_delete_eq. }
      rewrite lookup_delete_ne by done. intros H3.
      destruct (Ho2 p o' H3) as (o2 & H2 & Hp2).
      destruct (Ho1 p o2 H2) as (o0 & H0 & Hp0).
      exists o0. split; [done|]. intros _.
      rewrite Hp0 by (by intros []). apply Hp2. congruence.
    + intros p e. destruct (decide (Object = p)) as [<-|Hne].
      { by rewrite lookup_delete_eq. }
      rewrite lookup_delete_ne by done. eauto.
    + intros p i. destruct (decide (Object = p)) as [<-|Hne].
      { rewrite lookup_delete_eq, Ho. split; discriminate. }
      rewrite lookup_delete_ne by done. by rewrite Hi2, Hi1.
  - injection H as _ <-. done.
Qed.

(** ** Setting a dictionary element *)

Lemma ChalkDictNewEntry_Done (s : State) (DictObject KeyObject : N)
    (d k : CHALK_OBJECT) (EntryList : list N) (Count Generation : N)
    (Pending : list bool) :
  DictObject ≠ NULL →
  Heap s !! DictObject = Some (Obj d) →
  Payload d = CHALK_DICT EntryList Count Generation →
  KeyObject ≠ NULL →
  Heap s !! KeyObject = Some (Obj k) →
  HeaderType k ≠ ChalkObjectInvalid →
  DictObject ≠ KeyObject →
  0 < ReferenceCount k < 0x10000000 →
  NextAllocation (Allocations s) = (true, Pending) →
  ChalkDictNewEntry DictObject KeyObject s
    = Done (FreshAddress (Heap s),
            {| Heap := HeapWithNewEntry (Heap s) DictObject KeyObject d k
                         EntryList Count Generation;
               Allocations := Pending; Stderr := Stderr s |}).
Proof.
  intros Hd Hdict Hpay Hk Hkey Hvalid Hne Hrange Halloc.
  destruct (FreshAddress_spec (Heap s)) as (Hfresh & Hnull & _).
  assert (Hek : FreshAddress (Heap s) ≠ KeyObject) by congruence.
  assert (Hed : FreshAddress (Heap s) ≠ DictObject) by congruence.
  unfold ChalkDictNewEntry.
  rewrite (bind_Done _ _ _ _ _ (ChalkAllocate_success s Pending Halloc)).
  rewrite NULL_eqb by done.
  set (s1 := {| Heap := <[FreshAddress (Heap s) := Raw]> (Heap s);
                Allocations := Pending; Stderr := Stderr s |}).
  set (s2 := WithHeap s1
               (<[FreshAddress (Heap s) :=
                    DictEntry {| Key := KeyObject; Value := NULL |}]> (Heap s))).
  rewrite (bind_Done _ _ s1 tt s2)
    by (unfold Store, s2, s1, WithHeap; simpl; by rewrite insert_insert_eq).
  erewrite bind_Done.
  2:{ apply (ChalkObjectAddReference_Done s2 KeyObject k); try done.
      simpl. by rewrite lookup_insert_ne. }
  erewrite bind_Done.
  2:{ apply (ReadObject_Done _ DictObject d); [done|]. simpl.
      by rewrite lookup_insert_ne, lookup_insert_ne. }
  rewrite Hpay. reflexivity.
Qed.

Lemma ChalkDictNewEntry_inv (s s1 : State) (DictObject KeyObject Entry : N)
    (d k : CHALK_OBJECT) (EntryList : list N) (Count Generation : N) :
  Heap s !! DictObject = Some (Obj d) →
  Payload d = CHALK_DICT EntryList Count Generation →
  Heap s !! KeyObject = Some (Obj k) →
  DictObject ≠ KeyObject →
  ChalkDictNewEntry DictObject KeyObject s = Done (Entry, s1) →
  (Entry = NULL ∧ Heap s1 = Heap s) ∨
  (Entry = FreshAddress (Heap s) ∧
   Heap s1 = HeapWithNewEntry (Heap s) DictObject KeyObject d k
               EntryList Count Generation).
Proof.
  intros Hdict Hpay Hkey Hne H.
  destruct (FreshAddress_spec (Heap s)) as (Hfresh & Hnull & _).
  assert (Hek : FreshAddress (Heap s) ≠ KeyObject) by congruence.
  assert (Hed : FreshAddress (Heap s) ≠ DictObject) by congruence.
  unfold ChalkDictNewEntry in H.
  bind_inv H as e s0 Halloc. unfold ChalkAllocate in Halloc.
  destruct (NextAllocation (Allocations s)) as [[|] Pending].
  - injection Halloc as <- <-. rewrite NULL_eqb in H by done.
    bind_inv H as u1 s2 Hstore. injection Hstore as _ <-.
    bind_inv H as u2 s3 Hadd.
    apply ChalkObjectAddReference_inv in Hadd
      as (k' & _ & Hk' & _ & _ & ->).
    simpl in Hk'. rewrite lookup_insert_ne, lookup_insert_ne in Hk' by done.
    rewrite Hkey in Hk'. injection Hk' as <-.
    bind_inv H as d' s4 Hread. apply ReadObject_inv in Hread as (-> & _ & Hd').
    simpl in Hd'.
    rewrite lookup_insert_ne, lookup_insert_ne, lookup_insert_ne in Hd'
      by done.
    rewrite Hdict in Hd'. injection Hd' as <-. rewrite Hpay in H.
    injection H as <- <-. right. split; [done|].
    simpl. unfold HeapWithNewEntry. by rewrite insert_insert_eq.
  - injection Halloc as <- <-. injection H as <- <-. by left.
Qed.

Lemma SameIterators_refl h : SameIterators h h.
Proof. by intros p i. Qed.

Lemma SameIterators_trans h1 h2 h3 :
  SameIterators h1 h2 → SameIterators h2 h3 → SameIterators h1 h3.
Proof. intros H12 H23 p i. etransitivity; [apply H23 | apply H12]. Qed.

Lemma SameIterators_insert h a b :
  NotIterator (h !! a) → NotIterator (Some b) →
  SameIterators h (<[a := b]> h).
Proof.
  intros Ha Hb p i. destruct (decide (a = p)) as [<-|Hne].
  - rewrite lookup_insert_eq. split; intros H; [by apply Hb in H|].
    by apply Ha in H.
  - by rewrite lookup_insert_ne.
Qed.

Lemma Keeps_SameIterators Except s s' :
  Keeps Except s s' → SameIterators (Heap s) (Heap s').
Proof. by intros (_ & _ & H). Qed.

Lemma NotIterator_Obj o : NotIterator (Some (Obj o)).
Proof. intros i. discriminate. Qed.

Lemma NotIterator_DictEntry e : NotIterator (Some (DictEntry e)).
Proof. intros i. discriminate. Qed.

Lemma NotIterator_None : NotIterator None.
Proof. intros i. discriminate. Qed.

Lemma NotIterator_eq b b' : b = b' → NotIterator b' → NotIterator b.
Proof. by intros ->. Qed.

Lemma ChalkObjectAddReference_Keeps (Object : N) s s' u :
  ChalkObjectAddReference Object s = Done (u, s') → Keeps Nowhere s s'.
Proof.
  intros H. apply ChalkObjectAddReference_inv in H
    as (o & _ & Ho & _ & _ & ->).
  eapply Keeps_Store; eauto.
Qed.

Lemma HeapWithNewEntry_SameIterators h DictObject KeyObject d k
    EntryList Count Generation :
  h !! DictObject = Some (Obj d) →
  h !! KeyObject = Some (Obj k) →
  SameIterators h
    (HeapWithNewEntry h DictObject KeyObject d k EntryList Count Generation).
Proof.
  intros Hd Hk. destruct (FreshAddress_spec h) as (Hfresh & _).
  assert (Hek : FreshAddress h ≠ KeyObject) by congruence.
  assert (Hed : FreshAddress h ≠ DictObject) by congruence.
  unfold HeapWithNewEntry.
  set (h1 := <[FreshAddress h :=
                 DictEntry {| Key := KeyObject; Value := NULL |}]> h).
  set (h2 := <[KeyObject :=
                 Obj (SetReferenceCount k (ReferenceCount k + 1))]> h1).
  assert (H1 : SameIterators h h1).
  { apply SameIterators_insert.
    - rewrite Hfresh. apply NotIterator_None.
    - apply NotIterator_DictEntry. }
  assert (H2 : SameIterators h1 h2).
  { apply SameIterators_insert.
    - unfold h1. rewrite lookup_insert_ne, Hk by done. apply NotIterator_Obj.
    - apply NotIterator_Obj. }
  eapply SameIterators_trans; [exact H1|].
  eapply SameIterators_trans; [exact H2|].
  apply SameIterators_insert; [|apply NotIterator_Obj].
  unfold h2, h1. destruct (decide (KeyObject = DictObject)) as [->|Hne].
  - rewrite lookup_insert_eq. apply NotIterator_Obj.
  - rewrite lookup_insert_ne, lookup_insert_ne, Hd by done.
    apply NotIterator_Obj.
Qed.

Lemma ChalkDictSetElement_inv (fuel : nat) (s s' : State)
    (DictObject KeyObject ValueObject : N) (LValue : bool)
    (Status : Z) (Slot : N) :
  ChalkDictSetElement fuel DictObject KeyObject ValueObject LValue s
    = Done ((Status, Slot), s') →
  ∃ d EntryList Count Generation Found,
    DictObject ≠ NULL ∧
    Heap s !! DictObject = Some (Obj d) ∧
    Payload d = CHALK_DICT EntryList Count Generation ∧
    SameIterators (Heap s) (Heap s') ∧
    (Status ≠ EINVAL →
     ChalkDictLookup fuel (Heap s) DictObject KeyObject = Done Found ∧
     ∃ k, Heap s !! KeyObject = Some (Obj k) ∧
          (HeaderType k = ChalkObjectInteger ∨
           HeaderType k = ChalkObjectString)) ∧
    SetElementOutcome s s' DictObject KeyObject ValueObject
      EntryList Count Generation Status Found.
Proof.
  unfold ChalkDictSetElement. intros H.
  bind_inv H as d s0 Hread. apply ReadObject_inv in Hread as (-> & Hd & Hdict).
  bind_inv H as u1 s0 Hassert. apply assert_inv in Hassert as (-> & Htype).
  apply IsType_true in Htype. unfold HeaderType in Htype.
  destruct (Payload d) as [| | | |EntryList Count Generation| |] eqn:Hpay;
    try discriminate.
  bind_inv H as u2 s0 Hassert. apply assert_inv in Hassert as (-> & Hk).
  apply negb_true_iff, N.eqb_neq in Hk.
  bind_inv H as k s0 Hread. apply ReadObject_inv in Hread as (-> & _ & Hkey).
  exists d, EntryList, Count, Generation.
  destruct (negb (IsType k ChalkObjectInteger)
            && negb (IsType k ChalkObjectString)) eqn:Hkind.
  { bind_inv H as u3 s1 Hprint. injection Hprint as _ <-.
    injection H as <- <- <-. exists NULL.
    apply andb_true_iff in Hkind as [Hint Hstr].
    apply negb_true_iff, IsType_false in Hint, Hstr.
    split; [done|]. split; [done|]. split; [done|].
    split; [apply SameIterators_refl|]. split; [done|].
    by eapply KeyRejected. }
  assert (Hne : DictObject ≠ KeyObject).
  { intros ->. rewrite Hdict in Hkey. injection Hkey as <-.
    unfold IsType, HeaderType in Hkind. by rewrite Hpay in Hkind. }
  assert (Hvalid : HeaderType k = ChalkObjectInteger ∨
                   HeaderType k = ChalkObjectString).
  { apply andb_false_iff in Hkind.
    rewrite !negb_false_iff, !IsType_true in Hkind. done. }
  clear Hkind.
  bind_inv H as Found s0 Hlookup.
  apply read_inv in Hlookup as (-> & Hlookup).
  assert (Hkeyed : ChalkDictLookup fuel (Heap s) DictObject KeyObject
                     = Done Found ∧
                   ∃ k, Heap s !! KeyObject = Some (Obj k) ∧
                        (HeaderType k = ChalkObjectInteger ∨
                         HeaderType k = ChalkObjectString)) by eauto.
  exists Found. split; [done|]. split; [done|]. split; [done|].
  bind_inv H as Entry s1 Hentry.
  destruct (FreshAddress_spec (Heap s)) as (Hfresh & Hnull & _).
  destruct (N.eqb_spec Found NULL) as [->|Hfound].
  - apply (ChalkDictNewEntry_inv s s1 DictObject KeyObject Entry d k
             EntryList Count Generation Hdict Hpay Hkey Hne) in Hentry
      as [[-> Hs1]|[-> Hs1]].
    { injection H as <- <- <-.
      split; [rewrite Hs1; apply SameIterators_refl|].
      split; [done|]. by apply NoMemory. }
    rewrite NULL_eqb in H by done.
    bind_inv H as u3 s2 Hadd.
    pose proof (ChalkObjectAddReference_Keeps _ _ _ _ Hadd) as Hkeep.
    bind_inv H as e s0 Hread. apply ReadEntry_inv in Hread as (-> & _ & He).
    assert (Hentry1 : Heap s1 !! FreshAddress (Heap s)
                      = Some (DictEntry {| Key := KeyObject; Value := NULL |})).
    { rewrite Hs1. unfold HeapWithNewEntry.
      rewrite lookup_insert_ne, lookup_insert_ne by congruence.
      by rewrite lookup_insert_eq. }
    destruct Hkeep as (Ho & Hentries & Hiter).
    apply Hentries in He as He1. rewrite Hentry1 in He1.
    injection He1 as <-. cbn [Value] in H.
    assert ((NULL =? NULL) = true) as Hnn by done. rewrite Hnn in H.
    cbn [negb] in H.
    bind_inv H as u4 s3 Hskip. injection Hskip as _ <-.
    bind_inv H as e' s0 Hread. apply ReadEntry_inv in Hread as (-> & _ & He').
    rewrite He in He'. injection He' as <-.
    bind_inv H as u5 s4 Hstore. injection Hstore as _ <-.
    injection H as <- _ <-.
    split; [|split; [done|]].
    + eapply SameIterators_trans;
        [by apply (HeapWithNewEntry_SameIterators (Heap s) DictObject KeyObject
                     d k EntryList Count Generation)|].
      rewrite <- Hs1.
      eapply SameIterators_trans; [exact Hiter|].
      apply SameIterators_insert; [|apply NotIterator_DictEntry].
      rewrite He. apply NotIterator_DictEntry.
    + assert (Hd2 : ∃ d2, Heap s2 !! DictObject = Some (Obj d2) ∧
                Payload d2 = CHALK_DICT (EntryList ++ [FreshAddress (Heap s)])
                               (ULONG (Count + 1)) (UINTN (Generation + 1))).
      { apply ChalkObjectAddReference_inv in Hadd
          as (v & _ & Hv & _ & _ & ->). simpl.
        assert (Hd1 : Heap s1 !! DictObject
                      = Some (Obj (SetPayload d
                           (CHALK_DICT (EntryList ++ [FreshAddress (Heap s)])
                              (ULONG (Count + 1)) (UINTN (Generation + 1)))))).
        { rewrite Hs1. unfold HeapWithNewEntry. by rewrite lookup_insert_eq. }
        destruct (decide (ValueObject = DictObject)) as [->|Hvd].
        - rewrite lookup_insert_eq. rewrite Hd1 in Hv. injection Hv as <-.
          eexists. split; [done|]. done.
        - rewrite lookup_insert_ne by done. eauto. }
      destruct Hd2 as (d2 & Hd2 & Hpay2).
      apply (KeyInserted _ _ _ _ _ _ _ _ d2); simpl.
      * done.
      * by rewrite lookup_insert_eq.
      * rewrite lookup_insert_ne; [done|]. intros Heq.
        rewrite <- Heq, He in Hd2. discriminate.
      * done.
      * intros p e0 Hp. rewrite lookup_insert_ne by done. intros Hp2.
        apply Hentries in Hp2. rewrite Hs1 in Hp2. unfold HeapWithNewEntry in Hp2.
        destruct (decide (DictObject = p)) as [<-|Hdp];
          [by rewrite lookup_insert_eq in Hp2|].
        rewrite lookup_insert_ne in Hp2 by done.
        destruct (decide (KeyObject = p)) as [<-|Hkp];
          [by rewrite lookup_insert_eq in Hp2|].
        rewrite lookup_insert_ne in Hp2 by done.
        by rewrite lookup_insert_ne in Hp2.
  - injection Hentry as <- <-. rewrite NULL_eqb in H by done.
    bind_inv H as u3 s2 Hadd.
    pose proof (ChalkObjectAddReference_Keeps _ _ _ _ Hadd) as Hkeep2.
    bind_inv H as e s0 Hread. apply ReadEntry_inv in Hread as (-> & _ & He).
    bind_inv H as u4 s3 Hrelease.
    assert (Hkeep3 : Keeps Nowhere s2 s3).
    { destruct (negb (Value e =? NULL)).
      - by apply ChalkObjectReleaseReference_Keeps in Hrelease.
      - injection Hrelease as _ <-. apply Keeps_refl. }
    bind_inv H as e' s0 Hread. apply ReadEntry_inv in Hread as (-> & _ & He').
    bind_inv H as u5 s4 Hstore. injection Hstore as _ <-.
    injection H as <- _ <-.
    pose proof (Keeps_trans _ _ _ _ Hkeep2 Hkeep3) as (Ho & Hentries & Hiter).
    apply Hentries in He' as He0.
    split; [|split; [done|]].
    + eapply SameIterators_trans; [exact Hiter|].
      apply SameIterators_insert; [|apply NotIterator_DictEntry].
      rewrite He'. apply NotIterator_DictEntry.
    + apply (ValueReplaced _ _ _ _ _ _ _ _ Found e'); simpl.
      * done.
      * done.
      * by rewrite lookup_insert_eq.
      * intros d'. destruct (decide (Found = DictObject)) as [->|Hfd].
        { by rewrite lookup_insert_eq. }
        rewrite lookup_insert_ne by done. intros Hd'.
        destruct (Ho _ _ Hd') as (d0 & Hd0 & Hsame).
        rewrite Hdict in Hd0. injection Hd0 as <-.
        rewrite <- Hsame by (by intros []). done.
      * intros p e0 Hp. rewrite lookup_insert_ne by done. apply Hentries.
Qed.

Lemma ChalkDictSetElement_insert_Done (fuel : nat) (s : State)
    (DictObject KeyObject ValueObject : N) (LValue : bool)
    (d k v : CHALK_OBJECT) (EntryList : list N) (Count Generation : N)
    (Pending : list bool) :
  DictObject ≠ NULL →
  Heap s !! DictObject = Some (Obj d) →
  Payload d = CHALK_DICT EntryList Count Generation →
  KeyObject ≠ NULL →
  Heap s !! KeyObject = Some (Obj k) →
  HeaderType k = ChalkObjectInteger ∨ HeaderType k = ChalkObjectString →
  0 < ReferenceCount k < 0x10000000 →
  ChalkDictLookup fuel (Heap s) DictObject KeyObject = Done NULL →
  NextAllocation (Allocations s) = (true, Pending) →
  ValueObject ≠ NULL →
  Heap s !! ValueObject = Some (Obj v) →
  HeaderType v ≠ ChalkObjectInvalid →
  0 < ReferenceCount v ∧ ReferenceCount v + 1 < 0x10000000 →
  ∃ s',
    ChalkDictSetElement fuel DictObject KeyObject ValueObject LValue s
      = Done ((0%Z, if LValue then FreshAddress (Heap s) else NULL), s').
Proof.
  intros Hd Hdict Hpay Hk Hkey Hkind Hkrange Hlookup Halloc Hv Hvalue Hvalid
    Hvrange.
  destruct (FreshAddress_spec (Heap s)) as (Hfresh & Hnull & _).
  assert (Hne : DictObject ≠ KeyObject).
  { intros ->. rewrite Hdict in Hkey. injection Hkey as <-.
    unfold HeaderType in Hkind. rewrite Hpay in Hkind.
    by destruct Hkind. }
  assert (Hkvalid : HeaderType k ≠ ChalkObjectInvalid)
    by (destruct Hkind as [-> | ->]; discriminate).
  unfold ChalkDictSetElement.
  rewrite (bind_Done _ _ s d s) by by apply ReadObject_Done.
  assert (IsType d ChalkObjectDict = true) as ->
    by (apply IsType_true; unfold HeaderType; by rewrite Hpay).
  simpl assert. rewrite (bind_Done _ _ s tt s) by done.
  rewrite (NULL_eqb KeyObject) by done. simpl assert.
  rewrite (bind_Done _ _ s tt s) by done.
  rewrite (bind_Done _ _ s k s) by by apply ReadObject_Done.
  assert (negb (IsType k ChalkObjectInteger)
          && negb (IsType k ChalkObjectString) = false) as ->.
  { apply andb_false_iff. rewrite !negb_false_iff, !IsType_true.
    destruct Hkind; eauto. }
  rewrite (bind_Done _ _ s NULL s) by (unfold read; by rewrite Hlookup).
  assert ((NULL =? NULL) = true) as -> by done.
  erewrite bind_Done
    by (eapply ChalkDictNewEntry_Done; eauto).
  rewrite NULL_eqb by done.
  set (s1 := {| Heap := HeapWithNewEntry _ _ _ _ _ _ _ _ |}).
  assert (Hentry1 : Heap s1 !! FreshAddress (Heap s)
                    = Some (DictEntry {| Key := KeyObject; Value := NULL |})).
  { simpl. unfold HeapWithNewEntry.
    rewrite lookup_insert_ne, lookup_insert_ne by congruence.
    by rewrite lookup_insert_eq. }
  assert (Hv1 : ∃ v1, Heap s1 !! ValueObject = Some (Obj v1) ∧
                      HeaderType v1 ≠ ChalkObjectInvalid ∧
                      0 < ReferenceCount v1 < 0x10000000).
  { simpl. unfold HeapWithNewEntry.
    destruct (decide (DictObject = ValueObject)) as [<-|Hdv].
    { rewrite lookup_insert_eq. eexists. split; [done|].
      rewrite Hdict in Hvalue. injection Hvalue as <-.
      split; [done|]. simpl. lia. }
    rewrite lookup_insert_ne by done.
    destruct (decide (KeyObject = ValueObject)) as [<-|Hkv].
    { rewrite lookup_insert_eq. eexists. split; [done|].
      rewrite Hkey in Hvalue. injection Hvalue as <-.
      split; [done|]. simpl. lia. }
    rewrite lookup_insert_ne by done.
    rewrite lookup_insert_ne by congruence.
    exists v. split; [done|]. split; [done|]. lia. }
  destruct Hv1 as (v1 & Hv1 & Hvalid1 & Hrange1).
  rewrite (bind_Done _ _ _ _ _
             (ChalkObjectAddReference_Done s1 ValueObject v1 Hv Hv1 Hvalid1
                Hrange1)).
  assert (Hev : ValueObject ≠ FreshAddress (Heap s)) by congruence.
  erewrite bind_Done.
  2:{ apply ReadEntry_Done; [done|]. simpl.
      rewrite lookup_insert_ne by done. exact Hentry1. }
  cbn [Value]. assert ((NULL =? NULL) = true) as -> by done. cbn [negb].
  erewrite bind_Done by done.
  erewrite bind_Done.
  2:{ apply ReadEntry_Done; [done|]. simpl.
      rewrite lookup_insert_ne by done. exact Hentry1. }
  eexists. reflexivity.
Qed.

(** ** Dictionary iteration *)

Lemma UINTN_succ_ne (g : N) : UINTN (g + 1) ≠ g.
Proof.
  unfold UINTN, MAX_UINTN. intros H.
  pose proof (N.mod_upper_bound (g + 1) (0xFFFFFFFF + 1) ltac:(lia)) as Hlt.
  destruct (decide (g + 1 < 0xFFFFFFFF + 1)) as [Hsmall|Hbig].
  - rewrite N.mod_small in H by done. lia.
  - destruct (decide (g + 1 = 0xFFFFFFFF + 1)) as [Heq|Hne].
    + rewrite Heq, N.Div0.mod_same in H. lia.
    + lia.
Qed.

Lemma UINTN_succ (g : N) : g < MAX_UINTN → UINTN (g + 1) = g + 1.
Proof. intros H. unfold UINTN, MAX_UINTN in *. apply N.mod_small. lia. Qed.

Lemma ChalkDictInitializeIterator_Done (s : State) (Dict : N)
    (d : CHALK_OBJECT) (EntryList : list N) (Count Generation : N)
    (Pending : list bool) :
  Dict ≠ NULL →
  Heap s !! Dict = Some (Obj d) →
  Payload d = CHALK_DICT EntryList Count Generation →
  NextAllocation (Allocations s) = (true, Pending) →
  ChalkDictInitializeIterator Dict s
    = Done ((0%Z, FreshAddress (Heap s)),
            {| Heap := <[FreshAddress (Heap s) :=
                           DictIterator
                             {| Next := match EntryList with
                                        | [] => NULL
                                        | First :: _ => First
                                        end;
                                IteratorGeneration := Generation |}]> (Heap s);
               Allocations := Pending; Stderr := Stderr s |}).
Proof.
  intros Hd Hdict Hpay Halloc. unfold ChalkDictInitializeIterator.
  rewrite (bind_Done _ _ s d s) by by apply ReadObject_Done.
  rewrite Hpay.
  rewrite (bind_Done _ _ _ _ _ (ChalkAllocate_success s Pending Halloc)).
  destruct (FreshAddress_spec (Heap s)) as (_ & Hnull & _).
  rewrite NULL_eqb by done.
  unfold mbind, M_bind, Store, WithHeap, mret, M_ret. simpl.
  by rewrite insert_insert_eq.
Qed.

Lemma ChalkDictIterate_changed (s : State) (Dict Context : N)
    (d : CHALK_OBJECT) (it : CHALK_DICT_ITERATOR) (EntryList : list N)
    (Count Generation : N) :
  Dict ≠ NULL →
  Heap s !! Dict = Some (Obj d) →
  Payload d = CHALK_DICT EntryList Count Generation →
  Context ≠ NULL →
  Heap s !! Context = Some (DictIterator it) →
  IteratorGeneration it ≠ Generation →
  ChalkDictIterate Dict Context s
    = Done ((ERANGE, None), Report s DictionaryChanged).
Proof.
  intros Hd Hdict Hpay Hc Hiter Hgen. unfold ChalkDictIterate.
  rewrite (bind_Done _ _ s d s) by by apply ReadObject_Done.
  rewrite Hpay.
  rewrite (bind_Done _ _ s it s) by by apply ReadIterator_Done.
  apply N.eqb_neq in Hgen. rewrite Hgen. reflexivity.
Qed.

(** The result of an iteration step whose generation check passes depends
    on the iterator, the entry list and the key of the next entry only. *)

Lemma ChalkDictIterate_unchanged (s : State) (Dict Context : N)
    (d : CHALK_OBJECT) (it : CHALK_DICT_ITERATOR) (EntryList : list N)
    (Count Generation : N) (r : Z * option N) (s' : State) :
  Heap s !! Dict = Some (Obj d) →
  Payload d = CHALK_DICT EntryList Count Generation →
  Heap s !! Context = Some (DictIterator it) →
  IteratorGeneration it = Generation →
  ChalkDictIterate Dict Context s = Done (r, s') →
  r.1 = 0%Z ∧
  (Next it = NULL ∧ r.2 = Some NULL ∨
   ∃ e Following, Next it ≠ NULL ∧
                  Heap s !! Next it = Some (DictEntry e) ∧
                  ListEntryNext (Next it) EntryList = Done Following ∧
                  r.2 = Some (Key e)).
Proof.
  intros Hdict Hpay Hiter Hgen H. unfold ChalkDictIterate in H.
  bind_inv H as d' s0 Hread. apply ReadObject_inv in Hread as (-> & _ & Hd').
  rewrite Hdict in Hd'. injection Hd' as <-. rewrite Hpay in H.
  bind_inv H as it' s0 Hread. apply ReadIterator_inv in Hread as (-> & _ & Hi').
  rewrite Hiter in Hi'. injection Hi' as <-.
  rewrite Hgen, N.eqb_refl in H. cbn [negb] in H.
  destruct (N.eqb_spec (Next it) NULL) as [Hnull|Hnext].
  - injection H as <- <-. split; [done|]. by left.
  - bind_inv H as e s0 Hread. apply ReadEntry_inv in Hread as (-> & _ & He).
    bind_inv H as Following s0 Hnextentry.
    apply read_inv in Hnextentry as (-> & Hfollowing).
    bind_inv H as u s1 Hstore. injection H as <- <-.
    split; [done|]. right. eauto 10.
Qed.

Lemma ChalkDictIterate_Done (s : State) (Dict Context : N)
    (d : CHALK_OBJECT) (it : CHALK_DICT_ITERATOR) (EntryList : list N)
    (Count Generation : N) (e : CHALK_DICT_ENTRY) (Following : N) :
  Dict ≠ NULL →
  Heap s !! Dict = Some (Obj d) →
  Payload d = CHALK_DICT EntryList Count Generation →
  Context ≠ NULL →
  Heap s !! Context = Some (DictIterator it) →
  IteratorGeneration it = Generation →
  (Next it = NULL ∧
   ChalkDictIterate Dict Context s = Done ((0%Z, Some NULL), s)) ∨
  (Next it ≠ NULL ∧
   (Heap s !! Next it = Some (DictEntry e) →
    ListEntryNext (Next it) EntryList = Done Following →
    ∃ s', ChalkDictIterate Dict Context s = Done ((0%Z, Some (Key e)), s'))).
Proof.
  intros Hd Hdict Hpay Hc Hiter Hgen. unfold ChalkDictIterate.
  rewrite (bind_Done _ _ s d s) by by apply ReadObject_Done.
  rewrite Hpay.
  rewrite (bind_Done _ _ s it s) by by apply ReadIterator_Done.
  rewrite Hgen, N.eqb_refl. cbn [negb].
  destruct (N.eqb_spec (Next it) NULL) as [Hnull|Hnext]; [by left|].
  right. split; [done|]. intros He Hfollowing.
  rewrite (bind_Done _ _ s e s) by by apply ReadEntry_Done.
  rewrite (bind_Done _ _ s Following s) by (unfold read; by rewrite Hfollowing).
  eexists. reflexivity.
Qed.

(** A step of an iterator that is at an entry and whose generation is that
    of the dictionary returns 0, stores the key of the entry, and moves the
    iterator to the node after the entry on the entry list. *)

Lemma ChalkDictIterate_advance (s : State) (Dict Context : N)
    (d : CHALK_OBJECT) (it : CHALK_DICT_ITERATOR) (EntryList : list N)
    (Count Generation : N) (e : CHALK_DICT_ENTRY) (Following : N) :
  Dict ≠ NULL →
  Heap s !! Dict = Some (Obj d) →
  Payload d = CHALK_DICT EntryList Count Generation →
  Context ≠ NULL →
  Heap s !! Context = Some (DictIterator it) →
  IteratorGeneration it = Generation →
  Next it ≠ NULL →
  Heap s !! Next it = Some (DictEntry e) →
  ListEntryNext (Next it) EntryList = Done Following →
  ChalkDictIterate Dict Context s
  = Done ((0%Z, Some (Key e)),
          WithHeap s
            (<[Context := DictIterator
                            {| Next := Following;
                               IteratorGeneration := IteratorGeneration it |}]>
               (Heap s))).
Proof.
  intros Hd Hdict Hpay Hc Hiter Hgen Hnext He Hfollowing.
  unfold ChalkDictIterate.
  rewrite (bind_Done _ _ s d s) by by apply ReadObject_Done.
  rewrite Hpay.
  rewrite (bind_Done _ _ s it s) by by apply ReadIterator_Done.
  rewrite Hgen, N.eqb_refl. cbn [negb].
  rewrite (NULL_eqb (Next it)) by done.
  rewrite (bind_Done _ _ s e s) by by apply ReadEntry_Done.
  rewrite (bind_Done _ _ s Following s) by (unfold read; by rewrite Hfollowing).
  reflexivity.
Qed.

(** C1: an iterator holds the generation of its dictionary at the time it
    was initialized.  (1) A step of an iterator whose generation differs
    from that of the dictionary returns ERANGE, after writing a message, and
    leaves the heap as it is.  (2) Initializing an iterator records the
    current generation.  (3) From a state in which the two generations
    agree, a [ChalkDictSetElement] that adds a key (the lookup of the key
    found no entry) makes the next step return ERANGE, the heap staying as
    the insertion left it.  (4) After a [ChalkDictSetElement] that replaces
    the value of a key already present, no step returns ERANGE; and when
    the dictionary and the entry the iterator is at are still allocated,
    the iteration goes on as if the value had not been replaced: the step
    returns what it would have returned; at the end of the list it returns
    0, stores NULL and changes nothing; at an entry it returns 0, stores
    the key of that entry, and moves the iterator to the node after it on
    the entry list, changing nothing else. *)
Theorem ChalkDictIterate_generation_check (fuel : nat) (s : State)
    (Dict Context : N) (d : CHALK_OBJECT) (it : CHALK_DICT_ITERATOR)
    (EntryList : list N) (Count Generation : N) :
  Dict ≠ NULL →
  Heap s !! Dict = Some (Obj d) →
  Payload d = CHALK_DICT EntryList Count Generation →
  Context ≠ NULL →
  Heap s !! Context = Some (DictIterator it) →
  (IteratorGeneration it ≠ Generation →
   ChalkDictIterate Dict Context s
     = Done ((ERANGE, None), Report s DictionaryChanged) ∧
   Heap (Report s DictionaryChanged) = Heap s) ∧
  (∀ Pending, NextAllocation (Allocations s) = (true, Pending) →
     ∃ NewContext s' it',
       ChalkDictInitializeIterator Dict s = Done ((0%Z, NewContext), s') ∧
       NewContext ≠ NULL ∧
       Heap s' !! NewContext = Some (DictIterator it') ∧
       IteratorGeneration it' = Generation ∧
       Heap s' !! Dict = Some (Obj d)) ∧
  (IteratorGeneration it = Generation →
   ∀ KeyObject ValueObject LValue Slot s1,
     ChalkDictSetElement fuel Dict KeyObject ValueObject LValue s
       = Done ((0%Z, Slot), s1) →
     (ChalkDictLookup fuel (Heap s) Dict KeyObject = Done NULL →
      ChalkDictIterate Dict Context s1
        = Done ((ERANGE, None), Report s1 DictionaryChanged) ∧
      Heap (Report s1 DictionaryChanged) = Heap s1) ∧
     (∀ Found,
        ChalkDictLookup fuel (Heap s) Dict KeyObject = Done Found →
        Found ≠ NULL →
        (∀ r s2, ChalkDictIterate Dict Context s1 = Done (r, s2) →
                 r.1 = 0%Z) ∧
        (∀ d1, Heap s1 !! Dict = Some (Obj d1) →
               (Next it ≠ NULL →
                ∃ e1, Heap s1 !! Next it = Some (DictEntry e1)) →
               (∀ r s2, ChalkDictIterate Dict Context s = Done (r, s2) →
                        ∃ s2', ChalkDictIterate Dict Context s1
                               = Done (r, s2')) ∧
               (Next it = NULL →
                ChalkDictIterate Dict Context s1
                = Done ((0%Z, Some NULL), s1)) ∧
               (∀ e Following,
                  Next it ≠ NULL →
                  Heap s !! Next it = Some (DictEntry e) →
                  ListEntryNext (Next it) EntryList = Done Following →
                  ChalkDictIterate Dict Context s1
                  = Done ((0%Z, Some (Key e)),
                          WithHeap s1
                            (<[Context :=
                                 DictIterator
                                   {| Next := Following;
                                      IteratorGeneration :=
                                        IteratorGeneration it |}]>
                               (Heap s1))))))).
Proof.
  intros Hd Hdict Hpay Hc Hiter. split; [|split].
  - intros Hgen. split; [|done]. by eapply ChalkDictIterate_changed.
  - intros Pending Halloc.
    destruct (FreshAddress_spec (Heap s)) as (Hfresh & Hnull & _).
    do 3 eexists. split; [by eapply ChalkDictInitializeIterator_Done|].
    split; [done|]. simpl. rewrite lookup_insert_eq. split; [done|].
    split; [done|]. rewrite lookup_insert_ne by congruence. done.
  - intros Hgen KeyObject ValueObject LValue Slot s1 Hset. subst Generation.
    apply ChalkDictSetElement_inv in Hset
      as (d0 & es0 & c0 & g0 & Found0 & _ & Hd0 & Hpay0 & Hiters & Hlookup0
          & Hout).
    rewrite Hdict in Hd0. injection Hd0 as <-.
    rewrite Hpay in Hpay0. injection Hpay0 as <- <- <-.
    destruct (Hlookup0 ltac:(discriminate)) as (Hlookup0' & _).
    clear Hlookup0. rename Hlookup0' into Hlookup0.
    assert (Hiter1 : Heap s1 !! Context = Some (DictIterator it))
      by by apply Hiters.
    split.
    + intros Hlookup. rewrite Hlookup0 in Hlookup. injection Hlookup as ->.
      split; [|done].
      inversion Hout as [| |d1 Hfresh Hentry Hd1 Hpay1 Hentries|
                         Found e Hfound]; subst; [|done].
      eapply ChalkDictIterate_changed; eauto.
      intros Heq. symmetry in Heq. by apply UINTN_succ_ne in Heq.
    + intros Found Hlookup Hfound. rewrite Hlookup0 in Hlookup.
      injection Hlookup as ->.
      inversion Hout as [| |d1 Hfresh|
                         Found' e _ He He1 Hd1 Hentries]; subst; [done|].
      split.
      * intros r s2 Hstep.
        unfold ChalkDictIterate in Hstep.
        bind_inv Hstep as d1 s0 Hread.
        apply ReadObject_inv in Hread as (-> & _ & Hdict1).
        eapply ChalkDictIterate_unchanged; eauto.
        unfold ChalkDictIterate.
        rewrite (bind_Done _ _ s1 d1 s1) by by apply ReadObject_Done.
        exact Hstep.
      * intros d1 Hdict1 Halive.
        pose proof (Hd1 d1 Hdict1) as Hpay1.
        assert (Hkeys : ∀ e0 e1, Heap s !! Next it = Some (DictEntry e0) →
                  Heap s1 !! Next it = Some (DictEntry e1) →
                  Key e1 = Key e0).
        { intros e0 e1 He0 He1'.
          destruct (decide (Next it = Found)) as [Heq|Hne].
          - rewrite Heq in *. rewrite He1 in He1'. injection He1' as <-.
            rewrite He in He0. injection He0 as <-. done.
          - apply Hentries in He1'; [|done]. rewrite He0 in He1'.
            by injection He1' as <-. }
        split; [|split].
        -- intros r s2 Hstep.
           destruct (ChalkDictIterate_unchanged _ _ _ _ _ _ _ _ _ _
                       Hdict Hpay Hiter eq_refl Hstep)
             as (Hr1 & [[Hnext Hr2]|(e0 & Following & Hnext & He0
                                     & Hfollowing & Hr2)]).
           ++ destruct (ChalkDictIterate_Done s1 Dict Context d1 it EntryList
                          Count _ e Found Hd Hdict1 Hpay1 Hc Hiter1 eq_refl)
                as [[_ Hrun]|[Hcontra _]]; [|done].
              exists s1. rewrite Hrun. destruct r as [r1 r2]. simpl in *.
              by subst.
           ++ destruct (Halive Hnext) as (e1 & He1').
              pose proof (Hkeys e0 e1 He0 He1') as Hkey.
              destruct (ChalkDictIterate_Done s1 Dict Context d1 it EntryList
                          Count _ e1 Following Hd Hdict1 Hpay1 Hc Hiter1
                          eq_refl)
                as [[Hcontra _]|[_ Hrun]]; [done|].
              destruct (Hrun He1' Hfollowing) as (s2' & Hrun').
              exists s2'. rewrite Hrun', Hkey. destruct r as [r1 r2].
              simpl in *. by subst.
        -- intros Hnext.
           destruct (ChalkDictIterate_Done s1 Dict Context d1 it EntryList
                       Count _ e Found Hd Hdict1 Hpay1 Hc Hiter1 eq_refl)
             as [[_ Hrun]|[Hcontra _]]; done.
        -- intros e0 Following Hnext He0 Hfollowing.
           destruct (Halive Hnext) as (e1 & He1').
           rewrite <- (Hkeys e0 e1 He0 He1').
           by apply (ChalkDictIterate_advance s1 Dict Context d1 it EntryList
                       Count (IteratorGeneration it)).
Qed.

Lemma ChalkDictIterate_generation_check_witness :
  (∃ s1,
     ChalkDictSetElement 1 2 7 8 false IteratingState
       = Done ((0%Z, NULL), s1) ∧
     ChalkDictIterate 2 6 s1
       = Done ((ERANGE, None), Report s1 DictionaryChanged)) ∧
  (∃ s1 s2,
     ChalkDictSetElement 1 2 3 8 false IteratingState
       = Done ((0%Z, NULL), s1) ∧
     ChalkDictIterate 2 6 s1 = Done ((0%Z, Some 3), s2) ∧
     Heap s2 !! 6
     = Some (DictIterator {| Next := NULL; IteratorGeneration := 1 |})).
Proof.
  destruct (ChalkDictIterate_generation_check 1 IteratingState 2 6
              {| ReferenceCount := 1; Payload := CHALK_DICT [5] 1 1 |}
              {| Next := 5; IteratorGeneration := 1 |} [5] 1 1)
    as (_ & _ & Hstep); [done | reflexivity | reflexivity | done
                        | reflexivity |].
  specialize (Hstep eq_refl). split.
  - assert (Hset : ∃ s1, ChalkDictSetElement 1 2 7 8 false IteratingState
                         = Done ((0%Z, NULL), s1))
      by (eexists; vm_compute; reflexivity).
    destruct Hset as (s1 & Hset). exists s1. split; [exact Hset|].
    apply (Hstep _ _ _ _ _ Hset). vm_compute. reflexivity.
  - assert (Hset : ∃ s1, ChalkDictSetElement 1 2 3 8 false IteratingState
                         = Done ((0%Z, NULL), s1) ∧
                         Heap s1 !! 2
                         = Some (Obj {| ReferenceCount := 1;
                                        Payload := CHALK_DICT [5] 1 1 |}) ∧
                         Heap s1 !! 5
                         = Some (DictEntry {| Key := 3; Value := 8 |}))
      by (eexists; vm_compute; repeat split; reflexivity).
    destruct Hset as (s1 & Hset & Hdict & Hentry). exists s1.
    destruct (Hstep _ _ _ _ _ Hset) as (_ & Hreplace).
    destruct (Hreplace 5) as (_ & Hsame); [vm_compute; reflexivity | done |].
    destruct (Hsame _ Hdict) as (_ & _ & Hadvance).
    { intros _. eexists. exact Hentry. }
    specialize (Hadvance {| Key := 3; Value := 4 |} NULL).
    eexists. split; [exact Hset|]. split.
    + apply Hadvance; [done | reflexivity | reflexivity].
    + cbn [Heap WithHeap]. apply lookup_insert_eq.
Defined.

(** ** The generation counter *)

Lemma ChalkDictOperation_generation (fuel : nat) (Dict : N)
    (op : DictOperation) (s s' : State) (u : unit) (d' : CHALK_OBJECT)
    (EntryList' : list N) (Count' Generation' : N) :
  ChalkDictOperation fuel Dict op s = Done (u, s') →
  Heap s' !! Dict = Some (Obj d') →
  Payload d' = CHALK_DICT EntryList' Count' Generation' →
  ∃ d EntryList Count Generation,
    Heap s !! Dict = Some (Obj d) ∧
    Payload d = CHALK_DICT EntryList Count Generation ∧
    (Generation' = Generation ∨ Generation' = UINTN (Generation + 1)).
Proof.
  intros H Hd' Hpay'.
  destruct op as [KeyObject ValueObject LValue|KeyObject| |Context|Context| |];
    simpl in H.
  - bind_inv H as r s1 Hset. injection H as _ <-. destruct r as [Status Slot].
    apply ChalkDictSetElement_inv in Hset
      as (d & es & c & g & Found & _ & Hd & Hpay & _ & _ & Hout).
    exists d, es, c, g. split; [done|]. split; [done|].
    destruct Hout as [k Hk Hint Hstr Hheap|Hheap|
                      d1 Hfresh Hentry Hd1 Hpay1 Hentries|
                      Found e Hfound He He1 Hd1 Hentries].
    + rewrite Hheap, Hd in Hd'. injection Hd' as <-.
      rewrite Hpay in Hpay'. injection Hpay' as _ _ <-. by left.
    + rewrite Hheap, Hd in Hd'. injection Hd' as <-.
      rewrite Hpay in Hpay'. injection Hpay' as _ _ <-. by left.
    + rewrite Hd1 in Hd'. injection Hd' as <-.
      rewrite Hpay1 in Hpay'. injection Hpay' as _ _ <-. by right.
    + rewrite (Hd1 _ Hd') in Hpay'. injection Hpay' as _ _ <-. by left.
  - bind_inv H as r s1 Hlookup. apply read_inv in Hlookup as (-> & _).
    injection H as _ <-. exists d', EntryList', Count', Generation'. eauto.
  - bind_inv H as r s1 Hinit. injection H as _ <-.
    unfold ChalkDictInitializeIterator in Hinit.
    bind_inv Hinit as d s0 Hread.
    apply ReadObject_inv in Hread as (-> & _ & Hd).
    destruct (Payload d) as [| | | |es c g| |] eqn:Hpay; try discriminate.
    exists d, es, c, g. split; [done|]. split; [done|].
    bind_inv Hinit as Iterator s0 Halloc. unfold ChalkAllocate in Halloc.
    destruct (FreshAddress_spec (Heap s)) as (Hfresh & Hnull & _).
    destruct (NextAllocation (Allocations s)) as [[|] Pending];
      injection Halloc as <- <-.
    + rewrite NULL_eqb in Hinit by done.
      bind_inv Hinit as u1 s2 Hstore. injection Hstore as _ <-.
      injection Hinit as _ <-. simpl in Hd'.
      rewrite lookup_insert_ne, lookup_insert_ne in Hd' by congruence.
      rewrite Hd in Hd'. injection Hd' as <-. rewrite Hpay in Hpay'.
      injection Hpay' as _ _ <-. by left.
    + injection Hinit as _ <-. simpl in Hd'.
      rewrite Hd in Hd'. injection Hd' as <-. rewrite Hpay in Hpay'.
      injection Hpay' as _ _ <-. by left.
  - bind_inv H as r s1 Hstep. injection H as _ <-.
    unfold ChalkDictIterate in Hstep.
    bind_inv Hstep as d s0 Hread.
    apply ReadObject_inv in Hread as (-> & _ & Hd).
    destruct (Payload d) as [| | | |es c g| |] eqn:Hpay; try discriminate.
    exists d, es, c, g. split; [done|]. split; [done|].
    bind_inv Hstep as it s0 Hread.
    apply ReadIterator_inv in Hread as (-> & _ & Hit).
    assert (Hsame : Heap s1 !! Dict = Heap s !! Dict).
    { destruct (negb (IteratorGeneration it =? g)).
      - bind_inv Hstep as u1 s2 Hprint. injection Hprint as _ <-.
        by injection Hstep as _ <-.
      - destruct (Next it =? NULL); [by injection Hstep as _ <-|].
        bind_inv Hstep as e s0 Hread.
        apply ReadEntry_inv in Hread as (-> & _ & _).
        bind_inv Hstep as Following s0 Hnext.
        apply read_inv in Hnext as (-> & _).
        bind_inv Hstep as u1 s2 Hstore. injection Hstore as _ <-.
        injection Hstep as _ <-. simpl.
        rewrite lookup_insert_ne; [done|]. congruence. }
    rewrite Hsame, Hd in Hd'. injection Hd' as <-. rewrite Hpay in Hpay'.
    injection Hpay' as _ _ <-. by left.
  - bind_inv H as r s1 Hdestroy. injection H as _ <-.
    unfold ChalkDictDestroyIterator in Hdestroy.
    exists d', EntryList', Count', Generation'.
    split; [|split; [done|by left]].
    destruct (negb (Context =? NULL)).
    + bind_inv Hdestroy as u1 s2 Hfree. injection Hfree as _ <-.
      injection Hdestroy as _ <-. simpl in Hd'.
      destruct (decide (Context = Dict)) as [->|Hne].
      * by rewrite lookup_delete_eq in Hd'.
      * by rewrite lookup_delete_ne in Hd'.
    + by injection Hdestroy as _ <-.
  - apply ChalkObjectAddReference_Keeps in H as (Hobjects & _).
    destruct (Hobjects _ _ Hd') as (d & Hd & Hsame).
    exists d, EntryList', Count', Generation'. split; [done|].
    split; [|by left]. rewrite Hsame by (by intros []). done.
  - apply ChalkObjectReleaseReference_Keeps in H as (Hobjects & _).
    destruct (Hobjects _ _ Hd') as (d & Hd & Hsame).
    exists d, EntryList', Count', Generation'. split; [done|].
    split; [|by left]. rewrite Hsame by (by intros []). done.
Qed.

Lemma ChalkDictOperations_generation (fuel : nat) (Dict : N)
    (ops : list DictOperation) (s s' : State) (u : unit) (d' : CHALK_OBJECT)
    (EntryList' : list N) (Count' Generation' : N) :
  ChalkDictOperations fuel Dict ops s = Done (u, s') →
  Heap s' !! Dict = Some (Obj d') →
  Payload d' = CHALK_DICT EntryList' Count' Generation' →
  ∃ d EntryList Count Generation,
    Heap s !! Dict = Some (Obj d) ∧
    Payload d = CHALK_DICT EntryList Count Generation ∧
    (Generation + N.of_nat (length ops) ≤ MAX_UINTN →
     Generation ≤ Generation' ≤ Generation + N.of_nat (length ops)).
Proof.
  revert s. induction ops as [|op rest IH]; intros s H Hd' Hpay'; simpl in H.
  - injection H as _ <-. exists d', EntryList', Count', Generation'.
    split; [done|]. split; [done|]. simpl. lia.
  - bind_inv H as u1 s1 Hop.
    destruct (IH _ H Hd' Hpay') as (d1 & es1 & c1 & g1 & Hd1 & Hpay1 & Hrest).
    destruct (ChalkDictOperation_generation _ _ _ _ _ _ _ _ _ _ Hop Hd1 Hpay1)
      as (d & es & c & g & Hd & Hpay & Hstep).
    exists d, es, c, g. split; [done|]. split; [done|].
    intros Hbound. cbn [length] in Hbound.
    assert (Hg1 : g1 = g ∨ g1 = g + 1).
    { destruct Hstep as [->| ->]; [by left|right].
      apply UINTN_succ. lia. }
    cbn [length]. destruct Hg1 as [-> | ->]; lia.
Qed.

(** C2: for a dictionary at generation [Generation].  (1) A
    [ChalkDictSetElement] that adds a key (the key is an Integer or a
    String, its lookup finds no entry, and there is memory for the node)
    returns 0 and leaves the generation at [Generation + 1] (computed as a
    UINTN: exactly one more whenever [Generation] is below the largest
    UINTN).  (2) For every call that returns: the generation is unchanged
    when the key was already present, when the call returns an error (and
    then the heap is unchanged too), and when the key is of a kind that is
    rejected; it is one more when a key was added; so it never decreases
    and grows by at most one.  (3) A lookup leaves the whole state as it
    is.  (4) Over any sequence of set-element, lookup, iterator and
    reference-count operations the generation does not decrease, and grows
    by at most the number of operations. *)
Theorem ChalkDictSetElement_generation (fuel : nat) (s : State) (Dict : N)
    (d : CHALK_OBJECT) (EntryList : list N) (Count Generation : N) :
  Dict ≠ NULL →
  Heap s !! Dict = Some (Obj d) →
  Payload d = CHALK_DICT EntryList Count Generation →
  (∀ KeyObject ValueObject LValue k v Pending,
     KeyObject ≠ NULL →
     Heap s !! KeyObject = Some (Obj k) →
     HeaderType k = ChalkObjectInteger ∨ HeaderType k = ChalkObjectString →
     0 < ReferenceCount k < 0x10000000 →
     ChalkDictLookup fuel (Heap s) Dict KeyObject = Done NULL →
     NextAllocation (Allocations s) = (true, Pending) →
     ValueObject ≠ NULL →
     Heap s !! ValueObject = Some (Obj v) →
     HeaderType v ≠ ChalkObjectInvalid →
     0 < ReferenceCount v ∧ ReferenceCount v + 1 < 0x10000000 →
     ∃ Slot s' d',
       ChalkDictSetElement fuel Dict KeyObject ValueObject LValue s
         = Done ((0%Z, Slot), s') ∧
       Heap s' !! Dict = Some (Obj d') ∧
       Payload d' = CHALK_DICT (EntryList ++ [FreshAddress (Heap s)])
                      (ULONG (Count + 1)) (UINTN (Generation + 1)) ∧
       (Generation < MAX_UINTN → UINTN (Generation + 1) = Generation + 1)) ∧
  (∀ KeyObject ValueObject LValue Status Slot s' d',
     ChalkDictSetElement fuel Dict KeyObject ValueObject LValue s
       = Done ((Status, Slot), s') →
     Heap s' !! Dict = Some (Obj d') →
     ∃ EntryList' Count' Generation',
       Payload d' = CHALK_DICT EntryList' Count' Generation' ∧
       (∀ Found,
          ChalkDictLookup fuel (Heap s) Dict KeyObject = Done Found →
          Found ≠ NULL → Generation' = Generation) ∧
       (Status ≠ 0%Z → Generation' = Generation ∧ Heap s' = Heap s) ∧
       (∀ k, Heap s !! KeyObject = Some (Obj k) →
             HeaderType k ≠ ChalkObjectInteger →
             HeaderType k ≠ ChalkObjectString →
             Status = EINVAL ∧ Generation' = Generation) ∧
       (Status = 0%Z →
        ChalkDictLookup fuel (Heap s) Dict KeyObject = Done NULL →
        Generation' = UINTN (Generation + 1)) ∧
       (Generation < MAX_UINTN →
        Generation ≤ Generation' ≤ Generation + 1)) ∧
  (∀ KeyObject r s',
     read (λ h, ChalkDictLookup fuel h Dict KeyObject) s = Done (r, s') →
     s' = s) ∧
  (∀ ops u s' d' EntryList' Count' Generation',
     ChalkDictOperations fuel Dict ops s = Done (u, s') →
     Heap s' !! Dict = Some (Obj d') →
     Payload d' = CHALK_DICT EntryList' Count' Generation' →
     Generation + N.of_nat (length ops) ≤ MAX_UINTN →
     Generation ≤ Generation' ≤ Generation + N.of_nat (length ops)).
Proof.
  intros Hnull Hd Hpay. split; [|split; [|split]].
  - intros KeyObject ValueObject LValue k v Pending Hk Hkey Hkind Hkrange
      Hlookup Halloc Hv Hvalue Hvalid Hvrange.
    destruct (ChalkDictSetElement_insert_Done fuel s Dict KeyObject
                ValueObject LValue d k v EntryList Count Generation Pending)
      as (s' & Hrun); try done.
    pose proof Hrun as Hinv.
    apply ChalkDictSetElement_inv in Hinv
      as (d0 & es0 & c0 & g0 & Found & _ & Hd0 & Hpay0 & _ & Hlookup0 & Hout).
    rewrite Hd in Hd0. injection Hd0 as <-.
    rewrite Hpay in Hpay0. injection Hpay0 as <- <- <-.
    destruct (Hlookup0 ltac:(discriminate)) as (Hfound & _).
    rewrite Hlookup in Hfound. injection Hfound as <-.
    inversion Hout as [| |d1 Hfresh Hentry Hd1 Hpay1 Hentries|
                       Found e Hfound]; [|done].
    exists (if LValue then FreshAddress (Heap s) else NULL), s', d1.
    split; [done|]. split; [done|]. split; [done|]. apply UINTN_succ.
  - intros KeyObject ValueObject LValue Status Slot s' d' Hrun Hd'.
    apply ChalkDictSetElement_inv in Hrun
      as (d0 & es0 & c0 & g0 & Found & _ & Hd0 & Hpay0 & _ & Hlookup0 & Hout).
    rewrite Hd in Hd0. injection Hd0 as <-.
    rewrite Hpay in Hpay0. injection Hpay0 as <- <- <-.
    destruct Hout as [k Hk Hint Hstr Hheap|Hheap|
                      d1 Hfresh Hentry Hd1 Hpay1 Hentries|
                      Found e Hfound He He1 Hd1 Hentries].
    + rewrite Hheap, Hd in Hd'. injection Hd' as <-.
      exists EntryList, Count, Generation. split; [done|].
      split; [done|]. split; [done|]. split; [done|].
      split; [discriminate|]. lia.
    + rewrite Hheap, Hd in Hd'. injection Hd' as <-.
      destruct (Hlookup0 ltac:(discriminate)) as (_ & k0 & Hk0 & Hkind0).
      exists EntryList, Count, Generation. split; [done|].
      split; [done|]. split; [done|]. split.
      { intros k Hk Hint Hstr. rewrite Hk0 in Hk. injection Hk as <-.
        by destruct Hkind0. }
      split; [discriminate|]. lia.
    + rewrite Hd1 in Hd'. injection Hd' as <-.
      destruct (Hlookup0 ltac:(discriminate)) as (Hfound & k0 & Hk0 & Hkind0).
      exists (EntryList ++ [FreshAddress (Heap s)]), (ULONG (Count + 1)),
        (UINTN (Generation + 1)).
      split; [done|]. split.
      { intros Found Hlookup. rewrite Hfound in Hlookup.
        by injection Hlookup as <-. }
      split; [done|]. split.
      { intros k Hk Hint Hstr. rewrite Hk0 in Hk. injection Hk as <-.
        by destruct Hkind0. }
      split; [done|]. intros Hmax. rewrite UINTN_succ by done. lia.
    + destruct (Hlookup0 ltac:(discriminate)) as (Hfound0 & k0 & Hk0 & Hkind0).
      exists EntryList, Count, Generation. split; [by apply Hd1|].
      split; [done|]. split; [done|]. split.
      { intros k Hk Hint Hstr. rewrite Hk0 in Hk. injection Hk as <-.
        by destruct Hkind0. }
      split.
      { intros _ Hlookup. rewrite Hfound0 in Hlookup.
        by injection Hlookup as ->. }
      lia.
  - intros KeyObject r s' Hread. by apply read_inv in Hread as (-> & _).
  - intros ops u s' d' es' c' g' Hrun Hd' Hpay' Hbound.
    destruct (ChalkDictOperations_generation _ _ _ _ _ _ _ _ _ _
                Hrun Hd' Hpay')
      as (d0 & es0 & c0 & g0 & Hd0 & Hpay0 & Hmono).
    rewrite Hd in Hd0. injection Hd0 as <-.
    rewrite Hpay in Hpay0. injection Hpay0 as <- <- <-.
    by apply Hmono.
Qed.

Lemma ChalkDictSetElement_generation_witness :
  ∃ Slot s' d',
    ChalkDictSetElement 1 2 7 8 false IteratingState
      = Done ((0%Z, Slot), s') ∧
    Heap s' !! 2 = Some (Obj d') ∧
    Payload d' = CHALK_DICT [5; 9] 2 2.
Proof.
  destruct (ChalkDictSetElement_generation 1 IteratingState 2
              {| ReferenceCount := 1; Payload := CHALK_DICT [5] 1 1 |}
              [5] 1 1)
    as (Hinsert & _); [done | reflexivity | reflexivity |].
  destruct (Hinsert 7 8 false
              {| ReferenceCount := 1; Payload := CHALK_STRING [x62; x00] 1 |}
              {| ReferenceCount := 1; Payload := CHALK_INT 2 |} [])
    as (Slot & s' & d' & Hrun & Hd' & Hpay' & _);
    [done | reflexivity | by right | done | vm_compute; reflexivity
    | reflexivity | done | reflexivity | done | done |].
  exists Slot, s', d'. split; [done|]. split; [done|].
  rewrite Hpay'. reflexivity.
Defined.

(** What [ChalkListSetElement] does with the largest index: the new count
    [Index + 1] wraps around to zero, the reallocation is to no bytes, and
    zeroing the gap is outside the buffer. *)
Example ChalkListSetElement_largest_index :
  ChalkListSetElement 0 2 MAX_ULONG 3 ThreeHolesState = Fault OutOfBounds.
Proof. vm_compute. reflexivity. Qed.

(** What [ChalkCreateList] does without initial values when the size of
    the array in bytes wraps around: for [0x40000001] slots it asks for 4
    bytes, and the list has that count and one slot. *)
Example ChalkCreateList_wrapped_size :
  ∃ s', ChalkCreateList None 0x40000001 InitialState = Done (2, s') ∧
        Heap s' !! 2
        = Some (Obj {| ReferenceCount := 1;
                       Payload := CHALK_LIST [NULL] 0x40000001 |}).
Proof. eexists. split; vm_compute; reflexivity. Qed.

(** ** Copying a list *)

Lemma References_cons_NULL (p : N) (Array : list N) :
  References p (NULL :: Array) = References p Array.
Proof.
  unfold References. destruct (N.eqb_spec p NULL) as [|Hne]; [done|].
  rewrite filter_cons. destruct (decide (NULL = p)); [congruence|done].
Qed.

Lemma References_cons_eq (p : N) (Array : list N) :
  p ≠ NULL → References p (p :: Array) = 1 + References p Array.
Proof.
  intros Hne. unfold References. rewrite NULL_eqb by done.
  rewrite filter_cons. destruct (decide (p = p)); [|done].
  cbn [length]. lia.
Qed.

Lemma References_cons_ne (p Element : N) (Array : list N) :
  p ≠ Element → References p (Element :: Array) = References p Array.
Proof.
  intros Hne. unfold References. destruct (p =? NULL); [done|].
  rewrite filter_cons. destruct (decide (Element = p)); [congruence|done].
Qed.

Lemma AddToReferenceCount_0 (b : Block) : AddToReferenceCount 0 b = b.
Proof.
  destruct b as [|o| |]; try done. destruct o. unfold AddToReferenceCount,
    SetReferenceCount. simpl. by rewrite N.add_0_r.
Qed.

Lemma ChalkAddReferences_Done (Array : list N) (s : State) :
  (∀ Element, Element ∈ Array → Element ≠ NULL →
     ∃ v, Heap s !! Element = Some (Obj v) ∧
          HeaderType v ≠ ChalkObjectInvalid ∧
          0 < ReferenceCount v ∧
          ReferenceCount v + N.of_nat (length Array) ≤ 0x10000000) →
  ∃ h',
    ChalkAddReferences Array s = Done (tt, WithHeap s h') ∧
    ∀ p, h' !! p = AddToReferenceCount (References p Array) <$> Heap s !! p.
Proof.
  revert s. induction Array as [|Element Rest IH]; intros s Hlive.
  - exists (Heap s). split; [by destruct s|].
    intros p. replace (References p []) with 0
      by (unfold References; by destruct (p =? NULL)).
    destruct (Heap s !! p) as [b|]; [|done]. simpl.
    by rewrite AddToReferenceCount_0.
  - cbn [ChalkAddReferences].
    destruct (N.eqb_spec Element NULL) as [->|Hne]; cbn [negb].
    + rewrite (bind_Done _ _ s tt s) by done.
      destruct (IH s) as (h' & Hrun & Hh').
      { intros e He Hnn. destruct (Hlive e) as (v & Hv & Hvalid & Hpos & Hmax);
          [by apply elem_of_cons; right | done |].
        exists v. cbn [length] in Hmax. repeat split; try done. lia. }
      exists h'. split; [done|]. intros p.
      by rewrite References_cons_NULL.
    + destruct (Hlive Element) as (v & Hv & Hvalid & Hpos & Hmax);
        [by apply elem_of_cons; left | done |].
      cbn [length] in Hmax.
      erewrite bind_Done
        by (apply (ChalkObjectAddReference_Done s Element v); try done; lia).
      set (s1 := WithHeap s _).
      destruct (IH s1) as (h' & Hrun & Hh').
      { intros e He Hnn. simpl.
        destruct (decide (Element = e)) as [<-|Hee].
        - rewrite lookup_insert_eq. eexists. split; [done|].
          split; [done|]. simpl. lia.
        - rewrite lookup_insert_ne by done.
          destruct (Hlive e) as (w & Hw & Hwvalid & Hwpos & Hwmax);
            [by apply elem_of_cons; right | done |].
          exists w. cbn [length] in Hwmax. repeat split; try done. lia. }
      exists h'. split; [done|]. intros p. rewrite Hh'. simpl.
      destruct (decide (Element = p)) as [<-|Hep].
      * rewrite lookup_insert_eq, Hv. simpl.
        rewrite References_cons_eq by done.
        unfold SetReferenceCount. simpl. do 3 f_equal. lia.
      * rewrite lookup_insert_ne by done.
        by rewrite References_cons_ne by done.
Qed.

Lemma References_absent (p : N) (Array : list N) :
  p ∉ Array → References p Array = 0.
Proof.
  intros Hp. unfold References. destruct (p =? NULL); [done|].
  induction Array as [|Element Rest IH]; [done|].
  apply not_elem_of_cons in Hp as [Hne Hrest].
  rewrite filter_cons. destruct (decide (Element = p)); [congruence|].
  by apply IH.
Qed.

(** A successful [ChalkListSetElement] leaves the object in the slot, and
    changes the payload of no other object. *)

Lemma ChalkListSetElement_inv (fuel : nat) (s s' : State)
    (ListObject Index Object : N) :
  ChalkListSetElement fuel ListObject Index Object s = Done (0%Z, s') →
  Keeps (λ p, p = ListObject) s s' ∧
  ∃ l Array Count,
    Heap s' !! ListObject = Some (Obj l) ∧
    Payload l = CHALK_LIST Array Count ∧
    Array !! N.to_nat Index = Some Object.
Proof.
  unfold ChalkListSetElement. intros H.
  bind_inv H as l s0 Hread. apply ReadObject_inv in Hread as (-> & Hnull & Hl).
  destruct (Payload l) as [| | | | |Array Count|] eqn:Hpay; try discriminate.
  bind_inv H as Grown s1 Hgrow.
  assert (Hkeep1 : Keeps (λ p, p = ListObject) s s1 ∧
                   (Grown = true ∨ s' = s1 ∧ Grown = false)).
  { destruct (Count <=? Index).
    - bind_inv Hgrow as NewBuffer s2 Halloc.
      assert (Hheap : Heap s2 = Heap s).
      { unfold ChalkReallocate, ChalkAllocateBuffer in Halloc.
        destruct (NextAllocation (Allocations s)).
        by injection Halloc as _ <-. }
      destruct NewBuffer; cbn [negb] in Hgrow.
      + cbv zeta in Hgrow.
        destruct (_ <? _); [discriminate|].
        bind_inv Hgrow as u1 s3 Hstore. injection Hstore as _ <-.
        injection Hgrow as <- <-. split; [|by left].
        eapply Keeps_trans; [by apply Keeps_heap|].
        eapply Keeps_Store; [by rewrite Hheap|by left].
      + injection Hgrow as <- <-. split; [by apply Keeps_heap|].
        right. split; [|done]. cbn [negb] in H. by injection H.
    - injection Hgrow as <- <-. split; [apply Keeps_refl|by left]. }
  destruct Hkeep1 as (Hkeep1 & [->|[_ ->]]); [|discriminate].
  cbn [negb] in H.
  bind_inv H as l1 s0 Hread. apply ReadObject_inv in Hread as (-> & _ & Hl1).
  destruct (Payload l1) as [| | | | |Array1 Count1|] eqn:Hpay1;
    try discriminate.
  destruct (Array1 !! N.to_nat Index) as [Old|] eqn:Hold; [|discriminate].
  bind_inv H as u2 s2 Hrelease.
  assert (Hkeep2 : Keeps Nowhere s1 s2).
  { destruct (negb (Old =? NULL)).
    - by apply ChalkObjectReleaseReference_Keeps in Hrelease.
    - injection Hrelease as _ <-. apply Keeps_refl. }
  bind_inv H as l2 s0 Hread. apply ReadObject_inv in Hread as (-> & _ & Hl2).
  assert (Hpay2 : Payload l2 = CHALK_LIST Array1 Count1).
  { destruct Hkeep2 as (Ho & _ & _).
    destruct (Ho _ _ Hl2) as (l1' & Hl1' & Hsame).
    rewrite Hl1 in Hl1'. injection Hl1' as <-.
    rewrite <- Hsame by (by intros []). done. }
  rewrite Hpay2 in H.
  bind_inv H as u3 s3 Hstore. injection Hstore as _ <-.
  bind_inv H as u4 s4 Hadd. injection H as <-.
  set (l3 := SetPayload l2
               (CHALK_LIST (<[N.to_nat Index := Object]> Array1) Count1)) in *.
  set (s3 := WithHeap s2 (<[ListObject := Obj l3]> (Heap s2))) in *.
  assert (Hkeep3 : Keeps (λ p, p = ListObject) s2 s3)
    by (eapply Keeps_Store; [done|by left]).
  assert (Hkeep4 : Keeps Nowhere s3 s4).
  { destruct (negb (Object =? NULL)).
    - by apply ChalkObjectAddReference_Keeps in Hadd.
    - injection Hadd as _ <-. apply Keeps_refl. }
  split.
  { eapply Keeps_trans; [exact Hkeep1|].
    eapply Keeps_trans; [by eapply Keeps_weaken; [|exact Hkeep2]|].
    eapply Keeps_trans; [exact Hkeep3|].
    by eapply Keeps_weaken; [|exact Hkeep4]. }
  assert (Hl4 : ∃ l4, Heap s4 !! ListObject = Some (Obj l4) ∧
                      Payload l4 = Payload l3).
  { destruct (negb (Object =? NULL)).
    - apply ChalkObjectAddReference_inv in Hadd
        as (v & _ & Hv & _ & _ & ->). simpl.
      destruct (decide (Object = ListObject)) as [->|Hne].
      + rewrite lookup_insert_eq. eexists. split; [done|].
        simpl in Hv. rewrite lookup_insert_eq in Hv. by injection Hv as <-.
      + rewrite lookup_insert_ne by done. exists l3.
        by rewrite lookup_insert_eq.
    - injection Hadd as _ <-. exists l3. simpl.
      by rewrite lookup_insert_eq. }
  destruct Hl4 as (l4 & Hl4 & Hpay4).
  exists l4, (<[N.to_nat Index := Object]> Array1), Count1.
  split; [done|]. split; [done|].
  apply list_lookup_insert_eq. by eapply lookup_lt_Some.
Qed.

(** C7: copying a List whose elements are live makes a new list object (at
    an address that was not allocated) with one reference, the same count
    and the same slot array as the source: slot for slot the same element
    address, holes where the source has holes.  Every other object keeps
    its payload and gains as many references as it has slots in the array
    (none if it has none).  Consequently an element is shared: after a
    [ChalkListSetElement] on an element reached through the source, the
    copy, as long as it is allocated, still holds that same element in the
    same slot, and the element holds the object that was stored. *)
Theorem ChalkObjectCopy_list_shares_elements (fuel : nat) (s : State)
    (Source : N) (o : CHALK_OBJECT) (Array : list N)
    (Pending1 Pending2 : list bool) :
  Source ≠ NULL →
  Heap s !! Source = Some (Obj o) →
  Payload o = CHALK_LIST Array (N.of_nat (length Array)) →
  NextAllocation (Allocations s) = (true, Pending1) →
  NextAllocation Pending1 = (true, Pending2) →
  (∀ Element, Element ∈ Array → Element ≠ NULL →
     ∃ v, Heap s !! Element = Some (Obj v) ∧
          HeaderType v ≠ ChalkObjectInvalid ∧
          0 < ReferenceCount v ∧
          ReferenceCount v + N.of_nat (length Array) ≤ 0x10000000) →
  ∃ (NewObject : N) (s' : State) (n o' : CHALK_OBJECT),
    ChalkObjectCopy fuel Source s = Done (NewObject, s') ∧
    NewObject ≠ NULL ∧
    Heap s !! NewObject = None ∧
    Heap s' !! NewObject = Some (Obj n) ∧
    ReferenceCount n = 1 ∧
    Payload n = CHALK_LIST Array (N.of_nat (length Array)) ∧
    Heap s' !! Source = Some (Obj o') ∧
    Payload o' = Payload o ∧
    (∀ p, p ≠ NewObject →
          Heap s' !! p
          = AddToReferenceCount (References p Array) <$> Heap s !! p) ∧
    (∀ (i : nat) (Element Index Object : N) (fuel' : nat) (s2 : State)
       (n2 : CHALK_OBJECT),
       Array !! i = Some Element →
       Element ≠ NULL →
       ChalkListSetElement fuel' Element Index Object s' = Done (0%Z, s2) →
       Heap s2 !! NewObject = Some (Obj n2) →
       ∃ e Slots Count,
         Payload n2 = CHALK_LIST Array (N.of_nat (length Array)) ∧
         Heap s2 !! Element = Some (Obj e) ∧
         Payload e = CHALK_LIST Slots Count ∧
         Slots !! N.to_nat Index = Some Object).
Proof.
  intros Hnull Ho Hpay Halloc1 Halloc2 Hlive.
  destruct (FreshAddress_spec (Heap s)) as (Hfresh & Hfnull & _).
  set (New := FreshAddress (Heap s)) in *.
  set (n := {| ReferenceCount := 1;
               Payload := CHALK_LIST Array (N.of_nat (length Array)) |}).
  assert (Hnotin : New ∉ Array).
  { intros Hin. destruct (Hlive New Hin Hfnull) as (v & Hv & _). congruence. }
  assert (Hcopy : ∃ s',
            ChalkObjectCopy fuel Source s = Done (New, s') ∧
            Heap s' !! New = Some (Obj n) ∧
            ∀ p, p ≠ New →
                 Heap s' !! p
                 = AddToReferenceCount (References p Array) <$> Heap s !! p).
  { unfold ChalkObjectCopy.
    rewrite (bind_Done _ _ s o s) by by apply ReadObject_Done.
    rewrite Hpay. unfold ChalkCreateList.
    rewrite (bind_Done _ _ _ _ _ (ChalkAllocate_success s Pending1 Halloc1)).
    fold New. rewrite NULL_eqb by done.
    erewrite bind_Done by reflexivity.
    destruct Array as [|First Rest] eqn:HArray.
    - simpl. eexists. split; [reflexivity|]. simpl.
      rewrite insert_insert_eq, lookup_insert_eq. split; [done|].
      intros p Hp. rewrite lookup_insert_ne by done.
      destruct (Heap s !! p) as [b|]; [|done]. simpl.
      replace (References p []) with 0
        by (unfold References; by destruct (p =? NULL)).
      by rewrite AddToReferenceCount_0.
    - rewrite <- HArray in *.
      assert ((N.of_nat (length Array) =? 0) = false) as ->
        by (apply N.eqb_neq; rewrite HArray; simpl; lia).
      cbn [negb].
      assert (Hbuffer : ∀ (Bytes : N) (s0 : State), Allocations s0 = Pending1 →
                ChalkAllocateBuffer Bytes s0
                = Done (true, {| Heap := Heap s0; Allocations := Pending2;
                                 Stderr := Stderr s0 |})).
      { intros Bytes s0 Hs0. unfold ChalkAllocateBuffer.
        by rewrite Hs0, Halloc2. }
      cbv zeta.
      erewrite bind_Done by (by apply Hbuffer).
      cbn [negb].
      replace (match Array with [] => None | _ :: _ => Some Array end)
        with (Some Array) by (by rewrite HArray).
      rewrite N.ltb_irrefl, Nat2N.id, firstn_all.
      erewrite bind_Done by reflexivity.
      set (s2 := WithHeap _ _).
      destruct (ChalkAddReferences_Done Array s2) as (h' & Hrun & Hh').
      { intros e He Hne. destruct (Hlive e He Hne) as (v & Hv & Hrest).
        exists v. split; [|done]. simpl.
        assert (New ≠ e) by (intros Heq; rewrite <- Heq in Hv; congruence).
        by rewrite !lookup_insert_ne by done. }
      rewrite (bind_Done _ _ _ _ _ Hrun).
      eexists. split; [reflexivity|]. simpl. split.
      + rewrite Hh'. simpl. rewrite lookup_insert_eq.
        rewrite References_absent by done. simpl.
        unfold n, SetReferenceCount. simpl. rewrite N.add_0_r.
        by rewrite HArray.
      + intros p Hp. rewrite Hh'. simpl.
        by rewrite !lookup_insert_ne by done. }
  destruct Hcopy as (s' & Hrun & Hnew & Hframe).
  assert (Hsource : Source ≠ New) by congruence.
  exists New, s', n,
    (SetReferenceCount o (ReferenceCount o + References Source Array)).
  split; [done|]. split; [done|]. split; [done|]. split; [done|].
  split; [done|]. split; [done|].
  split; [by rewrite Hframe, Ho by done|]. split; [done|]. split; [done|].
  intros i Element Index Object fuel' s2 n2 Hi Hne Hset Hn2.
  apply ChalkListSetElement_inv in Hset
    as (Hkeeps & e & Slots & Count & He & Hpe & Hslot).
  assert (Hin : Element ∈ Array) by (apply list_elem_of_lookup; eauto).
  assert (Hnew' : New ≠ Element) by (intros <-; done).
  destruct Hkeeps as (Hobjects & _ & _).
  destruct (Hobjects _ _ Hn2) as (n1 & Hn1 & Hsame).
  rewrite Hnew in Hn1. injection Hn1 as <-.
  exists e, Slots, Count. split; [by rewrite <- Hsame|]. done.
Qed.

Lemma ChalkObjectCopy_list_shares_elements_witness :
  ∃ NewObject s' s2 n2 e,
    ChalkObjectCopy 0 2 NestedListState = Done (NewObject, s') ∧
    NewObject ≠ 2 ∧
    ChalkListSetElement 1 3 0 5 s' = Done (0%Z, s2) ∧
    Heap s2 !! NewObject = Some (Obj n2) ∧
    Payload n2 = CHALK_LIST [3] 1 ∧
    Heap s2 !! 3 = Some (Obj e) ∧
    Payload e = CHALK_LIST [5] 1.
Proof.
  destruct (ChalkObjectCopy_list_shares_elements 0 NestedListState 2
              {| ReferenceCount := 1; Payload := CHALK_LIST [3] 1 |}
              [3] [] [])
    as (NewObject & s' & n & o' & Hrun & _ & Hfresh & _ & _ & _ & _ & _ & _
        & Hshare);
    [done | reflexivity | reflexivity | reflexivity | reflexivity | |].
  { intros Element Hin _. apply list_elem_of_singleton in Hin as ->.
    exists {| ReferenceCount := 1; Payload := CHALK_LIST [4] 1 |}.
    split; [reflexivity|]. split; [done|]. split; [done|].
    vm_compute. discriminate. }
  assert (Hset : ∃ s2 n2 e,
            ChalkListSetElement 1 3 0 5 s' = Done (0%Z, s2) ∧
            Heap s2 !! NewObject = Some (Obj n2) ∧
            Heap s2 !! 3 = Some (Obj e) ∧
            Payload e = CHALK_LIST [5] 1).
  { vm_compute in Hrun. injection Hrun as <- <-.
    do 3 eexists. repeat split; vm_compute; reflexivity. }
  destruct Hset as (s2 & n2 & e & Hset & Hn2 & He & Hpe).
  destruct (Hshare 0%nat 3 0 5 1%nat s2 n2) as (e' & Slots & Count & Hpn2 & _);
    [reflexivity | done | exact Hset | exact Hn2 |].
  exists NewObject, s', s2, n2, e.
  split; [exact Hrun|]. split; [intros ->; discriminate|].
  split; [exact Hset|]. split; [exact Hn2|]. split; [exact Hpn2|].
  split; [exact He | exact Hpe].
Defined.

(** ** Comparison *)

(** Induction on values, with the hypothesis for every element of a
    list. *)

Lemma ChalkValue_induction (P : ChalkValue → Prop) :
  P NullValue →
  (∀ Value, P (IntegerValue Value)) →
  (∀ Bytes, P (StringValue Bytes)) →
  (∀ Elements, Forall P Elements → P (ListValue Elements)) →
  ∀ v, P v.
Proof.
  intros HNull HInteger HString HList.
  fix IH 1. intros [| Value | Bytes | Elements].
  - exact HNull.
  - apply HInteger.
  - apply HString.
  - apply HList. induction Elements as [|v Rest IHRest].
    + constructor.
    + constructor; [apply IH | exact IHRest].
Qed.

Lemma to_N_inj (a b : byte) : Byte.to_N a = Byte.to_N b → a = b.
Proof.
  intros H. pose proof (Byte.of_to_N a) as Ha.
  rewrite H, Byte.of_to_N in Ha. congruence.
Qed.

Lemma to_N_nonzero (c : byte) : c ≠ x00 → Byte.to_N c ≠ 0.
Proof. intros Hc Hz. by apply to_N_zero in Hz. Qed.

Lemma strcmp_CompareBytes (Left Right : list byte) :
  Forall (λ c, c ≠ x00) Left →
  Forall (λ c, c ≠ x00) Right →
  ∃ z, strcmp (Left ++ [x00]) (Right ++ [x00]) = Done z ∧
       SignOf z = CompareBytes Left Right.
Proof.
  intros HLeft. revert Right.
  induction HLeft as [|l Left Hl _ IH]; intros Right HRight.
  - destruct HRight as [|r Right Hr _]; cbn [app strcmp CompareBytes].
    + by exists 0%Z.
    + apply to_N_nonzero in Hr. change (Byte.to_N x00) with 0.
      destruct (N.eqb_spec 0 (Byte.to_N r)) as [Heq|_]; [congruence|].
      cbn [negb]. eexists. split; [done|]. unfold SignOf.
      destruct (Z.ltb_spec (Z.of_N 0 - Z.of_N (Byte.to_N r)) 0); [done|lia].
  - apply to_N_nonzero in Hl.
    destruct HRight as [|r Right Hr HRight]; cbn [app strcmp CompareBytes].
    + change (Byte.to_N x00) with 0.
      destruct (N.eqb_spec (Byte.to_N l) 0) as [Heq|_]; [congruence|].
      cbn [negb]. eexists. split; [done|]. unfold SignOf.
      destruct (Z.ltb_spec (Z.of_N (Byte.to_N l) - Z.of_N 0) 0); [lia|].
      destruct (Z.gtb_spec (Z.of_N (Byte.to_N l) - Z.of_N 0) 0); [done|lia].
    + destruct (N.eqb_spec (Byte.to_N l) (Byte.to_N r)) as [Heq|Hne];
        cbn [negb].
      * destruct (N.eqb_spec (Byte.to_N l) 0) as [Hz|_]; [congruence|].
        rewrite Heq, N.ltb_irrefl. apply IH. done.
      * eexists. split; [done|]. unfold SignOf.
        destruct (N.ltb_spec (Byte.to_N l) (Byte.to_N r)).
        -- destruct (Z.ltb_spec
                       (Z.of_N (Byte.to_N l) - Z.of_N (Byte.to_N r)) 0);
             [done|lia].
        -- destruct (N.ltb_spec (Byte.to_N r) (Byte.to_N l)); [|lia].
           destruct (Z.ltb_spec
                       (Z.of_N (Byte.to_N l) - Z.of_N (Byte.to_N r)) 0);
             [lia|].
           destruct (Z.gtb_spec
                       (Z.of_N (Byte.to_N l) - Z.of_N (Byte.to_N r)) 0);
             [done|lia].
Qed.

Lemma CompareBytes_range (Left Right : list byte) :
  CompareBytes Left Right = (-1)%Z ∨ CompareBytes Left Right = 0%Z ∨
  CompareBytes Left Right = 1%Z.
Proof.
  revert Right. induction Left as [|l Left IH]; intros [|r Right]; simpl;
    eauto.
  destruct (Byte.to_N l <? Byte.to_N r); [eauto|].
  destruct (Byte.to_N r <? Byte.to_N l); eauto.
Qed.

Lemma CompareBytes_antisymmetric (Left Right : list byte) :
  CompareBytes Right Left = (- CompareBytes Left Right)%Z.
Proof.
  revert Right. induction Left as [|l Left IH]; intros [|r Right]; simpl;
    try done.
  destruct (N.ltb_spec (Byte.to_N l) (Byte.to_N r));
    destruct (N.ltb_spec (Byte.to_N r) (Byte.to_N l)); try done; lia.
Qed.

Lemma CompareBytes_refl (Bytes : list byte) : CompareBytes Bytes Bytes = 0%Z.
Proof.
  induction Bytes as [|c Bytes IH]; [done|]. simpl.
  by rewrite N.ltb_irrefl.
Qed.

Lemma CompareBytes_lexicographic (Left Right : list byte) :
  (CompareBytes Left Right = (-1)%Z ↔ BytesLess Left Right) ∧
  (CompareBytes Left Right = 0%Z ↔ Left = Right) ∧
  (CompareBytes Left Right = 1%Z ↔ BytesLess Right Left).
Proof.
  revert Right. induction Left as [|l Left IH]; intros [|r Right]; simpl.
  - repeat split; try done; inversion 1.
  - repeat split; try done; try constructor; inversion 1.
  - repeat split; try done; try constructor; inversion 1.
  - destruct (IH Right) as (Hless & Heq & Hgreater).
    destruct (N.ltb_spec (Byte.to_N l) (Byte.to_N r)) as [Hlt|Hge].
    { repeat split; try done.
      - intros _. by constructor.
      - intros [= -> _]. lia.
      - inversion 1; subst; lia. }
    destruct (N.ltb_spec (Byte.to_N r) (Byte.to_N l)) as [Hgt|Hle].
    { repeat split; try done.
      - inversion 1; subst; lia.
      - intros [= -> _]. lia.
      - intros _. by constructor. }
    assert (l = r) as -> by (apply to_N_inj; lia).
    repeat split.
    + intros H. apply BytesLessTail. by apply Hless.
    + inversion 1; subst; [lia|]. by apply Hless.
    + intros H. f_equal. by apply Heq.
    + intros [= ->]. by apply Heq.
    + intros H. apply BytesLessTail. by apply Hgreater.
    + inversion 1; subst; [lia|]. by apply Hgreater.
Qed.

Lemma NaturalCompare_lists (Left Right : list ChalkValue) :
  NaturalCompare (ListValue Left) (ListValue Right)
  = if (length Left <? length Right)%nat then (-1)%Z
    else if (length Right <? length Left)%nat then 1%Z
    else CompareElementwise Left Right.
Proof.
  cbn [NaturalCompare].
  destruct (length Left <? length Right)%nat; [done|].
  destruct (length Right <? length Left)%nat; done.
Qed.

Lemma NaturalCompare_range (Left Right : ChalkValue) :
  NaturalCompare Left Right = (-1)%Z ∨ NaturalCompare Left Right = 0%Z ∨
  NaturalCompare Left Right = 1%Z.
Proof.
  revert Right.
  induction Left as [|l|l|ls IH] using ChalkValue_induction;
    intros [|r|r|rs]; try (cbn; eauto; fail).
  - cbn. destruct (l <? r)%Z; [eauto|]. destruct (r <? l)%Z; eauto.
  - apply CompareBytes_range.
  - rewrite NaturalCompare_lists.
    destruct (length ls <? length rs)%nat; [eauto|].
    destruct (length rs <? length ls)%nat; [eauto|].
    revert rs. induction IH as [|l ls Hl _ IHls]; intros [|r rs];
      cbn [CompareElementwise]; eauto.
    destruct (NaturalCompare l r =? 0)%Z; [apply IHls | apply Hl].
Qed.

Lemma NaturalCompare_antisymmetric (Left Right : ChalkValue) :
  NaturalCompare Right Left = (- NaturalCompare Left Right)%Z.
Proof.
  revert Right.
  induction Left as [|l|l|ls IH] using ChalkValue_induction;
    intros [|r|r|rs]; try (cbn; done).
  - cbn. destruct (Z.ltb_spec l r); destruct (Z.ltb_spec r l); try done; lia.
  - apply CompareBytes_antisymmetric.
  - rewrite !NaturalCompare_lists.
    destruct (Nat.ltb_spec (length ls) (length rs));
      destruct (Nat.ltb_spec (length rs) (length ls)); try done; try lia.
    clear H H0. revert rs.
    induction IH as [|l ls Hl _ IHls]; intros [|r rs];
      cbn [CompareElementwise]; try done.
    rewrite Hl.
    destruct (Z.eqb_spec (NaturalCompare l r) 0) as [Heq|Hne].
    + rewrite Heq. cbn. apply IHls.
    + destruct (Z.eqb_spec (- NaturalCompare l r) 0); [lia|done].
Qed.

Lemma NaturalCompare_refl (v : ChalkValue) : NaturalCompare v v = 0%Z.
Proof.
  induction v as [|z|bs|vs IH] using ChalkValue_induction.
  - done.
  - cbn. by rewrite Z.ltb_irrefl.
  - apply CompareBytes_refl.
  - rewrite NaturalCompare_lists, Nat.ltb_irrefl.
    induction IH as [|v vs Hv _ IHvs]; [done|].
    cbn [CompareElementwise]. by rewrite Hv.
Qed.

Lemma Depth_element (v : ChalkValue) (Elements : list ChalkValue) :
  v ∈ Elements → (Depth v < Depth (ListValue Elements))%nat.
Proof.
  cbn [Depth]. induction 1 as [v Rest|v w Rest _ IH]; cbn [map foldr]; lia.
Qed.

Section CompareElements.

Variable h : gmap N Block.
Variable Compare : N → N → Result Z.

Lemma ChalkCompareElements_refines (Left Right : list N)
    (ls rs : list ChalkValue) :
  Forall2 (Represents h) Left ls →
  Forall2 (Represents h) Right rs →
  length ls = length rs →
  Forall (λ l, ∀ r a b, Represents h a l → Represents h b r →
                        Compare a b = Done (NaturalCompare l r)) ls →
  ∀ LeftBefore RightBefore,
    length LeftBefore = length RightBefore →
    ChalkCompareElements Compare (LeftBefore ++ Left) (RightBefore ++ Right)
      (length ls) (length LeftBefore)
    = Done (CompareElementwise ls rs).
Proof.
  intros HLeft. revert Right rs.
  induction HLeft as [|a l Left ls Ha _ IH]; intros Right rs HRight Hlen Hcmp
    LeftBefore RightBefore Hbefore.
  - destruct rs; [done|discriminate].
  - destruct HRight as [|b r Right rs Hb HRight]; [discriminate|].
    apply Forall_cons in Hcmp as [Hl Hcmp].
    cbn [length ChalkCompareElements CompareElementwise].
    rewrite list_lookup_middle by done.
    rewrite Hbefore at 1. rewrite list_lookup_middle by done.
    rewrite (Hl r a b Ha Hb). cbn [mbind Result_bind].
    destruct (NaturalCompare l r =? 0)%Z; cbn [negb]; [|done].
    specialize (IH Right rs HRight ltac:(by injection Hlen) Hcmp
                  (LeftBefore ++ [a]) (RightBefore ++ [b])).
    rewrite <- !app_assoc, !length_app in IH. cbn [app length] in IH.
    rewrite Nat.add_1_r in IH. apply IH. lia.
Qed.

End CompareElements.

Lemma Represents_LoadObject (h : gmap N Block) (Object : N) (v : ChalkValue) :
  Represents h Object v →
  ∃ o, LoadObject h Object = Done o ∧
       match v with
       | NullValue => Payload o = CHALK_NULL
       | IntegerValue Value => Payload o = CHALK_INT Value
       | StringValue Bytes =>
           Payload o = CHALK_STRING (Bytes ++ [x00]) (N.of_nat (length Bytes)) ∧
           Forall (λ c, c ≠ x00) Bytes
       | ListValue Elements =>
           ∃ Array, Payload o = CHALK_LIST Array (N.of_nat (length Elements)) ∧
                    Forall2 (Represents h) Array Elements
       end.
Proof.
  destruct 1; eexists; (split; [by apply LoadObject_Done|]); eauto.
Qed.

Lemma Represents_kind (h : gmap N Block) (Object : N) (v : ChalkValue) :
  Represents h Object v →
  ∃ o, LoadObject h Object = Done o ∧
       TypeValue (HeaderType o) = KindOrder v.
Proof.
  destruct 1 as [? o ? ? Hp|? o ? ? ? Hp|? o ? ? ? Hp ?|? o ? ? ? ? Hp ?];
    exists o; (split; [by apply LoadObject_Done|]);
    unfold HeaderType; by rewrite Hp.
Qed.

Lemma NaturalCompare_kinds (vl vr : ChalkValue) :
  KindOrder vl ≠ KindOrder vr →
  NaturalCompare vl vr
  = if KindOrder vl <? KindOrder vr then (-1)%Z else 1%Z.
Proof. destruct vl, vr; done. Qed.

Lemma ChalkCompareObjects_kinds (h : gmap N Block) (fuel : nat)
    (Left Right : N) (vl vr : ChalkValue) :
  Represents h Left vl →
  Represents h Right vr →
  KindOrder vl ≠ KindOrder vr →
  ChalkCompareObjects (S fuel) h Left Right = Done (NaturalCompare vl vr).
Proof.
  intros HLeft HRight Hkinds.
  apply Represents_kind in HLeft as (ol & Hol & Hkl).
  apply Represents_kind in HRight as (or & Hor & Hkr).
  cbn [ChalkCompareObjects]. rewrite Hol, Hor. cbn [mbind Result_bind].
  rewrite Hkl, Hkr, NaturalCompare_kinds by done.
  apply N.eqb_neq in Hkinds. rewrite Hkinds. cbn [negb].
  by destruct (KindOrder vl <? KindOrder vr).
Qed.

Lemma ChalkCompareObjects_refines (h : gmap N Block) (vl : ChalkValue) :
  ∀ (vr : ChalkValue) (Left Right : N) (fuel : nat),
    Represents h Left vl →
    Represents h Right vr →
    (Depth vl < fuel)%nat →
    ChalkCompareObjects fuel h Left Right = Done (NaturalCompare vl vr).
Proof.
  induction vl as [|l|l|ls IH] using ChalkValue_induction;
    intros vr Left Right [|fuel] HLeft HRight Hfuel; try lia;
    (match goal with
     | |- _ = Done (NaturalCompare ?v _) =>
         destruct (decide (KindOrder v = KindOrder vr)) as [Hkind|Hkind]
     end; [|by eapply ChalkCompareObjects_kinds]);
    destruct vr as [|r|r|rs]; try discriminate; clear Hkind;
    apply Represents_LoadObject in HLeft as (ol & Hol & HLeft);
    apply Represents_LoadObject in HRight as (or & Hor & HRight);
    cbn [ChalkCompareObjects]; rewrite Hol, Hor; cbn [mbind Result_bind];
    unfold HeaderType.
  - by rewrite HLeft, HRight.
  - rewrite HLeft, HRight. cbn. rewrite Z.gtb_ltb.
    destruct (l <? r)%Z; [done|]. by destruct (r <? l)%Z.
  - destruct HLeft as [HLeft Hlz]. destruct HRight as [HRight Hrz].
    rewrite HLeft, HRight.
    cbn [TypeValue N.eqb Pos.eqb negb NaturalCompare].
    destruct (strcmp_CompareBytes l r Hlz Hrz) as (z & -> & <-).
    cbn [mbind Result_bind]. unfold SignOf.
    destruct (z <? 0)%Z; [done|]. destruct (z >? 0)%Z; done.
  - destruct HLeft as (LeftArray & HLeft & HLeftElements).
    destruct HRight as (RightArray & HRight & HRightElements).
    rewrite HLeft, HRight.
    cbn [TypeValue N.eqb Pos.eqb negb]. rewrite NaturalCompare_lists.
    destruct (Nat.ltb_spec (length ls) (length rs)) as [Hlt|Hge].
    { assert ((N.of_nat (length ls) <? N.of_nat (length rs)) = true) as ->
        by (apply N.ltb_lt; lia). done. }
    assert ((N.of_nat (length ls) <? N.of_nat (length rs)) = false) as ->
      by (apply N.ltb_ge; lia).
    destruct (Nat.ltb_spec (length rs) (length ls)) as [Hgt|Hle].
    { assert ((N.of_nat (length rs) <? N.of_nat (length ls)) = true) as ->
        by (apply N.ltb_lt; lia). done. }
    assert ((N.of_nat (length rs) <? N.of_nat (length ls)) = false) as ->
      by (apply N.ltb_ge; lia).
    rewrite Nat2N.id.
    apply (ChalkCompareElements_refines h _ LeftArray RightArray ls rs
             HLeftElements HRightElements ltac:(lia)) with
      (LeftBefore := []) (RightBefore := []); [|done].
    apply Forall_forall. intros v Hv r a b Ha Hb.
    rewrite Forall_forall in IH. apply (IH v Hv); [done|done|].
    apply Depth_element in Hv. lia.
Qed.

(** C4: for two objects that stand for values built from Null, Integers,
    Strings without embedded zero bytes and hole-free Lists of such values
    (and enough fuel for their nesting), [ChalkCompareObjects] returns the
    natural order of the values; the result is -1, 0 or 1; comparing in
    the other direction returns the opposite; two objects with the same
    content, whether or not they are the same instance, compare as 0; and
    the natural order is the numeric one on Integers, the lexicographic one
    on the bytes of Strings, and on Lists the order of the lengths, then of
    the first elements that differ. *)
Theorem ChalkCompareObjects_natural_order (h : gmap N Block)
    (Left Right : N) (vl vr : ChalkValue) (fuel : nat) :
  Represents h Left vl →
  Represents h Right vr →
  (Depth vl < fuel)%nat →
  (Depth vr < fuel)%nat →
  ChalkCompareObjects fuel h Left Right = Done (NaturalCompare vl vr) ∧
  (NaturalCompare vl vr = (-1)%Z ∨ NaturalCompare vl vr = 0%Z ∨
   NaturalCompare vl vr = 1%Z) ∧
  ChalkCompareObjects fuel h Right Left = Done (- NaturalCompare vl vr)%Z ∧
  (vl = vr → ChalkCompareObjects fuel h Left Right = Done 0%Z) ∧
  (∀ x y, vl = IntegerValue x → vr = IntegerValue y →
          NaturalCompare vl vr = Z.sgn (x - y)) ∧
  (∀ l r, vl = StringValue l → vr = StringValue r →
          (NaturalCompare vl vr = (-1)%Z ↔ BytesLess l r) ∧
          (NaturalCompare vl vr = 0%Z ↔ l = r) ∧
          (NaturalCompare vl vr = 1%Z ↔ BytesLess r l)) ∧
  (∀ ls rs, vl = ListValue ls → vr = ListValue rs →
            NaturalCompare vl vr
            = if (length ls <? length rs)%nat then (-1)%Z
              else if (length rs <? length ls)%nat then 1%Z
              else CompareElementwise ls rs).
Proof.
  intros HLeft HRight Hfl Hfr.
  split; [by apply ChalkCompareObjects_refines|].
  split; [apply NaturalCompare_range|].
  split.
  { rewrite <- NaturalCompare_antisymmetric.
    by apply ChalkCompareObjects_refines. }
  split.
  { intros ->. rewrite <- (NaturalCompare_refl vr).
    by apply ChalkCompareObjects_refines. }
  split.
  { intros x y -> ->. cbn.
    destruct (Z.ltb_spec x y); [lia|]. destruct (Z.ltb_spec y x); lia. }
  split.
  { intros l r -> ->. apply CompareBytes_lexicographic. }
  intros ls rs -> ->. apply NaturalCompare_lists.
Qed.

Lemma ChalkCompareObjects_natural_order_witness :
  ChalkCompareObjects 2 (Heap EqualListsState) 4 5 = Done 0%Z ∧
  ChalkCompareObjects 2 (Heap EqualListsState) 5 4 = Done 0%Z.
Proof.
  assert (H2 : Represents (Heap EqualListsState) 2 (IntegerValue 1)).
  { by eapply RepresentsInteger. }
  assert (H3 : Represents (Heap EqualListsState) 3 (IntegerValue 1)).
  { by eapply RepresentsInteger. }
  destruct (ChalkCompareObjects_natural_order (Heap EqualListsState) 4 5
              (ListValue [IntegerValue 1]) (ListValue [IntegerValue 1]) 2)
    as (Hcompare & _ & Hopposite & _).
  - eapply (RepresentsList _ 4 _ [2]); [done|reflexivity|reflexivity|].
    by repeat constructor.
  - eapply (RepresentsList _ 5 _ [3]); [done|reflexivity|reflexivity|].
    by repeat constructor.
  - simpl. lia.
  - simpl. lia.
  - split; [exact Hcompare | exact Hopposite].
Defined.

(** ** Holes and comparison *)

Lemma strcmp_terminated (Left Right : list byte) :
  x00 ∈ Left → x00 ∈ Right → ∃ z, strcmp Left Right = Done z.
Proof.
  revert Right. induction Left as [|l Left IH]; intros Right HLeft HRight.
  { by apply elem_of_nil in HLeft. }
  destruct Right as [|r Right]; [by apply elem_of_nil in HRight|].
  cbn [strcmp].
  destruct (N.eqb_spec (Byte.to_N l) (Byte.to_N r)) as [Heq|Hne];
    cbn [negb]; [|eauto].
  destruct (N.eqb_spec (Byte.to_N l) 0) as [Hz|Hnz]; [eauto|].
  apply to_N_inj in Heq as <-.
  apply IH.
  - apply elem_of_cons in HLeft as [<-|]; [done|done].
  - apply elem_of_cons in HRight as [<-|]; [done|done].
Qed.

Lemma ChalkCompareElements_completes (Live : N → Prop)
    (Compare : N → N → Result Z) (Left Right : list N) :
  Forall Live Left →
  Forall Live Right →
  (∀ a b, Live a → Live b → Completes (Compare a b)) →
  ∀ Remaining Index,
    (Index + Remaining ≤ length Left)%nat →
    (Index + Remaining ≤ length Right)%nat →
    Completes (ChalkCompareElements Compare Left Right Remaining Index).
Proof.
  intros HLeft HRight Hcompare.
  induction Remaining as [|Remaining IH]; intros Index Hl Hr.
  { left. by eexists. }
  cbn [ChalkCompareElements].
  destruct (lookup_lt_is_Some_2 Left Index ltac:(lia)) as (a & Ha).
  destruct (lookup_lt_is_Some_2 Right Index ltac:(lia)) as (b & Hb).
  rewrite Ha, Hb.
  rewrite Forall_lookup in HLeft. rewrite Forall_lookup in HRight.
  destruct (Hcompare a b (HLeft _ _ Ha) (HRight _ _ Hb)) as [(z & ->)| ->];
    [|by right].
  cbn [mbind Result_bind].
  destruct (negb (z =? 0)%Z); [left; by eexists|].
  apply IH; lia.
Qed.

Lemma ChalkCompareObjects_completes (h : gmap N Block) (Live : N → Prop) :
  Comparable h Live →
  ∀ fuel Left Right, Live Left → Live Right →
    Completes (ChalkCompareObjects fuel h Left Right).
Proof.
  intros Hclosed. induction fuel as [|fuel IH]; intros Left Right HLeft HRight.
  { by right. }
  destruct (Hclosed Left HLeft) as (Hln & ol & Hol & Hlp).
  destruct (Hclosed Right HRight) as (Hrn & or & Hor & Hrp).
  cbn [ChalkCompareObjects].
  rewrite (LoadObject_Done _ _ _ Hln Hol), (LoadObject_Done _ _ _ Hrn Hor).
  cbn [mbind Result_bind].
  destruct (negb (TypeValue (HeaderType ol) =? TypeValue (HeaderType or))).
  { destruct (TypeValue (HeaderType ol) <? TypeValue (HeaderType or));
      left; by eexists. }
  destruct (Payload ol) as [| |x|ls lsize|les lc lg|la lcount|? ? ?];
    destruct (Payload or) as [| |y|rs rsize|res rc rg|ra rcount|? ? ?];
    try (left; by eexists).
  - destruct (x <? y)%Z; [left; by eexists|].
    destruct (x >? y)%Z; left; by eexists.
  - destruct (strcmp_terminated ls rs Hlp Hrp) as (z & ->).
    cbn [mbind Result_bind].
    destruct (z <? 0)%Z; [left; by eexists|].
    destruct (z >? 0)%Z; left; by eexists.
  - destruct Hlp as [-> Hla]. destruct Hrp as [-> Hra].
    destruct (N.ltb_spec (N.of_nat (length la)) (N.of_nat (length ra)));
      [left; by eexists|].
    destruct (N.ltb_spec (N.of_nat (length ra)) (N.of_nat (length la)));
      [left; by eexists|].
    apply (ChalkCompareElements_completes Live);
      [done | done | intros a b Ha Hb; by apply IH | lia | lia].
Qed.

(** C9: [ChalkCompareObjects] reads the slots of two lists of one length
    pair by pair and follows what it reads, with no test for a hole.  (1)
    Among objects whose lists have no holes (and whose pointers and counts
    are sound), every read finds an object: a comparison returns a result
    (or is cut short by the fuel of the model), and never stops on a null
    pointer.  (2) Two lists of one length, the first slot of the left one
    a hole, make the comparison follow the null pointer, (3) as for the two
    distinct one-slot lists of [TwoHolesState]. *)
Theorem ChalkCompareObjects_holes (h : gmap N Block) (Live : N → Prop)
    (fuel : nat) (Left Right : N) :
  Comparable h Live →
  Live Left →
  Live Right →
  ((∃ z, ChalkCompareObjects fuel h Left Right = Done z) ∨
   ChalkCompareObjects fuel h Left Right = Fault OutOfFuel) ∧
  ChalkCompareObjects fuel h Left Right ≠ Fault NullDereference ∧
  (∀ (h' : gmap N Block) (L R : N) (ol or : CHALK_OBJECT)
     (LeftRest RightRest : list N) (First Count : N) (fuel' : nat),
     L ≠ NULL → R ≠ NULL →
     h' !! L = Some (Obj ol) →
     h' !! R = Some (Obj or) →
     Payload ol = CHALK_LIST (NULL :: LeftRest) Count →
     Payload or = CHALK_LIST (First :: RightRest) Count →
     0 < Count →
     ChalkCompareObjects (S (S fuel')) h' L R = Fault NullDereference) ∧
  ChalkCompareObjects 2 (Heap TwoHolesState) 2 3 = Fault NullDereference.
Proof.
  intros Hclosed HLeft HRight.
  pose proof (ChalkCompareObjects_completes h Live Hclosed fuel Left Right
                HLeft HRight) as Hcompletes.
  split; [exact Hcompletes|]. split.
  { destruct Hcompletes as [(z & ->)| ->]; discriminate. }
  split; [|by vm_compute].
  intros h' L R ol or LeftRest RightRest First Count fuel' HL HR Hol Hor
    Hpl Hpr Hcount.
  cbn [ChalkCompareObjects].
  rewrite (LoadObject_Done _ _ _ HL Hol), (LoadObject_Done _ _ _ HR Hor).
  cbn [mbind Result_bind]. unfold HeaderType. rewrite Hpl, Hpr.
  cbn [TypeValue N.eqb Pos.eqb negb]. rewrite N.ltb_irrefl.
  destruct (N.to_nat Count) as [|Remaining] eqn:HCount; [lia|].
  cbn [ChalkCompareElements lookup list_lookup].
  unfold LoadObject at 1. done.
Qed.

Lemma ChalkCompareObjects_holes_witness :
  ChalkCompareObjects 2 (Heap EqualListsState) 4 5 ≠ Fault NullDereference ∧
  ChalkCompareObjects 2 (Heap TwoHolesState) 2 3 = Fault NullDereference.
Proof.
  destruct (ChalkCompareObjects_holes (Heap EqualListsState)
              (λ p, p = 2 ∨ p = 3 ∨ p = 4 ∨ p = 5) 2 4 5)
    as (_ & Hsafe & _ & Hhole).
  - intros p [->|[->|[->| ->]]];
      (split; [done|]); eexists; (split; [reflexivity|]); simpl; try done;
      (split; [done|]); (constructor; [auto | constructor]).
  - auto.
  - auto.
  - split; [exact Hsafe | exact Hhole].
Defined.

(** ** Fuel

    Every release takes one from the sum of the reference counts, so that
    a fuel above that sum is never used up: the fuel does not limit what
    the routines do. *)

Lemma TotalReferences_delete (h : gmap N Block) (a : N) (b : Block) :
  h !! a = Some b →
  TotalReferences h = BlockReferences b + TotalReferences (delete a h).
Proof.
  intros Ha. unfold TotalReferences.
  apply (map_fold_delete_L (λ _ b Total, BlockReferences b + Total));
    [|done].
  intros. lia.
Qed.

Lemma TotalReferences_insert (h : gmap N Block) (a : N) (b b' : Block) :
  h !! a = Some b →
  TotalReferences (<[a := b']> h) + BlockReferences b
  = TotalReferences h + BlockReferences b'.
Proof.
  intros Ha. rewrite (TotalReferences_delete h a b Ha).
  rewrite <- (insert_delete_eq h). unfold TotalReferences at 1.
  rewrite (map_fold_insert_L (λ _ b Total, BlockReferences b + Total));
    [|intros; lia|apply lookup_delete_eq].
  fold (TotalReferences (delete a h)). lia.
Qed.

Lemma TotalReferences_delete_le (h : gmap N Block) (a : N) :
  TotalReferences (delete a h) ≤ TotalReferences h.
Proof.
  destruct (h !! a) as [b|] eqn:Ha.
  - rewrite (TotalReferences_delete h a b Ha). lia.
  - by rewrite delete_id.
Qed.

Lemma Within_bind {A B} (m : M A) (f : A → M B) (s : State)
    (Q : A → State → Prop) (R : B → State → Prop) :
  Within m s Q →
  (∀ a s', Q a s' → Within (f a) s' R) →
  Within (m ≫= f) s R.
Proof.
  intros [Hfuel HQ] Hf. unfold Within, mbind, M_bind.
  destruct (m s) as [[a s']|c]; [by apply Hf, HQ|].
  split; [congruence|discriminate].
Qed.

Lemma Within_weaken {A} (m : M A) (s : State) (Q R : A → State → Prop) :
  Within m s Q → (∀ a s', Q a s' → R a s') → Within m s R.
Proof. intros [Hfuel HQ] HR. split; [done|]. eauto. Qed.

Lemma Within_mret {A} (a : A) (s : State) (Q : A → State → Prop) :
  Q a s → Within (mret a) s Q.
Proof. intros HQ. split; [discriminate|]. by intros a' s' [= <- <-]. Qed.

Lemma Within_halt {A} (c : Crash) (s : State) (Q : A → State → Prop) :
  c ≠ OutOfFuel → Within (halt c) s Q.
Proof. intros Hc. split; [unfold halt; congruence|discriminate]. Qed.

Lemma Within_ReadObject (Object : N) (s : State) :
  Within (ReadObject Object) s
    (λ o s', s' = s ∧ Heap s !! Object = Some (Obj o)).
Proof.
  split.
  - unfold ReadObject, read, LoadObject.
    destruct (Object =? NULL); [discriminate|].
    by destruct (Heap s !! Object) as [[]|].
  - intros o s' H. by apply ReadObject_inv in H as (-> & _ & ?).
Qed.

Lemma Within_ReadEntry (Entry : N) (s : State) :
  Within (ReadEntry Entry) s
    (λ e s', s' = s ∧ Heap s !! Entry = Some (DictEntry e)).
Proof.
  split.
  - unfold ReadEntry, read, LoadEntry.
    destruct (Entry =? NULL); [discriminate|].
    by destruct (Heap s !! Entry) as [[]|].
  - intros e s' H. by apply ReadEntry_inv in H as (-> & _ & ?).
Qed.

Lemma Within_assert (b : bool) (s : State) :
  Within (assert b) s (λ _ s', s' = s ∧ b = true).
Proof.
  split; [by destruct b|]. intros u s' H. by apply assert_inv in H.
Qed.

Lemma Within_Store (Address : N) (b : Block) (s : State) :
  Within (Store Address b) s
    (λ _ s', s' = WithHeap s (<[Address := b]> (Heap s))).
Proof. split; [discriminate|]. by intros u s' [= _ <-]. Qed.

Lemma Within_ChalkFree (Address : N) (s : State) :
  Within (ChalkFree Address) s
    (λ _ s', s' = WithHeap s (delete Address (Heap s))).
Proof. split; [discriminate|]. by intros u s' [= _ <-]. Qed.

Lemma TotalReferences_Store (h : gmap N Block) (a : N) (o o' : CHALK_OBJECT) :
  h !! a = Some (Obj o) →
  ReferenceCount o' = ReferenceCount o →
  TotalReferences (<[a := Obj o']> h) = TotalReferences h.
Proof.
  intros Ha Hrc.
  pose proof (TotalReferences_insert h a (Obj o) (Obj o') Ha) as H.
  simpl in H. lia.
Qed.

Section ReleaseFuel.

Variable Release : N → M unit.
Variable Fuel : N.

Hypothesis Release_Spends : ∀ a, Spends Fuel true (Release a).

Lemma OptionalRelease_Spends (b : bool) (a : N) :
  Spends Fuel false (if b then Release a else mret tt).
Proof.
  intros s Hs. destruct b.
  - eapply Within_weaken; [by apply Release_Spends|]. simpl. intros. lia.
  - apply Within_mret. simpl. lia.
Qed.

Lemma ChalkDestroyDictEntry_Spends (Dict Entry : N) :
  Spends Fuel true (ChalkDestroyDictEntry Release Dict Entry).
Proof.
  intros s Hs. unfold ChalkDestroyDictEntry.
  eapply Within_bind; [apply Within_ReadEntry|].
  intros e s0 (-> & He).
  eapply Within_bind; [apply Within_ReadObject|].
  intros d s0 (-> & Hd).
  eapply Within_bind
    with (Q := λ _ s1, TotalReferences (Heap s1) = TotalReferences (Heap s)).
  { destruct (Payload d); try (by apply Within_halt).
    eapply Within_weaken; [apply Within_Store|].
    intros _ s1 ->. simpl. by eapply TotalReferences_Store. }
  intros u1 s1 H1.
  eapply Within_bind; [apply Release_Spends; lia|].
  intros u2 s2 H2. simpl in H2.
  eapply Within_bind; [apply OptionalRelease_Spends; lia|].
  intros u3 s3 H3. simpl in H3.
  eapply Within_weaken; [apply Within_ChalkFree|].
  intros _ s4 ->. simpl.
  pose proof (TotalReferences_delete_le (Heap s3) Entry). lia.
Qed.

Lemma ChalkDestroyDict_Spends (Dict : N) (Rounds : nat) (s : State) :
  TotalReferences (Heap s) < Fuel →
  TotalReferences (Heap s) < N.of_nat Rounds →
  Within (ChalkDestroyDict Release Rounds Dict) s
    (λ _ s', TotalReferences (Heap s') ≤ TotalReferences (Heap s)).
Proof.
  revert s. induction Rounds as [|Rounds IH]; intros s Hs HRounds; [lia|].
  cbn [ChalkDestroyDict].
  eapply Within_bind; [apply Within_ReadObject|].
  intros d s0 (-> & Hd).
  destruct (Payload d) as [| | | |[|Entry Rest] Count Generation| |];
    try (by apply Within_halt).
  { eapply Within_weaken; [apply Within_assert|].
    intros _ s' [-> _]. simpl. lia. }
  eapply Within_bind; [by apply ChalkDestroyDictEntry_Spends|].
  intros u4 s1 H1. simpl in H1.
  eapply Within_bind; [apply Within_ReadObject|].
  intros d' s0 (-> & Hd').
  eapply Within_bind
    with (Q := λ _ s2, TotalReferences (Heap s2) = TotalReferences (Heap s1)).
  { destruct (Payload d'); try (by apply Within_halt).
    eapply Within_weaken; [apply Within_Store|].
    intros _ s2 ->. simpl. by eapply TotalReferences_Store. }
  intros u5 s2 H2.
  eapply Within_weaken; [apply IH; lia|].
  intros u6 s3 H3. simpl in H3. lia.
Qed.

Lemma ChalkDestroyListFrom_Spends (List : N) (Array : list N) (Index : N) :
  Spends Fuel false (ChalkDestroyListFrom Release List Array Index).
Proof.
  revert Index. induction Array as [|Element Rest IH]; intros Index s Hs;
    cbn [ChalkDestroyListFrom].
  - eapply Within_bind; [apply Within_ReadObject|].
    intros l s0 (-> & Hl).
    destruct (Payload l); try (by apply Within_halt).
    destruct (Index <? Count); [by apply Within_halt|].
    apply Within_mret. simpl. lia.
  - eapply Within_bind; [apply Within_ReadObject|].
    intros l s0 (-> & Hl).
    destruct (Payload l); try (by apply Within_halt).
    destruct (Index <? Count); [|apply Within_mret; simpl; lia].
    eapply Within_bind; [by apply OptionalRelease_Spends|].
    intros u7 s1 H1. simpl in H1.
    eapply Within_weaken; [apply IH; lia|].
    intros u8 s2 H2. simpl in *. lia.
Qed.

Lemma ChalkGutObject_Spends (Rounds : nat) (Object : N) (s : State) :
  TotalReferences (Heap s) < Fuel →
  TotalReferences (Heap s) < N.of_nat Rounds →
  Within (ChalkGutObject Release Rounds Object) s
    (λ _ s', TotalReferences (Heap s') ≤ TotalReferences (Heap s)).
Proof.
  intros Hs HRounds. unfold ChalkGutObject.
  eapply Within_bind; [apply Within_ReadObject|].
  intros o s0 (-> & Ho).
  eapply Within_bind
    with (Q := λ _ s1, TotalReferences (Heap s1) ≤ TotalReferences (Heap s)).
  { destruct (Payload o) as [| | | | | |Arguments Body Script].
    - by apply Within_halt.
    - eapply Within_bind with (Q := λ _ _, True).
      + split; [discriminate|done].
      + intros. by apply Within_halt.
    - apply Within_mret. lia.
    - apply Within_mret. lia.
    - by apply ChalkDestroyDict_Spends.
    - unfold ChalkDestroyList.
      eapply Within_bind; [apply Within_ReadObject|].
      intros l s0 (-> & Hl).
      destruct (Payload l); try (by apply Within_halt).
      by apply ChalkDestroyListFrom_Spends.
    - by apply (OptionalRelease_Spends (negb (Arguments =? NULL))). }
  intros u9 s1 H1.
  eapply Within_bind; [apply Within_ReadObject|].
  intros o' s0 (-> & Ho').
  eapply Within_weaken; [apply Within_Store|].
  intros _ s2 ->. simpl.
  rewrite (TotalReferences_Store _ _ o') by done. done.
Qed.

End ReleaseFuel.

Lemma ChalkObjectReleaseReference_Spends (fuel : nat) (Object : N) :
  Spends (N.of_nat fuel) true (ChalkObjectReleaseReference fuel Object).
Proof.
  revert Object. induction fuel as [|fuel IH]; intros Object s Hs; [lia|].
  cbn [ChalkObjectReleaseReference].
  eapply Within_bind; [apply Within_ReadObject|].
  intros o s0 (-> & Ho).
  eapply Within_bind; [apply Within_assert|].
  intros _ s0 (-> & _).
  eapply Within_bind; [apply Within_assert|].
  intros _ s0 (-> & Hrange).
  apply andb_true_iff in Hrange as [Hpos Hmax].
  apply negb_true_iff, N.eqb_neq in Hpos. apply N.ltb_lt in Hmax.
  assert (Hcount : ULONG (ReferenceCount o + MAX_ULONG) + 1 = ReferenceCount o).
  { unfold ULONG, MAX_ULONG.
    replace (ReferenceCount o + 0xFFFFFFFF)
      with (ReferenceCount o - 1 + 1 * (0xFFFFFFFF + 1)) by lia.
    rewrite N.Div0.mod_add, N.mod_small by lia. lia. }
  eapply Within_bind; [apply Within_Store|].
  intros _ s1 ->.
  set (s1 := WithHeap s _).
  assert (H1 : TotalReferences (Heap s1) + 1 = TotalReferences (Heap s)).
  { pose proof (TotalReferences_insert (Heap s) Object (Obj o)
                  (Obj (SetReferenceCount o
                          (ULONG (ReferenceCount o + MAX_ULONG)))) Ho) as H.
    simpl in H. unfold s1. simpl. lia. }
  destruct (ULONG (ReferenceCount o + MAX_ULONG) =? 0).
  - eapply Within_bind; [apply (ChalkGutObject_Spends _ _ IH); lia|].
    intros u10 s2 H2. cbv beta in H2.
    eapply Within_weaken; [apply Within_ChalkFree|].
    intros _ s3 ->. cbn [Heap WithHeap].
    pose proof (TotalReferences_delete_le (Heap s2) Object). lia.
  - apply Within_mret. lia.
Qed.

(** With fuel above the sum of the reference counts, a release does not run
    out of fuel. *)
Lemma ChalkObjectReleaseReference_fuel (fuel : nat) (Object : N) (s : State) :
  TotalReferences (Heap s) < N.of_nat fuel →
  ChalkObjectReleaseReference fuel Object s ≠ Fault OutOfFuel.
Proof.
  intros Hs. by destruct (ChalkObjectReleaseReference_Spends fuel Object s Hs).
Qed.

Lemma TotalReferences_insert_new (h : gmap N Block) (a : N) (b : Block) :
  h !! a = None →
  TotalReferences (<[a := b]> h) = BlockReferences b + TotalReferences h.
Proof.
  intros Ha. unfold TotalReferences.
  apply (map_fold_insert_L (λ _ b Total, BlockReferences b + Total));
    [|done].
  intros. lia.
Qed.

Lemma ChalkObjectAddReference_Within (Object : N) (s : State) :
  Within (ChalkObjectAddReference Object) s
    (λ _ s', TotalReferences (Heap s') = TotalReferences (Heap s) + 1).
Proof.
  split.
  - unfold ChalkObjectAddReference.
    eapply Within_bind with (R := λ _ _, True); [apply Within_ReadObject|].
    intros o s0 _.
    eapply Within_bind; [apply Within_assert|]. intros _ s1 _.
    eapply Within_bind; [apply Within_assert|]. intros _ s2 _.
    eapply Within_weaken; [apply Within_Store|]. done.
  - intros u s' H.
    apply ChalkObjectAddReference_inv in H as (o & _ & Ho & _ & _ & ->).
    pose proof (TotalReferences_insert (Heap s) Object (Obj o)
                  (Obj (SetReferenceCount o (ReferenceCount o + 1))) Ho) as H.
    simpl in *. lia.
Qed.

Lemma ChalkCompareObjects_scalar_fuel (fuel : nat) (h : gmap N Block)
    (Left Right : N) (r : CHALK_OBJECT) :
  LoadObject h Right = Done r →
  HeaderType r = ChalkObjectInteger ∨ HeaderType r = ChalkObjectString →
  ChalkCompareObjects (S fuel) h Left Right ≠ Fault OutOfFuel.
Proof.
  intros Hr Hkind. cbn [ChalkCompareObjects].
  destruct (LoadObject h Left) as [l|c] eqn:Hl.
  2:{ unfold LoadObject in Hl. destruct (Left =? NULL); [by injection Hl as <-|].
      destruct (h !! Left) as [[]|]; try discriminate;
        by injection Hl as <-. }
  rewrite Hr. cbn [mbind Result_bind].
  destruct (N.eqb_spec (TypeValue (HeaderType l)) (TypeValue (HeaderType r)))
    as [Heq|Hne]; cbn [negb].
  2:{ by destruct (TypeValue (HeaderType l) <? TypeValue (HeaderType r)). }
  unfold HeaderType in *.
  destruct (Payload r) as [| |y|rs rsize| | |]; destruct Hkind as [Hk|Hk];
    try discriminate;
    destruct (Payload l) as [| |x|ls lsize| | |]; try discriminate.
  - destruct (x <? y)%Z; [done|]. by destruct (x >? y)%Z.
  - assert (Hcmp : ∀ a b, strcmp a b ≠ Fault OutOfFuel).
    { induction a as [|c a IH]; intros [|d b]; cbn [strcmp]; try done.
      destruct (negb (Byte.to_N c =? Byte.to_N d)); [done|].
      destruct (Byte.to_N c =? 0); [done|]. apply IH. }
    specialize (Hcmp ls rs). destruct (strcmp ls rs) as [z|c]; [|simpl; congruence].
    cbn [mbind Result_bind]. destruct (z <? 0)%Z; [done|].
    by destruct (z >? 0)%Z.
Qed.

Lemma ChalkDictLookup_scalar_fuel (fuel : nat) (h : gmap N Block)
    (DictObject KeyObject : N) (k : CHALK_OBJECT) :
  LoadObject h KeyObject = Done k →
  HeaderType k = ChalkObjectInteger ∨ HeaderType k = ChalkObjectString →
  ChalkDictLookup (S fuel) h DictObject KeyObject ≠ Fault OutOfFuel.
Proof.
  intros Hk Hkind. unfold ChalkDictLookup.
  destruct (LoadObject h DictObject) as [d|c] eqn:Hd.
  2:{ unfold LoadObject in Hd.
      destruct (DictObject =? NULL); [by injection Hd as <-|].
      destruct (h !! DictObject) as [[]|]; try discriminate;
        by injection Hd as <-. }
  cbn [mbind Result_bind].
  destruct (Payload d) as [| | | |EntryList Count Generation| |]; try done.
  induction EntryList as [|CurrentEntry Rest IH]; [done|].
  cbn [ChalkDictLookupFrom].
  destruct (LoadEntry h CurrentEntry) as [e|c] eqn:He.
  2:{ unfold LoadEntry in He.
      destruct (CurrentEntry =? NULL); [by injection He as <-|].
      destruct (h !! CurrentEntry) as [[]|]; try discriminate;
        by injection He as <-. }
  cbn [mbind Result_bind].
  pose proof (ChalkCompareObjects_scalar_fuel fuel h (Key e) KeyObject k
                Hk Hkind) as Hcompare.
  destruct (ChalkCompareObjects (S fuel) h (Key e) KeyObject) as [z|c];
    [|simpl; congruence].
  cbn [mbind Result_bind]. destruct (z =? 0)%Z; [done|]. apply IH.
Qed.

Lemma Within_read {A} (f : gmap N Block → Result A) (s : State) :
  f (Heap s) ≠ Fault OutOfFuel →
  Within (read f) s (λ _ s', s' = s).
Proof.
  intros Hf. unfold Within, read.
  destruct (f (Heap s)) as [a|c]; split; congruence.
Qed.

Lemma ChalkDictNewEntry_Within (DictObject KeyObject : N) (s : State) :
  Within (ChalkDictNewEntry DictObject KeyObject) s
    (λ _ s', TotalReferences (Heap s') ≤ TotalReferences (Heap s) + 1).
Proof.
  destruct (FreshAddress_spec (Heap s)) as (Hfresh & _).
  unfold ChalkDictNewEntry.
  eapply Within_bind with
    (Q := λ e s', e = NULL ∧ Heap s' = Heap s ∨
                  Heap s' = <[FreshAddress (Heap s) := Raw]> (Heap s) ∧
                  e = FreshAddress (Heap s)).
  { unfold Within, ChalkAllocate.
    destruct (NextAllocation (Allocations s)) as [[|] Rest];
      (split; [discriminate|]); intros e s' [= <- <-]; auto. }
  intros e s0 [[-> H0]|[H0 ->]].
  { apply Within_mret. rewrite H0. lia. }
  destruct (FreshAddress (Heap s) =? NULL); [apply Within_mret; rewrite H0|].
  { rewrite TotalReferences_insert_new by done. simpl. lia. }
  eapply Within_bind; [apply Within_Store|]. intros u1 s1 ->.
  eapply Within_bind; [apply ChalkObjectAddReference_Within|].
  intros u2 s2 H2. cbn [Heap WithHeap] in H2.
  rewrite H0, insert_insert_eq, TotalReferences_insert_new in H2 by done.
  cbn [BlockReferences] in H2.
  eapply Within_bind; [apply Within_ReadObject|]. intros d s3 (-> & Hd).
  destruct (Payload d) as [| | | |EntryList Count Generation| |];
    try (by apply Within_halt).
  eapply Within_bind; [apply Within_Store|]. intros u3 s3 ->.
  apply Within_mret. cbn [Heap WithHeap].
  rewrite (TotalReferences_Store _ _ d) by done. lia.
Qed.

(** A [ChalkDictSetElement] never runs out of fuel when the fuel exceeds
    the sum of the reference counts of the heap by more than two (the two
    references that the call itself may add before it releases the former
    value). *)
Lemma ChalkDictSetElement_fuel (fuel : nat) (DictObject KeyObject
    ValueObject : N) (LValue : bool) (s : State) :
  TotalReferences (Heap s) + 2 < N.of_nat fuel →
  ChalkDictSetElement fuel DictObject KeyObject ValueObject LValue s
    ≠ Fault OutOfFuel.
Proof.
  intros Hfuel.
  cut (Within (ChalkDictSetElement fuel DictObject KeyObject ValueObject
                 LValue) s (λ _ _, True)); [by intros []|].
  unfold ChalkDictSetElement.
  eapply Within_bind; [apply Within_ReadObject|]. intros d s0 (-> & Hd).
  eapply Within_bind; [apply Within_assert|]. intros u1 s0 (-> & _).
  eapply Within_bind; [apply Within_assert|]. intros u2 s0 (-> & Hnull).
  eapply Within_bind; [apply Within_ReadObject|]. intros k s0 (-> & Hk).
  destruct (negb (IsType k ChalkObjectInteger)
            && negb (IsType k ChalkObjectString)) eqn:Hkind.
  { split; [discriminate|done]. }
  assert (Hscalar : HeaderType k = ChalkObjectInteger
                    ∨ HeaderType k = ChalkObjectString).
  { apply andb_false_iff in Hkind as [H|H];
      apply negb_false_iff, IsType_true in H; auto. }
  assert (Hkey : LoadObject (Heap s) KeyObject = Done k).
  { unfold LoadObject. apply negb_true_iff in Hnull. by rewrite Hnull, Hk. }
  destruct fuel as [|fuel]; [lia|].
  eapply Within_bind.
  { apply Within_read. by eapply ChalkDictLookup_scalar_fuel. }
  intros Found s0 ->.
  eapply Within_bind with
    (Q := λ _ s', TotalReferences (Heap s') ≤ TotalReferences (Heap s) + 1).
  { destruct (Found =? NULL); [apply ChalkDictNewEntry_Within|].
    apply Within_mret. lia. }
  intros Entry s1 H1.
  destruct (Entry =? NULL); [by apply Within_mret|].
  eapply Within_bind; [apply ChalkObjectAddReference_Within|].
  intros u3 s2 H2. cbv beta in H1, H2.
  eapply Within_bind; [apply Within_ReadEntry|]. intros e s3 (-> & He).
  eapply Within_bind with (Q := λ _ _, True).
  { destruct (negb (Value e =? NULL)); [|by apply Within_mret].
    eapply Within_weaken; [apply ChalkObjectReleaseReference_Spends; lia|].
    done. }
  intros u4 s3 _.
  eapply Within_bind; [apply Within_ReadEntry|]. intros e' s4 (-> & He').
  eapply Within_bind; [apply Within_Store|]. intros u5 s4 ->.
  by apply Within_mret.
Qed.

(** A [ChalkListSetElement] never runs out of fuel when the fuel exceeds
    the sum of the reference counts of the heap. *)
Lemma ChalkListSetElement_fuel (fuel : nat) (ListObject Index Object : N)
    (s : State) :
  TotalReferences (Heap s) < N.of_nat fuel →
  ChalkListSetElement fuel ListObject Index Object s ≠ Fault OutOfFuel.
Proof.
  intros Hfuel.
  cut (Within (ChalkListSetElement fuel ListObject Index Object) s
         (λ _ _, True)); [by intros []|].
  unfold ChalkListSetElement.
  eapply Within_bind; [apply Within_ReadObject|]. intros l s0 (-> & Hl).
  destruct (Payload l) as [| | | | |Array Count|]; try (by apply Within_halt).
  eapply Within_bind with
    (Q := λ _ s', TotalReferences (Heap s') = TotalReferences (Heap s)).
  { destruct (Count <=? Index); [|by apply Within_mret].
    eapply Within_bind with (Q := λ _ s', Heap s' = Heap s).
    { unfold Within, ChalkReallocate, ChalkAllocateBuffer.
      destruct (NextAllocation (Allocations s)) as [Success Rest].
      split; [discriminate|]. by intros b s' [= _ <-]. }
    intros NewBuffer s1 H1.
    destruct (negb NewBuffer); [apply Within_mret; by rewrite H1|].
    destruct (_ <? _); [by apply Within_halt|].
    eapply Within_bind; [apply Within_Store|]. intros u1 s2 ->.
    apply Within_mret. cbn [Heap WithHeap]. rewrite H1 in *.
    by rewrite (TotalReferences_Store _ _ l). }
  intros Grown s1 H1. cbv beta in H1.
  destruct (negb Grown); [by apply Within_mret|].
  eapply Within_bind; [apply Within_ReadObject|]. intros l1 s2 (-> & Hl1).
  destruct (Payload l1) as [| | | | |Array1 Count1|];
    try (by apply Within_halt).
  destruct (Array1 !! N.to_nat Index) as [Old|]; [|by apply Within_halt].
  eapply Within_bind with (Q := λ _ _, True).
  { destruct (negb (Old =? NULL)); [|by apply Within_mret].
    eapply Within_weaken; [apply ChalkObjectReleaseReference_Spends; lia|].
    done. }
  intros u2 s2 _.
  eapply Within_bind; [apply Within_ReadObject|]. intros l2 s3 (-> & Hl2).
  destruct (Payload l2) as [| | | | |Array2 Count2|];
    try (by apply Within_halt).
  eapply Within_bind; [apply Within_Store|]. intros u3 s3 ->.
  eapply Within_bind with (Q := λ _ _, True).
  { destruct (negb (Object =? NULL)); [|by apply Within_mret].
    eapply Within_weaken; [apply ChalkObjectAddReference_Within|]. done. }
  intros u4 s3 _. by apply Within_mret.
Qed.

(** * Properties of the other routines *)

(** ** Running a computation step by step *)

Lemma bind_run {A B} (m : M A) (f : A → M B) s a s1 r :
  m s = Done (a, s1) → f a s1 = r → (m ≫= f) s = r.
Proof. intros Hm <-. unfold mbind, M_bind. by rewrite Hm. Qed.

Lemma WithHeap_id (s : State) : WithHeap s (Heap s) = s.
Proof. by destruct s. Qed.

Lemma WithHeap_WithHeap (s : State) (h h' : gmap N Block) :
  WithHeap (WithHeap s h) h' = WithHeap s h'.
Proof. done. Qed.

Lemma ULONG_pred (c : N) :
  0 < c → c ≤ MAX_ULONG → ULONG (c + MAX_ULONG) = c - 1.
Proof.
  intros Hpos Hmax. unfold ULONG, MAX_ULONG in *.
  replace (c + 0xFFFFFFFF) with (c - 1 + 1 * (0xFFFFFFFF + 1)) by lia.
  rewrite N.Div0.mod_add. apply N.mod_small. lia.
Qed.

Lemma assert_true (s : State) : assert true s = Done (tt, s).
Proof. done. Qed.

Lemma ReferenceCount_valid (c : N) :
  0 < c < 0x10000000 →
  negb (c =? 0) && (c <? 0x10000000) = true.
Proof.
  intros [Hpos Hmax]. apply andb_true_iff. split.
  - apply negb_true_iff, N.eqb_neq. lia.
  - by apply N.ltb_lt.
Qed.

(** A release that is not the last one takes one from the count. *)

Lemma ChalkObjectReleaseReference_shared (fuel : nat) (s : State)
    (Object : N) (o : CHALK_OBJECT) :
  Object ≠ NULL →
  Heap s !! Object = Some (Obj o) →
  HeaderType o ≠ ChalkObjectInvalid →
  1 < ReferenceCount o < 0x10000000 →
  ChalkObjectReleaseReference (S fuel) Object s
    = Done (tt, WithHeap s
                  (<[Object := Obj (SetReferenceCount o (ReferenceCount o - 1))]>
                     (Heap s))).
Proof.
  intros Hnull Ho Hvalid Hrange. cbn [ChalkObjectReleaseReference].
  eapply bind_run; [by apply ReadObject_Done|].
  apply IsType_false in Hvalid. rewrite Hvalid. cbn [negb].
  eapply bind_run; [apply assert_true|].
  rewrite ReferenceCount_valid by lia.
  eapply bind_run; [apply assert_true|].
  rewrite ULONG_pred by (unfold MAX_ULONG; lia).
  eapply bind_run; [reflexivity|].
  assert ((ReferenceCount o - 1 =? 0) = false) as -> by (apply N.eqb_neq; lia).
  done.
Qed.

(** The last release of an Integer or of a String frees the object. *)

Lemma ChalkObjectReleaseReference_last (fuel : nat) (s : State)
    (Object : N) (o : CHALK_OBJECT) :
  Object ≠ NULL →
  Heap s !! Object = Some (Obj o) →
  HeaderType o = ChalkObjectInteger ∨ HeaderType o = ChalkObjectString →
  ReferenceCount o = 1 →
  ChalkObjectReleaseReference (S fuel) Object s
    = Done (tt, WithHeap s (delete Object (Heap s))).
Proof.
  intros Hnull Ho Hkind Hcount. cbn [ChalkObjectReleaseReference].
  eapply bind_run; [by apply ReadObject_Done|].
  assert (Hvalid : IsType o ChalkObjectInvalid = false)
    by (apply IsType_false; destruct Hkind as [-> | ->]; discriminate).
  rewrite Hvalid. cbn [negb].
  eapply bind_run; [apply assert_true|].
  rewrite ReferenceCount_valid by lia.
  eapply bind_run; [apply assert_true|].
  rewrite ULONG_pred by (unfold MAX_ULONG; lia).
  eapply bind_run; [reflexivity|].
  rewrite Hcount. change (1 - 1 =? 0) with true. cbn match.
  set (o0 := SetReferenceCount o (1 - 1)).
  set (s1 := WithHeap s (<[Object := Obj o0]> (Heap s))).
  assert (Ho0 : Heap s1 !! Object = Some (Obj o0))
    by (simpl; apply lookup_insert_eq).
  eapply bind_run.
  { unfold ChalkGutObject.
    eapply bind_run; [by apply ReadObject_Done|].
    eapply bind_run with (a := tt) (s1 := s1).
    { unfold HeaderType in Hkind. subst o0. simpl.
      destruct (Payload o); destruct Hkind; try discriminate; done. }
    eapply bind_run; [by apply ReadObject_Done|].
    reflexivity. }
  unfold ChalkFree, s1. simpl.
  by rewrite delete_insert_eq, delete_insert_eq.
Qed.
(** ** Reference counts *)

Lemma SetReferenceCount_id (o : CHALK_OBJECT) (c : N) :
  c = ReferenceCount o → SetReferenceCount o c = o.
Proof. intros ->. by destruct o. Qed.

(** X1: on an object with a valid type and a count [c] with [0 < c] and
    [c + 1 < 0x10000000], [ChalkObjectAddReference] followed by
    [ChalkObjectReleaseReference] leaves the state exactly as it was, and
    so does a release followed by an added reference when the object has
    more than one reference.  At the count [0x0FFFFFFF] a reference can
    still be added, and the object is then stuck: both adding and releasing
    a reference fail their assertion. *)
Theorem ChalkObjectAddReference_release (fuel : nat) (s : State)
    (Object : N) (o : CHALK_OBJECT) :
  Object ≠ NULL →
  Heap s !! Object = Some (Obj o) →
  HeaderType o ≠ ChalkObjectInvalid →
  0 < ReferenceCount o →
  (ReferenceCount o + 1 < 0x10000000 →
   (ChalkObjectAddReference Object;;
    ChalkObjectReleaseReference (S fuel) Object) s = Done (tt, s)) ∧
  (1 < ReferenceCount o < 0x10000000 →
   (ChalkObjectReleaseReference (S fuel) Object;;
    ChalkObjectAddReference Object) s = Done (tt, s)) ∧
  (ReferenceCount o = 0x0FFFFFFF →
   ∃ s', ChalkObjectAddReference Object s = Done (tt, s') ∧
         ChalkObjectAddReference Object s' = Fault AssertionFailure ∧
         ChalkObjectReleaseReference (S fuel) Object s'
           = Fault AssertionFailure).
Proof.
  intros Hnull Ho Hvalid Hpos. split; [|split].
  - intros Hmax.
    eapply bind_run; [apply (ChalkObjectAddReference_Done s Object o);
                      try done; lia|].
    rewrite (ChalkObjectReleaseReference_shared fuel _ Object
               (SetReferenceCount o (ReferenceCount o + 1)));
      try done.
    + cbn [Heap WithHeap SetReferenceCount ReferenceCount Payload].
      rewrite WithHeap_WithHeap, insert_insert_eq.
      replace (ReferenceCount o + 1 - 1) with (ReferenceCount o) by lia.
      destruct o as [c p]. cbn [ReferenceCount Payload].
      rewrite insert_id by done. by rewrite WithHeap_id.
    + simpl. apply lookup_insert_eq.
    + simpl. lia.
  - intros Hrange.
    eapply bind_run; [by apply ChalkObjectReleaseReference_shared|].
    rewrite (ChalkObjectAddReference_Done _ Object
               (SetReferenceCount o (ReferenceCount o - 1))); try done.
    + cbn [Heap WithHeap SetReferenceCount ReferenceCount Payload].
      rewrite WithHeap_WithHeap, insert_insert_eq.
      replace (ReferenceCount o - 1 + 1) with (ReferenceCount o) by lia.
      destruct o as [c p]. cbn [ReferenceCount Payload].
      rewrite insert_id by done. by rewrite WithHeap_id.
    + simpl. apply lookup_insert_eq.
    + simpl. lia.
  - intros Hcount. eexists. split.
    { apply (ChalkObjectAddReference_Done s Object o); try done. lia. }
    set (o1 := SetReferenceCount o (ReferenceCount o + 1)).
    set (s1 := WithHeap s _).
    assert (Ho1 : Heap s1 !! Object = Some (Obj o1))
      by (simpl; apply lookup_insert_eq).
    assert (Hvalid1 : IsType o1 ChalkObjectInvalid = false)
      by by apply IsType_false.
    assert (Hfull : negb (ReferenceCount o1 =? 0)
                    && (ReferenceCount o1 <? 0x10000000) = false).
    { subst o1. cbn [SetReferenceCount ReferenceCount]. rewrite Hcount.
      reflexivity. }
    split.
    + unfold ChalkObjectAddReference.
      eapply bind_run; [by apply ReadObject_Done|].
      rewrite Hvalid1. eapply bind_run; [apply assert_true|].
      by rewrite Hfull.
    + cbn [ChalkObjectReleaseReference].
      eapply bind_run; [by apply ReadObject_Done|].
      rewrite Hvalid1. eapply bind_run; [apply assert_true|].
      by rewrite Hfull.
Qed.

Lemma ChalkObjectAddReference_release_witness :
  (ChalkObjectAddReference 4;; ChalkObjectReleaseReference 1 4) SampleState
  = Done (tt, SampleState).
Proof.
  destruct (ChalkObjectAddReference_release 0 SampleState 4
              {| ReferenceCount := 1; Payload := CHALK_INT 7 |})
    as (Hround & _); [done | reflexivity | done | reflexivity |].
  apply Hround. reflexivity.
Defined.
(** ** Creating and releasing scalars *)

Lemma FreshAddress_delete (h : gmap N Block) (b : Block) :
  delete (FreshAddress h) (<[FreshAddress h := b]> h) = h.
Proof. apply delete_insert_id. apply FreshAddress_spec. Qed.

(** X2: [ChalkCreateInteger] either returns NULL, when the allocator has no
    memory, and leaves the heap as it was, or returns an address that was
    not allocated, now holding an Integer of the value given with one
    reference, every other address being as before.  Releasing the object
    returned restores the heap. *)
Theorem ChalkCreateInteger_result (fuel : nat) (Value : Z) (s : State) :
  ∃ Int s',
    ChalkCreateInteger Value s = Done (Int, s') ∧
    Stderr s' = Stderr s ∧
    Allocations s' = (NextAllocation (Allocations s)).2 ∧
    (if (NextAllocation (Allocations s)).1
     then Int = FreshAddress (Heap s) ∧ Int ≠ NULL ∧
          Heap s !! Int = None ∧
          Heap s' = <[Int := Obj {| ReferenceCount := 1;
                                    Payload := CHALK_INT Value |}]> (Heap s) ∧
          ChalkObjectReleaseReference (S fuel) Int s'
            = Done (tt, WithHeap s' (Heap s))
     else Int = NULL ∧ Heap s' = Heap s).
Proof.
  destruct (NextAllocation (Allocations s)) as [[|] Rest] eqn:Halloc.
  - destruct (FreshAddress_spec (Heap s)) as (Hfresh & Hnull & _).
    eexists _, _. split; [by apply ChalkCreateInteger_success|].
    cbn [fst snd Heap Stderr Allocations].
    split; [done|]. split; [done|]. split; [done|]. split; [done|].
    split; [done|]. split; [done|].
    erewrite ChalkObjectReleaseReference_last; try done.
    + unfold WithHeap. cbn [Heap Stderr Allocations].
      by rewrite FreshAddress_delete.
    + cbn [Heap]. apply lookup_insert_eq.
    + by left.
    + done.
  - eexists NULL, _. split.
    { unfold ChalkCreateInteger.
      eapply bind_run; [by apply ChalkAllocate_failure|]. reflexivity. }
    done.
Qed.

(** X3: [ChalkCreateString] of [Size] bytes that the initial value has (the
    size below the largest ULONG) either returns NULL, when the allocator
    has no memory for the object or for its buffer, and leaves the heap as
    it was (the object is freed when the buffer cannot be allocated), or
    returns an address that was not allocated, now holding a String with
    one reference, the [Size] bytes followed by a terminator, and the size
    given.  Releasing the object returned restores the heap. *)
Theorem ChalkCreateString_result (fuel : nat)
    (InitialValue : option (list byte)) (Size : N) (s : State) :
  Size ≤ N.of_nat (length (default [] InitialValue)) →
  Size < MAX_ULONG →
  ∃ String s',
    ChalkCreateString InitialValue Size s = Done (String, s') ∧
    Stderr s' = Stderr s ∧
    (if (NextAllocation (Allocations s)).1
        && (NextAllocation (NextAllocation (Allocations s)).2).1
     then String = FreshAddress (Heap s) ∧ String ≠ NULL ∧
          Heap s !! String = None ∧
          Heap s'
          = <[String :=
                Obj {| ReferenceCount := 1;
                       Payload :=
                         CHALK_STRING
                           (take (N.to_nat Size) (default [] InitialValue)
                              ++ [x00]) Size |}]> (Heap s) ∧
          ChalkObjectReleaseReference (S fuel) String s'
            = Done (tt, WithHeap s' (Heap s))
     else String = NULL ∧ Heap s' = Heap s).
Proof.
  intros Hsource Hsize.
  destruct (FreshAddress_spec (Heap s)) as (Hfresh & Hnull & _).
  unfold ChalkCreateString.
  destruct (NextAllocation (Allocations s)) as [[|] Rest] eqn:Halloc;
    cbn [fst snd andb].
  - destruct (NextAllocation Rest) as [[|] Rest'] eqn:Hbuffer;
      cbn [fst snd].
    + eexists _, _. split.
      { eapply bind_run; [by apply ChalkAllocate_success|].
        rewrite NULL_eqb by done.
        eapply bind_run.
        { unfold ChalkAllocateBuffer. cbn [Allocations].
          rewrite Hbuffer. reflexivity. }
        cbn [negb].
        assert (ULONG (Size + 1) = Size + 1) as ->
          by (unfold ULONG, MAX_ULONG in *; apply N.mod_small; lia).
        assert ((Size + 1 <? Size + 1) = false) as ->
          by (apply N.ltb_ge; lia).
        assert ((N.of_nat (length (default [] InitialValue)) <? Size) = false)
          as -> by (apply N.ltb_ge; lia).
        cbn [orb]. eapply bind_run; [reflexivity|]. reflexivity. }
      cbn [Heap Stderr WithHeap]. rewrite insert_insert_eq.
      split; [done|]. split; [done|]. split; [done|]. split; [done|].
      split; [done|].
      erewrite ChalkObjectReleaseReference_last; try done.
      * unfold WithHeap. cbn [Heap Stderr Allocations].
        by rewrite FreshAddress_delete.
      * cbn [Heap]. apply lookup_insert_eq.
      * by right.
      * done.
    + eexists NULL, _. split.
      { eapply bind_run; [by apply ChalkAllocate_success|].
        rewrite NULL_eqb by done.
        eapply bind_run.
        { unfold ChalkAllocateBuffer. cbn [Allocations].
          rewrite Hbuffer. reflexivity. }
        cbn [negb]. eapply bind_run; [reflexivity|]. reflexivity. }
      cbn [Heap Stderr WithHeap]. by rewrite FreshAddress_delete.
  - eexists NULL, _. split.
    { eapply bind_run; [by apply ChalkAllocate_failure|]. reflexivity. }
    done.
Qed.

Lemma ChalkCreateString_result_witness :
  ∃ s', ChalkCreateString (Some [x61; x62; x63]) 2 InitialState
        = Done (2, s') ∧
        Heap s' !! 2 = Some (Obj {| ReferenceCount := 1;
                                    Payload := CHALK_STRING [x61; x62; x00] 2 |}).
Proof.
  destruct (ChalkCreateString_result 0 (Some [x61; x62; x63]) 2 InitialState)
    as (a & s' & Hrun & _ & Hresult); [by vm_compute | reflexivity |].
  cbn [InitialState Allocations NextAllocation fst snd andb] in Hresult.
  destruct Hresult as (Ha & _ & _ & Hheap & _).
  exists s'. split.
  - rewrite Hrun, Ha. reflexivity.
  - rewrite Hheap, Ha. reflexivity.
Defined.
(** ** The null object *)

(** X4: [ChalkCreateNull] allocates nothing: it returns the one null
    object with one more reference, and a release gives the state back.
    Releasing the last reference of a Null object is an error: the release
    stops on the assertion of [ChalkGutObject]. *)
Theorem ChalkCreateNull_singleton (fuel : nat) (s : State)
    (o : CHALK_OBJECT) :
  Heap s !! ChalkNull = Some (Obj o) →
  Payload o = CHALK_NULL →
  0 < ReferenceCount o →
  ReferenceCount o + 1 < 0x10000000 →
  ChalkCreateNull s
    = Done (ChalkNull,
            WithHeap s
              (<[ChalkNull := Obj (SetReferenceCount o (ReferenceCount o + 1))]>
                 (Heap s))) ∧
  (Object ← ChalkCreateNull;
   ChalkObjectReleaseReference (S fuel) Object) s = Done (tt, s) ∧
  (ReferenceCount o = 1 →
   ChalkObjectReleaseReference (S fuel) ChalkNull s = Fault AssertionFailure).
Proof.
  intros Ho Hpay Hpos Hmax.
  assert (Hvalid : HeaderType o ≠ ChalkObjectInvalid)
    by (unfold HeaderType; by rewrite Hpay).
  assert (Hcreate : ChalkCreateNull s
            = Done (ChalkNull,
                    WithHeap s
                      (<[ChalkNull :=
                           Obj (SetReferenceCount o (ReferenceCount o + 1))]>
                         (Heap s)))).
  { unfold ChalkCreateNull.
    eapply bind_run;
      [apply (ChalkObjectAddReference_Done s ChalkNull o); try done; lia|].
    reflexivity. }
  split; [done|]. split.
  - eapply bind_run; [exact Hcreate|].
    rewrite (ChalkObjectReleaseReference_shared fuel _ ChalkNull
               (SetReferenceCount o (ReferenceCount o + 1))); try done.
    + cbn [Heap WithHeap SetReferenceCount ReferenceCount Payload].
      rewrite WithHeap_WithHeap, insert_insert_eq.
      replace (ReferenceCount o + 1 - 1) with (ReferenceCount o) by lia.
      destruct o as [c p]. cbn [ReferenceCount Payload].
      rewrite insert_id by done. by rewrite WithHeap_id.
    + simpl. apply lookup_insert_eq.
    + simpl. lia.
  - intros Hcount. cbn [ChalkObjectReleaseReference].
    eapply bind_run; [by apply ReadObject_Done|].
    apply IsType_false in Hvalid. rewrite Hvalid. cbn [negb].
    eapply bind_run; [apply assert_true|].
    rewrite ReferenceCount_valid by lia.
    eapply bind_run; [apply assert_true|].
    rewrite ULONG_pred by (unfold MAX_ULONG; lia).
    eapply bind_run; [reflexivity|].
    rewrite Hcount. change (1 - 1 =? 0) with true. cbn match.
    eapply bind_Fault. unfold ChalkGutObject.
    eapply bind_run.
    { apply ReadObject_Done; [done|]. simpl. apply lookup_insert_eq. }
    cbn [SetReferenceCount Payload]. rewrite Hpay. reflexivity.
Qed.

Lemma ChalkCreateNull_singleton_witness :
  (Object ← ChalkCreateNull; ChalkObjectReleaseReference 1 Object)
    InitialState = Done (tt, InitialState) ∧
  ChalkObjectReleaseReference 1 ChalkNull InitialState
  = Fault AssertionFailure.
Proof.
  destruct (ChalkCreateNull_singleton 0 InitialState
              {| ReferenceCount := 1; Payload := CHALK_NULL |})
    as (_ & Hround & Hlast); [reflexivity | done | reflexivity | reflexivity |].
  split; [exact Hround | by apply Hlast].
Defined.

(** ** Functions *)

(** X5: [ChalkCreateFunction] with an argument list that is a live object
    returns NULL without touching the heap when the allocator has no
    memory; otherwise it returns an address that was not allocated, holding
    a Function with one reference that records the argument list, the body
    and the script, and the argument list has one more reference.
    Releasing the function releases the argument list and restores the
    heap. *)
Theorem ChalkCreateFunction_result (fuel : nat) (s : State)
    (Arguments Body Script : N) (a : CHALK_OBJECT) :
  Arguments ≠ NULL →
  Heap s !! Arguments = Some (Obj a) →
  HeaderType a ≠ ChalkObjectInvalid →
  0 < ReferenceCount a →
  ReferenceCount a + 1 < 0x10000000 →
  ∃ Function s',
    ChalkCreateFunction Arguments Body Script s = Done (Function, s') ∧
    (if (NextAllocation (Allocations s)).1
     then Function = FreshAddress (Heap s) ∧ Function ≠ NULL ∧
          Heap s !! Function = None ∧
          Heap s'
          = <[Arguments := Obj (SetReferenceCount a (ReferenceCount a + 1))]>
              (<[Function :=
                   Obj {| ReferenceCount := 1;
                          Payload := CHALK_FUNCTION Arguments Body Script |}]>
                 (Heap s)) ∧
          ChalkObjectReleaseReference (S (S fuel)) Function s'
            = Done (tt, WithHeap s' (Heap s))
     else Function = NULL ∧ Heap s' = Heap s).
Proof.
  intros Hnull Ha Hvalid Hpos Hmax.
  destruct (FreshAddress_spec (Heap s)) as (Hfresh & Hfnull & _).
  set (F := FreshAddress (Heap s)) in *.
  assert (Hne : F ≠ Arguments) by congruence.
  unfold ChalkCreateFunction.
  destruct (NextAllocation (Allocations s)) as [[|] Rest] eqn:Halloc;
    cbn [fst snd].
  - set (f := {| ReferenceCount := 1;
                 Payload := CHALK_FUNCTION Arguments Body Script |}).
    set (a1 := SetReferenceCount a (ReferenceCount a + 1)).
    set (s2 := {| Heap := <[Arguments := Obj a1]> (<[F := Obj f]> (Heap s));
                  Allocations := Rest; Stderr := Stderr s |}).
    exists F, s2. split.
    { eapply bind_run; [by apply ChalkAllocate_success|]. fold F.
      rewrite NULL_eqb by done.
      eapply bind_run; [reflexivity|].
      rewrite (NULL_eqb Arguments) by done. cbn [negb].
      eapply bind_run.
      { apply (ChalkObjectAddReference_Done _ Arguments a); try done.
        - cbn [Heap WithHeap]. by rewrite !lookup_insert_ne.
        - lia. }
      unfold s2, WithHeap. cbn [Heap Allocations Stderr].
      by rewrite insert_insert_eq. }
    split; [done|]. split; [done|]. split; [done|]. split; [done|].
    cbn [ChalkObjectReleaseReference].
    assert (Hf : Heap s2 !! F = Some (Obj f))
      by (cbn [Heap s2]; rewrite lookup_insert_ne by done;
          apply lookup_insert_eq).
    eapply bind_run; [by apply ReadObject_Done|].
    eapply bind_run; [apply assert_true|].
    eapply bind_run; [apply assert_true|].
    eapply bind_run; [reflexivity|].
    change (ULONG (ReferenceCount f + MAX_ULONG) =? 0) with true.
    cbn match.
    set (f0 := SetReferenceCount f (ULONG (ReferenceCount f + MAX_ULONG))).
    set (s3 := WithHeap s2 (<[F := Obj f0]> (Heap s2))).
    assert (Hf0 : Heap s3 !! F = Some (Obj f0))
      by (cbn [Heap s3 WithHeap]; apply lookup_insert_eq).
    assert (Ha1 : Heap s3 !! Arguments = Some (Obj a1)).
    { cbn [Heap s3 s2 WithHeap]. rewrite lookup_insert_ne by done.
      apply lookup_insert_eq. }
    eapply bind_run.
    { unfold ChalkGutObject.
      eapply bind_run; [by apply ReadObject_Done|].
      cbn [f0 f SetReferenceCount Payload].
      rewrite (NULL_eqb Arguments) by done. cbn [negb].
      eapply bind_run.
      { apply (ChalkObjectReleaseReference_shared fuel s3 Arguments a1);
          try done. cbn [a1 SetReferenceCount ReferenceCount]. lia. }
      eapply bind_run.
      { apply ReadObject_Done; [done|]. cbn [Heap WithHeap].
        rewrite lookup_insert_ne by done. exact Hf0. }
      reflexivity. }
    unfold ChalkFree, WithHeap. cbn [Heap Allocations Stderr s3 s2 WithHeap].
    f_equal. f_equal. f_equal.
    apply map_eq. intros p.
    destruct (decide (p = F)) as [->|HpF].
    { by rewrite lookup_delete_eq, Hfresh. }
    rewrite lookup_delete_ne, lookup_insert_ne by done.
    destruct (decide (p = Arguments)) as [->|HpA].
    { rewrite lookup_insert_eq, Ha.
      cbn [a1 SetReferenceCount ReferenceCount Payload].
      replace (ReferenceCount a + 1 - 1) with (ReferenceCount a) by lia.
      by destruct a. }
    by rewrite !lookup_insert_ne by done.
  - exists NULL, {| Heap := Heap s; Allocations := Rest; Stderr := Stderr s |}.
    split; [|done].
    eapply bind_run; [by apply ChalkAllocate_failure|]. reflexivity.
Qed.

Lemma ChalkCreateFunction_result_witness :
  ∃ s', ChalkCreateFunction 3 0 0 SampleState = Done (5, s') ∧
        ChalkObjectReleaseReference 2 5 s'
        = Done (tt, WithHeap s' (Heap SampleState)).
Proof.
  destruct (ChalkCreateFunction_result 0 SampleState 3 0 0
              {| ReferenceCount := 1; Payload := CHALK_LIST [] 0 |})
    as (F & s' & Hrun & Hresult);
    [done | reflexivity | done | reflexivity | reflexivity |].
  cbn [SampleState Allocations NextAllocation fst] in Hresult.
  destruct Hresult as (HF & _ & _ & _ & Hrelease).
  exists s'. split.
  - rewrite Hrun, HF. reflexivity.
  - replace 5 with F by (rewrite HF; reflexivity). exact Hrelease.
Defined.
(** ** Releasing a list *)

Lemma RemoveFromReferenceCount_0 (b : Block) :
  RemoveFromReferenceCount 0 b = b.
Proof.
  destruct b as [|o| |]; try done. destruct o.
  unfold RemoveFromReferenceCount, SetReferenceCount. simpl.
  by rewrite N.sub_0_r.
Qed.

Lemma References_nil (p : N) : References p [] = 0.
Proof. unfold References. by destruct (p =? NULL). Qed.

Lemma References_NULL (Array : list N) : References NULL Array = 0.
Proof. done. Qed.

Lemma References_present (p : N) (Array : list N) :
  p ∈ Array → p ≠ NULL → 0 < References p Array.
Proof.
  intros Hin Hnull. unfold References. rewrite NULL_eqb by done.
  induction Array as [|e Rest IH]; [by apply elem_of_nil in Hin|].
  rewrite filter_cons. destruct (decide (e = p)) as [->|Hne].
  - cbn [length]. lia.
  - apply elem_of_cons in Hin as [->|Hin]; [done|]. by apply IH.
Qed.

Lemma ULONG_small (x : N) : x ≤ MAX_ULONG → ULONG x = x.
Proof. intros H. unfold ULONG, MAX_ULONG in *. apply N.mod_small. lia. Qed.

(** The loop of [ChalkDestroyList] over elements that stay alive takes one
    reference per slot from each of them. *)

Lemma ChalkDestroyListFrom_shared (fuel : nat) (List : N) (l : CHALK_OBJECT)
    (Whole : list N) (Count : N) (Array : list N) :
  ∀ (s : State) (Index : N),
    List ≠ NULL →
    Heap s !! List = Some (Obj l) →
    Payload l = CHALK_LIST Whole Count →
    Count = Index + N.of_nat (length Array) →
    Count ≤ MAX_ULONG →
    List ∉ Array →
    SharedElements (Heap s) Array →
    ∃ h',
      ChalkDestroyListFrom (ChalkObjectReleaseReference (S fuel)) List Array
        Index s = Done (tt, WithHeap s h') ∧
      ∀ p, h' !! p
           = RemoveFromReferenceCount (References p Array) <$> Heap s !! p.
Proof.
  induction Array as [|Element Rest IH];
    intros s Index Hnull Hl Hpay Hcount Hmax Hnotin Hshared.
  - exists (Heap s). split.
    + cbn [ChalkDestroyListFrom].
      eapply bind_run; [by apply ReadObject_Done|]. rewrite Hpay.
      cbn [length] in Hcount.
      assert ((Index <? Count) = false) as -> by (apply N.ltb_ge; lia).
      by rewrite WithHeap_id.
    + intros p. rewrite References_nil.
      destruct (Heap s !! p) as [b|]; [|done]. simpl.
      by rewrite RemoveFromReferenceCount_0.
  - cbn [length] in Hcount.
    apply not_elem_of_cons in Hnotin as [Hne Hnotin].
    assert (Hstep : ∀ r,
              ((if negb (Element =? NULL)
                then ChalkObjectReleaseReference (S fuel) Element
                else mret tt);;
               ChalkDestroyListFrom (ChalkObjectReleaseReference (S fuel))
                 List Rest (Index + 1)) s = r →
              ChalkDestroyListFrom (ChalkObjectReleaseReference (S fuel))
                List (Element :: Rest) Index s = r).
    { intros r Hr. cbn [ChalkDestroyListFrom].
      eapply (bind_run _ _ s l s); [by apply ReadObject_Done|]. rewrite Hpay.
      assert ((Index <? Count) = true) as -> by (apply N.ltb_lt; lia).
      by rewrite ULONG_small by lia. }
    destruct (N.eqb_spec Element NULL) as [->|Helement]; cbn [negb] in Hstep.
    + destruct (IH s (Index + 1)) as (h' & Hrun & Hh'); try done; [lia| |].
      { intros e He Hen.
        destruct (Hshared e) as (v & Hv & Hvalid & Hrange);
          [by apply elem_of_cons; right | done |].
        exists v. by rewrite References_cons_NULL in Hrange. }
      exists h'. split.
      * apply Hstep. eapply bind_run; [reflexivity|]. exact Hrun.
      * intros p. by rewrite References_cons_NULL.
    + destruct (Hshared Element) as (v & Hv & Hvalid & Hrange);
        [by apply elem_of_cons; left | done |].
      rewrite References_cons_eq in Hrange by done.
      set (v1 := SetReferenceCount v (ReferenceCount v - 1)).
      set (s1 := WithHeap s (<[Element := Obj v1]> (Heap s))).
      destruct (IH s1 (Index + 1)) as (h' & Hrun & Hh'); try done.
      { cbn [s1 Heap WithHeap]. by rewrite lookup_insert_ne. }
      { lia. }
      { intros e He Hen. cbn [s1 Heap WithHeap].
        destruct (decide (Element = e)) as [<-|Hee].
        - rewrite lookup_insert_eq. exists v1. split; [done|].
          split; [done|]. cbn [v1 SetReferenceCount ReferenceCount]. lia.
        - rewrite lookup_insert_ne by done.
          destruct (Hshared e) as (w & Hw & Hwvalid & Hwrange);
            [by apply elem_of_cons; right | done |].
          exists w. rewrite References_cons_ne in Hwrange by done. done. }
      exists h'. split.
      * apply Hstep. eapply bind_run.
        { apply (ChalkObjectReleaseReference_shared fuel s Element v);
            try done. lia. }
        exact Hrun.
      * intros p. rewrite Hh'. cbn [s1 Heap WithHeap].
        destruct (decide (Element = p)) as [<-|Hep].
        -- rewrite lookup_insert_eq, Hv. cbn [fmap option_fmap option_map].
           rewrite References_cons_eq by done.
           unfold RemoveFromReferenceCount, v1, SetReferenceCount.
           cbn [ReferenceCount Payload]. do 3 f_equal. lia.
        -- rewrite lookup_insert_ne by done.
           by rewrite (References_cons_ne p Element) by done.
Qed.
Lemma References_le_length (p : N) (Array : list N) :
  References p Array ≤ N.of_nat (length Array).
Proof.
  unfold References. destruct (p =? NULL); [lia|].
  pose proof (length_filter (λ Element, Element = p) Array). lia.
Qed.

Lemma SharedElements_frame (h h' : gmap N Block) (Array : list N) :
  (∀ Element, Element ∈ Array → h' !! Element = h !! Element) →
  SharedElements h Array → SharedElements h' Array.
Proof.
  intros Hsame Hshared e He Hnull. rewrite Hsame by done. by apply Hshared.
Qed.

(** X6: releasing the last reference of a List whose elements all stay
    alive (each has more references than slots of the list holding it)
    frees the list and takes from every element one reference per slot
    holding it; holes are skipped and nothing else changes. *)
Theorem ChalkObjectReleaseReference_list (fuel : nat) (s : State)
    (List : N) (l : CHALK_OBJECT) (Array : list N) :
  List ≠ NULL →
  Heap s !! List = Some (Obj l) →
  ReferenceCount l = 1 →
  Payload l = CHALK_LIST Array (N.of_nat (length Array)) →
  N.of_nat (length Array) ≤ MAX_ULONG →
  List ∉ Array →
  SharedElements (Heap s) Array →
  ∃ s',
    ChalkObjectReleaseReference (S (S fuel)) List s = Done (tt, s') ∧
    Allocations s' = Allocations s ∧ Stderr s' = Stderr s ∧
    Heap s' !! List = None ∧
    ∀ p, p ≠ List →
         Heap s' !! p
         = RemoveFromReferenceCount (References p Array) <$> Heap s !! p.
Proof.
  intros Hnull Hl Hcount Hpay Hmax Hnotin Hshared.
  set (l0 := SetReferenceCount l 0).
  set (s1 := WithHeap s (<[List := Obj l0]> (Heap s))).
  assert (Hl0 : Heap s1 !! List = Some (Obj l0))
    by (cbn [s1 Heap WithHeap]; apply lookup_insert_eq).
  destruct (ChalkDestroyListFrom_shared fuel List l0 Array
              (N.of_nat (length Array)) Array s1 0)
    as (h' & Hloop & Hh'); try done.
  { eapply SharedElements_frame; [|exact Hshared].
    intros e He. cbn [s1 Heap WithHeap]. rewrite lookup_insert_ne; [done|].
    intros ->. done. }
  assert (Hl' : h' !! List = Some (Obj l0)).
  { rewrite Hh', Hl0. cbn [fmap option_fmap option_map].
    rewrite References_absent by done.
    by rewrite RemoveFromReferenceCount_0. }
  eexists. split.
  { cbn [ChalkObjectReleaseReference].
    eapply bind_run; [by apply ReadObject_Done|].
    assert (IsType l ChalkObjectInvalid = false) as ->
      by (apply IsType_false; unfold HeaderType; by rewrite Hpay).
    eapply bind_run; [apply assert_true|].
    rewrite Hcount.
    eapply bind_run; [apply assert_true|].
    eapply bind_run; [reflexivity|].
    change (ULONG (1 + MAX_ULONG)) with 0. cbn match. fold l0 s1.
    eapply bind_run.
    { unfold ChalkGutObject.
      eapply bind_run; [by apply ReadObject_Done|].
      cbn [l0 SetReferenceCount Payload]. rewrite Hpay.
      eapply bind_run.
      { unfold ChalkDestroyList.
        eapply bind_run; [by apply ReadObject_Done|].
        cbn [l0 SetReferenceCount Payload]. rewrite Hpay. exact Hloop. }
      eapply bind_run; [by apply ReadObject_Done|]. reflexivity. }
    reflexivity. }
  cbn [Heap Allocations Stderr WithHeap s1].
  split; [done|]. split; [done|]. split; [apply lookup_delete_eq|].
  intros p Hp. rewrite lookup_delete_ne, lookup_insert_ne by done.
  rewrite Hh'. cbn [s1 Heap WithHeap]. by rewrite lookup_insert_ne.
Qed.

Lemma ChalkObjectReleaseReference_list_witness :
  ∃ s', ChalkObjectReleaseReference 2 4 EqualListsState = Done (tt, s') ∧
        Heap s' !! 4 = None ∧
        Heap s' !! 2 = Some (Obj {| ReferenceCount := 1;
                                    Payload := CHALK_INT 1 |}).
Proof.
  destruct (ChalkObjectReleaseReference_list 0 EqualListsState 4
              {| ReferenceCount := 1; Payload := CHALK_LIST [2] 1 |} [2])
    as (s' & Hrun & _ & _ & Hlist & Hothers);
    [done | reflexivity | reflexivity | reflexivity | by vm_compute | | |].
  - intros Hin. apply list_elem_of_singleton in Hin. discriminate.
  - intros e He _. apply list_elem_of_singleton in He as ->.
    eexists. split; [reflexivity|]. split; [done|]. by vm_compute.
  - exists s'. split; [exact Hrun|]. split; [exact Hlist|].
    rewrite Hothers by done. reflexivity.
Defined.
(** ** Creating a list *)

Lemma RemoveFromReferenceCount_AddToReferenceCount (k : N) (b : Block) :
  RemoveFromReferenceCount k (AddToReferenceCount k b) = b.
Proof.
  destruct b as [|o| |]; try done. destruct o as [c p].
  unfold RemoveFromReferenceCount, AddToReferenceCount, SetReferenceCount.
  cbn [ReferenceCount Payload]. do 2 f_equal. lia.
Qed.

Lemma References_replicate_NULL (p : N) (n : nat) :
  References p (replicate n NULL) = 0.
Proof.
  induction n as [|n IH]; [apply References_nil|].
  cbn [replicate]. by rewrite References_cons_NULL.
Qed.

(** X7: [ChalkCreateList] of [Size] slots, for which the size in bytes of
    an array of [Size] pointers is a UINTN ([Size] is at most
    [0x3FFFFFFF]), given initial values that are holes or live objects (or
    none: every slot is then a hole), returns NULL and leaves the heap as
    it was when the allocator has no memory for the object or, the size
    not being zero, for the slot array.  Otherwise it returns an address
    that was not allocated, holding a List with one reference, [Size]
    slots and the first [Size] initial values (or holes) in them, and
    every object has gained one reference per slot holding it.  Releasing
    the list restores the heap. *)
Theorem ChalkCreateList_result (fuel : nat)
    (InitialValues : option (list N)) (Size : N) (s : State) :
  let Array := match InitialValues with
               | Some Values => take (N.to_nat Size) Values
               | None => replicate (N.to_nat Size) NULL
               end in
  sizeof_PVOID * Size ≤ MAX_UINTN →
  N.of_nat (length Array) = Size →
  (∀ Element, Element ∈ Array → Element ≠ NULL →
     ∃ v, Heap s !! Element = Some (Obj v) ∧
          HeaderType v ≠ ChalkObjectInvalid ∧
          0 < ReferenceCount v ∧
          ReferenceCount v + N.of_nat (length Array) < 0x10000000) →
  ∃ List s',
    ChalkCreateList InitialValues Size s = Done (List, s') ∧
    Stderr s' = Stderr s ∧
    (if (NextAllocation (Allocations s)).1
        && ((Size =? 0)
            || (NextAllocation (NextAllocation (Allocations s)).2).1)
     then List = FreshAddress (Heap s) ∧ List ≠ NULL ∧
          Heap s !! List = None ∧
          Heap s' !! List
          = Some (Obj {| ReferenceCount := 1;
                         Payload := CHALK_LIST Array Size |}) ∧
          (∀ p, p ≠ List →
                Heap s' !! p
                = AddToReferenceCount (References p Array) <$> Heap s !! p) ∧
          ∃ s'', ChalkObjectReleaseReference (S (S fuel)) List s'
                 = Done (tt, s'') ∧ Heap s'' = Heap s
     else List = NULL ∧ Heap s' = Heap s).
Proof.
  intros Array Hbytes Hlength Hlive.
  assert (Hmax : Size ≤ MAX_ULONG)
    by (unfold sizeof_PVOID, MAX_UINTN, MAX_ULONG in *; lia).
  destruct (FreshAddress_spec (Heap s)) as (Hfresh & Hnull & _).
  set (F := FreshAddress (Heap s)) in *.
  assert (HnotinF : F ∉ Array).
  { intros Hin. destruct (Hlive F Hin Hnull) as (v & Hv & _). congruence. }
  (* What holds of any state that has the list and the added references. *)
  assert (Hfinish : ∀ s',
    Heap s' !! F = Some (Obj {| ReferenceCount := 1;
                                Payload := CHALK_LIST Array Size |}) →
    (∀ p, p ≠ F →
       Heap s' !! p
       = AddToReferenceCount (References p Array) <$> Heap s !! p) →
    ∃ s'', ChalkObjectReleaseReference (S (S fuel)) F s' = Done (tt, s'') ∧
           Heap s'' = Heap s).
  { intros s' HF Hothers.
    destruct (ChalkObjectReleaseReference_list fuel s' F
                {| ReferenceCount := 1; Payload := CHALK_LIST Array Size |}
                Array)
      as (s'' & Hrun & _ & _ & Hgone & Hrest); try done.
    - cbn [Payload]. by rewrite Hlength.
    - by rewrite Hlength.
    - intros e He Hen. destruct (Hlive e He Hen) as (v & Hv & Hvalid & Hpos & Hv').
      assert (HeF : e ≠ F) by congruence.
      rewrite Hothers, Hv by done. cbn [fmap option_fmap option_map].
      eexists. split; [done|]. split; [done|].
      cbn [SetReferenceCount ReferenceCount].
      pose proof (References_le_length e Array). lia.
    - exists s''. split; [done|]. apply map_eq. intros p.
      destruct (decide (p = F)) as [->|Hp]; [by rewrite Hgone, Hfresh|].
      rewrite Hrest, Hothers by done.
      destruct (Heap s !! p) as [b|]; [|done].
      cbn [fmap option_fmap option_map].
      by rewrite RemoveFromReferenceCount_AddToReferenceCount. }
  unfold ChalkCreateList.
  destruct (NextAllocation (Allocations s)) as [[|] Rest] eqn:Halloc;
    cbn [fst snd andb].
  2:{ eexists NULL, _. split.
      { eapply bind_run; [by apply ChalkAllocate_failure|]. reflexivity. }
      done. }
  destruct (N.eqb_spec Size 0) as [Hzero|Hsize]; cbn [orb negb].
  { assert (HArray : Array = []).
    { apply nil_length_inv. lia. }
    eexists F, _. split.
    { eapply bind_run; [by apply ChalkAllocate_success|]. fold F.
      rewrite NULL_eqb by done.
      eapply bind_run; [reflexivity|]. reflexivity. }
    cbn [Heap Stderr WithHeap]. rewrite insert_insert_eq.
    split; [done|]. split; [done|]. split; [done|]. split; [done|].
    split; [rewrite lookup_insert_eq, HArray, Hzero; done|].
    assert (Hothers : ∀ p, p ≠ F →
              <[F := Obj {| ReferenceCount := 1;
                            Payload := CHALK_LIST [] 0 |}]> (Heap s) !! p
              = AddToReferenceCount (References p Array) <$> Heap s !! p).
    { intros p Hp. rewrite lookup_insert_ne by done.
      rewrite HArray, References_nil.
      destruct (Heap s !! p) as [b|]; [|done].
      cbn [fmap option_fmap option_map]. by rewrite AddToReferenceCount_0. }
    split; [exact Hothers|].
    apply Hfinish; cbn [Heap WithHeap]; [|exact Hothers].
    by rewrite lookup_insert_eq, HArray, Hzero. }
  destruct (NextAllocation Rest) as [[|] Rest'] eqn:Hbuffer; cbn [fst snd].
  2:{ eexists NULL, _. split.
      { eapply bind_run; [by apply ChalkAllocate_success|]. fold F.
        rewrite NULL_eqb by done.
        eapply bind_run; [reflexivity|].
        eapply bind_run.
        { unfold ChalkAllocateBuffer. cbn [Allocations WithHeap].
          rewrite Hbuffer. reflexivity. }
        cbn [negb]. eapply bind_run; [reflexivity|]. reflexivity. }
      cbn [Heap Stderr WithHeap]. rewrite !delete_insert_eq.
      split; [done|]. split; [done|]. by apply delete_id. }
  set (lst := {| ReferenceCount := 1; Payload := CHALK_LIST Array Size |}).
  set (s4 := {| Heap := <[F := Obj lst]> (Heap s);
                Allocations := Rest'; Stderr := Stderr s |}).
  destruct InitialValues as [Values|].
  - destruct (ChalkAddReferences_Done Array s4) as (h' & Hadd & Hh').
    { intros e He Hen. destruct (Hlive e He Hen) as (v & Hv & Hvalid & Hpos & Hv').
      exists v. cbn [s4 Heap]. rewrite lookup_insert_ne by congruence.
      repeat split; try done. lia. }
    assert (Hlen : (N.of_nat (length Values) <? Size) = false).
    { apply N.ltb_ge. subst Array. rewrite length_take in Hlength. lia. }
    exists F, (WithHeap s4 h'). split.
    { eapply bind_run; [by apply ChalkAllocate_success|]. fold F.
      rewrite NULL_eqb by done.
      eapply bind_run; [reflexivity|].
      eapply bind_run.
      { unfold ChalkAllocateBuffer. cbn [Allocations WithHeap].
        rewrite Hbuffer. reflexivity. }
      cbn [negb]. rewrite Hlen.
      eapply bind_run; [reflexivity|].
      cbn [Heap WithHeap Allocations Stderr]. rewrite !insert_insert_eq.
      eapply bind_run; [exact Hadd|]. reflexivity. }
    assert (HF : h' !! F = Some (Obj lst)).
    { rewrite Hh'. cbn [s4 Heap]. rewrite lookup_insert_eq.
      cbn [fmap option_fmap option_map].
      rewrite References_absent by done. by rewrite AddToReferenceCount_0. }
    assert (Hothers : ∀ p, p ≠ F →
              h' !! p
              = AddToReferenceCount (References p Array) <$> Heap s !! p).
    { intros p Hp. rewrite Hh'. cbn [s4 Heap].
      by rewrite lookup_insert_ne by done. }
    cbn [Heap Stderr WithHeap s4].
    split; [done|]. split; [done|]. split; [done|]. split; [done|].
    split; [done|]. split; [done|]. by apply Hfinish.
  - exists F, s4. split.
    { eapply bind_run; [by apply ChalkAllocate_success|]. fold F.
      rewrite NULL_eqb by done.
      eapply bind_run; [reflexivity|].
      eapply bind_run.
      { unfold ChalkAllocateBuffer. cbn [Allocations WithHeap].
        rewrite Hbuffer. reflexivity. }
      cbn [negb].
      eapply bind_run; [reflexivity|].
      cbn [Heap WithHeap Allocations Stderr]. rewrite !insert_insert_eq.
      rewrite (N.mul_comm Size), ArraySlots_small by done.
      reflexivity. }
    assert (Hholes : ∀ p, References p Array = 0).
    { intros p. apply References_replicate_NULL. }
    assert (Hothers : ∀ p, p ≠ F →
              Heap s4 !! p
              = AddToReferenceCount (References p Array) <$> Heap s !! p).
    { intros p Hp. cbn [s4 Heap]. rewrite lookup_insert_ne by done.
      rewrite Hholes. destruct (Heap s !! p) as [b|]; [|done].
      cbn [fmap option_fmap option_map]. by rewrite AddToReferenceCount_0. }
    assert (HF : Heap s4 !! F = Some (Obj lst))
      by (cbn [s4 Heap]; apply lookup_insert_eq).
    split; [done|]. split; [done|]. split; [done|]. split; [done|].
    split; [done|]. split; [done|]. by apply Hfinish.
Qed.

Lemma ChalkCreateList_result_witness :
  ∃ s', ChalkCreateList (Some [4; NULL; 4]) 3 SampleState = Done (5, s') ∧
        Heap s' !! 5
        = Some (Obj {| ReferenceCount := 1;
                       Payload := CHALK_LIST [4; NULL; 4] 3 |}) ∧
        Heap s' !! 4
        = Some (Obj {| ReferenceCount := 3; Payload := CHALK_INT 7 |}).
Proof.
  destruct (ChalkCreateList_result 0 (Some [4; NULL; 4]) 3 SampleState)
    as (List & s' & Hrun & _ & Hresult); [by vm_compute | reflexivity | |].
  - intros e He Hnull. exists {| ReferenceCount := 1; Payload := CHALK_INT 7 |}.
    assert (e = 4) as ->.
    { cbn [take N.to_nat Pos.to_nat Pos.iter_op Nat.add] in He.
      repeat (apply elem_of_cons in He as [He|He]; [done|]).
      by apply elem_of_nil in He. }
    split; [reflexivity|]. split; [done|]. split; reflexivity.
  - cbn [SampleState Allocations NextAllocation fst snd andb orb] in Hresult.
    change (3 =? 0) with false in Hresult. cbn [orb] in Hresult.
    destruct Hresult as (HList & _ & _ & Hlist & Hothers & _).
    assert (List = 5) as -> by (rewrite HList; reflexivity).
    exists s'. split; [exact Hrun|]. split; [exact Hlist|].
    rewrite Hothers by done. reflexivity.
Defined.
(** ** Optional references *)

Lemma HeapAddReference_run (Object : N) (s : State) :
  (Object ≠ NULL →
   ∃ v, Heap s !! Object = Some (Obj v) ∧
        HeaderType v ≠ ChalkObjectInvalid ∧
        0 < ReferenceCount v < 0x10000000) →
  (if negb (Object =? NULL) then ChalkObjectAddReference Object else mret tt) s
  = Done (tt, WithHeap s (HeapAddReference Object (Heap s))).
Proof.
  intros Hlive. unfold HeapAddReference.
  destruct (N.eqb_spec Object NULL) as [->|Hnull]; cbn [negb].
  - by rewrite WithHeap_id.
  - destruct (Hlive Hnull) as (v & Hv & Hvalid & Hrange).
    rewrite (ChalkObjectAddReference_Done s Object v) by done.
    by rewrite (alter_alt_Some _ _ _ _ Hv).
Qed.

Lemma HeapReleaseReference_run (fuel : nat) (Object : N) (s : State) :
  (Object ≠ NULL →
   ∃ v, Heap s !! Object = Some (Obj v) ∧
        HeaderType v ≠ ChalkObjectInvalid ∧
        1 < ReferenceCount v < 0x10000000) →
  (if negb (Object =? NULL)
   then ChalkObjectReleaseReference (S fuel) Object else mret tt) s
  = Done (tt, WithHeap s (HeapReleaseReference Object (Heap s))).
Proof.
  intros Hlive. unfold HeapReleaseReference.
  destruct (N.eqb_spec Object NULL) as [->|Hnull]; cbn [negb].
  - by rewrite WithHeap_id.
  - destruct (Hlive Hnull) as (v & Hv & Hvalid & Hrange).
    rewrite (ChalkObjectReleaseReference_shared fuel s Object v) by done.
    by rewrite (alter_alt_Some _ _ _ _ Hv).
Qed.

Lemma HeapAddReference_lookup (Object p : N) (h : gmap N Block)
    (o : CHALK_OBJECT) :
  h !! p = Some (Obj o) →
  ∃ o', HeapAddReference Object h !! p = Some (Obj o') ∧
        Payload o' = Payload o ∧
        ReferenceCount o'
        = if decide (p = Object ∧ Object ≠ NULL)
          then ReferenceCount o + 1 else ReferenceCount o.
Proof.
  intros Hp. unfold HeapAddReference.
  destruct (N.eqb_spec Object NULL) as [->|Hnull].
  - exists o. split; [done|]. split; [done|].
    destruct (decide _) as [[_ ?]|]; done.
  - destruct (decide (p = Object)) as [->|Hne].
    + rewrite lookup_alter_eq, Hp. eexists. split; [done|]. split; [done|].
      cbn [SetReferenceCount ReferenceCount].
      destruct (decide _) as [|Hno]; [done|]. by destruct Hno.
    + rewrite lookup_alter_ne by done. exists o. split; [done|].
      split; [done|]. destruct (decide _) as [[? _]|]; done.
Qed.

Lemma HeapReleaseReference_lookup (Object p : N) (h : gmap N Block)
    (o : CHALK_OBJECT) :
  h !! p = Some (Obj o) →
  ∃ o', HeapReleaseReference Object h !! p = Some (Obj o') ∧
        Payload o' = Payload o ∧
        ReferenceCount o'
        = if decide (p = Object ∧ Object ≠ NULL)
          then ReferenceCount o - 1 else ReferenceCount o.
Proof.
  intros Hp. unfold HeapReleaseReference.
  destruct (N.eqb_spec Object NULL) as [->|Hnull].
  - exists o. split; [done|]. split; [done|].
    destruct (decide _) as [[_ ?]|]; done.
  - destruct (decide (p = Object)) as [->|Hne].
    + rewrite lookup_alter_eq, Hp. eexists. split; [done|]. split; [done|].
      cbn [SetReferenceCount ReferenceCount].
      destruct (decide _) as [|Hno]; [done|]. by destruct Hno.
    + rewrite lookup_alter_ne by done. exists o. split; [done|].
      split; [done|]. destruct (decide _) as [[? _]|]; done.
Qed.

Lemma HeaderType_Payload (o' o : CHALK_OBJECT) :
  Payload o' = Payload o → HeaderType o' = HeaderType o.
Proof. unfold HeaderType. by intros ->. Qed.

(** ** Setting and getting a list element *)

(** X8: [ChalkListSetElement] at an index within the list, whose slot is a
    hole or holds an object that has other references, allocates nothing
    and returns 0: the former element has one reference less, the slot
    holds the object given (a hole when NULL is given), which has one
    reference more, and the count of the list is unchanged.
    [ChalkListLookup] at the index then returns the object, with one more
    reference; it returns NULL and changes nothing when NULL was stored. *)
Theorem ChalkListSetElement_in_range (fuel : nat) (s : State)
    (ListObject Index Object Old : N) (l : CHALK_OBJECT) (Array : list N) :
  ListObject ≠ NULL →
  Heap s !! ListObject = Some (Obj l) →
  Payload l = CHALK_LIST Array (N.of_nat (length Array)) →
  Array !! N.to_nat Index = Some Old →
  (Old ≠ NULL →
   ∃ v, Heap s !! Old = Some (Obj v) ∧
        HeaderType v ≠ ChalkObjectInvalid ∧
        1 < ReferenceCount v < 0x10000000) →
  (Object ≠ NULL →
   ∃ v, Heap s !! Object = Some (Obj v) ∧
        HeaderType v ≠ ChalkObjectInvalid ∧
        0 < ReferenceCount v ∧ ReferenceCount v + 2 < 0x10000000) →
  ∃ s' l',
    ChalkListSetElement (S fuel) ListObject Index Object s = Done (0%Z, s') ∧
    Allocations s' = Allocations s ∧ Stderr s' = Stderr s ∧
    Heap s'
    = HeapAddReference Object
        (alter (SetSlot (N.to_nat Index) Object) ListObject
           (HeapReleaseReference Old (Heap s))) ∧
    Heap s' !! ListObject = Some (Obj l') ∧
    Payload l'
    = CHALK_LIST (<[N.to_nat Index := Object]> Array)
        (N.of_nat (length Array)) ∧
    ChalkListLookup ListObject Index s'
    = Done (Object, WithHeap s' (HeapAddReference Object (Heap s'))).
Proof.
  intros Hnull Hl Hpay Hold Holdlive Hlive.
  assert (Hindex : Index < N.of_nat (length Array)).
  { apply lookup_lt_Some in Hold. lia. }
  set (h1 := HeapReleaseReference Old (Heap s)).
  destruct (HeapReleaseReference_lookup Old ListObject (Heap s) l Hl)
    as (l2 & Hl2 & Hpay2 & _). fold h1 in Hl2.
  set (h2 := alter (SetSlot (N.to_nat Index) Object) ListObject h1).
  set (l3 := SetPayload l2
               (CHALK_LIST (<[N.to_nat Index := Object]> Array)
                  (N.of_nat (length Array)))).
  assert (Hh2 : h2 = <[ListObject := Obj l3]> h1).
  { unfold h2. rewrite (alter_alt_Some _ _ _ _ Hl2).
    unfold SetSlot. by rewrite Hpay2, Hpay. }
  assert (Hl3 : h2 !! ListObject = Some (Obj l3))
    by (rewrite Hh2; apply lookup_insert_eq).
  set (h3 := HeapAddReference Object h2).
  destruct (HeapAddReference_lookup Object ListObject h2 l3 Hl3)
    as (l4 & Hl4 & Hpay4 & _). fold h3 in Hl4.
  (* The object given, after the release of the former element. *)
  assert (Hobject : Object ≠ NULL →
            ∃ v, h2 !! Object = Some (Obj v) ∧
                 HeaderType v ≠ ChalkObjectInvalid ∧
                 0 < ReferenceCount v ∧ ReferenceCount v + 2 < 0x10000000).
  { intros Hobj. destruct (Hlive Hobj) as (v & Hv & Hvalid & Hpos & Hmax).
    destruct (HeapReleaseReference_lookup Old Object (Heap s) v Hv)
      as (v1 & Hv1 & Hpay1 & Hrc1). fold h1 in Hv1.
    assert (Hv1range : 0 < ReferenceCount v1 ∧
                       ReferenceCount v1 + 2 < 0x10000000).
    { rewrite Hrc1. destruct (decide _) as [[<- Hon]|]; [|lia].
      destruct (Holdlive Hon) as (w & Hw & _ & Hwrange).
      rewrite Hv in Hw. injection Hw as <-. lia. }
    destruct (decide (Object = ListObject)) as [->|Hne].
    - exists l3. split; [done|].
      rewrite Hl2 in Hv1. injection Hv1 as <-.
      split; [done|]. exact Hv1range.
    - exists v1. rewrite Hh2, lookup_insert_ne by done.
      split; [done|]. split; [|done].
      by rewrite (HeaderType_Payload v1 v). }
  exists (WithHeap s h3), l4. split.
  { unfold ChalkListSetElement.
    eapply bind_run; [by apply ReadObject_Done|]. rewrite Hpay.
    assert ((N.of_nat (length Array) <=? Index) = false) as ->
      by (apply N.leb_gt; lia).
    eapply bind_run; [reflexivity|]. cbn [negb].
    eapply bind_run; [by apply ReadObject_Done|]. rewrite Hpay, Hold.
    eapply bind_run; [by apply HeapReleaseReference_run|]. fold h1.
    eapply bind_run; [by apply ReadObject_Done|]. rewrite Hpay2, Hpay.
    eapply bind_run; [reflexivity|].
    cbn [Heap WithHeap]. fold l3. rewrite <- Hh2.
    eapply bind_run.
    { apply HeapAddReference_run. intros Hobj.
      destruct (Hobject Hobj) as (v & Hv & Hvalid & Hpos & Hmax).
      exists v. cbn [Heap WithHeap]. repeat split; try done. lia. }
    reflexivity. }
  cbn [Heap Allocations Stderr WithHeap].
  split; [done|]. split; [done|]. split; [done|]. split; [done|].
  split; [by rewrite Hpay4|].
  unfold ChalkListLookup.
  eapply bind_run; [by apply ReadObject_Done|]. rewrite Hpay4.
  cbn [l3 SetPayload Payload].
  assert ((N.of_nat (length Array) <=? Index) = false) as ->
    by (apply N.leb_gt; lia).
  rewrite list_lookup_insert_eq by (by eapply lookup_lt_Some).
  eapply bind_run; [|reflexivity].
  apply HeapAddReference_run. intros Hobj. cbn [Heap WithHeap].
  destruct (Hobject Hobj) as (v & Hv & Hvalid & Hpos & Hmax).
  destruct (HeapAddReference_lookup Object Object h2 v Hv)
    as (v' & Hv' & Hpay' & Hrc'). fold h3 in Hv'.
  exists v'. split; [done|].
  split; [by rewrite (HeaderType_Payload v' v)|].
  rewrite Hrc'. destruct (decide _); lia.
Qed.

Lemma ChalkListSetElement_in_range_witness :
  ∃ s' s'',
    ChalkListSetElement 1 2 1 3 ThreeHolesState = Done (0%Z, s') ∧
    ChalkListLookup 2 1 s' = Done (3, s'').
Proof.
  destruct (ChalkListSetElement_in_range 0 ThreeHolesState 2 1 3 NULL
              {| ReferenceCount := 1;
                 Payload := CHALK_LIST [NULL; NULL; NULL] 3 |}
              [NULL; NULL; NULL])
    as (s' & l' & Hset & _ & _ & _ & _ & _ & Hget);
    [done | reflexivity | reflexivity | reflexivity | done | |].
  - intros _. exists {| ReferenceCount := 1; Payload := CHALK_INT 7 |}.
    split; [reflexivity|]. split; [done|]. split; reflexivity.
  - exists s'. eexists. split; [exact Hset | exact Hget].
Defined.
(** ** Iterating over a list *)

Lemma UINTN_small (x : N) : x ≤ MAX_UINTN → UINTN x = x.
Proof. intros H. unfold UINTN, MAX_UINTN in *. apply N.mod_small. lia. Qed.

Lemma ChalkListIterate_at (s : State) (List : N) (l : CHALK_OBJECT)
    (Array : list N) (Index : N) :
  List ≠ NULL →
  Heap s !! List = Some (Obj l) →
  Payload l = CHALK_LIST Array (N.of_nat (length Array)) →
  N.of_nat (length Array) ≤ MAX_ULONG →
  Index ≤ N.of_nat (length Array) →
  ChalkListIterate List Index s
  = match Array !! N.to_nat Index with
    | None => Done ((0%Z, Index, NULL), s)
    | Some Element =>
        if Element =? NULL then ChalkListIterate List (Index + 1) s
        else Done ((0%Z, Index + 1, Element), s)
    end.
Proof.
  intros Hnull Hl Hpay Hmax Hindex.
  assert (Hcast : ∀ i, i ≤ N.of_nat (length Array) → ULONG (UINTN i) = i).
  { intros i Hi.
    rewrite (UINTN_small i) by (unfold MAX_UINTN, MAX_ULONG in *; lia).
    apply ULONG_small. lia. }
  unfold ChalkListIterate.
  eapply bind_run; [by apply ReadObject_Done|]. rewrite Hpay.
  rewrite Hcast by done.
  destruct (Array !! N.to_nat Index) as [Element|] eqn:Helement.
  - assert (Hlt : Index < N.of_nat (length Array))
      by (apply lookup_lt_Some in Helement; lia).
    replace (N.to_nat (N.of_nat (length Array) - Index))
      with (S (N.to_nat (N.of_nat (length Array) - (Index + 1)))) by lia.
    cbn [ChalkListIterateFrom]. rewrite Helement.
    rewrite (ULONG_small (Index + 1)) by lia.
    destruct (Element =? NULL).
    + symmetry. eapply bind_run; [by apply ReadObject_Done|]. rewrite Hpay.
      by rewrite Hcast by lia.
    + unfold read. cbn [mbind M_bind].
      rewrite (UINTN_small (Index + 1))
        by (unfold MAX_UINTN, MAX_ULONG in *; lia).
      done.
  - apply lookup_ge_None in Helement.
    replace (N.to_nat (N.of_nat (length Array) - Index)) with 0%nat by lia.
    cbn [ChalkListIterateFrom]. unfold read. cbn [mbind M_bind].
    rewrite (UINTN_small Index) by (unfold MAX_UINTN, MAX_ULONG in *; lia).
    done.
Qed.

Lemma ChalkListIterations_from (s : State) (List : N) (l : CHALK_OBJECT)
    (Array : list N) (k : nat) :
  List ≠ NULL →
  Heap s !! List = Some (Obj l) →
  Payload l = CHALK_LIST Array (N.of_nat (length Array)) →
  N.of_nat (length Array) ≤ MAX_ULONG →
  ∀ Rest Prefix,
    Array = Prefix ++ Rest →
    ChalkListIterations (length (filter (λ e, e ≠ NULL) Rest) + k) List
      (N.of_nat (length Prefix)) s
    = Done (map (λ e, (0%Z, e))
              (filter (λ e, e ≠ NULL) Rest ++ replicate k NULL), s).
Proof.
  intros Hnull Hl Hpay Hmax.
  induction Rest as [|Element Rest IH]; intros Prefix HArray.
  - cbn [filter list_filter length Nat.add app].
    rewrite app_nil_r in HArray. subst Prefix.
    induction k as [|k IHk]; [done|].
    cbn [ChalkListIterations replicate map].
    eapply bind_run.
    { rewrite (ChalkListIterate_at s List l Array) by (done || lia).
      rewrite (proj2 (lookup_ge_None Array _)) by lia. reflexivity. }
    cbn beta iota. eapply bind_run; [exact IHk|]. reflexivity.
  - assert (Hhere : Array !! N.to_nat (N.of_nat (length Prefix))
                    = Some Element).
    { rewrite Nat2N.id, HArray. by apply list_lookup_middle. }
    assert (Hlen : N.of_nat (length Prefix) ≤ N.of_nat (length Array)).
    { rewrite HArray, length_app. lia. }
    assert (Hnext : N.of_nat (length Prefix) + 1
                    = N.of_nat (length (Prefix ++ [Element]))).
    { rewrite length_app. cbn [length]. lia. }
    specialize (IH (Prefix ++ [Element])).
    rewrite <- Hnext in IH.
    rewrite <- app_assoc in IH. specialize (IH HArray).
    pose proof (ChalkListIterate_at s List l Array (N.of_nat (length Prefix))
                  Hnull Hl Hpay Hmax Hlen) as Hstep.
    rewrite Hhere in Hstep.
    rewrite filter_cons.
    destruct (N.eqb_spec Element NULL) as [->|Helement].
    + destruct (decide (NULL ≠ NULL)) as [|_]; [done|].
      destruct (length (filter (λ e, e ≠ NULL) Rest) + k)%nat as [|n] eqn:Hn;
        [exact IH|].
      cbn [ChalkListIterations] in IH |- *.
      unfold mbind at 1, M_bind at 1. rewrite Hstep.
      exact IH.
    + destruct (decide (Element ≠ NULL)) as [_|]; [|done].
      cbn [length Nat.add app ChalkListIterations map].
      eapply bind_run; [exact Hstep|]. cbn beta iota.
      eapply bind_run; [exact IH|]. reflexivity.
Qed.

(** X9: on a List whose array has as many slots as its count, the
    iterator starts at context 0, and successive calls of
    [ChalkListIterate] store the elements of the list in slot order,
    skipping the holes, each exactly once; every call after the last
    element stores NULL.  Every call, the initialization included,
    returns the status 0, and none changes anything in the state (no
    reference is added to what is stored). *)
Theorem ChalkListIterate_enumerates (s : State) (List : N)
    (l : CHALK_OBJECT) (Array : list N) (k : nat) :
  List ≠ NULL →
  Heap s !! List = Some (Obj l) →
  Payload l = CHALK_LIST Array (N.of_nat (length Array)) →
  N.of_nat (length Array) ≤ MAX_ULONG →
  ChalkListInitializeIterator List s = Done ((0%Z, 0), s) ∧
  ChalkListIterations (length (filter (λ e, e ≠ NULL) Array) + k) List 0 s
  = Done (map (λ e, (0%Z, e))
            (filter (λ e, e ≠ NULL) Array ++ replicate k NULL), s).
Proof.
  intros Hnull Hl Hpay Hmax. split.
  - unfold ChalkListInitializeIterator.
    eapply bind_run; [by apply ReadObject_Done|].
    assert (IsType l ChalkObjectList = true) as ->
      by (apply IsType_true; unfold HeaderType; by rewrite Hpay).
    reflexivity.
  - by apply (ChalkListIterations_from s List l Array k Hnull Hl Hpay Hmax
                Array []).
Qed.

Lemma ChalkListIterate_enumerates_witness :
  ChalkListIterations 2 4 0 EqualListsState
  = Done ([(0%Z, 2); (0%Z, NULL)], EqualListsState).
Proof.
  destruct (ChalkListIterate_enumerates EqualListsState 4
              {| ReferenceCount := 1; Payload := CHALK_LIST [2] 1 |} [2]
              1%nat)
    as (_ & Hall); [done | reflexivity | reflexivity | by vm_compute |].
  exact Hall.
Defined.
(** ** Concatenating lists *)

Lemma References_singleton (p q : N) :
  References p [q] = if decide (p = q ∧ q ≠ NULL) then 1 else 0.
Proof.
  unfold References. destruct (N.eqb_spec p NULL) as [->|Hp].
  - destruct (decide _) as [[<- ?]|]; done.
  - rewrite filter_cons, filter_nil.
    destruct (decide (q = p)) as [->|Hne].
    + destruct (decide _) as [|Hno]; [done|]. by destruct Hno.
    + destruct (decide _) as [[? _]|]; [congruence|done].
Qed.

Lemma References_cons (p Element : N) (Array : list N) :
  References p (Element :: Array)
  = References p [Element] + References p Array.
Proof.
  unfold References. destruct (p =? NULL); [done|].
  rewrite !filter_cons, filter_nil.
  destruct (decide (Element = p)); cbn [length]; lia.
Qed.

Lemma AddToReferenceCount_add (a b : N) (blk : Block) :
  AddToReferenceCount b (AddToReferenceCount a blk)
  = AddToReferenceCount (a + b) blk.
Proof.
  destruct blk as [|o| |]; try done.
  unfold AddToReferenceCount, SetReferenceCount.
  cbn [ReferenceCount Payload]. do 2 f_equal. lia.
Qed.

Lemma HeapAddReference_lookup_all (q p : N) (h : gmap N Block) :
  HeapAddReference q h !! p
  = AddToReferenceCount (References p [q]) <$> h !! p.
Proof.
  rewrite References_singleton. unfold HeapAddReference.
  destruct (N.eqb_spec q NULL) as [->|Hq].
  - destruct (decide _) as [[_ ?]|]; [done|].
    destruct (h !! p); [|done]. cbn. by rewrite AddToReferenceCount_0.
  - destruct (decide (q = p)) as [->|Hne].
    + rewrite lookup_alter_eq. destruct (decide _) as [|Hno]; [done|].
      by destruct Hno.
    + rewrite lookup_alter_ne by done.
      destruct (decide _) as [[? _]|]; [congruence|].
      destruct (h !! p); [|done]. cbn. by rewrite AddToReferenceCount_0.
Qed.

(** The loop of [ChalkListAdd], when the destination has [Left], the
    elements already taken and unassigned slots for the ones to come. *)

Lemma ChalkListAddFrom_appends (Destination Addition : N)
    (Left RightArray : list N) :
  Destination ≠ NULL →
  Addition ≠ NULL →
  (Addition = Destination → RightArray = Left) →
  N.of_nat (length Left) + N.of_nat (length RightArray) ≤ MAX_ULONG →
  ∀ (Todo Taken : list N) (s : State) (ld : CHALK_OBJECT),
    RightArray = Taken ++ Todo →
    Heap s !! Destination = Some (Obj ld) →
    Payload ld
    = CHALK_LIST (Left ++ Taken ++ replicate (length Todo) NULL)
        (N.of_nat (length Left)) →
    (Addition ≠ Destination →
     ∃ ra c, Heap s !! Addition = Some (Obj ra) ∧
             Payload ra = CHALK_LIST RightArray c) →
    (∀ Element, Element ∈ Todo → Element ≠ NULL →
       ∃ v, Heap s !! Element = Some (Obj v) ∧
            HeaderType v ≠ ChalkObjectInvalid ∧
            0 < ReferenceCount v ∧
            ReferenceCount v + N.of_nat (length Todo) ≤ 0x10000000) →
    ∃ h' ld',
      ChalkListAddFrom Destination Addition (length Todo)
        (N.of_nat (length Left) + N.of_nat (length Taken)) s
      = Done (tt, WithHeap s h') ∧
      h' !! Destination = Some (Obj ld') ∧
      Payload ld' = CHALK_LIST (Left ++ RightArray) (N.of_nat (length Left)) ∧
      ReferenceCount ld' = ReferenceCount ld + References Destination Todo ∧
      ∀ p, p ≠ Destination →
           h' !! p = AddToReferenceCount (References p Todo) <$> Heap s !! p.
Proof.
  intros HD HA Halias Hmax.
  induction Todo as [|Element Todo IH];
    intros Taken s ld HRight Hld Hpay Haddition Hlive.
  - exists (Heap s), ld. cbn [length ChalkListAddFrom].
    split; [by rewrite WithHeap_id|]. split; [done|].
    split.
    { rewrite Hpay. cbn [replicate]. rewrite !app_nil_r in *. by subst. }
    split; [rewrite References_nil; lia|].
    intros p _. rewrite References_nil.
    destruct (Heap s !! p); [|done]. cbn. by rewrite AddToReferenceCount_0.
  - set (Index := N.of_nat (length Left) + N.of_nat (length Taken)).
    set (Array := Left ++ Taken ++ replicate (length (Element :: Todo)) NULL)
      in *.
    set (Array' := Left ++ (Taken ++ [Element])
                     ++ replicate (length Todo) NULL).
    assert (HArray' : <[N.to_nat Index := Element]> Array = Array').
    { unfold Array, Array', Index. cbn [length replicate].
      replace (N.to_nat (N.of_nat (length Left) + N.of_nat (length Taken)))
        with (length Left + length Taken)%nat by lia.
      rewrite insert_app_r_alt by lia.
      replace (length Left + length Taken - length Left)%nat
        with (length Taken + 0)%nat by lia.
      rewrite insert_app_r. cbn [insert list_insert].
      by rewrite <- app_assoc. }
    assert (Hlength : length Array
                      = (length Left + length Taken + S (length Todo))%nat).
    { unfold Array. rewrite !length_app, length_replicate.
      cbn [length]. lia. }
    assert (HRightLength : length RightArray
                           = (length Taken + S (length Todo))%nat).
    { rewrite HRight, length_app. cbn [length]. lia. }
    (* The element read from the addition. *)
    assert (Hread : ∃ ra arr c,
              Heap s !! Addition = Some (Obj ra) ∧
              Payload ra = CHALK_LIST arr c ∧
              arr !! length Taken = Some Element).
    { destruct (decide (Addition = Destination)) as [->|Hne].
      - exists ld, Array, (N.of_nat (length Left)).
        split; [done|]. split; [done|].
        specialize (Halias eq_refl). unfold Array.
        rewrite lookup_app_l by (rewrite <- Halias, HRightLength; lia).
        rewrite <- Halias, HRight. by apply list_lookup_middle.
      - destruct (Haddition Hne) as (ra & c & Hra & Hrapay).
        exists ra, RightArray, c. split; [done|]. split; [done|].
        rewrite HRight. by apply list_lookup_middle. }
    destruct Hread as (ra & arr & c & Hra & Hrapay & Helement).
    set (ld1 := SetPayload ld (CHALK_LIST Array' (N.of_nat (length Left)))).
    set (h1 := <[Destination := Obj ld1]> (Heap s)).
    set (h2 := HeapAddReference Element h1).
    assert (Hstep : ∀ r,
              ChalkListAddFrom Destination Addition (length Todo)
                (N.of_nat (length Left)
                 + N.of_nat (length (Taken ++ [Element])))
                (WithHeap s h2) = r →
              ChalkListAddFrom Destination Addition
                (length (Element :: Todo)) Index s = r).
    { intros r Hr. cbn [length ChalkListAddFrom].
      eapply bind_run; [by apply ReadObject_Done|].
      eapply bind_run; [by apply ReadObject_Done|].
      rewrite Hpay, Hrapay.
      replace (N.to_nat (Index - N.of_nat (length Left)))
        with (length Taken) by (unfold Index; lia).
      rewrite Helement.
      assert ((N.of_nat (length Array) <=? Index) = false) as ->
        by (apply N.leb_gt; unfold Index; lia).
      eapply bind_run; [reflexivity|].
      cbn [Heap WithHeap]. rewrite HArray'. fold ld1 h1.
      eapply bind_run.
      { apply HeapAddReference_run. intros Hnn. cbn [Heap WithHeap].
        destruct (Hlive Element) as (v & Hv & Hvalid & Hpos & Hbound);
          [by apply elem_of_cons; left | done |].
        unfold h1. destruct (decide (Element = Destination)) as [->|Hne].
        - rewrite lookup_insert_eq. exists ld1. split; [done|].
          rewrite Hld in Hv. injection Hv as <-.
          split; [done|]. cbn [ld1 SetPayload ReferenceCount].
          cbn [length] in Hbound. lia.
        - rewrite lookup_insert_ne by done. exists v.
          split; [done|]. split; [done|]. cbn [length] in Hbound. lia. }
      fold h2.
      rewrite (ULONG_small (Index + 1)) by (unfold Index; lia).
      replace (Index + 1)
        with (N.of_nat (length Left)
              + N.of_nat (length (Taken ++ [Element])))
        by (unfold Index; rewrite length_app; cbn [length]; lia).
      exact Hr. }
    destruct (HeapAddReference_lookup Element Destination h1 ld1)
      as (ld2 & Hld2 & Hpay2 & Hrc2); [apply lookup_insert_eq|].
    fold h2 in Hld2.
    destruct (IH (Taken ++ [Element]) (WithHeap s h2) ld2)
      as (h' & ld' & Hrun & Hld' & Hpay' & Hrc' & Hothers).
    + by rewrite <- app_assoc.
    + done.
    + by rewrite Hpay2.
    + intros Hne. destruct (Haddition Hne) as (ra0 & c0 & Hra0 & Hrapay0).
      destruct (HeapAddReference_lookup Element Addition h1 ra0)
        as (ra2 & Hra2 & Hrapay2 & _).
      { unfold h1. by rewrite lookup_insert_ne. }
      exists ra2, c0. split; [done|]. by rewrite Hrapay2.
    + intros e He Hen. cbn [Heap WithHeap].
      destruct (Hlive e) as (v & Hv & Hvalid & Hpos & Hbound);
        [by apply elem_of_cons; right | done |].
      cbn [length] in Hbound.
      destruct (decide (e = Destination)) as [->|Hne].
      * exists ld2. split; [done|]. rewrite Hld in Hv. injection Hv as <-.
        split; [by rewrite (HeaderType_Payload ld2 ld1)|].
        rewrite Hrc2. cbn [ld1 SetPayload ReferenceCount].
        case_decide; lia.
      * destruct (HeapAddReference_lookup Element e h1 v)
          as (v2 & Hv2 & Hvpay2 & Hvrc2).
        { unfold h1. by rewrite lookup_insert_ne. }
        exists v2. split; [done|].
        split; [by rewrite (HeaderType_Payload v2 v)|].
        rewrite Hvrc2. case_decide; lia.
    + exists h', ld'. split; [by apply Hstep|]. split; [done|].
      split; [done|]. split.
      * rewrite Hrc', Hrc2, (References_cons Destination Element Todo).
        rewrite References_singleton. cbn [ld1 SetPayload ReferenceCount].
        repeat case_decide; try lia; tauto.
      * intros p Hp. rewrite Hothers by done. cbn [Heap WithHeap].
        unfold h2. rewrite HeapAddReference_lookup_all.
        unfold h1. rewrite lookup_insert_ne by done.
        rewrite (References_cons p Element Todo).
        destruct (Heap s !! p); [|done]. cbn.
        by rewrite AddToReferenceCount_add.
Qed.
(** X10: [ChalkListAdd] on two Lists, not both empty, whose arrays have
    as many slots as their counts, the size in bytes of an array of as
    many pointers as the two counts together being a UINTN (at most
    [0x3FFFFFFF] slots), and the elements of the addition being live:
    when the allocator has no memory it returns ENOMEM and leaves the heap
    as it was; otherwise it returns 0, the destination holds its former
    slots followed by the slots of the addition, holes included, with the
    sum of the counts, and every object has one more reference per slot of
    the addition holding it.  The addition may be the destination itself,
    which is then doubled. *)
Theorem ChalkListAdd_concatenates (s : State) (Destination Addition : N)
    (l r : CHALK_OBJECT) (LeftArray RightArray : list N) :
  Destination ≠ NULL →
  Addition ≠ NULL →
  Heap s !! Destination = Some (Obj l) →
  Payload l = CHALK_LIST LeftArray (N.of_nat (length LeftArray)) →
  Heap s !! Addition = Some (Obj r) →
  Payload r = CHALK_LIST RightArray (N.of_nat (length RightArray)) →
  0 < N.of_nat (length LeftArray) + N.of_nat (length RightArray) →
  sizeof_PVOID * (N.of_nat (length LeftArray) + N.of_nat (length RightArray))
  ≤ MAX_UINTN →
  (∀ Element, Element ∈ RightArray → Element ≠ NULL →
     ∃ v, Heap s !! Element = Some (Obj v) ∧
          HeaderType v ≠ ChalkObjectInvalid ∧
          0 < ReferenceCount v ∧
          ReferenceCount v + N.of_nat (length RightArray) ≤ 0x10000000) →
  ∃ Status s',
    ChalkListAdd Destination Addition s = Done (Status, s') ∧
    Stderr s' = Stderr s ∧
    Allocations s' = (NextAllocation (Allocations s)).2 ∧
    (if (NextAllocation (Allocations s)).1
     then Status = 0%Z ∧
          ∃ l', Heap s' !! Destination = Some (Obj l') ∧
                Payload l'
                = CHALK_LIST (LeftArray ++ RightArray)
                    (N.of_nat (length LeftArray)
                     + N.of_nat (length RightArray)) ∧
                ReferenceCount l'
                = ReferenceCount l + References Destination RightArray ∧
                ∀ p, p ≠ Destination →
                     Heap s' !! p
                     = AddToReferenceCount (References p RightArray)
                         <$> Heap s !! p
     else Status = ENOMEM ∧ Heap s' = Heap s).
Proof.
  intros HD HA Hl Hlpay Hr Hrpay Hsome Hbytes Hlive.
  assert (Hmax : N.of_nat (length LeftArray) + N.of_nat (length RightArray)
                 ≤ MAX_ULONG)
    by (unfold sizeof_PVOID, MAX_UINTN, MAX_ULONG in *; lia).
  assert (Halias : Addition = Destination → RightArray = LeftArray).
  { intros ->. rewrite Hl in Hr. injection Hr as <-.
    rewrite Hlpay in Hrpay. by injection Hrpay as <-. }
  assert (Hlength : N.to_nat (N.of_nat (length LeftArray)
                               + N.of_nat (length RightArray))
                     = (length LeftArray + length RightArray)%nat) by lia.
  assert (HisList : IsType l ChalkObjectList = true)
    by (apply IsType_true; unfold HeaderType; by rewrite Hlpay).
  assert (HisList' : IsType r ChalkObjectList = true)
    by (apply IsType_true; unfold HeaderType; by rewrite Hrpay).
  unfold ChalkListAdd.
  destruct (NextAllocation (Allocations s)) as [[|] Rest] eqn:Halloc;
    cbn [fst snd].
  - set (s1 := {| Heap := Heap s; Allocations := Rest;
                  Stderr := Stderr s |}).
    set (l1 := SetPayload l
                 (CHALK_LIST
                    (LeftArray ++ [] ++ replicate (length RightArray) NULL)
                    (N.of_nat (length LeftArray)))).
    set (s2 := WithHeap s1 (<[Destination := Obj l1]> (Heap s1))).
    destruct (ChalkListAddFrom_appends Destination Addition LeftArray
                RightArray HD HA Halias Hmax RightArray [] s2 l1)
      as (h' & ld' & Hloop & Hld' & Hpay' & Hrc' & Hothers); try done.
    { cbn [s2 s1 Heap WithHeap]. apply lookup_insert_eq. }
    { intros Hne. exists r, (N.of_nat (length RightArray)).
      cbn [s2 s1 Heap WithHeap]. by rewrite lookup_insert_ne. }
    { intros e He Hen. cbn [s2 s1 Heap WithHeap].
      destruct (Hlive e He Hen) as (v & Hv & Hvalid & Hrange).
      destruct (decide (e = Destination)) as [->|Hne].
      - rewrite lookup_insert_eq. exists l1. split; [done|].
        rewrite Hl in Hv. injection Hv as <-. done.
      - rewrite lookup_insert_ne by done. by exists v. }
    exists 0%Z. eexists. split.
    { eapply bind_run; [by apply ReadObject_Done|].
      rewrite HisList. cbn [negb].
      eapply bind_run with (a := tt) (s1 := s).
      { eapply bind_run; [by apply ReadObject_Done|].
        by rewrite HisList'. }
      eapply bind_run; [by apply ReadObject_Done|].
      rewrite Hlpay, Hrpay. cbv zeta. rewrite (ULONG_small _ Hmax).
      eapply bind_run; [by apply ChalkReallocate_success|]. cbn [negb].
      fold s1. eapply bind_run; [reflexivity|].
      rewrite (N.mul_comm _ sizeof_PVOID), ArraySlots_small by done.
      rewrite Hlength, resize_add_eq by done.
      replace (N.to_nat (N.of_nat (length LeftArray)
                         + N.of_nat (length RightArray)
                         - N.of_nat (length LeftArray)))
        with (length RightArray) by lia.
      change (LeftArray ++ replicate (length RightArray) NULL)
        with (LeftArray ++ [] ++ replicate (length RightArray) NULL).
      fold l1 s2.
      eapply bind_run.
      { replace (N.of_nat (length LeftArray))
          with (N.of_nat (length LeftArray) + N.of_nat (length (@nil N)))
          at 1 by (cbn [length]; lia).
        exact Hloop. }
      eapply bind_run.
      { apply ReadObject_Done; [done|]. exact Hld'. }
      rewrite Hpay'. eapply bind_run; [reflexivity|]. reflexivity. }
    cbn [Heap Allocations Stderr WithHeap s2 s1].
    split; [done|]. split; [done|]. split; [done|].
    eexists. split; [apply lookup_insert_eq|].
    split; [done|]. split.
    { cbn [SetPayload ReferenceCount]. rewrite Hrc'. done. }
    intros p Hp. rewrite lookup_insert_ne by done.
    rewrite Hothers by done. cbn [s2 s1 Heap WithHeap].
    by rewrite lookup_insert_ne by done.
  - exists ENOMEM. eexists. split.
    { eapply bind_run; [by apply ReadObject_Done|].
      rewrite HisList. cbn [negb].
      eapply bind_run with (a := tt) (s1 := s).
      { eapply bind_run; [by apply ReadObject_Done|].
        by rewrite HisList'. }
      eapply bind_run; [by apply ReadObject_Done|].
      rewrite Hlpay, Hrpay.
      eapply bind_run.
      { unfold ChalkReallocate, ChalkAllocateBuffer. rewrite Halloc.
        reflexivity. }
      reflexivity. }
    done.
Qed.

Lemma ChalkListAdd_concatenates_witness :
  ∃ s' l',
    ChalkListAdd 4 4 EqualListsState = Done (0%Z, s') ∧
    Heap s' !! 4 = Some (Obj l') ∧
    Payload l' = CHALK_LIST [2; 2] 2.
Proof.
  destruct (ChalkListAdd_concatenates EqualListsState 4 4
              {| ReferenceCount := 1; Payload := CHALK_LIST [2] 1 |}
              {| ReferenceCount := 1; Payload := CHALK_LIST [2] 1 |}
              [2] [2])
    as (Status & s' & Hrun & _ & _ & Hresult);
    [done | done | reflexivity | reflexivity | reflexivity | reflexivity
    | by vm_compute | by vm_compute | |].
  - intros e He _. apply list_elem_of_singleton in He as ->.
    eexists. split; [reflexivity|]. split; [done|]. by vm_compute.
  - cbn [EqualListsState Allocations NextAllocation fst] in Hresult.
    destruct Hresult as (-> & l' & Hl' & Hpay' & _).
    exists s', l'. split; [exact Hrun|]. split; [exact Hl'|exact Hpay'].
Defined.
(** ** Concatenating strings *)

Lemma take_terminated (Bytes : list byte) :
  take (N.to_nat (N.of_nat (length Bytes))) (Bytes ++ [x00]) = Bytes.
Proof. rewrite Nat2N.id. by rewrite take_app_length. Qed.

(** X11: [ChalkStringAdd] on two Strings whose sizes add up to less than
    the largest ULONG makes three allocations (the new object, its first
    buffer of one byte, and the buffer of the result).  When all three
    succeed it returns 0 and stores through [Result] an address that was
    not allocated, holding a String with one reference whose bytes are
    those of the left operand followed by those of the right one and a
    terminator, and whose size is the sum of the sizes; the operands are
    untouched.  When any of them fails it returns ENOMEM, stores nothing,
    and the heap is as it was before the call. *)
Theorem ChalkStringAdd_concatenates (fuel : nat) (s : State)
    (Left Right : N) (l r : CHALK_OBJECT) (LeftBytes RightBytes : list byte) :
  Left ≠ NULL →
  Right ≠ NULL →
  Heap s !! Left = Some (Obj l) →
  Payload l
  = CHALK_STRING (LeftBytes ++ [x00]) (N.of_nat (length LeftBytes)) →
  Heap s !! Right = Some (Obj r) →
  Payload r
  = CHALK_STRING (RightBytes ++ [x00]) (N.of_nat (length RightBytes)) →
  N.of_nat (length LeftBytes) + N.of_nat (length RightBytes) < MAX_ULONG →
  ∃ Status Result s',
    ChalkStringAdd (S fuel) Left Right s = Done ((Status, Result), s') ∧
    Stderr s' = Stderr s ∧
    (if (NextAllocation (Allocations s)).1
        && (NextAllocation (NextAllocation (Allocations s)).2).1
        && (NextAllocation
              (NextAllocation (NextAllocation (Allocations s)).2).2).1
     then Status = 0%Z ∧ Result = Some (FreshAddress (Heap s)) ∧
          Heap s !! FreshAddress (Heap s) = None ∧
          Heap s'
          = <[FreshAddress (Heap s) :=
                Obj {| ReferenceCount := 1;
                       Payload :=
                         CHALK_STRING (LeftBytes ++ RightBytes ++ [x00])
                           (N.of_nat (length LeftBytes)
                            + N.of_nat (length RightBytes)) |}]> (Heap s)
     else Status = ENOMEM ∧ Result = None ∧ Heap s' = Heap s).
Proof.
  intros HL HR Hl Hlpay Hr Hrpay Hsize.
  destruct (FreshAddress_spec (Heap s)) as (Hfresh & Hnull & _).
  set (F := FreshAddress (Heap s)) in *.
  assert (HLF : Left ≠ F) by congruence.
  assert (HRF : Right ≠ F) by congruence.
  assert (HisString : IsType l ChalkObjectString = true)
    by (apply IsType_true; unfold HeaderType; by rewrite Hlpay).
  assert (HisString' : IsType r ChalkObjectString = true)
    by (apply IsType_true; unfold HeaderType; by rewrite Hrpay).
  unfold ChalkStringAdd.
  destruct (NextAllocation (Allocations s)) as [[|] Rest1] eqn:Halloc1;
    cbn [fst snd andb].
  2:{ exists ENOMEM, None. eexists. split.
      { eapply bind_run; [by apply ReadObject_Done|].
        rewrite HisString. cbn [negb].
        eapply bind_run with (a := tt) (s1 := s).
        { eapply bind_run; [by apply ReadObject_Done|].
          by rewrite HisString'. }
        eapply bind_run.
        { unfold ChalkCreateString.
          eapply bind_run; [by apply ChalkAllocate_failure|]. reflexivity. }
        reflexivity. }
      done. }
  destruct (NextAllocation Rest1) as [[|] Rest2] eqn:Halloc2;
    cbn [fst snd andb].
  2:{ exists ENOMEM, None. eexists. split.
      { eapply bind_run; [by apply ReadObject_Done|].
        rewrite HisString. cbn [negb].
        eapply bind_run with (a := tt) (s1 := s).
        { eapply bind_run; [by apply ReadObject_Done|].
          by rewrite HisString'. }
        eapply bind_run.
        { unfold ChalkCreateString.
          eapply bind_run; [by apply ChalkAllocate_success|]. fold F.
          rewrite NULL_eqb by done.
          eapply bind_run.
          { unfold ChalkAllocateBuffer. cbn [Allocations].
            rewrite Halloc2. reflexivity. }
          cbn [negb]. eapply bind_run; [reflexivity|]. reflexivity. }
        reflexivity. }
      cbn [Heap Stderr WithHeap]. split; [done|]. split; [done|].
      split; [done|]. by apply delete_insert_id. }
  set (empty := {| ReferenceCount := 1; Payload := CHALK_STRING [x00] 0 |}).
  set (s2 := {| Heap := <[F := Obj empty]> (Heap s); Allocations := Rest2;
                Stderr := Stderr s |}).
  assert (Hcreate : ChalkCreateString None 0 s = Done (F, s2)).
  { unfold ChalkCreateString.
    eapply bind_run; [by apply ChalkAllocate_success|]. fold F.
    rewrite NULL_eqb by done.
    eapply bind_run.
    { unfold ChalkAllocateBuffer. cbn [Allocations].
      rewrite Halloc2. reflexivity. }
    cbn [negb]. change (ULONG (0 + 1) <? 0 + 1) with false.
    cbn [orb default length]. change (N.of_nat 0 <? 0) with false.
    eapply bind_run; [reflexivity|].
    unfold s2, WithHeap. cbn [Heap Allocations Stderr take N.to_nat app].
    by rewrite insert_insert_eq. }
  assert (Hl2 : Heap s2 !! Left = Some (Obj l))
    by (cbn [s2 Heap]; by rewrite lookup_insert_ne).
  assert (Hr2 : Heap s2 !! Right = Some (Obj r))
    by (cbn [s2 Heap]; by rewrite lookup_insert_ne).
  assert (HF2 : Heap s2 !! F = Some (Obj empty))
    by (cbn [s2 Heap]; apply lookup_insert_eq).
  set (Size := N.of_nat (length LeftBytes) + N.of_nat (length RightBytes))
    in *.
  assert (HSize : ULONG Size = Size)
    by (apply ULONG_small; unfold MAX_ULONG in *; lia).
  assert (HCapacity : ULONG (Size + 1) = Size + 1)
    by (apply ULONG_small; unfold MAX_ULONG in *; lia).
  destruct (NextAllocation Rest2) as [[|] Rest3] eqn:Halloc3;
    cbn [fst snd].
  - exists 0%Z, (Some F). eexists. split.
    { eapply bind_run; [by apply ReadObject_Done|].
        rewrite HisString. cbn [negb].
        eapply bind_run with (a := tt) (s1 := s).
        { eapply bind_run; [by apply ReadObject_Done|].
          by rewrite HisString'. }
      eapply bind_run; [exact Hcreate|]. rewrite NULL_eqb by done.
      eapply bind_run; [by apply ReadObject_Done|].
      eapply bind_run; [by apply ReadObject_Done|].
      rewrite Hlpay, Hrpay. fold Size. rewrite HSize, HCapacity.
      eapply bind_run.
      { unfold ChalkAllocateBuffer. cbn [s2 Allocations].
        rewrite Halloc3. reflexivity. }
      eapply bind_run; [by apply ReadObject_Done|]. cbn [negb].
      rewrite !length_app. cbn [length].
      assert ((N.of_nat (length LeftBytes + 1) <? N.of_nat (length LeftBytes))
              = false) as -> by (apply N.ltb_ge; lia).
      assert ((N.of_nat (length RightBytes + 1)
               <? N.of_nat (length RightBytes)) = false) as ->
        by (apply N.ltb_ge; lia).
      assert ((Size + 1 <? Size) = false) as -> by (apply N.ltb_ge; lia).
      assert ((Size + 1 <=? Size) = false) as -> by (apply N.leb_gt; lia).
      cbn [orb]. rewrite !take_terminated.
      eapply bind_run; [reflexivity|]. reflexivity. }
    cbn [Heap Stderr WithHeap s2].
    split; [done|]. split; [done|]. split; [done|]. split; [done|].
    by rewrite insert_insert_eq.
  - exists ENOMEM, None. eexists. split.
    { eapply bind_run; [by apply ReadObject_Done|].
        rewrite HisString. cbn [negb].
        eapply bind_run with (a := tt) (s1 := s).
        { eapply bind_run; [by apply ReadObject_Done|].
          by rewrite HisString'. }
      eapply bind_run; [exact Hcreate|]. rewrite NULL_eqb by done.
      eapply bind_run; [by apply ReadObject_Done|].
      eapply bind_run; [by apply ReadObject_Done|].
      rewrite Hlpay, Hrpay.
      eapply bind_run.
      { unfold ChalkAllocateBuffer. cbn [s2 Allocations].
        rewrite Halloc3. reflexivity. }
      eapply bind_run; [by apply ReadObject_Done|]. cbn [negb].
      eapply bind_run; [reflexivity|].
      eapply bind_run.
      { eapply ChalkObjectReleaseReference_last; try done.
        - cbn [Heap WithHeap]. apply lookup_insert_eq.
        - by right.
        - done. }
      reflexivity. }
    cbn [Heap Stderr WithHeap s2].
    split; [done|]. split; [done|]. split; [done|].
    rewrite !delete_insert_eq. by apply delete_id.
Qed.

Lemma ChalkStringAdd_concatenates_witness :
  ∃ s',
    ChalkStringAdd 1 3 7 IteratingState = Done ((0%Z, Some 9), s') ∧
    Heap s' !! 9
    = Some (Obj {| ReferenceCount := 1;
                   Payload := CHALK_STRING [x61; x62; x00] 2 |}).
Proof.
  destruct (ChalkStringAdd_concatenates 0 IteratingState 3 7
              {| ReferenceCount := 2; Payload := CHALK_STRING [x61; x00] 1 |}
              {| ReferenceCount := 1; Payload := CHALK_STRING [x62; x00] 1 |}
              [x61] [x62])
    as (Status & Result & s' & Hrun & _ & Hresult);
    [done | done | reflexivity | reflexivity | reflexivity | reflexivity
    | reflexivity |].
  cbn [IteratingState Allocations NextAllocation fst snd andb] in Hresult.
  destruct Hresult as (-> & -> & _ & Hheap).
  exists s'. split; [exact Hrun|]. rewrite Hheap. reflexivity.
Defined.
(** ** Comparison with a scalar key, and lookups, across heaps *)

Lemma SameComparand_refl (h : gmap N Block) (p : N) : SameComparand h h p.
Proof. unfold SameComparand. by destruct (LoadObject h p). Qed.

Lemma SameComparand_lookup (h h' : gmap N Block) (p : N) :
  h' !! p = h !! p → SameComparand h h' p.
Proof.
  intros Hp. unfold SameComparand, LoadObject. rewrite Hp.
  destruct (p =? NULL); [done|]. by destruct (h !! p) as [[]|].
Qed.

Lemma SameComparand_objects (h h' : gmap N Block) (p : N)
    (o o' : CHALK_OBJECT) :
  h !! p = Some (Obj o) →
  h' !! p = Some (Obj o') →
  HeaderType o = HeaderType o' →
  (HeaderType o = ChalkObjectInteger ∨ HeaderType o = ChalkObjectString →
   Payload o = Payload o') →
  SameComparand h h' p.
Proof.
  intros Hp Hp' Htype Hpay. unfold SameComparand, LoadObject.
  rewrite Hp, Hp'. by destruct (p =? NULL).
Qed.

Lemma SameComparand_no_object (h h' : gmap N Block) (p : N) :
  (∀ o, h !! p ≠ Some (Obj o)) →
  (∀ o, h' !! p ≠ Some (Obj o)) →
  SameComparand h h' p.
Proof.
  intros Hp Hp'. unfold SameComparand, LoadObject.
  destruct (p =? NULL); [done|].
  destruct (h !! p) as [[|o| |]|] eqn:E; try (by destruct (Hp o));
    destruct (h' !! p) as [[|o'| |]|] eqn:E'; try (by destruct (Hp' o'));
    done.
Qed.

Lemma ChalkCompareObjects_scalar_frame (fuel : nat) (h h' : gmap N Block)
    (Left Right : N) (r : CHALK_OBJECT) :
  SameComparand h h' Left →
  SameComparand h h' Right →
  LoadObject h Right = Done r →
  HeaderType r = ChalkObjectInteger ∨ HeaderType r = ChalkObjectString →
  ChalkCompareObjects (S fuel) h' Left Right
  = ChalkCompareObjects (S fuel) h Left Right.
Proof.
  unfold SameComparand. intros HL HR Hr Hkind.
  cbn [ChalkCompareObjects]. rewrite Hr in *.
  destruct (LoadObject h Left) as [l|c];
    destruct (LoadObject h' Left) as [l'|c']; try done.
  2:{ by subst. }
  destruct (LoadObject h' Right) as [r'|]; [|done].
  cbn [mbind Result_bind].
  destruct HL as [HLtype HLpay]. destruct HR as [HRtype HRpay].
  specialize (HRpay Hkind). rewrite <- HLtype, <- HRtype.
  destruct (N.eqb_spec (TypeValue (HeaderType l)) (TypeValue (HeaderType r)))
    as [Heq|Hne]; cbn [negb]; [|done].
  assert (Hsame : HeaderType l = HeaderType r).
  { by destruct (HeaderType l), (HeaderType r). }
  rewrite <- HRpay, <- HLpay by (by rewrite Hsame).
  unfold HeaderType in Hkind.
  destruct (Payload r); destruct Hkind; try discriminate;
    by destruct (Payload l).
Qed.

Lemma ChalkDictLookupFrom_frame (fuel : nat) (h h' : gmap N Block)
    (EntryList : list N) (KeyObject : N) (k : CHALK_OBJECT) :
  (∀ p, SameComparand h h' p) →
  (∀ Entry, Entry ∈ EntryList →
     (e ← LoadEntry h' Entry; Done (Key e))
     = (e ← LoadEntry h Entry; Done (Key e))) →
  LoadObject h KeyObject = Done k →
  HeaderType k = ChalkObjectInteger ∨ HeaderType k = ChalkObjectString →
  ChalkDictLookupFrom (ChalkCompareObjects (S fuel) h') h' EntryList KeyObject
  = ChalkDictLookupFrom (ChalkCompareObjects (S fuel) h) h EntryList
      KeyObject.
Proof.
  intros Hsame Hentries Hk Hkind.
  induction EntryList as [|Entry Rest IH]; [done|].
  cbn [ChalkDictLookupFrom].
  pose proof (Hentries Entry ltac:(by apply elem_of_cons; left)) as HEntry.
  assert (IH' := IH (λ e' He', Hentries e' ltac:(by apply elem_of_cons; right))).
  destruct (LoadEntry h Entry) as [e|c], (LoadEntry h' Entry) as [e'|c'];
    cbn [mbind Result_bind] in *; try done.
  injection HEntry as HEntry. rewrite HEntry.
    rewrite (ChalkCompareObjects_scalar_frame fuel h h' (Key e) KeyObject k)
      by done.
    destruct (ChalkCompareObjects (S fuel) h (Key e) KeyObject) as [z|c];
      [|done].
    cbn [mbind Result_bind]. by destruct (z =? 0)%Z.
Qed.

Lemma ChalkDictLookupFrom_entries (Compare : N → N → Result Z)
    (h : gmap N Block) (EntryList : list N) (KeyObject Found : N) :
  ChalkDictLookupFrom Compare h EntryList KeyObject = Done Found →
  (Found = NULL ∧
   ∀ Entry, Entry ∈ EntryList →
     Entry ≠ NULL ∧ ∃ e, h !! Entry = Some (DictEntry e)) ∨
  (Found ≠ NULL ∧ Found ∈ EntryList ∧
   ∃ e, h !! Found = Some (DictEntry e) ∧ Compare (Key e) KeyObject = Done 0%Z).
Proof.
  induction EntryList as [|Entry Rest IH]; cbn [ChalkDictLookupFrom].
  - intros [= <-]. left. split; [done|]. intros e He.
    by apply elem_of_nil in He.
  - destruct (LoadEntry h Entry) as [e|c] eqn:He; [|done].
    apply LoadEntry_inv in He as (Hnull & He).
    cbn [mbind Result_bind].
    destruct (Compare (Key e) KeyObject) as [z|c] eqn:Hz; [|done].
    cbn [mbind Result_bind].
    destruct (Z.eqb_spec z 0) as [->|Hne].
    + intros [= <-]. right. split; [done|].
      split; [by apply elem_of_cons; left|]. eauto.
    + intros H. destruct (IH H) as [(-> & Hall)|(Hfound & Hin & Hrest)].
      * left. split; [done|]. intros e' He'.
        apply elem_of_cons in He' as [->|He']; [eauto|by apply Hall].
      * right. split; [done|]. split; [by apply elem_of_cons; right|done].
Qed.

Lemma ChalkDictLookupFrom_app (Compare : N → N → Result Z)
    (h : gmap N Block) (EntryList Rest : list N) (KeyObject : N) :
  ChalkDictLookupFrom Compare h EntryList KeyObject = Done NULL →
  ChalkDictLookupFrom Compare h (EntryList ++ Rest) KeyObject
  = ChalkDictLookupFrom Compare h Rest KeyObject.
Proof.
  induction EntryList as [|Entry Tail IH]; [done|].
  cbn [app ChalkDictLookupFrom].
  destruct (LoadEntry h Entry) as [e|c] eqn:He; [|done].
  apply LoadEntry_inv in He as (Hnull & He). cbn [mbind Result_bind].
  destruct (Compare (Key e) KeyObject) as [z|c]; [|done].
  cbn [mbind Result_bind]. destruct (z =? 0)%Z; [|done].
  intros [= ->]. done.
Qed.

Lemma strcmp_refl (Text : list byte) :
  x00 ∈ Text → strcmp Text Text = Done 0%Z.
Proof.
  induction Text as [|c Text IH]; intros Hin.
  - by apply elem_of_nil in Hin.
  - cbn [strcmp]. rewrite N.eqb_refl. cbn [negb].
    destruct (N.eqb_spec (Byte.to_N c) 0) as [|Hne]; [done|].
    apply IH. apply elem_of_cons in Hin as [<-|]; [by destruct Hne|done].
Qed.

Lemma ChalkCompareObjects_scalar_refl (fuel : nat) (h : gmap N Block)
    (Object : N) (o : CHALK_OBJECT) :
  Object ≠ NULL →
  h !! Object = Some (Obj o) →
  match Payload o with
  | CHALK_INT _ => True
  | CHALK_STRING Text _ => x00 ∈ Text
  | _ => False
  end →
  ChalkCompareObjects (S fuel) h Object Object = Done 0%Z.
Proof.
  intros Hnull Ho Hscalar. cbn [ChalkCompareObjects].
  rewrite (LoadObject_Done h Object o) by done. cbn [mbind Result_bind].
  rewrite N.eqb_refl. cbn [negb].
  destruct (Payload o) as [| |v|Text Size| | |]; try done.
  - by rewrite Z.ltb_irrefl, Z.gtb_ltb, Z.ltb_irrefl.
  - by rewrite strcmp_refl.
Qed.
(** ** Setting a new key, and looking it up *)

Lemma ChalkObjectAddReference_heap (Object : N) (s : State) :
  Object ≠ NULL →
  (∃ v, Heap s !! Object = Some (Obj v) ∧
        HeaderType v ≠ ChalkObjectInvalid ∧
        0 < ReferenceCount v < 0x10000000) →
  ChalkObjectAddReference Object s
  = Done (tt, WithHeap s (HeapAddReference Object (Heap s))).
Proof.
  intros Hnull Hlive.
  pose proof (HeapAddReference_run Object s (λ _, Hlive)) as H.
  by rewrite NULL_eqb in H.
Qed.

Lemma ChalkObjectReleaseReference_heap (fuel : nat) (Object : N)
    (s : State) :
  Object ≠ NULL →
  (∃ v, Heap s !! Object = Some (Obj v) ∧
        HeaderType v ≠ ChalkObjectInvalid ∧
        1 < ReferenceCount v < 0x10000000) →
  ChalkObjectReleaseReference (S fuel) Object s
  = Done (tt, WithHeap s (HeapReleaseReference Object (Heap s))).
Proof.
  intros Hnull Hlive.
  pose proof (HeapReleaseReference_run fuel Object s (λ _, Hlive)) as H.
  by rewrite NULL_eqb in H.
Qed.

Lemma ChalkDictSetElement_insert_run (fuel : nat) (s : State)
    (DictObject KeyObject ValueObject : N) (LValue : bool)
    (d k v : CHALK_OBJECT) (EntryList : list N) (Count Generation : N)
    (Pending : list bool) :
  DictObject ≠ NULL →
  Heap s !! DictObject = Some (Obj d) →
  Payload d = CHALK_DICT EntryList Count Generation →
  KeyObject ≠ NULL →
  Heap s !! KeyObject = Some (Obj k) →
  HeaderType k = ChalkObjectInteger ∨ HeaderType k = ChalkObjectString →
  0 < ReferenceCount k < 0x10000000 →
  ChalkDictLookup fuel (Heap s) DictObject KeyObject = Done NULL →
  NextAllocation (Allocations s) = (true, Pending) →
  ValueObject ≠ NULL →
  Heap s !! ValueObject = Some (Obj v) →
  HeaderType v ≠ ChalkObjectInvalid →
  0 < ReferenceCount v ∧ ReferenceCount v + 1 < 0x10000000 →
  ChalkDictSetElement fuel DictObject KeyObject ValueObject LValue s
  = Done ((0%Z, if LValue then FreshAddress (Heap s) else NULL),
          {| Heap :=
               <[FreshAddress (Heap s) :=
                   DictEntry {| Key := KeyObject; Value := ValueObject |}]>
                 (HeapAddReference ValueObject
                    (HeapWithNewEntry (Heap s) DictObject KeyObject d k
                       EntryList Count Generation));
             Allocations := Pending; Stderr := Stderr s |}).
Proof.
  intros Hd Hdict Hpay Hk Hkey Hkind Hkrange Hlookup Halloc Hv Hvalue Hvalid
    Hvrange.
  destruct (FreshAddress_spec (Heap s)) as (Hfresh & Hnull & _).
  set (F := FreshAddress (Heap s)) in *.
  assert (Hne : DictObject ≠ KeyObject).
  { intros ->. rewrite Hdict in Hkey. injection Hkey as <-.
    unfold HeaderType in Hkind. rewrite Hpay in Hkind.
    by destruct Hkind. }
  assert (Hkvalid : HeaderType k ≠ ChalkObjectInvalid)
    by (destruct Hkind as [-> | ->]; discriminate).
  set (hw := HeapWithNewEntry (Heap s) DictObject KeyObject d k
               EntryList Count Generation).
  set (s1 := {| Heap := hw; Allocations := Pending; Stderr := Stderr s |}).
  assert (Hentry1 : hw !! F
                    = Some (DictEntry {| Key := KeyObject; Value := NULL |})).
  { unfold hw, HeapWithNewEntry. fold F.
    rewrite lookup_insert_ne, lookup_insert_ne by congruence.
    by rewrite lookup_insert_eq. }
  assert (HvF : ValueObject ≠ F) by congruence.
  assert (Hentry2 : HeapAddReference ValueObject hw !! F
                    = Some (DictEntry {| Key := KeyObject; Value := NULL |})).
  { rewrite HeapAddReference_lookup_all, Hentry1. done. }
  unfold ChalkDictSetElement.
  eapply bind_run; [by apply ReadObject_Done|].
  assert (IsType d ChalkObjectDict = true) as ->
    by (apply IsType_true; unfold HeaderType; by rewrite Hpay).
  eapply bind_run; [apply assert_true|].
  rewrite (NULL_eqb KeyObject) by done.
  eapply bind_run; [apply assert_true|].
  eapply bind_run; [by apply ReadObject_Done|].
  assert (negb (IsType k ChalkObjectInteger)
          && negb (IsType k ChalkObjectString) = false) as ->.
  { apply andb_false_iff. rewrite !negb_false_iff, !IsType_true.
    destruct Hkind; eauto. }
  eapply bind_run; [unfold read; by rewrite Hlookup|].
  change (NULL =? NULL) with true. cbn match.
  eapply bind_run; [by eapply ChalkDictNewEntry_Done|].
  fold F hw s1. rewrite (NULL_eqb F) by done.
  eapply bind_run.
  { apply (ChalkObjectAddReference_heap ValueObject s1); [done|].
    cbn [s1 Heap]. unfold hw, HeapWithNewEntry. fold F.
    destruct (decide (DictObject = ValueObject)) as [<-|Hdv].
    { rewrite lookup_insert_eq. eexists. split; [done|].
      rewrite Hdict in Hvalue. injection Hvalue as <-.
      split; [done|]. cbn [SetPayload ReferenceCount]. lia. }
    rewrite lookup_insert_ne by done.
    destruct (decide (KeyObject = ValueObject)) as [<-|Hkv].
    { rewrite lookup_insert_eq. eexists. split; [done|].
      rewrite Hkey in Hvalue. injection Hvalue as <-.
      split; [done|]. cbn [SetReferenceCount ReferenceCount]. lia. }
    rewrite lookup_insert_ne by done.
    rewrite lookup_insert_ne by congruence.
    exists v. split; [done|]. split; [done|]. lia. }
  eapply bind_run; [by apply ReadEntry_Done|].
  cbn [Value]. change (NULL =? NULL) with true. cbn [negb].
  eapply bind_run; [reflexivity|].
  eapply bind_run; [by apply ReadEntry_Done|].
  reflexivity.
Qed.

Lemma HeapWithNewEntry_object (h : gmap N Block) (DictObject KeyObject p : N)
    (d k o : CHALK_OBJECT) (EntryList : list N) (Count Generation : N) :
  h !! DictObject = Some (Obj d) →
  Payload d = CHALK_DICT EntryList Count Generation →
  h !! KeyObject = Some (Obj k) →
  h !! p = Some (Obj o) →
  ∃ o', HeapWithNewEntry h DictObject KeyObject d k EntryList Count
          Generation !! p = Some (Obj o') ∧
        HeaderType o' = HeaderType o ∧
        (p ≠ DictObject → Payload o' = Payload o) ∧
        ReferenceCount o ≤ ReferenceCount o' ≤ ReferenceCount o + 1.
Proof.
  intros Hd Hpay Hk Hp. unfold HeapWithNewEntry.
  destruct (FreshAddress_spec h) as (Hfresh & _).
  destruct (decide (p = DictObject)) as [->|HpD].
  { rewrite lookup_insert_eq. eexists. split; [done|].
    rewrite Hd in Hp. injection Hp as <-. split; [|split; [done|]].
    - unfold HeaderType. cbn [SetPayload Payload]. by rewrite Hpay.
    - cbn [SetPayload ReferenceCount]. lia. }
  rewrite lookup_insert_ne by done.
  destruct (decide (p = KeyObject)) as [->|HpK].
  { rewrite lookup_insert_eq. eexists. split; [done|].
    rewrite Hk in Hp. injection Hp as <-. split; [done|]. split; [done|].
    cbn [SetReferenceCount ReferenceCount]. lia. }
  rewrite lookup_insert_ne by done.
  rewrite lookup_insert_ne by congruence.
  exists o. split; [done|]. split; [done|]. split; [done|]. lia.
Qed.

Lemma HeapWithNewEntry_other (h : gmap N Block) (DictObject KeyObject p : N)
    (d k : CHALK_OBJECT) (EntryList : list N) (Count Generation : N) :
  h !! DictObject = Some (Obj d) →
  h !! KeyObject = Some (Obj k) →
  (∀ o, h !! p ≠ Some (Obj o)) →
  p ≠ FreshAddress h →
  HeapWithNewEntry h DictObject KeyObject d k EntryList Count Generation !! p
  = h !! p.
Proof.
  intros Hd Hk Hp HpF. unfold HeapWithNewEntry.
  rewrite !lookup_insert_ne; [done|done| |]; intros <-; by eapply Hp.
Qed.

Lemma AddToReferenceCount_not_object (n : N) (b : option Block) :
  (∀ o, b ≠ Some (Obj o)) → AddToReferenceCount n <$> b = b.
Proof. intros Hb. destruct b as [[|o| |]|]; try done. by destruct (Hb o). Qed.

(** Every address is compared alike before and after a key is added. *)

Lemma ChalkDictSetElement_insert_SameComparand (h : gmap N Block)
    (DictObject KeyObject ValueObject : N) (d k : CHALK_OBJECT)
    (EntryList : list N) (Count Generation : N) (e : CHALK_DICT_ENTRY) :
  h !! DictObject = Some (Obj d) →
  Payload d = CHALK_DICT EntryList Count Generation →
  h !! KeyObject = Some (Obj k) →
  ∀ p, SameComparand h
         (<[FreshAddress h := DictEntry e]>
            (HeapAddReference ValueObject
               (HeapWithNewEntry h DictObject KeyObject d k EntryList Count
                  Generation))) p.
Proof.
  intros Hd Hpay Hk p.
  destruct (FreshAddress_spec h) as (Hfresh & _).
  destruct (decide (p = FreshAddress h)) as [->|HpF].
  { apply SameComparand_no_object.
    - intros o. by rewrite Hfresh.
    - intros o. by rewrite lookup_insert_eq. }
  destruct (h !! p) as [[|o| |]|] eqn:Hp.
  2:{ destruct (HeapWithNewEntry_object h DictObject KeyObject p d k o
                  EntryList Count Generation Hd Hpay Hk Hp)
        as (o1 & Ho1 & Htype1 & Hpay1 & _).
      destruct (HeapAddReference_lookup ValueObject p _ o1 Ho1)
        as (o2 & Ho2 & Hpay2 & _).
      eapply SameComparand_objects; [done| | |].
      - rewrite lookup_insert_ne by done. exact Ho2.
      - by rewrite (HeaderType_Payload o2 o1).
      - intros Hscalar. rewrite Hpay2. symmetry. apply Hpay1. intros ->.
        rewrite Hd in Hp. injection Hp as <-.
        unfold HeaderType in Hscalar. rewrite Hpay in Hscalar.
        by destruct Hscalar. }
  all: apply SameComparand_lookup; rewrite lookup_insert_ne by done;
    rewrite HeapAddReference_lookup_all;
    rewrite (HeapWithNewEntry_other h DictObject KeyObject p d k)
      by (done || (intros o; by rewrite Hp));
    rewrite Hp; done.
Qed.

Lemma ChalkDictLookupFrom_app_any (Compare : N → N → Result Z)
    (h : gmap N Block) (EntryList Rest : list N) (KeyObject : N) :
  ChalkDictLookupFrom Compare h (EntryList ++ Rest) KeyObject
  = match ChalkDictLookupFrom Compare h EntryList KeyObject with
    | Done Found =>
        if Found =? NULL
        then ChalkDictLookupFrom Compare h Rest KeyObject else Done Found
    | Fault c => Fault c
    end.
Proof.
  induction EntryList as [|Entry Tail IH]; [done|].
  cbn [app ChalkDictLookupFrom].
  destruct (LoadEntry h Entry) as [e|c] eqn:He; [|done].
  apply LoadEntry_inv in He as (Hnull & He). cbn [mbind Result_bind].
  destruct (Compare (Key e) KeyObject) as [z|c]; [|done].
  cbn [mbind Result_bind]. destruct (z =? 0)%Z; [|done].
  by rewrite NULL_eqb.
Qed.

(** X12: a [ChalkDictSetElement] that adds a key (an Integer, or a String
    with its terminator) to a dictionary returns 0; the key is then found:
    [ChalkDictLookup] returns the new entry, which holds the key and the
    value, and the get built-in returns the value with one more reference.
    The other keys are looked up as before: a key that had an entry still
    has that entry, and a key that had none and differs from the new key
    still has none. *)
Theorem ChalkDictSetElement_insert_lookup (fuel : nat) (s : State)
    (DictObject KeyObject ValueObject : N) (d k v : CHALK_OBJECT)
    (EntryList : list N) (Count Generation : N) (Pending : list bool) :
  DictObject ≠ NULL →
  Heap s !! DictObject = Some (Obj d) →
  Payload d = CHALK_DICT EntryList Count Generation →
  KeyObject ≠ NULL →
  Heap s !! KeyObject = Some (Obj k) →
  match Payload k with
  | CHALK_INT _ => True
  | CHALK_STRING Text _ => x00 ∈ Text
  | _ => False
  end →
  0 < ReferenceCount k < 0x10000000 →
  ChalkDictLookup (S fuel) (Heap s) DictObject KeyObject = Done NULL →
  NextAllocation (Allocations s) = (true, Pending) →
  ValueObject ≠ NULL →
  Heap s !! ValueObject = Some (Obj v) →
  HeaderType v ≠ ChalkObjectInvalid →
  0 < ReferenceCount v ∧ ReferenceCount v + 2 < 0x10000000 →
  ∃ s',
    ChalkDictSetElement (S fuel) DictObject KeyObject ValueObject false s
    = Done ((0%Z, NULL), s') ∧
    ChalkDictLookup (S fuel) (Heap s') DictObject KeyObject
    = Done (FreshAddress (Heap s)) ∧
    Heap s' !! FreshAddress (Heap s)
    = Some (DictEntry {| Key := KeyObject; Value := ValueObject |}) ∧
    (∃ s'', ChalkFunctionGet (S fuel) DictObject KeyObject s'
            = Done ((0%Z, ValueObject), s'')) ∧
    ∀ OtherKey k' Found,
      Heap s !! OtherKey = Some (Obj k') →
      HeaderType k' = ChalkObjectInteger ∨ HeaderType k' = ChalkObjectString →
      OtherKey ≠ NULL →
      ChalkDictLookup (S fuel) (Heap s) DictObject OtherKey = Done Found →
      (Found ≠ NULL →
       ChalkDictLookup (S fuel) (Heap s') DictObject OtherKey = Done Found) ∧
      (Found = NULL →
       ∀ z, ChalkCompareObjects (S fuel) (Heap s) KeyObject OtherKey = Done z →
            z ≠ 0%Z →
            ChalkDictLookup (S fuel) (Heap s') DictObject OtherKey
            = Done NULL).
Proof.
  intros Hd Hdict Hpay Hk Hkey Hself Hkrange Hlookup Halloc Hv Hvalue Hvalid
    Hvrange.
  destruct (FreshAddress_spec (Heap s)) as (Hfresh & Hnull & _).
  set (F := FreshAddress (Heap s)) in *.
  assert (Hkind : HeaderType k = ChalkObjectInteger
                  ∨ HeaderType k = ChalkObjectString).
  { unfold HeaderType. destruct (Payload k); try done; auto. }
  set (h := Heap s) in *.
  set (h' := <[F := DictEntry {| Key := KeyObject; Value := ValueObject |}]>
               (HeapAddReference ValueObject
                  (HeapWithNewEntry h DictObject KeyObject d k
                     EntryList Count Generation))).
  assert (Hrun := ChalkDictSetElement_insert_run (S fuel) s DictObject
                    KeyObject ValueObject false d k v EntryList Count
                    Generation Pending Hd Hdict Hpay Hk Hkey Hkind Hkrange
                    Hlookup Halloc Hv Hvalue Hvalid
                    ltac:(split; [apply Hvrange|lia])).
  fold h F h' in Hrun.
  assert (Hsame : ∀ p, SameComparand h h' p).
  { intros p. by apply ChalkDictSetElement_insert_SameComparand. }
  (* Objects of the old heap are objects of the new one. *)
  assert (Hobject : ∀ p o, h !! p = Some (Obj o) →
            ∃ o', h' !! p = Some (Obj o') ∧
                  HeaderType o' = HeaderType o ∧
                  (p ≠ DictObject → Payload o' = Payload o) ∧
                  ReferenceCount o ≤ ReferenceCount o'
                    ≤ ReferenceCount o + 2).
  { intros p o Hp.
    destruct (HeapWithNewEntry_object h DictObject KeyObject p d k o
                EntryList Count Generation Hdict Hpay Hkey Hp)
      as (o1 & Ho1 & Htype1 & Hpay1 & Hrc1).
    destruct (HeapAddReference_lookup ValueObject p _ o1 Ho1)
      as (o2 & Ho2 & Hpay2 & Hrc2).
    exists o2. unfold h'. rewrite lookup_insert_ne by congruence.
    split; [done|]. split; [by rewrite (HeaderType_Payload o2 o1)|].
    split; [intros Hne; rewrite Hpay2; by apply Hpay1|].
    rewrite Hrc2. case_decide; lia. }
  destruct (Hobject DictObject d Hdict) as (d' & Hd' & _ & _ & _).
  assert (Hpay' : Payload d' = CHALK_DICT (EntryList ++ [F])
                                 (ULONG (Count + 1)) (UINTN (Generation + 1))).
  { assert (HDF : DictObject ≠ F) by congruence.
    unfold h' in Hd'. rewrite lookup_insert_ne in Hd' by done.
    unfold HeapWithNewEntry in Hd'. fold F in Hd'.
    destruct (HeapAddReference_lookup ValueObject DictObject
                (<[DictObject :=
                     Obj (SetPayload d
                            (CHALK_DICT (EntryList ++ [F]) (ULONG (Count + 1))
                               (UINTN (Generation + 1))))]>
                   (<[KeyObject :=
                        Obj (SetReferenceCount k (ReferenceCount k + 1))]>
                      (<[F := DictEntry {| Key := KeyObject;
                                          Value := NULL |}]> h)))
                _ (lookup_insert_eq _ _ _))
      as (d2 & Hd2 & Hpay2 & _).
    rewrite Hd' in Hd2. injection Hd2 as <-. by rewrite Hpay2. }
  (* The entries of the old list are what they were. *)
  assert (Hold : ChalkDictLookupFrom (ChalkCompareObjects (S fuel) h) h
                   EntryList KeyObject = Done NULL).
  { unfold ChalkDictLookup in Hlookup.
    rewrite (LoadObject_Done h DictObject d) in Hlookup by done.
    cbn [mbind Result_bind] in Hlookup. by rewrite Hpay in Hlookup. }
  assert (Hentries : ∀ Entry, Entry ∈ EntryList →
            (e ← LoadEntry h' Entry; Done (Key e))
            = (e ← LoadEntry h Entry; Done (Key e))).
  { intros Entry HEntry.
    destruct (ChalkDictLookupFrom_entries _ _ _ _ _ Hold)
      as [(_ & Hall)|(Hno & _)]; [|done].
    destruct (Hall Entry HEntry) as (Hen & e & He).
    f_equal. unfold LoadEntry. rewrite NULL_eqb by done.
    assert (HeF : Entry ≠ F) by congruence.
    unfold h'. rewrite lookup_insert_ne by done.
    rewrite HeapAddReference_lookup_all.
    rewrite (HeapWithNewEntry_other h DictObject KeyObject Entry d k)
      by (done || (intros o; by rewrite He)).
    by rewrite He. }
  assert (HF : h' !! F
               = Some (DictEntry {| Key := KeyObject; Value := ValueObject |}))
    by apply lookup_insert_eq.
  assert (Hlookup' : ∀ OtherKey k',
            h !! OtherKey = Some (Obj k') →
            HeaderType k' = ChalkObjectInteger
            ∨ HeaderType k' = ChalkObjectString →
            OtherKey ≠ NULL →
            ChalkDictLookup (S fuel) h' DictObject OtherKey
            = match ChalkDictLookup (S fuel) h DictObject OtherKey with
              | Done Found =>
                  if Found =? NULL
                  then z ← ChalkCompareObjects (S fuel) h KeyObject OtherKey;
                       if (z =? 0)%Z then Done F else Done NULL
                  else Done Found
              | Fault c => Fault c
              end).
  { intros OtherKey k' Hother Hscalar Hon.
    unfold ChalkDictLookup.
    rewrite (LoadObject_Done h' DictObject d'),
      (LoadObject_Done h DictObject d) by done.
    cbn [mbind Result_bind]. rewrite Hpay, Hpay'.
    rewrite ChalkDictLookupFrom_app_any.
    rewrite (ChalkDictLookupFrom_frame fuel h h' EntryList OtherKey k')
      by (done || by apply LoadObject_Done).
    destruct (ChalkDictLookupFrom (ChalkCompareObjects (S fuel) h) h
                EntryList OtherKey) as [Found|c]; [|done].
    destruct (Found =? NULL); [|done].
    cbn [ChalkDictLookupFrom].
    rewrite (LoadEntry_Done h' F _ Hnull HF). cbn [mbind Result_bind Key].
    rewrite (ChalkCompareObjects_scalar_frame fuel h h' KeyObject OtherKey k')
      by (done || by apply LoadObject_Done).
    destruct (ChalkCompareObjects (S fuel) h KeyObject OtherKey) as [z|c];
      [|done].
    cbn [mbind Result_bind]. by destruct (z =? 0)%Z. }
  assert (Hfound : ChalkDictLookup (S fuel) h' DictObject KeyObject = Done F).
  { rewrite (Hlookup' KeyObject k) by done. rewrite Hlookup.
    change (NULL =? NULL) with true. cbn match.
    by rewrite (ChalkCompareObjects_scalar_refl fuel h KeyObject k). }
  eexists. split; [exact Hrun|]. cbn [Heap].
  split; [done|]. split; [done|]. split.
  - destruct (Hobject ValueObject v Hvalue) as (v' & Hv' & Htype' & _ & Hrc').
    eexists. unfold ChalkFunctionGet.
    rewrite (NULL_eqb DictObject), (NULL_eqb KeyObject) by done.
    eapply bind_run; [apply assert_true|].
    eapply bind_run; [by apply ReadObject_Done|].
    assert (IsType d' ChalkObjectDict = true) as ->
      by (apply IsType_true; unfold HeaderType; by rewrite Hpay').
    cbn [negb andb].
    eapply bind_run.
    { eapply bind_run; [unfold read; cbn [Heap]; by rewrite Hfound|].
      rewrite (NULL_eqb F) by done. cbn [negb].
      eapply bind_run; [by apply ReadEntry_Done|]. cbn [Value].
      eapply bind_run.
      { apply ChalkObjectAddReference_heap; [done|]. exists v'.
        cbn [Heap]. split; [done|]. split; [by rewrite Htype'|]. lia. }
      reflexivity. }
    rewrite (NULL_eqb ValueObject) by done.
    eapply bind_run; reflexivity.
  - intros OtherKey k' Found Hother Hscalar Hon Hfind.
    rewrite (Hlookup' OtherKey k') by done. fold h in Hfind. rewrite Hfind.
    split.
    + intros Hne. by rewrite NULL_eqb.
    + intros -> z Hz Hnz. change (NULL =? NULL) with true. cbn match.
      fold h in Hz. rewrite Hz. cbn [mbind Result_bind].
      by destruct (Z.eqb_spec z 0).
Qed.

Lemma ChalkDictSetElement_insert_lookup_witness :
  ∃ s',
    ChalkDictSetElement 1 2 7 8 false IteratingState = Done ((0%Z, NULL), s') ∧
    ChalkDictLookup 1 (Heap s') 2 7 = Done 9.
Proof.
  destruct (ChalkDictSetElement_insert_lookup 0 IteratingState 2 7 8
              {| ReferenceCount := 1; Payload := CHALK_DICT [5] 1 1 |}
              {| ReferenceCount := 1; Payload := CHALK_STRING [x62; x00] 1 |}
              {| ReferenceCount := 1; Payload := CHALK_INT 2 |}
              [5] 1 1 [])
    as (s' & Hset & Hget & _);
    [done | reflexivity | reflexivity | done | reflexivity
    | | by vm_compute | reflexivity | reflexivity | done | reflexivity
    | done | by vm_compute |].
  - cbn [Payload]. apply elem_of_cons. right. apply elem_of_cons. by left.
  - exists s'. split; [exact Hset | exact Hget].
Defined.
(** ** Replacing the value of a key *)

Lemma HeapReleaseReference_lookup_all (q p : N) (h : gmap N Block) :
  HeapReleaseReference q h !! p
  = RemoveFromReferenceCount (References p [q]) <$> h !! p.
Proof.
  rewrite References_singleton. unfold HeapReleaseReference.
  destruct (N.eqb_spec q NULL) as [->|Hq].
  - destruct (decide _) as [[_ ?]|]; [done|].
    destruct (h !! p); [|done]. cbn. by rewrite RemoveFromReferenceCount_0.
  - destruct (decide (q = p)) as [->|Hne].
    + rewrite lookup_alter_eq. destruct (decide _) as [|Hno]; [done|].
      by destruct Hno.
    + rewrite lookup_alter_ne by done.
      destruct (decide _) as [[? _]|]; [congruence|].
      destruct (h !! p); [|done]. cbn. by rewrite RemoveFromReferenceCount_0.
Qed.

Lemma RemoveFromReferenceCount_not_object (n : N) (b : option Block) :
  (∀ o, b ≠ Some (Obj o)) → RemoveFromReferenceCount n <$> b = b.
Proof. intros Hb. destruct b as [[|o| |]|]; try done. by destruct (Hb o). Qed.

(** X13: a [ChalkDictSetElement] on a key that has an entry, whose former
    value is none, the value given, or an object with other references,
    allocates nothing and returns 0: the value given has one more
    reference, the former value one less, and the entry holds the value
    given.  The entry list, the count and the generation of the dictionary
    are unchanged, and every Integer or String key is looked up as before;
    in particular the key is still found at its entry. *)
Theorem ChalkDictSetElement_replace_lookup (fuel : nat) (s : State)
    (DictObject KeyObject ValueObject Found : N) (d k v : CHALK_OBJECT)
    (e : CHALK_DICT_ENTRY) (EntryList : list N) (Count Generation : N) :
  DictObject ≠ NULL →
  Heap s !! DictObject = Some (Obj d) →
  Payload d = CHALK_DICT EntryList Count Generation →
  KeyObject ≠ NULL →
  Heap s !! KeyObject = Some (Obj k) →
  HeaderType k = ChalkObjectInteger ∨ HeaderType k = ChalkObjectString →
  ChalkDictLookup (S fuel) (Heap s) DictObject KeyObject = Done Found →
  Found ≠ NULL →
  Heap s !! Found = Some (DictEntry e) →
  ValueObject ≠ NULL →
  Heap s !! ValueObject = Some (Obj v) →
  HeaderType v ≠ ChalkObjectInvalid →
  0 < ReferenceCount v ∧ ReferenceCount v + 1 < 0x10000000 →
  (Value e ≠ NULL → Value e ≠ ValueObject →
   ∃ o, Heap s !! Value e = Some (Obj o) ∧
        HeaderType o ≠ ChalkObjectInvalid ∧
        1 < ReferenceCount o < 0x10000000) →
  ∃ d',
    ChalkDictSetElement (S fuel) DictObject KeyObject ValueObject false s
    = Done ((0%Z, NULL),
            WithHeap s
              (<[Found := DictEntry {| Key := Key e; Value := ValueObject |}]>
                 (HeapReleaseReference (Value e)
                    (HeapAddReference ValueObject (Heap s))))) ∧
    <[Found := DictEntry {| Key := Key e; Value := ValueObject |}]>
      (HeapReleaseReference (Value e)
         (HeapAddReference ValueObject (Heap s))) !! DictObject
    = Some (Obj d') ∧
    Payload d' = CHALK_DICT EntryList Count Generation ∧
    ∀ OtherKey k',
      Heap s !! OtherKey = Some (Obj k') →
      HeaderType k' = ChalkObjectInteger ∨ HeaderType k' = ChalkObjectString →
      OtherKey ≠ NULL →
      ChalkDictLookup (S fuel)
        (<[Found := DictEntry {| Key := Key e; Value := ValueObject |}]>
           (HeapReleaseReference (Value e)
              (HeapAddReference ValueObject (Heap s))))
        DictObject OtherKey
      = ChalkDictLookup (S fuel) (Heap s) DictObject OtherKey.
Proof.
  intros Hd Hdict Hpay Hk Hkey Hkind Hlookup Hfound He Hv Hvalue Hvalid
    Hvrange Hold.
  set (h := Heap s) in *.
  set (h1 := HeapAddReference ValueObject h).
  set (h2 := HeapReleaseReference (Value e) h1).
  set (h' := <[Found := DictEntry {| Key := Key e; Value := ValueObject |}]>
               h2).
  assert (He1 : h1 !! Found = Some (DictEntry e))
    by (unfold h1; rewrite HeapAddReference_lookup_all, He; done).
  assert (He2 : h2 !! Found = Some (DictEntry e))
    by (unfold h2; rewrite HeapReleaseReference_lookup_all, He1; done).
  assert (Hobject : ∀ p o, h !! p = Some (Obj o) →
            ∃ o', h' !! p = Some (Obj o') ∧ Payload o' = Payload o).
  { intros p o Hp.
    destruct (HeapAddReference_lookup ValueObject p h o Hp)
      as (o1 & Ho1 & Hpay1 & _).
    destruct (HeapReleaseReference_lookup (Value e) p h1 o1 Ho1)
      as (o2 & Ho2 & Hpay2 & _).
    exists o2. unfold h'. rewrite lookup_insert_ne by congruence.
    split; [done|]. by rewrite Hpay2. }
  assert (Hother : ∀ p, (∀ o, h !! p ≠ Some (Obj o)) → p ≠ Found →
            h' !! p = h !! p).
  { intros p Hp HpF. unfold h'. rewrite lookup_insert_ne by done.
    unfold h2, h1.
    rewrite HeapReleaseReference_lookup_all, HeapAddReference_lookup_all.
    rewrite (AddToReferenceCount_not_object _ _ Hp).
    by rewrite (RemoveFromReferenceCount_not_object _ _ Hp). }
  assert (Hsame : ∀ p, SameComparand h h' p).
  { intros p. destruct (h !! p) as [[|o| |]|] eqn:Hp.
    2:{ destruct (Hobject p o Hp) as (o' & Ho' & Hpay').
        eapply SameComparand_objects; [done|done| |].
        - by rewrite (HeaderType_Payload o' o).
        - done. }
    all: destruct (decide (p = Found)) as [->|HpF];
      [apply SameComparand_no_object;
        [intros o; by rewrite Hp
        |intros o; unfold h'; by rewrite lookup_insert_eq]
      |apply SameComparand_lookup; apply Hother;
        [intros o; by rewrite Hp|done]]. }
  assert (Hentries : ∀ Entry, Entry ∈ EntryList →
            (e0 ← LoadEntry h' Entry; Done (Key e0))
            = (e0 ← LoadEntry h Entry; Done (Key e0))).
  { intros Entry _. unfold LoadEntry.
    destruct (Entry =? NULL); [done|].
    destruct (decide (Entry = Found)) as [->|Hne].
    - unfold h'. by rewrite lookup_insert_eq, He.
    - destruct (h !! Entry) as [[|o| |]|] eqn:HEntry.
      2:{ destruct (Hobject Entry o HEntry) as (o' & Ho' & _).
          by rewrite Ho'. }
      all: rewrite Hother by (done || (intros o; by rewrite HEntry));
        by rewrite HEntry. }
  destruct (Hobject DictObject d Hdict) as (d' & Hd' & Hpay').
  rewrite Hpay in Hpay'.
  exists d'. split; [|split; [done|split; [done|]]].
  - unfold ChalkDictSetElement.
    eapply bind_run; [by apply ReadObject_Done|].
    assert (IsType d ChalkObjectDict = true) as ->
      by (apply IsType_true; unfold HeaderType; by rewrite Hpay).
    eapply bind_run; [apply assert_true|].
    rewrite (NULL_eqb KeyObject) by done.
    eapply bind_run; [apply assert_true|].
    eapply bind_run; [by apply ReadObject_Done|].
    assert (negb (IsType k ChalkObjectInteger)
            && negb (IsType k ChalkObjectString) = false) as ->.
    { apply andb_false_iff. rewrite !negb_false_iff, !IsType_true.
      destruct Hkind; eauto. }
    eapply bind_run; [unfold read; fold h; by rewrite Hlookup|].
    rewrite (NULL_eqb Found) by done.
    eapply bind_run; [reflexivity|].
    rewrite (NULL_eqb Found) by done.
    eapply bind_run.
    { apply ChalkObjectAddReference_heap; [done|]. exists v.
      split; [done|]. split; [done|]. lia. }
    fold h h1.
    eapply bind_run; [by apply ReadEntry_Done|].
    eapply bind_run.
    { apply (HeapReleaseReference_run fuel (Value e)). intros Hon.
      cbn [Heap WithHeap].
      destruct (decide (Value e = ValueObject)) as [Heq|Hne].
      - rewrite Heq.
        destruct (HeapAddReference_lookup ValueObject ValueObject h v Hvalue)
          as (v1 & Hv1 & Hpay1 & Hrc1). fold h1 in Hv1.
        exists v1. split; [done|].
        split; [by rewrite (HeaderType_Payload v1 v)|].
        rewrite Hrc1. case_decide as Hc; [lia|]. by destruct Hc.
      - destruct (Hold Hon Hne) as (o & Ho & Hovalid & Horange).
        destruct (HeapAddReference_lookup ValueObject (Value e) h o Ho)
          as (o1 & Ho1 & Hpay1 & Hrc1). fold h1 in Ho1.
        exists o1. split; [done|].
        split; [by rewrite (HeaderType_Payload o1 o)|].
        rewrite Hrc1. case_decide as Hc; [|lia]. by destruct Hc. }
    cbn [Heap WithHeap]. fold h2.
    eapply bind_run; [by apply ReadEntry_Done|].
    reflexivity.
  - intros OtherKey k' HOther Hscalar Hon. unfold ChalkDictLookup.
    rewrite (LoadObject_Done h' DictObject d'),
      (LoadObject_Done h DictObject d) by done.
    cbn [mbind Result_bind]. rewrite Hpay, Hpay'.
    apply (ChalkDictLookupFrom_frame fuel h h' EntryList OtherKey k');
      try done.
    by apply LoadObject_Done.
Qed.

Lemma ChalkDictSetElement_replace_lookup_witness :
  ∃ s',
    ChalkDictSetElement 1 2 3 4 false IteratingState = Done ((0%Z, NULL), s') ∧
    Heap s' !! 5 = Some (DictEntry {| Key := 3; Value := 4 |}) ∧
    Heap s' !! 4 = Some (Obj {| ReferenceCount := 1; Payload := CHALK_INT 1 |}).
Proof.
  destruct (ChalkDictSetElement_replace_lookup 0 IteratingState 2 3 4 5
              {| ReferenceCount := 1; Payload := CHALK_DICT [5] 1 1 |}
              {| ReferenceCount := 2; Payload := CHALK_STRING [x61; x00] 1 |}
              {| ReferenceCount := 1; Payload := CHALK_INT 1 |}
              {| Key := 3; Value := 4 |} [5] 1 1)
    as (d' & Hset & _);
    [done | reflexivity | reflexivity | done | reflexivity | by right
    | reflexivity | done | reflexivity | done | reflexivity | done
    | by vm_compute | by intros _ [] |].
  eexists. split; [exact Hset|]. split; reflexivity.
Defined.
(** ** Iterating over a dictionary *)

Lemma ListEntryNext_middle (Entry : N) (Before After : list N) :
  Entry ∉ Before →
  ListEntryNext Entry (Before ++ Entry :: After)
  = Done match After with
         | [] => NULL
         | Following :: _ => Following
         end.
Proof.
  induction Before as [|First Before IH]; intros Hnotin.
  - cbn [app ListEntryNext]. by rewrite N.eqb_refl.
  - apply not_elem_of_cons in Hnotin as [Hne Hnotin].
    cbn [app ListEntryNext].
    destruct (N.eqb_spec First Entry) as [->|_]; [done|]. by apply IH.
Qed.

Lemma ChalkDictIterations_from (s : State) (Dict Context : N)
    (d : CHALK_OBJECT) (EntryList : list N) (Count Generation : N)
    (k : nat) :
  Dict ≠ NULL →
  Context ≠ NULL →
  Dict ≠ Context →
  Heap s !! Dict = Some (Obj d) →
  Payload d = CHALK_DICT EntryList Count Generation →
  NoDup EntryList →
  ∀ (After Before : list N) (Entries : list CHALK_DICT_ENTRY),
    EntryList = Before ++ After →
    Context ∉ After →
    EntryNodes (Heap s) After Entries →
    ChalkDictIterations (length After + k) Dict Context
      (WithHeap s
         (<[Context :=
              DictIterator {| Next := match After with
                                      | [] => NULL
                                      | First :: _ => First
                                      end;
                              IteratorGeneration := Generation |}]> (Heap s)))
    = Done (map (λ e, Some (Key e)) Entries ++ replicate k (Some NULL),
            WithHeap s
              (<[Context :=
                   DictIterator {| Next := NULL;
                                   IteratorGeneration := Generation |}]>
                 (Heap s))).
Proof.
  intros HD HC HDC Hd Hpay Hnodup.
  induction After as [|Entry After IH]; intros Before Entries HList Hfresh Hnodes.
  - apply Forall2_nil_inv_l in Hnodes as ->.
    cbn [length Nat.add map app]. clear HList Hfresh.
    induction k as [|k IHk]; [done|].
    cbn [ChalkDictIterations replicate].
    eapply bind_run.
    { unfold ChalkDictIterate.
      eapply bind_run.
      { apply ReadObject_Done; [done|]. cbn [Heap WithHeap].
        by rewrite lookup_insert_ne. }
      rewrite Hpay.
      eapply bind_run.
      { apply ReadIterator_Done; [done|]. cbn [Heap WithHeap].
        apply lookup_insert_eq. }
      cbn [IteratorGeneration Next]. rewrite N.eqb_refl. cbn [negb].
      reflexivity. }
    cbn beta iota. eapply bind_run; [exact IHk|]. reflexivity.
  - apply Forall2_cons_inv_l in Hnodes
      as (e & Entries' & (HEntry & He) & Hnodes & ->).
    apply not_elem_of_cons in Hfresh as [HCE Hfresh].
    assert (Hnotin : Entry ∉ Before).
    { rewrite HList in Hnodup. apply NoDup_app in Hnodup as (_ & Hdisj & _).
      intros Hin. apply (Hdisj Entry Hin). by apply elem_of_cons; left. }
    cbn [length Nat.add map app ChalkDictIterations].
    eapply bind_run.
    { unfold ChalkDictIterate.
      eapply bind_run.
      { apply ReadObject_Done; [done|]. cbn [Heap WithHeap].
        by rewrite lookup_insert_ne. }
      rewrite Hpay.
      eapply bind_run.
      { apply ReadIterator_Done; [done|]. cbn [Heap WithHeap].
        apply lookup_insert_eq. }
      cbn [IteratorGeneration Next]. rewrite N.eqb_refl. cbn [negb].
      rewrite (NULL_eqb Entry) by done.
      eapply bind_run.
      { apply ReadEntry_Done; [done|]. cbn [Heap WithHeap].
        rewrite lookup_insert_ne by done. exact He. }
      eapply bind_run.
      { unfold read. rewrite HList, (ListEntryNext_middle Entry Before After)
          by done. reflexivity. }
      eapply bind_run; [reflexivity|]. reflexivity. }
    cbn beta iota. cbn [Heap WithHeap]. rewrite insert_insert_eq.
    eapply bind_run.
    { apply (IH (Before ++ [Entry]) Entries'); [|done|done].
      by rewrite <- app_assoc. }
    reflexivity.
Qed.

(** X14: on a dictionary whose entry list holds distinct allocated nodes,
    [ChalkDictInitializeIterator] allocates an iterator, and successive
    calls of [ChalkDictIterate] store the keys of the entries in list
    order (the order in which the keys were added), each exactly once;
    every call after the last key stores NULL.  No call changes anything
    but the iterator, and [ChalkDictDestroyIterator] then frees it, which
    leaves the heap as it was before the iterator was made. *)
Theorem ChalkDictIterate_enumerates (s : State) (Dict : N)
    (d : CHALK_OBJECT) (EntryList : list N) (Count Generation : N)
    (Entries : list CHALK_DICT_ENTRY) (Pending : list bool) (k : nat) :
  Dict ≠ NULL →
  Heap s !! Dict = Some (Obj d) →
  Payload d = CHALK_DICT EntryList Count Generation →
  NoDup EntryList →
  EntryNodes (Heap s) EntryList Entries →
  NextAllocation (Allocations s) = (true, Pending) →
  ∃ Context s1 s2 s3,
    ChalkDictInitializeIterator Dict s = Done ((0%Z, Context), s1) ∧
    ChalkDictIterations (length EntryList + k) Dict Context s1
    = Done (map (λ e, Some (Key e)) Entries ++ replicate k (Some NULL), s2) ∧
    (∀ p, p ≠ Context → Heap s2 !! p = Heap s !! p) ∧
    ChalkDictDestroyIterator Context s2 = Done (NULL, s3) ∧
    Heap s3 = Heap s.
Proof.
  intros HD Hd Hpay Hnodup Hnodes Halloc.
  destruct (FreshAddress_spec (Heap s)) as (Hfresh & Hnull & _).
  set (C := FreshAddress (Heap s)) in *.
  set (s0 := {| Heap := Heap s; Allocations := Pending;
                Stderr := Stderr s |}).
  assert (HnotinC : C ∉ EntryList).
  { intros Hin. unfold EntryNodes in Hnodes.
    apply list_elem_of_lookup in Hin as (i & Hi).
    destruct (Forall2_lookup_l _ _ _ _ _ Hnodes Hi) as (e & _ & _ & He).
    congruence. }
  exists C. eexists. eexists. eexists. split.
  { by eapply ChalkDictInitializeIterator_Done. }
  split.
  { apply (ChalkDictIterations_from s0 Dict C d EntryList Count Generation k
             HD Hnull ltac:(congruence) Hd Hpay Hnodup EntryList [] Entries);
      done. }
  cbn [Heap WithHeap s0]. split.
  { intros p Hp. by rewrite lookup_insert_ne. }
  split.
  { unfold ChalkDictDestroyIterator. rewrite NULL_eqb by done. cbn [negb].
    eapply bind_run; reflexivity. }
  cbn [Heap WithHeap s0]. by rewrite delete_insert_id.
Qed.

Lemma ChalkDictIterate_enumerates_witness :
  ∃ Context s1 s2,
    ChalkDictInitializeIterator 2 IteratingState = Done ((0%Z, Context), s1) ∧
    ChalkDictIterations 2 2 Context s1 = Done ([Some 3; Some NULL], s2).
Proof.
  destruct (ChalkDictIterate_enumerates IteratingState 2
              {| ReferenceCount := 1; Payload := CHALK_DICT [5] 1 1 |}
              [5] 1 1 [{| Key := 3; Value := 4 |}] [] 1%nat)
    as (Context & s1 & s2 & s3 & Hinit & Hiter & _);
    [done | reflexivity | reflexivity | | | reflexivity |].
  - apply NoDup_singleton.
  - repeat constructor. done.
  - exists Context, s1, s2. split; [exact Hinit | exact Hiter].
Defined.

(** ** Printing leaves the heap as it was *)

Lemma SetReferenceCount_restore (o : CHALK_OBJECT) (c : N) :
  SetReferenceCount (SetReferenceCount o c) (ReferenceCount o) = o.
Proof. by destruct o. Qed.

Lemma ChalkPrintElements_restores (Print : N → N → M string)
    (Array : list N) (Count RecursionDepth : N) :
  (∀ Element Depth s Text s',
     Print Element Depth s = Done (Text, s') → s' = s) →
  ∀ Remaining Index s Text s',
    ChalkPrintElements Print Array Count RecursionDepth Remaining Index s
    = Done (Text, s') →
    s' = s.
Proof.
  intros HPrint.
  induction Remaining as [|Remaining IH]; intros Index s Text s' H.
  - by injection H as _ <-.
  - cbn [ChalkPrintElements] in H.
    destruct (Array !! N.to_nat Index) as [Element|]; [|done].
    bind_inv H as t s1 Hprint. apply HPrint in Hprint as ->.
    bind_inv H as r s1 Hrest. apply IH in Hrest as ->.
    by injection H as _ <-.
Qed.

Lemma ChalkPrintEntries_restores (Print : N → N → M string)
    (RecursionDepth : N) :
  (∀ Element Depth s Text s',
     Print Element Depth s = Done (Text, s') → s' = s) →
  ∀ EntryList s Text s',
    ChalkPrintEntries Print EntryList RecursionDepth s = Done (Text, s') →
    s' = s.
Proof.
  intros HPrint.
  induction EntryList as [|CurrentEntry Rest IH]; intros s Text s' H.
  - by injection H as _ <-.
  - cbn [ChalkPrintEntries] in H.
    bind_inv H as e s1 Hread. apply ReadEntry_inv in Hread as (-> & _).
    bind_inv H as t1 s1 Hprint. apply HPrint in Hprint as ->.
    bind_inv H as t2 s1 Hprint. apply HPrint in Hprint as ->.
    bind_inv H as r s1 Hrest. apply IH in Hrest as ->.
    by injection H as _ <-.
Qed.

Lemma ChalkPrintObject_restores (FormatPointer : N → string) (fuel : nat) :
  ∀ Object RecursionDepth s Text s',
    ChalkPrintObject FormatPointer fuel Object RecursionDepth s
    = Done (Text, s') →
    s' = s.
Proof.
  induction fuel as [|fuel IH]; intros Object RecursionDepth s Text s' H;
    [done|].
  cbn [ChalkPrintObject] in H.
  destruct (Object =? NULL); [by injection H as _ <-|].
  bind_inv H as o s0 Hread. apply ReadObject_inv in Hread as (-> & _ & Ho).
  destruct (ReferenceCount o =? MAX_ULONG).
  { destruct (Payload o); try done; by injection H as _ <-. }
  bind_inv H as u1 s1 Hstore. injection Hstore as _ <-.
  set (s1 := WithHeap s _) in *.
  bind_inv H as t s2 Hbody.
  assert (Hs2 : s2 = s1).
  { destruct (Payload o) as [| |Value|Bytes Size|EntryList Count Generation
                             |Array Count|Arguments Body Script].
    - done.
    - by injection Hbody as _ <-.
    - by injection Hbody as _ <-.
    - destruct (RecursionDepth =? 0).
      + by apply read_inv in Hbody as (-> & _).
      + destruct (Size =? 0); [by injection Hbody as _ <-|].
        destruct (N.of_nat (length Bytes) <? Size); [done|].
        by injection Hbody as _ <-.
    - bind_inv Hbody as r s3 Hentries.
      apply (ChalkPrintEntries_restores _ _ IH) in Hentries as ->.
      by injection Hbody as _ <-.
    - bind_inv Hbody as r s3 Helements.
      apply (ChalkPrintElements_restores _ _ _ _ IH) in Helements as ->.
      by injection Hbody as _ <-.
    - by injection Hbody as _ <-. }
  subst s2.
  bind_inv H as o' s2 Hread. apply ReadObject_inv in Hread as (-> & _ & Ho').
  cbn [s1 Heap WithHeap] in Ho'. rewrite lookup_insert_eq in Ho'.
  injection Ho' as <-.
  bind_inv H as u2 s2 Hstore. injection Hstore as _ <-.
  injection H as _ <-.
  unfold s1, WithHeap. cbn [Heap Allocations Stderr].
  rewrite insert_insert_eq, SetReferenceCount_restore, insert_id by done.
  by destruct s.
Qed.

(** ** Printing ends, also on objects that contain themselves *)

Lemma UnmarkedObjects_insert (h : gmap N Block) (a : N) (b b' : Block) :
  h !! a = Some b →
  UnmarkedObjects (<[a := b']> h) + Unmarked b
  = UnmarkedObjects h + Unmarked b'.
Proof.
  intros Ha.
  assert (Hdelete : UnmarkedObjects h
                    = Unmarked b + UnmarkedObjects (delete a h)).
  { unfold UnmarkedObjects.
    apply (map_fold_delete_L (λ _ b Total, Unmarked b + Total)); [|done].
    intros. lia. }
  rewrite Hdelete, <- (insert_delete_eq h). unfold UnmarkedObjects at 1.
  rewrite (map_fold_insert_L (λ _ b Total, Unmarked b + Total));
    [|intros; lia|apply lookup_delete_eq].
  fold (UnmarkedObjects (delete a h)). lia.
Qed.

Lemma ChalkPrintElements_Within (Print : N → N → M string)
    (Array : list N) (Count RecursionDepth : N) (s : State) :
  (∀ Element Depth, Within (Print Element Depth) s (λ _ s', s' = s)) →
  ∀ Remaining Index,
    Within (ChalkPrintElements Print Array Count RecursionDepth Remaining
              Index) s (λ _ s', s' = s).
Proof.
  intros HPrint.
  induction Remaining as [|Remaining IH]; intros Index.
  - by apply Within_mret.
  - cbn [ChalkPrintElements].
    destruct (Array !! N.to_nat Index) as [Element|];
      [|by apply Within_halt].
    eapply Within_bind; [apply HPrint|]. intros t s1 ->.
    eapply Within_bind; [apply IH|]. intros r s1 ->.
    by apply Within_mret.
Qed.

Lemma ChalkPrintEntries_Within (Print : N → N → M string)
    (RecursionDepth : N) (s : State) :
  (∀ Element Depth, Within (Print Element Depth) s (λ _ s', s' = s)) →
  ∀ EntryList,
    Within (ChalkPrintEntries Print EntryList RecursionDepth) s
      (λ _ s', s' = s).
Proof.
  intros HPrint.
  induction EntryList as [|CurrentEntry Rest IH].
  - by apply Within_mret.
  - cbn [ChalkPrintEntries].
    eapply Within_bind; [apply Within_ReadEntry|]. intros e s1 (-> & _).
    eapply Within_bind; [apply HPrint|]. intros t1 s1 ->.
    eapply Within_bind; [apply HPrint|]. intros t2 s1 ->.
    eapply Within_bind; [apply IH|]. intros r s1 ->.
    by apply Within_mret.
Qed.

Lemma ChalkPrintObject_Within (FormatPointer : N → string) (fuel : nat) :
  ∀ Object RecursionDepth s,
    UnmarkedObjects (Heap s) < N.of_nat fuel →
    Within (ChalkPrintObject FormatPointer fuel Object RecursionDepth) s
      (λ _ s', s' = s).
Proof.
  induction fuel as [|fuel IH]; intros Object RecursionDepth s Hfuel; [lia|].
  split; [|intros t s' H; by eapply ChalkPrintObject_restores].
  cut (Within (ChalkPrintObject FormatPointer (S fuel) Object RecursionDepth)
         s (λ _ _, True)); [by intros []|].
  cbn [ChalkPrintObject].
  destruct (Object =? NULL); [by apply Within_mret|].
  eapply Within_bind; [apply Within_ReadObject|]. intros o s0 (-> & Ho).
  destruct (N.eqb_spec (ReferenceCount o) MAX_ULONG) as [|Hunmarked].
  { destruct (Payload o); (by apply Within_mret) || (by apply Within_halt). }
  eapply Within_bind; [apply Within_Store|]. intros u1 s1 ->.
  set (s1 := WithHeap s _).
  assert (Hless : UnmarkedObjects (Heap s1) < N.of_nat fuel).
  { pose proof (UnmarkedObjects_insert (Heap s) Object (Obj o)
                  (Obj (SetReferenceCount o MAX_ULONG)) Ho) as H.
    cbn [Unmarked SetReferenceCount ReferenceCount] in H.
    rewrite N.eqb_refl in H.
    destruct (N.eqb_spec (ReferenceCount o) MAX_ULONG); [done|].
    cbn [s1 Heap WithHeap]. lia. }
  eapply Within_bind with (Q := λ _ s', s' = s1).
  { destruct (Payload o) as [| |Value|Bytes Size|EntryList Count Generation
                             |Array Count|Arguments Body Script].
    - by apply Within_halt.
    - by apply Within_mret.
    - by apply Within_mret.
    - destruct (RecursionDepth =? 0).
      + apply Within_read. clear. induction Bytes as [|c Bytes IHb]; [done|].
        cbn [printf_s]. destruct (Byte.to_N c =? 0); [done|].
        destruct (printf_s Bytes) as [t|c0]; [done|].
        cbn [mbind Result_bind]. congruence.
      + destruct (Size =? 0); [by apply Within_mret|].
        destruct (N.of_nat (length Bytes) <? Size);
          [by apply Within_halt|by apply Within_mret].
    - eapply Within_bind.
      { apply ChalkPrintEntries_Within. intros e d. by apply IH. }
      intros r s2 ->. by apply Within_mret.
    - eapply Within_bind.
      { apply ChalkPrintElements_Within. intros e d. by apply IH. }
      intros r s2 ->. by apply Within_mret.
    - by apply Within_mret. }
  intros t s2 ->.
  eapply Within_bind; [apply Within_ReadObject|]. intros o' s2 (-> & _).
  eapply Within_bind; [apply Within_Store|]. intros u2 s2 _.
  by apply Within_mret.
Qed.
(** X15: [ChalkPrintObject] leaves the state as it found it: whenever it
    returns, every reference count it overwrote with its marker is back.
    Its recursion is bounded by the number of objects that do not carry
    the marker, so it ends on every heap, also on lists and dictionaries
    that contain themselves; a list whose one slot holds the list itself
    is printed as a list holding the ellipsis of a list. *)
Theorem ChalkPrintObject_restores_and_ends (FormatPointer : N → string)
    (fuel : nat) (Object RecursionDepth : N) (s : State) :
  (∀ Text s',
     ChalkPrintObject FormatPointer fuel Object RecursionDepth s
     = Done (Text, s') →
     s' = s) ∧
  (UnmarkedObjects (Heap s) < N.of_nat fuel →
   ChalkPrintObject FormatPointer fuel Object RecursionDepth s
   ≠ Fault OutOfFuel) ∧
  (∀ l, Object ≠ NULL →
        Heap s !! Object = Some (Obj l) →
        Payload l = CHALK_LIST [Object] 1 →
        ReferenceCount l ≠ MAX_ULONG →
        ChalkPrintObject FormatPointer (S (S fuel)) Object RecursionDepth s
        = Done ("[[...]]", s)).
Proof.
  split; [|split].
  - intros Text s'. apply ChalkPrintObject_restores.
  - intros Hfuel.
    by destruct (ChalkPrintObject_Within FormatPointer fuel Object
                   RecursionDepth s Hfuel).
  - intros l Hnull Hl Hpay Hunmarked.
    set (l1 := SetReferenceCount l MAX_ULONG).
    set (s1 := WithHeap s (<[Object := Obj l1]> (Heap s))).
    assert (Hl1 : Heap s1 !! Object = Some (Obj l1))
      by (cbn [s1 Heap WithHeap]; apply lookup_insert_eq).
    cbn [ChalkPrintObject]. rewrite NULL_eqb by done.
    eapply bind_run; [by apply ReadObject_Done|].
    apply N.eqb_neq in Hunmarked. rewrite Hunmarked.
    eapply bind_run; [reflexivity|]. fold l1 s1. rewrite Hpay.
    eapply bind_run with (a := "[[...]]") (s1 := s1).
    { eapply bind_run with (a := "[...]") (s1 := s1); [|reflexivity].
      cbn [ChalkPrintElements N.to_nat Pos.to_nat Pos.iter_op lookup
           list_lookup].
      eapply bind_run with (a := "[...]") (s1 := s1); [|reflexivity].
      rewrite NULL_eqb by done.
      eapply bind_run; [by apply ReadObject_Done|].
      cbn [l1 SetReferenceCount ReferenceCount Payload].
      rewrite N.eqb_refl. by rewrite Hpay. }
    eapply bind_run; [by apply ReadObject_Done|].
    eapply bind_run; [reflexivity|].
    unfold s1, l1, WithHeap, mret, M_ret. cbn [Heap Allocations Stderr].
    rewrite insert_insert_eq, SetReferenceCount_restore, insert_id by done.
    by destruct s.
Qed.

Lemma ChalkPrintObject_restores_and_ends_witness :
  let s := WithHeap TwoHolesState
             (<[2 := Obj {| ReferenceCount := 1;
                            Payload := CHALK_LIST [2] 1 |}]>
                (Heap TwoHolesState)) in
  ChalkPrintObject (λ _, EmptyString) 2 2 0 s = Done ("[[...]]", s).
Proof.
  intros s.
  destruct (ChalkPrintObject_restores_and_ends (λ _, EmptyString) 0 2 0 s)
    as (_ & _ & Hself).
  apply (Hself {| ReferenceCount := 1; Payload := CHALK_LIST [2] 1 |});
    [done | reflexivity | reflexivity | by vm_compute].
Defined.
(** ** Escaped strings *)

Lemma Unescape_EscapeCharacter (Character : byte) (Rest : string) :
  Unescape (EscapeCharacter Character +:+ Rest)
  = cons Character <$> Unescape Rest.
Proof. destruct Character; reflexivity. Qed.

Lemma Unescape_EscapeString (Text : list byte) :
  Unescape (EscapeString Text) = Some Text.
Proof.
  induction Text as [|Character Text IH]; [done|].
  cbn [EscapeString]. by rewrite Unescape_EscapeCharacter, IH.
Qed.

Lemma Characters_app (Left Right : string) :
  Characters (Left +:+ Right) = Characters Left ++ Characters Right.
Proof.
  induction Left as [|c Left IH]; [done|].
  cbn [Characters String.app app]. by rewrite <- IH.
Qed.

Lemma EscapeCharacter_range (Character : byte) :
  forallb SevenBitPrintable (Characters (EscapeCharacter Character)) = true.
Proof. destruct Character; reflexivity. Qed.

Lemma SevenBitPrintable_range (c : ascii) :
  SevenBitPrintable c = true → 32 ≤ N_of_ascii c ≤ 127.
Proof.
  unfold SevenBitPrintable. intros H.
  apply andb_true_iff in H as [Hlow Hhigh].
  apply N.leb_le in Hlow, Hhigh. done.
Qed.

(** X16: the escaped form that [ChalkPrintObject] writes for the bytes of
    a String inside a list or a dictionary holds no character below the
    space or above 0x7F, and determines the bytes: two byte sequences with
    one escaped form are equal.  The quoted form of a String of [Size]
    bytes, printed at a depth other than zero, is that escaped form
    between two double quotes, whatever bytes (zero bytes included) the
    String holds. *)
Theorem EscapeString_unambiguous (Text Other : list byte) :
  Forall (λ c, 32 ≤ N_of_ascii c ≤ 127) (Characters (EscapeString Text)) ∧
  (EscapeString Text = EscapeString Other → Text = Other) ∧
  ∀ FormatPointer fuel s Object o RecursionDepth,
    Object ≠ NULL →
    Heap s !! Object = Some (Obj o) →
    Payload o = CHALK_STRING (Text ++ [x00]) (N.of_nat (length Text)) →
    ReferenceCount o ≠ MAX_ULONG →
    RecursionDepth ≠ 0 →
    ChalkPrintObject FormatPointer (S fuel) Object RecursionDepth s
    = Done (DoubleQuote +:+ EscapeString Text +:+ DoubleQuote, s).
Proof.
  split; [|split].
  - induction Text as [|Character Text IH]; [constructor|].
    cbn [EscapeString]. rewrite Characters_app. apply Forall_app. split; [|done].
    pose proof (EscapeCharacter_range Character) as Hrange.
    induction (Characters (EscapeCharacter Character)) as [|c cs IHc];
      [constructor|].
    cbn [forallb] in Hrange. apply andb_true_iff in Hrange as [Hc Hcs].
    constructor; [by apply SevenBitPrintable_range|by apply IHc].
  - intros Heq.
    pose proof (Unescape_EscapeString Text) as HText.
    rewrite Heq, Unescape_EscapeString in HText. by injection HText.
  - intros FormatPointer fuel s Object o RecursionDepth Hnull Ho Hpay
      Hunmarked Hdepth.
    cbn [ChalkPrintObject]. rewrite NULL_eqb by done.
    eapply bind_run; [by apply ReadObject_Done|].
    apply N.eqb_neq in Hunmarked. rewrite Hunmarked.
    eapply bind_run; [reflexivity|]. rewrite Hpay.
    apply N.eqb_neq in Hdepth. rewrite Hdepth.
    eapply bind_run with
      (a := DoubleQuote +:+ EscapeString Text +:+ DoubleQuote)
      (s1 := WithHeap s
               (<[Object := Obj (SetReferenceCount o MAX_ULONG)]> (Heap s))).
    { destruct (N.eqb_spec (N.of_nat (length Text)) 0) as [Hzero|Hsize].
      - assert (Text = []) as -> by (apply nil_length_inv; lia). done.
      - rewrite length_app. cbn [length].
        assert ((N.of_nat (length Text + 1) <? N.of_nat (length Text))
                = false) as -> by (apply N.ltb_ge; lia).
        by rewrite take_terminated. }
    eapply bind_run.
    { apply ReadObject_Done; [done|]. cbn [Heap WithHeap].
      apply lookup_insert_eq. }
    eapply bind_run; [reflexivity|].
    unfold WithHeap, mret, M_ret. cbn [Heap Allocations Stderr].
    rewrite insert_insert_eq, SetReferenceCount_restore, insert_id by done.
    by destruct s.
Qed.

Lemma EscapeString_unambiguous_witness :
  ChalkPrintObject (λ _, EmptyString) 1 2 1 EmbeddedZeroState
  = Done (DoubleQuote +:+ "a\x00b" +:+ DoubleQuote, EmbeddedZeroState).
Proof.
  destruct (EscapeString_unambiguous [x61; x00; x62] []) as (_ & _ & Hquoted).
  apply (Hquoted (λ _, EmptyString) 0%nat EmbeddedZeroState 2
           {| ReferenceCount := 1;
              Payload := CHALK_STRING [x61; x00; x62; x00] 3 |} 1);
    [done | reflexivity | reflexivity | by vm_compute | done].
Defined.
(** ** The print built-in *)

Lemma string_app_nil_r (Text : string) : Text +:+ EmptyString = Text.
Proof.
  induction Text as [|c Text IH]; [done|].
  change (String c (Text +:+ EmptyString) = String c Text). by rewrite IH.
Qed.

Lemma ChalkPrintArguments_texts (Print : N → N → M string) (s : State)
    (Array : list N) :
  N.of_nat (length Array) ≤ MAX_UINTN →
  ∀ (Rest Before : list N) (Texts : list string) (First : bool),
    Array = Before ++ Rest →
    Forall2 (λ Element Text, Print Element 0 s = Done (Text, s))
      (filter (λ Element, Element ≠ NULL) Rest) Texts →
    ChalkPrintArguments Print Array (length Rest)
      (N.of_nat (length Before)) First s
    = Done (match Texts with
            | [] => EmptyString
            | _ => (if First then EmptyString else " ")
                     +:+ String.concat " " Texts
            end, s).
Proof.
  intros Hmax.
  induction Rest as [|Element Rest IH]; intros Before Texts First HArray HTexts.
  - apply Forall2_nil_inv_l in HTexts as ->. done.
  - assert (Hhere : Array !! N.to_nat (N.of_nat (length Before))
                    = Some Element).
    { rewrite Nat2N.id, HArray. by apply list_lookup_middle. }
    assert (Hlen : N.of_nat (length Before) + 1 ≤ N.of_nat (length Array)).
    { rewrite HArray, length_app. cbn [length]. lia. }
    assert (Hnext : UINTN (N.of_nat (length Before) + 1)
                    = N.of_nat (length (Before ++ [Element]))).
    { rewrite UINTN_small by lia. rewrite length_app. cbn [length]. lia. }
    cbn [length ChalkPrintArguments]. rewrite Hhere, Hnext.
    rewrite filter_cons in HTexts.
    destruct (N.eqb_spec Element NULL) as [->|Helement].
    + destruct (decide (NULL ≠ NULL)) as [|_]; [done|].
      apply IH; [by rewrite <- app_assoc|done].
    + destruct (decide (Element ≠ NULL)) as [_|]; [|done].
      apply Forall2_cons_inv_l in HTexts as (Text & Texts' & HText & HTexts & ->).
      eapply bind_run; [exact HText|].
      eapply bind_run.
      { apply (IH (Before ++ [Element]) Texts' false);
          [by rewrite <- app_assoc|done]. }
      unfold mret, M_ret. do 2 f_equal.
      destruct Texts' as [|Text' Texts']; cbn [String.concat].
      * by rewrite string_app_nil_r.
      * by destruct First.
Qed.

(** X17: the print built-in, given a List, writes its elements that are
    not holes, each as [ChalkPrintObject] writes it at depth zero, with
    one space between two of them and nothing for a hole; it does not mark
    the list itself.  Given any other object it writes what
    [ChalkPrintObject] writes for it at depth zero.  It returns 0, and the
    state is as it was. *)
Theorem ChalkFunctionPrint_elements (FormatPointer : N → string)
    (fuel : nat) (s : State) (Object : N) (o : CHALK_OBJECT) :
  Object ≠ NULL →
  Heap s !! Object = Some (Obj o) →
  (∀ Array Texts,
     Payload o = CHALK_LIST Array (N.of_nat (length Array)) →
     N.of_nat (length Array) ≤ MAX_UINTN →
     Forall2 (λ Element Text,
                ChalkPrintObject FormatPointer fuel Element 0 s
                = Done (Text, s))
       (filter (λ Element, Element ≠ NULL) Array) Texts →
     ChalkFunctionPrint FormatPointer fuel Object s
     = Done ((0%Z, String.concat " " Texts), s)) ∧
  (HeaderType o ≠ ChalkObjectList →
   ∀ Text s',
     ChalkPrintObject FormatPointer fuel Object 0 s = Done (Text, s') →
     ChalkFunctionPrint FormatPointer fuel Object s = Done ((0%Z, Text), s)) ∧
  ∀ Status Text s',
    ChalkFunctionPrint FormatPointer fuel Object s
    = Done ((Status, Text), s') →
    Status = 0%Z ∧ s' = s.
Proof.
  intros Hnull Ho. split; [|split].
  - intros Array Texts Hpay Hmax HTexts. unfold ChalkFunctionPrint.
    rewrite NULL_eqb by done.
    eapply bind_run; [apply assert_true|].
    eapply bind_run; [by apply ReadObject_Done|]. rewrite Hpay.
    eapply bind_run.
    { rewrite Nat2N.id.
      apply (ChalkPrintArguments_texts _ s Array Hmax Array [] Texts true);
        done. }
    unfold mret, M_ret. do 3 f_equal. by destruct Texts.
  - intros Hkind Text s' Hprint.
    pose proof (ChalkPrintObject_restores _ _ _ _ _ _ _ Hprint) as ->.
    unfold ChalkFunctionPrint. rewrite NULL_eqb by done.
    eapply bind_run; [apply assert_true|].
    eapply bind_run; [by apply ReadObject_Done|].
    eapply bind_run with (a := Text) (s1 := s); [|done].
    unfold HeaderType in Hkind. by destruct (Payload o).
  - intros Status Text s' H. unfold ChalkFunctionPrint in H.
    bind_inv H as u s0 Hassert. apply assert_inv in Hassert as (-> & _).
    bind_inv H as o' s0 Hread. apply ReadObject_inv in Hread as (-> & _ & _).
    bind_inv H as t s1 Hbody. injection H as <- <- <-. split; [done|].
    assert (Hloop : ∀ Array Remaining Index First t s1,
              ChalkPrintArguments (ChalkPrintObject FormatPointer fuel)
                Array Remaining Index First s = Done (t, s1) → s1 = s).
    { clear. intros Array Remaining.
      induction Remaining as [|Remaining IH]; intros Index First t s1 H.
      - by injection H as _ <-.
      - cbn [ChalkPrintArguments] in H.
        destruct (Array !! N.to_nat Index) as [Element|]; [|done].
        destruct (Element =? NULL); [by eapply IH|].
        bind_inv H as t1 s2 Hprint.
        apply ChalkPrintObject_restores in Hprint as ->.
        bind_inv H as t2 s2 Hrest. apply IH in Hrest as ->.
        by injection H as _ <-. }
    destruct (Payload o'); try (by eapply ChalkPrintObject_restores).
    by eapply Hloop.
Qed.

Lemma ChalkFunctionPrint_elements_witness :
  ChalkFunctionPrint (λ _, EmptyString) 1
    4 (WithHeap EqualListsState
         (<[4 := Obj {| ReferenceCount := 1;
                        Payload := CHALK_LIST [2; NULL; 3] 3 |}]>
            (Heap EqualListsState)))
  = Done ((0%Z, "1 1"),
          WithHeap EqualListsState
            (<[4 := Obj {| ReferenceCount := 1;
                           Payload := CHALK_LIST [2; NULL; 3] 3 |}]>
               (Heap EqualListsState))).
Proof.
  destruct (ChalkFunctionPrint_elements (λ _, EmptyString) 1
              (WithHeap EqualListsState
                 (<[4 := Obj {| ReferenceCount := 1;
                                Payload := CHALK_LIST [2; NULL; 3] 3 |}]>
                    (Heap EqualListsState)))
              4 {| ReferenceCount := 1;
                   Payload := CHALK_LIST [2; NULL; 3] 3 |})
    as (Hlist & _); [done | reflexivity |].
  apply (Hlist [2; NULL; 3] ["1"; "1"]); [reflexivity | by vm_compute |].
  repeat constructor.
Defined.

(** ** Comparison is an order on values *)

Lemma CompareElementwise_zero (Left Right : list ChalkValue) :
  Forall (λ l, ∀ r, NaturalCompare l r = 0%Z → l = r) Left →
  length Left = length Right →
  CompareElementwise Left Right = 0%Z →
  Left = Right.
Proof.
  intros HLeft. revert Right.
  induction HLeft as [|l Left Hl _ IH]; intros [|r Right] Hlength Hzero;
    try done.
  cbn [CompareElementwise] in Hzero. cbn [length] in Hlength.
  destruct (Z.eqb_spec (NaturalCompare l r) 0) as [Heq|Hne]; [|done].
  f_equal; [by apply Hl|]. apply IH; [lia|done].
Qed.

Lemma NaturalCompare_zero (Left Right : ChalkValue) :
  NaturalCompare Left Right = 0%Z → Left = Right.
Proof.
  revert Right.
  induction Left as [|l|l|ls IH] using ChalkValue_induction;
    intros [|r|r|rs]; try (cbn; done).
  - cbn. destruct (Z.ltb_spec l r); [done|].
    destruct (Z.ltb_spec r l); [done|]. intros _. f_equal. lia.
  - cbn [NaturalCompare]. intros H.
    f_equal. by apply CompareBytes_lexicographic.
  - rewrite NaturalCompare_lists.
    destruct (Nat.ltb_spec (length ls) (length rs)); [done|].
    destruct (Nat.ltb_spec (length rs) (length ls)); [done|].
    intros H1. f_equal. apply CompareElementwise_zero; [done|lia|done].
Qed.

Lemma BytesLess_trans (a b c : list byte) :
  BytesLess a b → BytesLess b c → BytesLess a c.
Proof.
  intros Hab. revert c.
  induction Hab as [r Right|l r Left Right Hlt|x Left Right Hless IH];
    intros c Hbc; inversion Hbc; subst.
  - constructor.
  - constructor.
  - constructor. lia.
  - by constructor.
  - by constructor.
  - apply BytesLessTail. by apply IH.
Qed.

Lemma CompareElementwise_less (a b c : list ChalkValue) :
  Forall (λ x, ∀ y z, NaturalCompare x y = (-1)%Z →
                      NaturalCompare y z = (-1)%Z →
                      NaturalCompare x z = (-1)%Z) a →
  CompareElementwise a b = (-1)%Z →
  CompareElementwise b c = (-1)%Z →
  CompareElementwise a c = (-1)%Z.
Proof.
  intros Ha. revert b c.
  induction Ha as [|x a Hx _ IH]; intros [|y b] [|z c] Hab Hbc; try done.
  cbn [CompareElementwise] in *.
  destruct (Z.eqb_spec (NaturalCompare x y) 0) as [Hxy|Hxy].
  - apply NaturalCompare_zero in Hxy as <-.
    destruct (Z.eqb_spec (NaturalCompare x z) 0); [by eapply IH|done].
  - destruct (Z.eqb_spec (NaturalCompare y z) 0) as [Hyz|Hyz].
    + apply NaturalCompare_zero in Hyz as <-.
      destruct (Z.eqb_spec (NaturalCompare x y) 0); done.
    + pose proof (Hx y z Hab Hbc) as Hxz. rewrite Hxz. done.
Qed.

Lemma NaturalCompare_less_kinds (Left Right : ChalkValue) :
  NaturalCompare Left Right = (-1)%Z → KindOrder Left ≤ KindOrder Right.
Proof.
  intros H. destruct (decide (KindOrder Left = KindOrder Right)) as [->|Hne];
    [lia|].
  rewrite NaturalCompare_kinds in H by done.
  destruct (N.ltb_spec (KindOrder Left) (KindOrder Right)); [lia|done].
Qed.

Lemma NaturalCompare_less_trans (a : ChalkValue) :
  ∀ b c, NaturalCompare a b = (-1)%Z →
         NaturalCompare b c = (-1)%Z →
         NaturalCompare a c = (-1)%Z.
Proof.
  induction a as [|x|x|xs IH] using ChalkValue_induction; intros b c Hab Hbc;
    pose proof (NaturalCompare_less_kinds _ _ Hab) as Hkab;
    pose proof (NaturalCompare_less_kinds _ _ Hbc) as Hkbc.
  - destruct b, c; try done.
  - destruct b as [|y|y|ys], c as [|z|z|zs]; try done.
    cbn in *. destruct (Z.ltb_spec x y); [|by destruct (y <? x)%Z].
    destruct (Z.ltb_spec y z); [|by destruct (z <? y)%Z].
    destruct (Z.ltb_spec x z); [done|lia].
  - destruct b as [|y|y|ys], c as [|z|z|zs]; try done.
    cbn [NaturalCompare] in *.
    apply CompareBytes_lexicographic. apply CompareBytes_lexicographic in Hab, Hbc.
    by eapply BytesLess_trans.
  - destruct b as [|y|y|ys], c as [|z|z|zs]; try done.
    rewrite NaturalCompare_lists in *.
    destruct (Nat.ltb_spec (length xs) (length ys)) as [Hxy|Hxy].
    + destruct (Nat.ltb_spec (length ys) (length zs)) as [Hyz|Hyz].
      * destruct (Nat.ltb_spec (length xs) (length zs)); [done|lia].
      * destruct (Nat.ltb_spec (length zs) (length ys)); [done|].
        destruct (Nat.ltb_spec (length xs) (length zs)); [done|lia].
    + destruct (Nat.ltb_spec (length ys) (length xs)); [done|].
      destruct (Nat.ltb_spec (length ys) (length zs)) as [Hyz|Hyz].
      * destruct (Nat.ltb_spec (length xs) (length zs)); [done|lia].
      * destruct (Nat.ltb_spec (length zs) (length ys)); [done|].
        destruct (Nat.ltb_spec (length xs) (length zs)); [lia|].
        destruct (Nat.ltb_spec (length zs) (length xs)); [lia|].
        by eapply CompareElementwise_less.
Qed.

(** X18: on objects that stand for values (Null, Integers, Strings without
    embedded zero bytes, hole-free Lists of such values), the comparison is
    an order on the content: it returns 0 exactly when the two objects have
    the same content, objects that compare as 0 compare alike with every
    third object, and "less than" is transitive. *)
Theorem ChalkCompareObjects_order (h : gmap N Block) (A B C : N)
    (va vb vc : ChalkValue) (fuel : nat) :
  Represents h A va →
  Represents h B vb →
  Represents h C vc →
  (Depth va < fuel)%nat →
  (Depth vb < fuel)%nat →
  (ChalkCompareObjects fuel h A B = Done 0%Z ↔ va = vb) ∧
  (ChalkCompareObjects fuel h A B = Done 0%Z →
   ChalkCompareObjects fuel h A C = ChalkCompareObjects fuel h B C) ∧
  (ChalkCompareObjects fuel h A B = Done (-1)%Z →
   ChalkCompareObjects fuel h B C = Done (-1)%Z →
   ChalkCompareObjects fuel h A C = Done (-1)%Z).
Proof.
  intros HA HB HC Hfa Hfb.
  rewrite (ChalkCompareObjects_refines h va vb A B fuel HA HB Hfa).
  rewrite (ChalkCompareObjects_refines h va vc A C fuel HA HC Hfa).
  rewrite (ChalkCompareObjects_refines h vb vc B C fuel HB HC Hfb).
  split; [|split].
  - split.
    + intros [= H]. by apply NaturalCompare_zero.
    + intros ->. by rewrite NaturalCompare_refl.
  - intros [= H]. by apply NaturalCompare_zero in H as ->.
  - intros [= Hab] [= Hbc]. f_equal. by eapply NaturalCompare_less_trans.
Qed.

Lemma ChalkCompareObjects_order_witness :
  ChalkCompareObjects 1 (Heap EqualListsState) 2 4
  = ChalkCompareObjects 1 (Heap EqualListsState) 3 4.
Proof.
  assert (H2 : Represents (Heap EqualListsState) 2 (IntegerValue 1))
    by (by eapply RepresentsInteger).
  assert (H3 : Represents (Heap EqualListsState) 3 (IntegerValue 1))
    by (by eapply RepresentsInteger).
  assert (H4 : Represents (Heap EqualListsState) 4
                 (ListValue [IntegerValue 1])).
  { eapply (RepresentsList _ 4 _ [2] [IntegerValue 1]); try done.
    by repeat constructor. }
  destruct (ChalkCompareObjects_order (Heap EqualListsState) 2 3 4
              (IntegerValue 1) (IntegerValue 1) (ListValue [IntegerValue 1])
              1 H2 H3 H4)
    as (_ & Hsame & _); [cbn; lia | cbn; lia |].
  apply Hsame. reflexivity.
Defined.
(** ** Comparison by type and by identity *)

(** X19: two objects of different types compare by their type tags (Null
    below Integer below String below Dict below List below Function),
    whatever they hold.  Two Dicts, or two Functions, compare by their
    addresses: the result is 0 only for one and the same object, so two
    dictionaries with the same entries are not equal.  Two Null objects
    compare as 0. *)
Theorem ChalkCompareObjects_identity (fuel : nat) (h : gmap N Block)
    (Left Right : N) (l r : CHALK_OBJECT) :
  Left ≠ NULL →
  Right ≠ NULL →
  h !! Left = Some (Obj l) →
  h !! Right = Some (Obj r) →
  (HeaderType l ≠ HeaderType r →
   ChalkCompareObjects (S fuel) h Left Right
   = Done (if TypeValue (HeaderType l) <? TypeValue (HeaderType r)
           then (-1)%Z else 1%Z)) ∧
  (HeaderType l = HeaderType r →
   HeaderType l = ChalkObjectDict ∨ HeaderType l = ChalkObjectFunction →
   ChalkCompareObjects (S fuel) h Left Right
   = Done (if Left <? Right then (-1)%Z
           else if Right <? Left then 1%Z else 0%Z) ∧
   (ChalkCompareObjects (S fuel) h Left Right = Done 0%Z ↔ Left = Right)) ∧
  (HeaderType l = ChalkObjectNull → HeaderType r = ChalkObjectNull →
   ChalkCompareObjects (S fuel) h Left Right = Done 0%Z).
Proof.
  intros HL HR Hl Hr. cbn [ChalkCompareObjects].
  rewrite (LoadObject_Done h Left l), (LoadObject_Done h Right r) by done.
  cbn [mbind Result_bind]. split; [|split].
  - intros Hne.
    assert ((TypeValue (HeaderType l) =? TypeValue (HeaderType r)) = false)
      as ->.
    { apply N.eqb_neq. intros Heq. apply Hne.
      by destruct (HeaderType l), (HeaderType r). }
    cbn [negb].
    by destruct (TypeValue (HeaderType l) <? TypeValue (HeaderType r)).
  - intros Heq Hkind. rewrite Heq, N.eqb_refl. cbn [negb].
    assert (Hresult :
              match Payload l, Payload r with
              | CHALK_NULL, _ => Done 0%Z
              | CHALK_INT LeftValue, CHALK_INT RightValue =>
                  if (LeftValue <? RightValue)%Z then Done (-1)%Z
                  else if (LeftValue >? RightValue)%Z then Done 1%Z
                  else Done 0%Z
              | CHALK_STRING LeftString _, CHALK_STRING RightString _ =>
                  Result ← strcmp LeftString RightString;
                  if (Result <? 0)%Z then Done (-1)%Z
                  else if (Result >? 0)%Z then Done 1%Z
                  else Done Result
              | CHALK_LIST LeftArray LeftCount,
                CHALK_LIST RightArray RightCount =>
                  if LeftCount <? RightCount then Done (-1)%Z
                  else if RightCount <? LeftCount then Done 1%Z
                  else ChalkCompareElements (ChalkCompareObjects fuel h)
                         LeftArray RightArray (N.to_nat LeftCount) 0
              | _, _ => Done (Sign Left Right)
              end = Done (Sign Left Right)).
    { unfold HeaderType in Heq, Hkind.
      destruct (Payload l); destruct Hkind; try discriminate;
        destruct (Payload r); try discriminate; done. }
    rewrite Hresult. unfold Sign. split; [done|].
    destruct (N.ltb_spec Left Right); [split; [done|lia]|].
    destruct (N.ltb_spec Right Left); [split; [done|lia]|].
    split; [lia|done].
  - intros Hnull Hnull'. rewrite Hnull, Hnull', N.eqb_refl. cbn [negb].
    unfold HeaderType in Hnull. by destruct (Payload l).
Qed.

Lemma ChalkCompareObjects_identity_witness :
  ChalkCompareObjects 1 (Heap SampleState) 2 3 = Done (-1)%Z.
Proof.
  destruct (ChalkCompareObjects_identity 0 (Heap SampleState) 2 3
              {| ReferenceCount := 1; Payload := CHALK_DICT [] 0 0 |}
              {| ReferenceCount := 1; Payload := CHALK_LIST [] 0 |})
    as (Htypes & _); [done | done | reflexivity | reflexivity |].
  by apply Htypes.
Defined.

(** ** The length of containers *)

Lemma ChalkCreateInteger_failure (s : State) (Rest : list bool) (Value : Z) :
  NextAllocation (Allocations s) = (false, Rest) →
  ChalkCreateInteger Value s
  = Done (NULL, {| Heap := Heap s; Allocations := Rest;
                   Stderr := Stderr s |}).
Proof.
  intros H. unfold ChalkCreateInteger.
  by rewrite (bind_Done _ _ _ _ _ (ChalkAllocate_failure s Rest H)).
Qed.

(** X21: on an object that is not a String, the length built-in makes one
    allocation.  With memory it returns 0 and a new Integer with one
    reference, holding the stored count of a List (holes included) or of
    a Dict, and 0 for a Null, an Integer or a Function; without memory it
    returns ENOMEM and NULL and the heap is as before.  The object
    measured is untouched and nothing is written to the error stream. *)
Theorem ChalkFunctionLength_count (s : State) (Object : N)
    (o : CHALK_OBJECT) (Length : N) :
  Object ≠ NULL →
  Heap s !! Object = Some (Obj o) →
  HeaderType o ≠ ChalkObjectString →
  Length = match Payload o with
           | CHALK_LIST _ Count => Count
           | CHALK_DICT _ Count _ => Count
           | _ => 0
           end →
  Length ≤ MAX_UINTN →
  ∃ Status ReturnValue s',
    ChalkFunctionLength Object s = Done ((Status, ReturnValue), s') ∧
    Stderr s' = Stderr s ∧
    Allocations s' = (NextAllocation (Allocations s)).2 ∧
    Heap s' !! Object = Some (Obj o) ∧
    if (NextAllocation (Allocations s)).1
    then Status = 0%Z ∧ ReturnValue = FreshAddress (Heap s) ∧
         Heap s' = <[ReturnValue :=
                       Obj {| ReferenceCount := 1;
                              Payload := CHALK_INT (Z.of_N Length) |}]>
                     (Heap s)
    else Status = ENOMEM ∧ ReturnValue = NULL ∧ Heap s' = Heap s.
Proof.
  intros Hnull Hobj Hkind HLength Hmax.
  destruct (FreshAddress_spec (Heap s)) as (Hfresh & Hfnull & _).
  assert (Hsmall : UINTN Length = Length).
  { unfold UINTN. apply N.mod_small. unfold MAX_UINTN in *. lia. }
  assert (Hmeasure :
            (match Payload o with
             | CHALK_STRING Text _ => read (λ _, strlen Text)
             | CHALK_LIST _ Count => mret Count
             | CHALK_DICT _ Count _ => mret Count
             | _ => mret 0
             end : M N) s = Done (Length, s)).
  { subst Length. unfold HeaderType in Hkind.
    by destruct (Payload o). }
  assert (Hstep : ∀ r,
            (ReturnValue ← ChalkCreateInteger (Z.of_N Length);
             if ReturnValue =? NULL then mret (ENOMEM, ReturnValue)
             else mret (0%Z, ReturnValue)) s = r →
            ChalkFunctionLength Object s = r).
  { intros r Hr. unfold ChalkFunctionLength.
    rewrite (NULL_eqb Object) by done. simpl assert.
    eapply bind_run; [done|].
    eapply bind_run; [by apply ReadObject_Done|].
    eapply bind_run; [exact Hmeasure|].
    by rewrite Hsmall. }
  destruct (NextAllocation (Allocations s)) as [[|] Rest] eqn:Halloc.
  - eexists _, _, _. split.
    { apply Hstep.
      eapply bind_run; [by apply ChalkCreateInteger_success|].
      by rewrite NULL_eqb. }
    cbn [fst snd Heap Stderr Allocations].
    split; [done|]. split; [done|]. split; [|done].
    rewrite lookup_insert_ne; [done|]. congruence.
  - eexists _, _, _. split.
    { apply Hstep.
      eapply bind_run; [by apply ChalkCreateInteger_failure|].
      by rewrite N.eqb_refl. }
    cbn [fst snd Heap Stderr Allocations]. done.
Qed.

Lemma ChalkFunctionLength_count_witness :
  ∃ s', ChalkFunctionLength 2 ThreeHolesState
        = Done ((0%Z, FreshAddress (Heap ThreeHolesState)), s').
Proof.
  destruct (ChalkFunctionLength_count ThreeHolesState 2
              {| ReferenceCount := 1;
                 Payload := CHALK_LIST [NULL; NULL; NULL] 3 |} 3)
    as (Status & ReturnValue & s' & Hrun & _ & _ & _ & -> & -> & _);
    [done | reflexivity | done | reflexivity | vm_compute; discriminate |].
  by exists s'.
Defined.
(** ** The get built-in on a key that is present *)

(** X22: on a Dict in which the lookup of the key finds an entry, the get
    built-in returns 0 and the value of that entry, to which it has added
    one reference; it allocates nothing, writes nothing and changes
    nothing else, and releasing the reference returned restores the
    state. *)
Theorem ChalkFunctionGet_present (fuel : nat) (s : State)
    (Object KeyObject Entry : N) (o v : CHALK_OBJECT)
    (e : CHALK_DICT_ENTRY) :
  Object ≠ NULL →
  KeyObject ≠ NULL →
  Heap s !! Object = Some (Obj o) →
  HeaderType o = ChalkObjectDict →
  ChalkDictLookup fuel (Heap s) Object KeyObject = Done Entry →
  Entry ≠ NULL →
  Heap s !! Entry = Some (DictEntry e) →
  Value e ≠ NULL →
  Heap s !! Value e = Some (Obj v) →
  HeaderType v ≠ ChalkObjectInvalid →
  0 < ReferenceCount v ∧ ReferenceCount v + 1 < 0x10000000 →
  ∃ s',
    ChalkFunctionGet fuel Object KeyObject s = Done ((0%Z, Value e), s') ∧
    s' = WithHeap s
           (<[Value e := Obj (SetReferenceCount v (ReferenceCount v + 1))]>
              (Heap s)) ∧
    Heap s' !! Entry = Some (DictEntry e) ∧
    ChalkObjectReleaseReference (S fuel) (Value e) s' = Done (tt, s).
Proof.
  intros Hobject Hkey Hobj Hdict Hlookup Hentry He Hvalue Hv Hvalid
    [Hpos Hmax].
  eexists. split; [|split; [reflexivity|]].
  - unfold ChalkFunctionGet.
    rewrite (NULL_eqb Object), (NULL_eqb KeyObject) by done. simpl assert.
    eapply bind_run; [done|].
    eapply bind_run; [by apply ReadObject_Done|].
    assert (IsType o ChalkObjectDict = true) as -> by by apply IsType_true.
    cbn [negb andb].
    eapply bind_run.
    { eapply bind_run; [unfold read; by rewrite Hlookup|].
      rewrite (NULL_eqb Entry) by done. cbn [negb].
      eapply bind_run; [by apply ReadEntry_Done|].
      eapply bind_run;
        [apply (ChalkObjectAddReference_Done s (Value e) v); try done; lia|].
      reflexivity. }
    by rewrite (NULL_eqb (Value e)).
  - cbn [Heap WithHeap]. split.
    { rewrite lookup_insert_ne; [done|]. intros Heq.
      rewrite Heq in Hv. congruence. }
    set (v' := SetReferenceCount v (ReferenceCount v + 1)).
    rewrite (ChalkObjectReleaseReference_shared fuel _ (Value e) v');
      [|done|cbn [Heap WithHeap]; apply lookup_insert_eq|done
       |cbn [ReferenceCount v' SetReferenceCount]; lia].
    unfold WithHeap. cbn [Heap Allocations Stderr].
    rewrite insert_insert_eq.
    assert (SetReferenceCount v' (ReferenceCount v' - 1) = v) as ->.
    { destruct v. unfold v', SetReferenceCount. cbn. f_equal. lia. }
    rewrite insert_id by done. by destruct s.
Qed.

Lemma ChalkFunctionGet_present_witness :
  ChalkFunctionGet 1 2 3 IteratingState
  = Done ((0%Z, 4),
          WithHeap IteratingState
            (<[4 := Obj {| ReferenceCount := 2; Payload := CHALK_INT 1 |}]>
               (Heap IteratingState))).
Proof.
  destruct (ChalkFunctionGet_present 1 IteratingState 2 3 5
              {| ReferenceCount := 1; Payload := CHALK_DICT [5] 1 1 |}
              {| ReferenceCount := 1; Payload := CHALK_INT 1 |}
              {| Key := 3; Value := 4 |})
    as (s' & Hrun & -> & _);
    [done | done | reflexivity | reflexivity | reflexivity | done
    | reflexivity | done | reflexivity | done | cbn; lia |].
  exact Hrun.
Defined.
(** ** Copies of scalars *)

Lemma ChalkCreateString_run (InitialValue : option (list byte)) (Size : N)
    (s : State) :
  Size ≤ N.of_nat (length (default [] InitialValue)) →
  Size < MAX_ULONG →
  ChalkCreateString InitialValue Size s
  = let First := NextAllocation (Allocations s) in
    let Second := NextAllocation First.2 in
    if First.1
    then if Second.1
         then Done (FreshAddress (Heap s),
                    {| Heap :=
                         <[FreshAddress (Heap s) :=
                             Obj {| ReferenceCount := 1;
                                    Payload :=
                                      CHALK_STRING
                                        (take (N.to_nat Size)
                                           (default [] InitialValue)
                                         ++ [x00]) Size |}]> (Heap s);
                       Allocations := Second.2; Stderr := Stderr s |})
         else Done (NULL, {| Heap := Heap s; Allocations := Second.2;
                             Stderr := Stderr s |})
    else Done (NULL, {| Heap := Heap s; Allocations := First.2;
                        Stderr := Stderr s |}).
Proof.
  intros Hsource Hsize.
  destruct (FreshAddress_spec (Heap s)) as (Hfresh & Hnull & _).
  unfold ChalkCreateString. cbv zeta.
  destruct (NextAllocation (Allocations s)) as [[|] Rest] eqn:Halloc;
    cbn [fst snd].
  - eapply bind_run; [by apply ChalkAllocate_success|].
    rewrite NULL_eqb by done.
    destruct (NextAllocation Rest) as [[|] Rest'] eqn:Hbuffer; cbn [fst snd].
    + eapply bind_run.
      { unfold ChalkAllocateBuffer. cbn [Allocations].
        rewrite Hbuffer. reflexivity. }
      cbn [negb].
      assert (ULONG (Size + 1) = Size + 1) as ->
        by (unfold ULONG, MAX_ULONG in *; apply N.mod_small; lia).
      assert ((Size + 1 <? Size + 1) = false) as ->
        by (apply N.ltb_ge; lia).
      assert ((N.of_nat (length (default [] InitialValue)) <? Size) = false)
        as -> by (apply N.ltb_ge; lia).
      cbn [orb]. unfold mbind, M_bind, Store, WithHeap.
      cbn [Heap Allocations Stderr]. by rewrite insert_insert_eq.
    + eapply bind_run.
      { unfold ChalkAllocateBuffer. cbn [Allocations].
        rewrite Hbuffer. reflexivity. }
      cbn [negb]. unfold mbind, M_bind, ChalkFree, WithHeap.
      cbn [Heap Allocations Stderr]. by rewrite FreshAddress_delete.
  - eapply bind_run; [by apply ChalkAllocate_failure|]. done.
Qed.

(** X23: a copy of an Integer, or of a String whose buffer holds its
    [Size] bytes and a terminator, is either NULL, when the allocator has
    no memory (for the object or, for a String, for its buffer), the heap
    being as before; or an address that was not allocated, holding an
    object with one reference and the content of the source, embedded
    zero bytes included.  The source is untouched and compares as 0 with
    its copy.  A copy of the null object is the null object itself, with
    one more reference. *)
Theorem ChalkObjectCopy_scalar (fuel : nat) (s : State) (Source : N)
    (o : CHALK_OBJECT) :
  Source ≠ NULL →
  Heap s !! Source = Some (Obj o) →
  0 < ReferenceCount o ∧ ReferenceCount o + 1 < 0x10000000 →
  match Payload o with
  | CHALK_NULL => Source = ChalkNull
  | CHALK_INT _ => True
  | CHALK_STRING Text Size =>
      Size < MAX_ULONG ∧
      ∃ Bytes, Text = Bytes ++ [x00] ∧ N.of_nat (length Bytes) = Size
  | _ => False
  end →
  ∃ Copy s',
    ChalkObjectCopy fuel Source s = Done (Copy, s') ∧
    Stderr s' = Stderr s ∧
    match Payload o with
    | CHALK_NULL =>
        Copy = Source ∧
        Heap s' = <[Source := Obj (SetReferenceCount o (ReferenceCount o + 1))]>
                    (Heap s)
    | _ =>
        let First := NextAllocation (Allocations s) in
        if First.1
           && match Payload o with
              | CHALK_STRING _ _ => (NextAllocation First.2).1
              | _ => true
              end
        then Copy = FreshAddress (Heap s) ∧ Copy ≠ Source ∧
             Heap s' = <[Copy := Obj {| ReferenceCount := 1;
                                        Payload := Payload o |}]> (Heap s) ∧
             ChalkCompareObjects (S fuel) (Heap s') Source Copy = Done 0%Z
        else Copy = NULL ∧ Heap s' = Heap s
    end.
Proof.
  intros Hnull Ho [Hpos Hmax] Hscalar.
  destruct (FreshAddress_spec (Heap s)) as (Hfresh & Hfnull & _).
  set (F := FreshAddress (Heap s)) in *.
  assert (HF : F ≠ Source) by congruence.
  assert (Hequal : ∀ h,
            h = <[F := Obj {| ReferenceCount := 1; Payload := Payload o |}]>
                  (Heap s) →
            match Payload o with
            | CHALK_INT _ => True
            | CHALK_STRING Text _ => x00 ∈ Text
            | _ => False
            end →
            ChalkCompareObjects (S fuel) h Source F = Done 0%Z).
  { intros h -> Hkind. cbn [ChalkCompareObjects].
    rewrite (LoadObject_Done _ Source o)
      by (try done; by rewrite lookup_insert_ne).
    rewrite (LoadObject_Done _ F
               {| ReferenceCount := 1; Payload := Payload o |})
      by (try done; apply lookup_insert_eq).
    cbn [mbind Result_bind]. unfold HeaderType. cbn [Payload].
    rewrite N.eqb_refl. cbn [negb].
    destruct (Payload o) as [| |v|Text Size| | |]; try done.
    - by rewrite Z.ltb_irrefl, Z.gtb_ltb, Z.ltb_irrefl.
    - by rewrite strcmp_refl. }
  unfold ChalkObjectCopy.
  destruct (Payload o) as [| |v|Text Size| | |] eqn:Hpay; try done.
  - subst Source. eexists _, _. split.
    { eapply bind_run; [by apply ReadObject_Done|]. rewrite Hpay.
      unfold ChalkCreateNull.
      eapply bind_run;
        [apply (ChalkObjectAddReference_Done s ChalkNull o); try done;
         [unfold HeaderType; by rewrite Hpay | lia]|].
      reflexivity. }
    done.
  - destruct (NextAllocation (Allocations s)) as [[|] Rest] eqn:Halloc.
    + eexists _, _. split.
      { eapply bind_run; [by apply ReadObject_Done|]. rewrite Hpay.
        by apply ChalkCreateInteger_success. }
      cbn [fst snd andb Heap Stderr]. fold F.
      split; [done|]. split; [done|]. split; [done|]. split; [done|].
      by apply Hequal.
    + eexists _, _. split.
      { eapply bind_run; [by apply ReadObject_Done|]. rewrite Hpay.
        by apply ChalkCreateInteger_failure. }
      done.
  - destruct Hscalar as (Hsize & Bytes & -> & Hlength).
    assert (Htake : take (N.to_nat Size) (Bytes ++ [x00]) ++ [x00]
                    = Bytes ++ [x00]).
    { replace (N.to_nat Size) with (length Bytes) by lia.
      by rewrite take_app_length. }
    assert (Hsource :
              Size ≤ N.of_nat (length (default [] (Some (Bytes ++ [x00]))))).
    { simpl. rewrite length_app. cbn [length]. lia. }
    pose proof (ChalkCreateString_run (Some (Bytes ++ [x00])) Size s
                  Hsource Hsize) as Hrun.
    simpl default in Hrun. cbv zeta in Hrun.
    rewrite Htake in Hrun. fold F in Hrun.
    destruct (NextAllocation (Allocations s)) as [[|] Rest] eqn:Halloc;
      cbn [fst snd andb] in *.
    + destruct (NextAllocation Rest) as [[|] Rest'] eqn:Hbuffer;
        cbn [fst snd] in *.
      * eexists _, _. split.
        { eapply bind_run; [by apply ReadObject_Done|]. rewrite Hpay.
          exact Hrun. }
        cbn [Heap Stderr].
        split; [done|]. split; [done|]. split; [done|]. split; [done|].
        apply Hequal; [done|]. apply elem_of_app. right. by left.
      * eexists _, _. split.
        { eapply bind_run; [by apply ReadObject_Done|]. rewrite Hpay.
          exact Hrun. }
        done.
    + eexists _, _. split.
      { eapply bind_run; [by apply ReadObject_Done|]. rewrite Hpay.
        exact Hrun. }
      done.
Qed.

Lemma ChalkObjectCopy_scalar_witness :
  ∃ s', ChalkObjectCopy 0 2 EmbeddedZeroState
        = Done (FreshAddress (Heap EmbeddedZeroState), s') ∧
        Heap s' !! FreshAddress (Heap EmbeddedZeroState)
        = Some (Obj {| ReferenceCount := 1;
                       Payload := CHALK_STRING [x61; x00; x62; x00] 3 |}).
Proof.
  destruct (ChalkObjectCopy_scalar 0 EmbeddedZeroState 2
              {| ReferenceCount := 1;
                 Payload := CHALK_STRING [x61; x00; x62; x00] 3 |})
    as (Copy & s' & Hrun & _ & Hresult);
    [done | reflexivity | cbn; lia
    | split; [reflexivity | by exists [x61; x00; x62]] |].
  cbn [Payload EmbeddedZeroState Allocations NextAllocation fst snd andb]
    in Hresult.
  destruct Hresult as (-> & _ & Hheap & _).
  exists s'. split; [done|]. rewrite Hheap. apply lookup_insert_eq.
Defined.
(** ** Releasing a dictionary *)

Lemma SharedElements_release (h : gmap N Block) (Element : N)
    (Rest : list N) :
  SharedElements h (Element :: Rest) →
  SharedElements (HeapReleaseReference Element h) Rest.
Proof.
  intros Hshared e He Hnull.
  destruct (Hshared e) as (v & Hv & Hvalid & Hrange);
    [by apply elem_of_cons; right | done |].
  destruct (HeapReleaseReference_lookup Element e h v Hv)
    as (v' & Hv' & Hpay & Hcount).
  exists v'. split; [done|]. split.
  { unfold HeaderType in *. by rewrite Hpay. }
  rewrite References_cons, References_singleton in Hrange.
  rewrite Hcount. repeat case_decide; try lia; tauto.
Qed.

Lemma SharedElements_head (h : gmap N Block) (Element : N) (Rest : list N) :
  SharedElements h (Element :: Rest) →
  Element ≠ NULL →
  ∃ v, h !! Element = Some (Obj v) ∧
       HeaderType v ≠ ChalkObjectInvalid ∧
       1 < ReferenceCount v < 0x10000000.
Proof.
  intros Hshared Hnull.
  destruct (Hshared Element) as (v & Hv & Hvalid & Hrange);
    [by apply elem_of_cons; left | done |].
  exists v. rewrite References_cons_eq in Hrange by done.
  split; [done|]. split; [done|]. lia.
Qed.

Lemma RemoveFromReferenceCount_add (a b : N) (blk : Block) :
  RemoveFromReferenceCount b (RemoveFromReferenceCount a blk)
  = RemoveFromReferenceCount (a + b) blk.
Proof.
  destruct blk as [|o| |]; try done.
  unfold RemoveFromReferenceCount, SetReferenceCount.
  cbn [ReferenceCount Payload]. do 2 f_equal. lia.
Qed.

Lemma EntryNodes_frame (h h' : gmap N Block) (EntryList : list N)
    (Entries : list CHALK_DICT_ENTRY) :
  (∀ Entry, Entry ∈ EntryList → h' !! Entry = h !! Entry) →
  EntryNodes h EntryList Entries → EntryNodes h' EntryList Entries.
Proof.
  intros Hsame Hnodes. unfold EntryNodes in *.
  induction Hnodes as [|Entry e EntryList Entries [Hnull He] _ IH];
    constructor.
  - split; [done|]. rewrite Hsame; [done|]. by left.
  - apply IH. intros p Hp. apply Hsame. by right.
Qed.

(** The loop of [ChalkDestroyDict] over entries whose keys and values stay
    alive frees every entry node and takes one reference per entry from
    each key and each value. *)

Lemma ChalkDestroyDict_shared (fuel : nat) (Dict : N) (Generation : N) :
  ∀ (Entries : list CHALK_DICT_ENTRY) (EntryList : list N) (s : State)
    (d : CHALK_OBJECT) (Rounds : nat),
    Dict ≠ NULL →
    Heap s !! Dict = Some (Obj d) →
    Payload d
    = CHALK_DICT EntryList (N.of_nat (length EntryList)) Generation →
    N.of_nat (length EntryList) ≤ MAX_ULONG →
    EntryNodes (Heap s) EntryList Entries →
    Forall (λ e, Key e ≠ NULL) Entries →
    NoDup EntryList →
    Dict ∉ HeldObjects Entries →
    SharedElements (Heap s) (HeldObjects Entries) →
    (length EntryList ≤ Rounds)%nat →
    ∃ h',
      ChalkDestroyDict (ChalkObjectReleaseReference (S fuel)) Rounds Dict s
      = Done (tt, WithHeap s h') ∧
      h' !! Dict = Some (Obj (SetPayload d (CHALK_DICT [] 0 Generation))) ∧
      (∀ p, p ∈ EntryList → h' !! p = None) ∧
      ∀ p, p ≠ Dict → p ∉ EntryList →
           h' !! p
           = RemoveFromReferenceCount (References p (HeldObjects Entries))
               <$> Heap s !! p.
Proof.
  induction Entries as [|e Entries IH];
    intros EntryList s d Rounds Hnull Hd Hpay Hmax Hnodes Hkeys Hdup Hnotheld
      Hshared Hrounds.
  - apply Forall2_nil_inv_r in Hnodes as ->. cbn [length] in *.
    exists (Heap s). split; [|split; [|split]].
    + destruct Rounds; cbn [ChalkDestroyDict];
        (eapply bind_run; [by apply ReadObject_Done|]); rewrite Hpay;
        cbn; by rewrite WithHeap_id.
    + rewrite Hd. do 2 f_equal. destruct d as [c p]. cbn in Hpay.
      by rewrite Hpay.
    + intros p Hp. by apply elem_of_nil in Hp.
    + intros p _ _. cbn [HeldObjects flat_map]. rewrite References_nil.
      destruct (Heap s !! p) as [b|]; [|done]. cbn.
      by rewrite RemoveFromReferenceCount_0.
  - apply Forall2_cons_inv_r in Hnodes
      as (Entry & Rest & [Hentry He] & Hnodes & ->).
    apply Forall_cons in Hkeys as [Hkey Hkeys].
    apply NoDup_cons in Hdup as [Hfirst Hdup].
    cbn [length] in *.
    destruct Rounds as [|Rounds]; [lia|].
    change (HeldObjects (e :: Entries))
      with (Key e :: Value e :: HeldObjects Entries) in *.
    apply not_elem_of_cons in Hnotheld as [HDK Hnotheld].
    apply not_elem_of_cons in Hnotheld as [HDV Hnotheld].
    assert (HDE : Dict ≠ Entry) by (intros ->; congruence).
    set (Count := N.of_nat (S (length Rest))) in *.
    set (d1 := SetPayload d (CHALK_DICT Rest Count Generation)).
    set (h1 := <[Dict := Obj d1]> (Heap s)).
    set (h2 := HeapReleaseReference (Key e) h1).
    set (h3 := HeapReleaseReference (Value e) h2).
    set (d2 := SetPayload d1
                 (CHALK_DICT Rest (N.of_nat (length Rest)) Generation)).
    set (h5 := <[Dict := Obj d2]> (delete Entry h3)).
    assert (Hshared1 : SharedElements h1
                         (Key e :: Value e :: HeldObjects Entries)).
    { eapply SharedElements_frame; [|exact Hshared].
      intros el Hel. unfold h1. rewrite lookup_insert_ne; [done|].
      intros <-. apply elem_of_cons in Hel as [|Hel]; [done|].
      apply elem_of_cons in Hel as [|Hel]; done. }
    assert (Hshared2 : SharedElements h2 (Value e :: HeldObjects Entries))
      by by apply SharedElements_release.
    assert (Hshared3 : SharedElements h3 (HeldObjects Entries))
      by by apply SharedElements_release.
    assert (H3 : ∀ p, h3 !! p
                      = RemoveFromReferenceCount
                          (References p [Key e; Value e]) <$> h1 !! p).
    { intros p. unfold h3, h2.
      rewrite !HeapReleaseReference_lookup_all.
      rewrite (References_cons p (Key e) [Value e]).
      destruct (h1 !! p) as [b|]; [|done]. cbn.
      by rewrite RemoveFromReferenceCount_add. }
    assert (H3D : h3 !! Dict = Some (Obj d1)).
    { rewrite H3. unfold h1. rewrite lookup_insert_eq.
      cbn [fmap option_fmap option_map].
      rewrite References_absent; [by rewrite RemoveFromReferenceCount_0|].
      intros Hin. apply elem_of_cons in Hin as [|Hin]; [done|].
      apply elem_of_cons in Hin as [|Hin]; [done|].
      by apply elem_of_nil in Hin. }
    assert (H3E : ∀ p b, (∀ o, b ≠ Obj o) → p ≠ Dict →
                   Heap s !! p = Some b → h3 !! p = Some b).
    { intros p b Hb Hp Hs. rewrite H3. unfold h1.
      rewrite lookup_insert_ne by done. rewrite Hs.
      cbn [fmap option_fmap option_map].
      destruct b as [|o| |]; try done. by destruct (Hb o). }
    destruct (IH Rest (WithHeap s h5) d2 Rounds) as (h' & Hrun & HD & HE & HO);
      try done.
    { cbn [Heap WithHeap]. apply lookup_insert_eq. }
    { lia. }
    { cbn [Heap WithHeap]. eapply EntryNodes_frame; [|exact Hnodes].
      intros p Hp. unfold h5.
      assert (Hnode : p ≠ NULL ∧ ∃ e', Heap s !! p = Some (DictEntry e')).
      { unfold EntryNodes in Hnodes.
        apply list_elem_of_lookup in Hp as (i & Hi).
        destruct (Forall2_lookup_l _ _ _ _ _ Hnodes Hi)
          as (e' & _ & Hp' & He'). eauto. }
      destruct Hnode as (Hp' & e' & He').
      assert (p ≠ Dict) by (intros ->; congruence).
      rewrite lookup_insert_ne by done.
      rewrite lookup_delete_ne by (intros <-; done).
      rewrite He'. by apply H3E. }
    { intros el Hel Hne. cbn [Heap WithHeap].
      destruct (Hshared3 el Hel Hne) as (v & Hv & Hvalid & Hrange).
      exists v. split; [|done]. unfold h5.
      rewrite lookup_insert_ne by (intros <-; done).
      rewrite lookup_delete_ne; [done|]. intros <-.
      rewrite (H3E Entry (DictEntry e)) in Hv; done. }
    { lia. }
    exists h'. split; [|split; [|split]].
    + cbn [ChalkDestroyDict].
      eapply bind_run; [by apply ReadObject_Done|]. rewrite Hpay.
      eapply (bind_run _ _ _ tt (WithHeap s (delete Entry h3))).
      { unfold ChalkDestroyDictEntry.
        eapply bind_run; [by apply ReadEntry_Done|].
        eapply bind_run; [by apply ReadObject_Done|]. rewrite Hpay.
        cbn [LIST_REMOVE]. rewrite N.eqb_refl.
        eapply bind_run; [reflexivity|]. fold d1 h1.
        eapply bind_run.
        { apply (ChalkObjectReleaseReference_heap fuel (Key e)); [done|].
          by apply (SharedElements_head _ _ _ Hshared1). }
        cbn [Heap WithHeap]. fold h2.
        eapply bind_run.
        { apply (HeapReleaseReference_run fuel (Value e)).
          by apply (SharedElements_head _ _ _ Hshared2). }
        cbn [Heap WithHeap]. fold h3. reflexivity. }
      eapply bind_run.
      { apply (ReadObject_Done _ Dict d1); [done|]. cbn [Heap WithHeap].
        by rewrite lookup_delete_ne. }
      cbn [d1 SetPayload Payload].
      rewrite ULONG_pred by (unfold Count; lia).
      replace (Count - 1) with (N.of_nat (length Rest)) by (unfold Count; lia).
      eapply bind_run; [reflexivity|]. exact Hrun.
    + rewrite HD. by destruct d.
    + intros p Hp. apply elem_of_cons in Hp as [->|Hp]; [|by apply HE].
      rewrite HO by done. cbn [Heap WithHeap]. unfold h5.
      by rewrite lookup_insert_ne, lookup_delete_eq by done.
    + intros p HpD Hp. apply not_elem_of_cons in Hp as [HpE Hp].
      rewrite HO by done. cbn [Heap WithHeap]. unfold h5.
      rewrite lookup_insert_ne, lookup_delete_ne, H3 by done.
      unfold h1. rewrite lookup_insert_ne by done.
      destruct (Heap s !! p) as [b|]; [|done].
      cbn [fmap option_fmap option_map].
      rewrite RemoveFromReferenceCount_add. do 2 f_equal.
      rewrite (References_cons p (Key e) (Value e :: HeldObjects Entries)).
      rewrite (References_cons p (Value e) (HeldObjects Entries)).
      rewrite (References_cons p (Key e) [Value e]). lia.
Qed.

(** X24: releasing the last reference of a Dict whose stored count is the
    number of its entries, and whose keys and values all stay alive (each
    has more references than the entries hold), frees the dictionary and
    every entry node, and takes from each key and each value one
    reference per entry holding it; an entry without a value releases
    only its key.  Nothing else changes. *)
Theorem ChalkObjectReleaseReference_dict (fuel : nat) (s : State)
    (Dict : N) (d : CHALK_OBJECT) (EntryList : list N)
    (Entries : list CHALK_DICT_ENTRY) (Generation : N) :
  Dict ≠ NULL →
  Heap s !! Dict = Some (Obj d) →
  ReferenceCount d = 1 →
  Payload d = CHALK_DICT EntryList (N.of_nat (length EntryList)) Generation →
  N.of_nat (length EntryList) ≤ MAX_ULONG →
  EntryNodes (Heap s) EntryList Entries →
  Forall (λ e, Key e ≠ NULL) Entries →
  NoDup EntryList →
  Dict ∉ HeldObjects Entries →
  SharedElements (Heap s) (HeldObjects Entries) →
  (length EntryList ≤ S fuel)%nat →
  ∃ s',
    ChalkObjectReleaseReference (S (S fuel)) Dict s = Done (tt, s') ∧
    Allocations s' = Allocations s ∧ Stderr s' = Stderr s ∧
    Heap s' !! Dict = None ∧
    (∀ Entry, Entry ∈ EntryList → Heap s' !! Entry = None) ∧
    ∀ p, p ≠ Dict → p ∉ EntryList →
         Heap s' !! p
         = RemoveFromReferenceCount (References p (HeldObjects Entries))
             <$> Heap s !! p.
Proof.
  intros Hnull Hd Hcount Hpay Hmax Hnodes Hkeys Hdup Hnotheld Hshared Hrounds.
  set (d0 := SetReferenceCount d 0).
  set (s1 := WithHeap s (<[Dict := Obj d0]> (Heap s))).
  assert (Hd0 : Heap s1 !! Dict = Some (Obj d0))
    by (cbn [s1 Heap WithHeap]; apply lookup_insert_eq).
  assert (Hnotentry : Dict ∉ EntryList).
  { intros Hin. unfold EntryNodes in Hnodes.
    apply list_elem_of_lookup in Hin as (i & Hi).
    destruct (Forall2_lookup_l _ _ _ _ _ Hnodes Hi) as (e' & _ & _ & He').
    congruence. }
  destruct (ChalkDestroyDict_shared fuel Dict Generation Entries EntryList s1
              d0 (S fuel))
    as (h' & Hloop & HD & HE & HO); try done.
  { eapply EntryNodes_frame; [|exact Hnodes].
    intros p Hp. cbn [s1 Heap WithHeap]. rewrite lookup_insert_ne; [done|].
    intros <-. done. }
  { eapply SharedElements_frame; [|exact Hshared].
    intros p Hp. cbn [s1 Heap WithHeap]. rewrite lookup_insert_ne; [done|].
    intros <-. done. }
  eexists. split.
  { cbn [ChalkObjectReleaseReference].
    eapply bind_run; [by apply ReadObject_Done|].
    assert (IsType d ChalkObjectInvalid = false) as ->
      by (apply IsType_false; unfold HeaderType; by rewrite Hpay).
    eapply bind_run; [apply assert_true|].
    rewrite Hcount.
    eapply bind_run; [apply assert_true|].
    eapply bind_run; [reflexivity|].
    change (ULONG (1 + MAX_ULONG)) with 0. cbn match. fold d0 s1.
    eapply bind_run.
    { unfold ChalkGutObject.
      eapply bind_run; [by apply ReadObject_Done|].
      cbn [d0 SetReferenceCount Payload]. rewrite Hpay.
      eapply bind_run; [exact Hloop|].
      eapply bind_run; [by apply ReadObject_Done|]. reflexivity. }
    reflexivity. }
  cbn [Heap Allocations Stderr WithHeap s1].
  split; [done|]. split; [done|]. split; [apply lookup_delete_eq|]. split.
  - intros p Hp.
    rewrite lookup_delete_ne, lookup_insert_ne by (intros <-; done).
    by apply HE.
  - intros p HpD Hp. rewrite lookup_delete_ne, lookup_insert_ne by done.
    rewrite HO by done. cbn [s1 Heap WithHeap].
    by rewrite lookup_insert_ne.
Qed.

Lemma ChalkObjectReleaseReference_dict_witness :
  let s := WithHeap IteratingState
             (<[4 := Obj {| ReferenceCount := 2; Payload := CHALK_INT 1 |}]>
                (Heap IteratingState)) in
  ∃ s', ChalkObjectReleaseReference 2 2 s = Done (tt, s') ∧
        Heap s' !! 2 = None ∧ Heap s' !! 5 = None ∧
        Heap s' !! 3 = Some (Obj {| ReferenceCount := 1;
                                    Payload := CHALK_STRING [x61; x00] 1 |}).
Proof.
  intros s.
  destruct (ChalkObjectReleaseReference_dict 0 s 2
              {| ReferenceCount := 1; Payload := CHALK_DICT [5] 1 1 |} [5]
              [{| Key := 3; Value := 4 |}] 1)
    as (s' & Hrun & _ & _ & Hdict & Hentries & Hothers);
    [done | reflexivity | reflexivity | reflexivity | by vm_compute
    | by repeat constructor | by repeat constructor
    | apply NoDup_singleton | | | cbn; lia |].
  - cbn. intros Hin. repeat (apply elem_of_cons in Hin as [Hin|Hin]; [done|]).
    by apply elem_of_nil in Hin.
  - intros e He _. cbn in He.
    apply elem_of_cons in He as [->|He].
    { eexists. split; [reflexivity|]. split; [done|]. by vm_compute. }
    apply elem_of_cons in He as [->|He].
    { eexists. split; [reflexivity|]. split; [done|]. by vm_compute. }
    by apply elem_of_nil in He.
  - exists s'. split; [exact Hrun|]. split; [exact Hdict|].
    split; [apply Hentries; by left|].
    rewrite Hothers; [reflexivity | done |].
    intros Hin. apply list_elem_of_singleton in Hin. discriminate.
Defined.
(** ** Copying a dictionary *)

Lemma NextAllocation_true (Outcomes : list bool) :
  Forall (λ b, b = true) Outcomes →
  ∃ Pending, NextAllocation Outcomes = (true, Pending) ∧
             Forall (λ b, b = true) Pending.
Proof.
  intros H. destruct H as [|b Rest -> HRest].
  - by exists [].
  - by exists Rest.
Qed.

Lemma RecountedAt_entry (h h' : gmap N Block) (p : N)
    (e : CHALK_DICT_ENTRY) :
  RecountedAt h h' p → h !! p = Some (DictEntry e) →
  h' !! p = Some (DictEntry e).
Proof. intros (n & ->) ->. done. Qed.

Lemma RecountedAt_object (h h' : gmap N Block) (p : N) (o : CHALK_OBJECT) :
  RecountedAt h h' p → h !! p = Some (Obj o) →
  ∃ o', h' !! p = Some (Obj o') ∧ Payload o' = Payload o ∧
        ReferenceCount o ≤ ReferenceCount o'.
Proof.
  intros (n & ->) ->. eexists. split; [done|].
  cbn [SetReferenceCount Payload ReferenceCount]. split; [done|lia].
Qed.

Lemma RecountedAt_SameComparand (h h' : gmap N Block) (p : N) :
  RecountedAt h h' p → SameComparand h h' p.
Proof.
  intros Hp. destruct (h !! p) as [[|o| |]|] eqn:E.
  2:{ destruct (RecountedAt_object h h' p o Hp E) as (o' & Ho' & Hpay & _).
      eapply SameComparand_objects; [done|done| |by intros _].
      symmetry. by apply HeaderType_Payload. }
  all: apply SameComparand_lookup; destruct Hp as (n & ->); by rewrite E.
Qed.

Lemma EntryNodes_recounted (h h' : gmap N Block) (EntryList : list N)
    (Entries : list CHALK_DICT_ENTRY) :
  (∀ Entry, Entry ∈ EntryList → RecountedAt h h' Entry) →
  EntryNodes h EntryList Entries → EntryNodes h' EntryList Entries.
Proof.
  intros Hsame Hnodes. unfold EntryNodes in *.
  induction Hnodes as [|Entry e EntryList Entries [Hnull He] _ IH];
    constructor.
  - split; [done|]. apply (RecountedAt_entry h); [|done].
    apply Hsame. by left.
  - apply IH. intros p Hp. apply Hsame. by right.
Qed.

Lemma ScalarKeys_recounted (h h' : gmap N Block)
    (Entries : list CHALK_DICT_ENTRY) :
  (∀ e, e ∈ Entries → RecountedAt h h' (Key e)) →
  ScalarKeys h Entries → ScalarKeys h' Entries.
Proof.
  intros Hsame Hkeys. unfold ScalarKeys in *.
  apply Forall_forall. intros e He.
  destruct (proj1 (Forall_forall _ _) Hkeys e He) as (Hnull & k & Hk & Hkind).
  split; [done|].
  destruct (RecountedAt_object h h' (Key e) k (Hsame e He) Hk)
    as (k' & Hk' & Hpay & _).
  exists k'. split; [done|]. by rewrite (HeaderType_Payload k' k).
Qed.

Lemma DistinctKeys_recounted (fuel : nat) (h h' : gmap N Block)
    (Entries : list CHALK_DICT_ENTRY) :
  (∀ e, e ∈ Entries → RecountedAt h h' (Key e)) →
  ScalarKeys h Entries →
  DistinctKeys fuel h Entries → DistinctKeys fuel h' Entries.
Proof.
  intros Hsame Hkeys Hdistinct i j ei ej Hij Hi Hj.
  destruct (Hdistinct i j ei ej Hij Hi Hj) as (z & Hz & Hne).
  exists z. split; [|done]. rewrite <- Hz.
  assert (Hei : ei ∈ Entries) by by eapply list_elem_of_lookup_2.
  assert (Hej : ej ∈ Entries) by by eapply list_elem_of_lookup_2.
  destruct (proj1 (Forall_forall _ _) Hkeys ej Hej) as (Hnull & k & Hk & Hkind).
  apply (ChalkCompareObjects_scalar_frame fuel h h' _ _ k).
  - apply RecountedAt_SameComparand. by apply Hsame.
  - apply RecountedAt_SameComparand. by apply Hsame.
  - by apply LoadObject_Done.
  - done.
Qed.

(** The lookup of a key that compares as nonzero with every key of the
    dictionary finds nothing. *)

Lemma ChalkDictLookupFrom_absent (Compare : N → N → Result Z)
    (h : gmap N Block) (EntryList : list N)
    (Entries : list CHALK_DICT_ENTRY) (KeyObject : N) :
  EntryNodes h EntryList Entries →
  Forall (λ e, ∃ z, Compare (Key e) KeyObject = Done z ∧ z ≠ 0%Z) Entries →
  ChalkDictLookupFrom Compare h EntryList KeyObject = Done NULL.
Proof.
  intros Hnodes. unfold EntryNodes in Hnodes.
  induction Hnodes as [|Entry e EntryList Entries [Hnull He] _ IH];
    intros Hdistinct; [done|].
  apply Forall_cons in Hdistinct as [(z & Hz & Hne) Hdistinct].
  cbn [ChalkDictLookupFrom].
  rewrite (LoadEntry_Done h Entry e) by done. cbn [mbind Result_bind].
  rewrite Hz. cbn [mbind Result_bind].
  assert ((z =? 0)%Z = false) as -> by by apply Z.eqb_neq.
  by apply IH.
Qed.

Lemma HeapWithNewEntry_lookup (h : gmap N Block) (DictObject KeyObject p : N)
    (d k : CHALK_OBJECT) (EntryList : list N) (Count Generation : N) :
  h !! KeyObject = Some (Obj k) →
  KeyObject ≠ NULL →
  p ≠ DictObject →
  p ≠ FreshAddress h →
  HeapWithNewEntry h DictObject KeyObject d k EntryList Count Generation !! p
  = AddToReferenceCount (References p [KeyObject]) <$> h !! p.
Proof.
  intros Hk Hnull HpD HpF. unfold HeapWithNewEntry.
  rewrite lookup_insert_ne by done. rewrite References_singleton.
  destruct (decide (p = KeyObject)) as [->|Hne].
  - rewrite lookup_insert_eq, Hk. cbn [fmap option_fmap option_map].
    case_decide as Hc; [done|]. destruct Hc. done.
  - rewrite !lookup_insert_ne by done.
    case_decide as Hc; [by destruct Hc|].
    destruct (h !! p) as [b|]; [|done]. cbn [fmap option_fmap option_map].
    by rewrite AddToReferenceCount_0.
Qed.
Lemma HeldObjects_cons (e : CHALK_DICT_ENTRY)
    (Entries : list CHALK_DICT_ENTRY) :
  HeldObjects (e :: Entries) = Key e :: Value e :: HeldObjects Entries.
Proof. done. Qed.

Lemma HeldObjects_holder (p : N) (Entries : list CHALK_DICT_ENTRY) :
  p ∈ HeldObjects Entries →
  ∃ e, e ∈ Entries ∧ (Key e = p ∨ Value e = p).
Proof.
  induction Entries as [|e Entries IH]; intros Hp.
  - by apply elem_of_nil in Hp.
  - rewrite HeldObjects_cons in Hp.
    apply elem_of_cons in Hp as [->|Hp]; [exists e; split; [by left|by left]|].
    apply elem_of_cons in Hp as [->|Hp]; [exists e; split; [by left|by right]|].
    destruct (IH Hp) as (e' & He' & Hin). exists e'. split; [by right|done].
Qed.

Lemma HeldObjects_value (e : CHALK_DICT_ENTRY)
    (Entries : list CHALK_DICT_ENTRY) :
  e ∈ Entries → Value e ∈ HeldObjects Entries.
Proof.
  induction Entries as [|e' Entries IH]; intros He.
  - by apply elem_of_nil in He.
  - rewrite HeldObjects_cons. apply elem_of_cons in He as [<-|He].
    + right. by left.
    + do 2 right. by apply IH.
Qed.

(** One round of the loops of [ChalkCreateDict] and [ChalkDictAdd], on an
    entry whose key the destination does not have: the destination gets a
    node for it, and what the rounds to come rely on still holds. *)

Lemma ChalkDictSetElement_insert_step (fuel : nat) (Dict : N)
    (e : CHALK_DICT_ENTRY) (Todo : list CHALK_DICT_ENTRY) (s : State)
    (d : CHALK_OBJECT) (NewList : list N) (Taken : list CHALK_DICT_ENTRY)
    (Count Generation : N) :
  Dict ≠ NULL →
  Heap s !! Dict = Some (Obj d) →
  Payload d = CHALK_DICT NewList Count Generation →
  Count + 1 ≤ MAX_ULONG →
  Generation + 1 ≤ MAX_UINTN →
  EntryNodes (Heap s) NewList Taken →
  ScalarKeys (Heap s) (Taken ++ e :: Todo) →
  Value e ≠ NULL →
  LiveObjects (Heap s) (HeldObjects (e :: Todo)) →
  DistinctKeys fuel (Heap s) (Taken ++ e :: Todo) →
  Dict ∉ HeldObjects (e :: Todo) →
  Forall (λ b, b = true) (Allocations s) →
  ∃ s1 d1,
    ChalkDictSetElement (S fuel) Dict (Key e) (Value e) false s
    = Done ((0%Z, NULL), s1) ∧
    Stderr s1 = Stderr s ∧
    Forall (λ b, b = true) (Allocations s1) ∧
    Heap s !! FreshAddress (Heap s) = None ∧
    Heap s1 !! FreshAddress (Heap s) = Some (DictEntry e) ∧
    Heap s1 !! Dict = Some (Obj d1) ∧
    ReferenceCount d1 = ReferenceCount d ∧
    Payload d1 = CHALK_DICT (NewList ++ [FreshAddress (Heap s)]) (Count + 1)
                   (Generation + 1) ∧
    (∀ p, p ≠ Dict → p ≠ FreshAddress (Heap s) →
          Heap s1 !! p
          = AddToReferenceCount (References p [Key e; Value e])
              <$> Heap s !! p) ∧
    ScalarKeys (Heap s1) ((Taken ++ [e]) ++ Todo) ∧
    LiveObjects (Heap s1) (HeldObjects Todo) ∧
    DistinctKeys fuel (Heap s1) ((Taken ++ [e]) ++ Todo).
Proof.
  intros HD Hd Hpay HCount HGeneration Hnew Hscalar Hvalue Hlive Hdistinct
    Hnotheld Hallocs.
  rewrite HeldObjects_cons in *.
  apply not_elem_of_cons in Hnotheld as [HDK Hnotheld].
  apply not_elem_of_cons in Hnotheld as [HDV Hnotheld].
  assert (Hkey : Key e ≠ NULL ∧
                 ∃ k, Heap s !! Key e = Some (Obj k) ∧
                      (HeaderType k = ChalkObjectInteger
                       ∨ HeaderType k = ChalkObjectString)).
  { apply (proj1 (Forall_forall _ _) Hscalar e).
    apply elem_of_app. right. by left. }
  destruct Hkey as (Hknull & k & Hk & Hkind).
  destruct (Hlive (Key e)) as (k0 & Hk0 & _ & Hkpos & Hkmax);
    [by left | done |].
  rewrite Hk in Hk0. injection Hk0 as <-.
  destruct (Hlive (Value e)) as (v & Hv & Hvvalid & Hvpos & Hvmax);
    [by right; left | done |].
  cbn [length] in Hkmax, Hvmax.
  destruct (NextAllocation_true _ Hallocs) as (Pending & Halloc & Hpending).
  destruct (FreshAddress_spec (Heap s)) as (Hfresh & Hfnull & _).
  assert (Hlookup : ChalkDictLookup (S fuel) (Heap s) Dict (Key e)
                    = Done NULL).
  { unfold ChalkDictLookup. rewrite (LoadObject_Done _ Dict d) by done.
    cbn [mbind Result_bind]. rewrite Hpay.
    apply (ChalkDictLookupFrom_absent _ _ _ Taken); [done|].
    apply Forall_forall. intros et Het.
    apply list_elem_of_lookup in Het as (i & Hi).
    apply (Hdistinct i (length Taken) et e).
    - by apply lookup_lt_Some in Hi.
    - by apply lookup_app_l_Some.
    - apply list_lookup_middle. done. }
  pose proof (ChalkDictSetElement_insert_run (S fuel) s Dict (Key e)
                (Value e) false d k v NewList _ _ Pending HD Hd Hpay
                Hknull Hk Hkind ltac:(lia) Hlookup Halloc Hvalue Hv
                Hvvalid ltac:(lia)) as Hrun.
  set (F := FreshAddress (Heap s)) in *.
  set (h1 := <[F := DictEntry {| Key := Key e; Value := Value e |}]>
               (HeapAddReference (Value e)
                  (HeapWithNewEntry (Heap s) Dict (Key e) d k NewList
                     Count Generation))) in *.
  set (s1 := {| Heap := h1; Allocations := Pending;
                Stderr := Stderr s |}) in *.
  assert (HFD : F ≠ Dict) by (intros Heq; rewrite Heq in Hfresh; congruence).
  set (d1 := SetPayload d (CHALK_DICT (NewList ++ [F]) (Count + 1)
                             (Generation + 1))).
  assert (H1 : ∀ p, p ≠ Dict → p ≠ F →
            h1 !! p = AddToReferenceCount (References p [Key e; Value e])
                        <$> Heap s !! p).
  { intros p HpD HpF. unfold h1. rewrite lookup_insert_ne by done.
    rewrite HeapAddReference_lookup_all.
    rewrite (HeapWithNewEntry_lookup _ _ _ _ _ k) by done.
    rewrite (References_cons p (Key e) [Value e]).
    destruct (Heap s !! p) as [b|]; [|done].
    cbn [fmap option_fmap option_map].
    by rewrite AddToReferenceCount_add. }
  assert (H1D : h1 !! Dict = Some (Obj d1)).
  { unfold h1. rewrite lookup_insert_ne by done.
    rewrite HeapAddReference_lookup_all.
    rewrite (References_absent Dict [Value e])
      by (intros Hin; apply list_elem_of_singleton in Hin; done).
    unfold HeapWithNewEntry. rewrite lookup_insert_eq.
    cbn [fmap option_fmap option_map]. rewrite AddToReferenceCount_0.
    fold F. by rewrite ULONG_small, UINTN_small by done. }
  assert (Hrec : ∀ p b, Heap s !! p = Some b → p ≠ Dict →
            RecountedAt (Heap s) h1 p).
  { intros p b Hp HpD. eexists. apply H1; [done|].
    intros ->. congruence. }
  assert (Hkeys : ∀ e', e' ∈ Taken ++ e :: Todo →
            RecountedAt (Heap s) h1 (Key e')).
  { intros e' He'.
    destruct (proj1 (Forall_forall _ _) Hscalar e' He')
      as (_ & k' & Hk' & Hkind').
    apply (Hrec _ _ Hk'). intros Heq. rewrite Heq in Hk'.
    rewrite Hd in Hk'. injection Hk' as <-.
    unfold HeaderType in Hkind'. rewrite Hpay in Hkind'.
    by destruct Hkind'. }
  exists s1, d1. cbn [s1 Heap Allocations Stderr].
  split; [done|]. split; [done|]. split; [done|]. split; [done|].
  split; [unfold h1; rewrite lookup_insert_eq; by destruct e|].
  split; [done|]. split; [done|]. split; [done|]. split; [done|].
  rewrite <- !app_assoc. cbn [app].
  split; [by apply (ScalarKeys_recounted (Heap s))|].
  split; [|by apply (DistinctKeys_recounted fuel (Heap s))].
  intros p Hp Hpnull.
  destruct (Hlive p) as (o & Ho & Hovalid & Hopos & Homax);
    [by do 2 right | done |].
  assert (HpD : p ≠ Dict) by (intros ->; done).
  assert (HpF : p ≠ F) by (intros ->; congruence).
  rewrite (H1 p HpD HpF), Ho. eexists. split; [done|].
  split; [done|]. cbn [SetReferenceCount ReferenceCount length] in *.
  pose proof (References_le_length p [Key e; Value e]) as Hle.
  cbn [length] in Hle. lia.
Qed.

(** Entry nodes are where they were after such a round. *)

Lemma EntryNodes_insert_step (h h1 : gmap N Block) (Dict F : N)
    (Objects : list N) (d : CHALK_OBJECT) (EntryList : list N)
    (Entries : list CHALK_DICT_ENTRY) :
  h !! Dict = Some (Obj d) →
  h !! F = None →
  (∀ p, p ≠ Dict → p ≠ F →
        h1 !! p = AddToReferenceCount (References p Objects) <$> h !! p) →
  EntryNodes h EntryList Entries → EntryNodes h1 EntryList Entries.
Proof.
  intros Hd HF H1 Hnodes.
  apply (EntryNodes_recounted h); [|done].
  intros p Hp. unfold EntryNodes in Hnodes.
  apply list_elem_of_lookup in Hp as (i & Hi).
  destruct (Forall2_lookup_l _ _ _ _ _ Hnodes Hi) as (e' & _ & _ & He').
  eexists. apply H1; intros ->; congruence.
Qed.

Lemma References_HeldObjects_cons (p : N) (e : CHALK_DICT_ENTRY)
    (Entries : list CHALK_DICT_ENTRY) :
  References p (HeldObjects (e :: Entries))
  = References p [Key e; Value e] + References p (HeldObjects Entries).
Proof.
  rewrite HeldObjects_cons.
  rewrite (References_cons p (Key e) (Value e :: HeldObjects Entries)).
  rewrite (References_cons p (Value e) (HeldObjects Entries)).
  rewrite (References_cons p (Key e) [Value e]). lia.
Qed.

(** The loop of [ChalkCreateDict] over entries whose keys are not yet in
    the new dictionary gives every one of them a node of its own. *)

Lemma ChalkDictCopyEntries_copies (fuel : nat) (Dict : N) :
  ∀ (Todo : list CHALK_DICT_ENTRY) (TodoList : list N) (s : State)
    (d : CHALK_OBJECT) (NewList : list N) (Taken : list CHALK_DICT_ENTRY)
    (Count Generation : N),
    Dict ≠ NULL →
    Heap s !! Dict = Some (Obj d) →
    Payload d = CHALK_DICT NewList Count Generation →
    Count + N.of_nat (length Todo) ≤ MAX_ULONG →
    Generation + N.of_nat (length Todo) ≤ MAX_UINTN →
    EntryNodes (Heap s) NewList Taken →
    EntryNodes (Heap s) TodoList Todo →
    ScalarKeys (Heap s) (Taken ++ Todo) →
    Forall (λ e, Value e ≠ NULL) Todo →
    LiveObjects (Heap s) (HeldObjects Todo) →
    DistinctKeys fuel (Heap s) (Taken ++ Todo) →
    Dict ∉ HeldObjects Todo →
    Forall (λ b, b = true) (Allocations s) →
    ∃ s' Added d',
      ChalkDictCopyEntries (S fuel) Dict TodoList s = Done (Dict, s') ∧
      Stderr s' = Stderr s ∧
      Heap s' !! Dict = Some (Obj d') ∧
      ReferenceCount d' = ReferenceCount d ∧
      Payload d' = CHALK_DICT (NewList ++ Added)
                     (Count + N.of_nat (length Todo))
                     (Generation + N.of_nat (length Todo)) ∧
      EntryNodes (Heap s') (NewList ++ Added) (Taken ++ Todo) ∧
      (∀ p, p ∈ Added → Heap s !! p = None) ∧
      ∀ p, p ≠ Dict → p ∉ Added →
           Heap s' !! p
           = AddToReferenceCount (References p (HeldObjects Todo))
               <$> Heap s !! p.
Proof.
  induction Todo as [|e Todo IH];
    intros TodoList s d NewList Taken Count Generation HD Hd Hpay HCount
      HGeneration Hnew Htodo Hscalar Hvalues Hlive Hdistinct Hnotheld
      Hallocs.
  - apply Forall2_nil_inv_r in Htodo as ->.
    exists s, [], d. rewrite !app_nil_r. cbn [ChalkDictCopyEntries length].
    rewrite !N.add_0_r.
    split; [done|]. split; [done|]. split; [done|]. split; [done|].
    split; [done|]. split; [done|].
    split; [intros p Hp; by apply elem_of_nil in Hp|].
    intros p _ _. cbn [HeldObjects flat_map]. rewrite References_nil.
    destruct (Heap s !! p) as [b|]; [|done].
    cbn [fmap option_fmap option_map]. by rewrite AddToReferenceCount_0.
  - apply Forall2_cons_inv_r in Htodo
      as (Entry & TodoList' & [Hentry He] & Htodo & ->).
    apply Forall_cons in Hvalues as [Hvalue Hvalues].
    cbn [length] in HCount, HGeneration.
    destruct (ChalkDictSetElement_insert_step fuel Dict e Todo s d NewList
                Taken Count Generation)
      as (s1 & d1 & Hrun & Hstderr1 & Hallocs1 & Hfresh & HF1 & Hd1 & Hcount1
          & Hpay1 & H1 & Hscalar1 & Hlive1 & Hdistinct1);
      try done; [lia | lia |].
    set (F := FreshAddress (Heap s)) in *.
    assert (Hnotheld' : Dict ∉ HeldObjects Todo).
    { intros Hin. apply Hnotheld. rewrite HeldObjects_cons. by do 2 right. }
    destruct (IH TodoList' s1 d1 (NewList ++ [F]) (Taken ++ [e]) (Count + 1)
                (Generation + 1))
      as (s' & Added & d' & Hloop & Hstderr & Hd' & Hcount' & Hpay' & Hnodes'
          & Hadded & Hothers); try done; [lia | lia | | |].
    { apply Forall2_app.
      - by apply (EntryNodes_insert_step (Heap s) _ Dict F
                    [Key e; Value e] d).
      - constructor; [|constructor]. split; [|done].
        intros Heq. rewrite Heq in HF1.
        destruct (FreshAddress_spec (Heap s)) as (_ & Hfnull & _). done. }
    { by apply (EntryNodes_insert_step (Heap s) _ Dict F
                  [Key e; Value e] d). }
    exists s', (F :: Added), d'.
    replace (NewList ++ F :: Added) with ((NewList ++ [F]) ++ Added)
      by by rewrite <- app_assoc.
    replace (Taken ++ e :: Todo) with ((Taken ++ [e]) ++ Todo)
      by by rewrite <- app_assoc.
    split; [|split; [congruence|split; [done|split; [congruence|split;
             [|split; [done|split]]]]]].
    + cbn [ChalkDictCopyEntries].
      eapply bind_run; [by apply ReadEntry_Done|].
      eapply bind_run; [exact Hrun|].
      cbn [negb Z.eqb]. exact Hloop.
    + rewrite Hpay'. cbn [length]. f_equal; lia.
    + intros p Hp. apply elem_of_cons in Hp as [->|Hp]; [done|].
      specialize (Hadded p Hp).
      destruct (Heap s !! p) as [b|] eqn:Hb; [|done].
      destruct (decide (p = Dict)) as [->|HpD]; [congruence|].
      rewrite H1, Hb in Hadded; [done|done|]. intros ->. congruence.
    + intros p HpD Hp. apply not_elem_of_cons in Hp as [HpF Hp].
      rewrite Hothers by done. rewrite H1 by done.
      destruct (Heap s !! p) as [b|]; [|done].
      cbn [fmap option_fmap option_map].
      rewrite AddToReferenceCount_add. do 2 f_equal.
      by rewrite References_HeldObjects_cons.
Qed.
(** X25: [ChalkCreateDict] given a dictionary whose keys are Integers or
    Strings no two of which compare as 0, whose values are live objects,
    and an allocator that has memory, returns an address that was not
    allocated, holding a Dict with one reference whose count and
    generation are the number of entries of the source.  The copy has
    entry nodes of its own, newly allocated, that hold the keys and the
    values of the source in the same order: the objects are shared, and
    each has one more reference per entry holding it.  Nothing else
    changes; the source and its nodes are untouched. *)
Theorem ChalkCreateDict_copies (fuel : nat) (s : State) (Source : N)
    (o : CHALK_OBJECT) (EntryList : list N)
    (Entries : list CHALK_DICT_ENTRY) (Count Generation : N) :
  Source ≠ NULL →
  Heap s !! Source = Some (Obj o) →
  Payload o = CHALK_DICT EntryList Count Generation →
  EntryNodes (Heap s) EntryList Entries →
  N.of_nat (length Entries) ≤ MAX_ULONG →
  ScalarKeys (Heap s) Entries →
  Forall (λ e, Value e ≠ NULL) Entries →
  LiveObjects (Heap s) (HeldObjects Entries) →
  DistinctKeys fuel (Heap s) Entries →
  Forall (λ b, b = true) (Allocations s) →
  ∃ s' NewList,
    ChalkCreateDict (S fuel) Source s
    = Done (FreshAddress (Heap s), s') ∧
    Stderr s' = Stderr s ∧
    Heap s !! FreshAddress (Heap s) = None ∧
    Heap s' !! FreshAddress (Heap s)
    = Some (Obj {| ReferenceCount := 1;
                   Payload := CHALK_DICT NewList (N.of_nat (length Entries))
                                (N.of_nat (length Entries)) |}) ∧
    EntryNodes (Heap s') NewList Entries ∧
    (∀ Entry, Entry ∈ NewList → Heap s !! Entry = None) ∧
    ∀ p, p ≠ FreshAddress (Heap s) → p ∉ NewList →
         Heap s' !! p
         = AddToReferenceCount (References p (HeldObjects Entries))
             <$> Heap s !! p.
Proof.
  intros Hnull Ho Hpay Hnodes Hmax Hscalar Hvalues Hlive Hdistinct Hallocs.
  destruct (NextAllocation_true _ Hallocs) as (Pending & Halloc & Hpending).
  destruct (FreshAddress_spec (Heap s)) as (Hfresh & Hfnull & _).
  set (F := FreshAddress (Heap s)) in *.
  set (d := {| ReferenceCount := 1; Payload := CHALK_DICT [] 0 0 |}).
  set (h0 := <[F := Obj d]> (Heap s)).
  set (s0 := {| Heap := h0; Allocations := Pending; Stderr := Stderr s |}).
  assert (H0 : ∀ p, p ≠ F → h0 !! p = Heap s !! p)
    by (intros p Hp; unfold h0; by rewrite lookup_insert_ne).
  assert (Hrec : ∀ p b, Heap s !! p = Some b → RecountedAt (Heap s) h0 p).
  { intros p b Hp. exists 0. rewrite H0 by (intros ->; congruence).
    rewrite Hp. cbn [fmap option_fmap option_map].
    by rewrite AddToReferenceCount_0. }
  assert (Hkeys : ∀ e, e ∈ Entries → RecountedAt (Heap s) h0 (Key e)).
  { intros e He.
    destruct (proj1 (Forall_forall _ _) Hscalar e He) as (_ & k & Hk & _).
    by apply (Hrec _ _ Hk). }
  assert (Hheld : ∀ p, p ∈ HeldObjects Entries →
            ∃ v, Heap s !! p = Some (Obj v)).
  { intros p Hp. destruct (decide (p = NULL)) as [->|Hpn].
    - exfalso. apply HeldObjects_holder in Hp as (e & He & Hin).
      destruct (proj1 (Forall_forall _ _) Hscalar e He) as (Hk & _).
      pose proof (proj1 (Forall_forall _ _) Hvalues e He) as Hv.
      destruct Hin; congruence.
    - destruct (Hlive p Hp Hpn) as (v & Hv & _). by exists v. }
  destruct (ChalkDictCopyEntries_copies fuel F Entries EntryList s0 d [] []
              0 0)
    as (s' & Added & d' & Hloop & Hstderr & Hd' & Hcount' & Hpay' & Hnodes'
        & Hadded & Hothers); try done;
    try (unfold MAX_UINTN, MAX_ULONG in *; lia).
  { cbn [s0 Heap]. unfold h0. apply lookup_insert_eq. }
  { cbn [s0 Heap]. constructor. }
  { cbn [s0 Heap]. apply (EntryNodes_recounted (Heap s)); [|done].
    intros p Hp. unfold EntryNodes in Hnodes.
    apply list_elem_of_lookup in Hp as (i & Hi).
    destruct (Forall2_lookup_l _ _ _ _ _ Hnodes Hi) as (e' & _ & _ & He').
    by apply (Hrec p _ He'). }
  { cbn [s0 Heap app]. by apply (ScalarKeys_recounted (Heap s)). }
  { intros p Hp Hpn. cbn [s0 Heap].
    destruct (Hlive p Hp Hpn) as (v & Hv & Hrest).
    exists v. split; [|done]. rewrite H0; [done|]. intros ->. congruence. }
  { cbn [s0 Heap app]. by apply (DistinctKeys_recounted fuel (Heap s)). }
  { intros Hin. destruct (Hheld F Hin) as (v & Hv). congruence. }
  cbn [app] in *.
  rewrite !N.add_0_l in Hpay'.
  exists s', Added. split; [|split; [done|split; [done|split;
    [|split; [done|split]]]]].
  - unfold ChalkCreateDict.
    eapply bind_run; [by apply ChalkAllocate_success|]. fold F.
    rewrite (NULL_eqb F) by done.
    eapply (bind_run _ _ _ tt s0).
    { unfold Store, WithHeap. cbn [Heap Allocations Stderr].
      by rewrite insert_insert_eq. }
    rewrite (NULL_eqb Source) by done. cbn [negb].
    eapply bind_run.
    { apply (ReadObject_Done s0 Source o); [done|]. cbn [s0 Heap].
      rewrite H0; [done|]. intros ->. congruence. }
    rewrite Hpay. exact Hloop.
  - rewrite Hd'. destruct d' as [c p']. cbn in Hcount', Hpay'.
    by rewrite Hcount', Hpay'.
  - intros p Hp. specialize (Hadded p Hp). cbn [s0 Heap] in Hadded.
    rewrite H0 in Hadded; [done|]. intros ->. unfold h0 in Hadded.
    by rewrite lookup_insert_eq in Hadded.
  - intros p HpF Hp. rewrite Hothers by done. cbn [s0 Heap].
    by rewrite H0.
Qed.

Lemma ChalkCreateDict_copies_witness :
  ∃ s',
    ChalkCreateDict 1 2 IteratingState
    = Done (FreshAddress (Heap IteratingState), s') ∧
    Heap s' !! 3 = Some (Obj {| ReferenceCount := 3;
                                Payload := CHALK_STRING [x61; x00] 1 |}).
Proof.
  destruct (ChalkCreateDict_copies 0 IteratingState 2
              {| ReferenceCount := 1; Payload := CHALK_DICT [5] 1 1 |} [5]
              [{| Key := 3; Value := 4 |}] 1 1)
    as (s' & NewList & Hrun & _ & _ & _ & _ & Hnew & Hothers);
    [done | reflexivity | reflexivity | by repeat constructor
    | by vm_compute | | by repeat constructor | | | constructor |].
  - constructor; [|constructor]. split; [done|].
    eexists. split; [reflexivity|]. by right.
  - intros p Hp _. cbn in Hp.
    apply elem_of_cons in Hp as [->|Hp].
    { eexists. split; [reflexivity|]. split; [done|]. by vm_compute. }
    apply elem_of_cons in Hp as [->|Hp].
    { eexists. split; [reflexivity|]. split; [done|]. by vm_compute. }
    by apply elem_of_nil in Hp.
  - intros i j ei ej Hij Hi Hj. destruct j as [|j]; [lia|]. discriminate.
  - exists s'. split; [exact Hrun|].
    rewrite Hothers; [reflexivity | by vm_compute |].
    intros Hin. specialize (Hnew 3 Hin). discriminate.
Defined.
(** ** Adding a dictionary to itself *)

(** Setting a key to the value that its entry holds changes nothing. *)

Lemma ChalkDictSetElement_same_value (fuel : nat) (s : State)
    (DictObject KeyObject Found : N) (d k v : CHALK_OBJECT)
    (e : CHALK_DICT_ENTRY) (EntryList : list N) (Count Generation : N) :
  DictObject ≠ NULL →
  Heap s !! DictObject = Some (Obj d) →
  Payload d = CHALK_DICT EntryList Count Generation →
  KeyObject ≠ NULL →
  Heap s !! KeyObject = Some (Obj k) →
  HeaderType k = ChalkObjectInteger ∨ HeaderType k = ChalkObjectString →
  ChalkDictLookup (S fuel) (Heap s) DictObject KeyObject = Done Found →
  Found ≠ NULL →
  Heap s !! Found = Some (DictEntry e) →
  Value e ≠ NULL →
  Heap s !! Value e = Some (Obj v) →
  HeaderType v ≠ ChalkObjectInvalid →
  0 < ReferenceCount v ∧ ReferenceCount v + 1 < 0x10000000 →
  ChalkDictSetElement (S fuel) DictObject KeyObject (Value e) false s
  = Done ((0%Z, NULL), s).
Proof.
  intros Hd Hdict Hpay Hk Hkey Hkind Hlookup Hfound He Hv Hvalue Hvalid
    Hvrange.
  set (h := Heap s) in *.
  set (h1 := HeapAddReference (Value e) h).
  set (h2 := HeapReleaseReference (Value e) h1).
  assert (He1 : h1 !! Found = Some (DictEntry e))
    by (unfold h1; rewrite HeapAddReference_lookup_all, He; done).
  assert (He2 : h2 !! Found = Some (DictEntry e))
    by (unfold h2; rewrite HeapReleaseReference_lookup_all, He1; done).
  assert (Hback : h2 = h).
  { apply map_eq. intros p. unfold h2, h1.
    rewrite HeapReleaseReference_lookup_all, HeapAddReference_lookup_all.
    destruct (h !! p) as [b|]; [|done]. cbn [fmap option_fmap option_map].
    by rewrite RemoveFromReferenceCount_AddToReferenceCount. }
  unfold ChalkDictSetElement.
  eapply bind_run; [by apply ReadObject_Done|].
  assert (IsType d ChalkObjectDict = true) as ->
    by (apply IsType_true; unfold HeaderType; by rewrite Hpay).
  eapply bind_run; [apply assert_true|].
  rewrite (NULL_eqb KeyObject) by done.
  eapply bind_run; [apply assert_true|].
  eapply bind_run; [by apply ReadObject_Done|].
  assert (negb (IsType k ChalkObjectInteger)
          && negb (IsType k ChalkObjectString) = false) as ->.
  { apply andb_false_iff. rewrite !negb_false_iff, !IsType_true.
    destruct Hkind; eauto. }
  eapply bind_run; [unfold read; fold h; by rewrite Hlookup|].
  rewrite (NULL_eqb Found) by done.
  eapply bind_run; [reflexivity|].
  rewrite (NULL_eqb Found) by done.
  eapply bind_run.
  { apply ChalkObjectAddReference_heap; [done|]. exists v.
    split; [done|]. split; [done|]. lia. }
  fold h h1.
  eapply bind_run; [by apply ReadEntry_Done|].
  eapply bind_run.
  { apply (HeapReleaseReference_run fuel (Value e)). intros _.
    cbn [Heap WithHeap].
    destruct (HeapAddReference_lookup (Value e) (Value e) h v Hvalue)
      as (v1 & Hv1 & Hpay1 & Hrc1). fold h1 in Hv1.
    exists v1. split; [done|].
    split; [by rewrite (HeaderType_Payload v1 v)|].
    rewrite Hrc1. case_decide as Hc; [lia|]. by destruct Hc. }
  cbn [Heap WithHeap]. fold h2.
  eapply bind_run; [by apply ReadEntry_Done|].
  unfold Store, WithHeap. cbn [Heap Allocations Stderr negb]. fold h2.
  rewrite Hback.
  replace {| Key := Key e; Value := Value e |} with e by by destruct e.
  unfold mbind, M_bind. cbn [Heap Allocations Stderr].
  rewrite insert_id by done. by destruct s.
Qed.

(** The lookup of a key finds the first entry whose key compares as 0
    with it. *)

Lemma ChalkDictLookupFrom_found (Compare : N → N → Result Z)
    (h : gmap N Block) (Before After : list N)
    (Entries : list CHALK_DICT_ENTRY) (Entry : N) (e : CHALK_DICT_ENTRY)
    (KeyObject : N) :
  EntryNodes h Before Entries →
  Forall (λ e, ∃ z, Compare (Key e) KeyObject = Done z ∧ z ≠ 0%Z) Entries →
  Entry ≠ NULL →
  h !! Entry = Some (DictEntry e) →
  Compare (Key e) KeyObject = Done 0%Z →
  ChalkDictLookupFrom Compare h (Before ++ Entry :: After) KeyObject
  = Done Entry.
Proof.
  intros Hnodes Hdistinct Hnull He Hzero.
  rewrite ChalkDictLookupFrom_app_any.
  rewrite (ChalkDictLookupFrom_absent Compare h Before Entries) by done.
  change (NULL =? NULL) with true. cbn match. cbn [ChalkDictLookupFrom].
  rewrite (LoadEntry_Done h Entry e) by done. cbn [mbind Result_bind].
  by rewrite Hzero.
Qed.

Lemma ChalkDictAddFrom_self (fuel : nat) (s : State) (Dict : N)
    (d : CHALK_OBJECT) (EntryList : list N)
    (Entries : list CHALK_DICT_ENTRY) (Count Generation : N) :
  Dict ≠ NULL →
  Heap s !! Dict = Some (Obj d) →
  Payload d = CHALK_DICT EntryList Count Generation →
  NoDup EntryList →
  (∀ Entry e, Entry ∈ EntryList → Heap s !! Entry = Some (DictEntry e) →
     ChalkDictSetElement (S fuel) Dict (Key e) (Value e) false s
     = Done ((0%Z, NULL), s)) →
  ∀ (After Before : list N) (Rounds : nat),
    EntryList = Before ++ After →
    Forall (λ Entry, Entry ≠ NULL ∧ ∃ e, Heap s !! Entry = Some (DictEntry e))
      After →
    (length After ≤ Rounds)%nat →
    ChalkDictAddFrom (S fuel) Rounds Dict Dict
      match After with
      | [] => NULL
      | First :: _ => First
      end s
    = Done (0%Z, s).
Proof.
  intros HD Hd Hpay Hdup Hset.
  induction After as [|Entry After IH]; intros Before Rounds HList Hnodes
    Hrounds.
  - by destruct Rounds.
  - apply Forall_cons in Hnodes as [(Hnull & e & He) Hnodes].
    cbn [length] in Hrounds. destruct Rounds as [|Rounds]; [lia|].
    cbn [ChalkDictAddFrom]. rewrite (NULL_eqb Entry) by done.
    eapply bind_run; [by apply ReadEntry_Done|].
    eapply bind_run; [by apply ReadObject_Done|]. rewrite Hpay.
    eapply bind_run.
    { unfold read. rewrite HList, ListEntryNext_middle; [done|].
      rewrite HList in Hdup. apply NoDup_app in Hdup as (_ & Hdup & _).
      intros Hin. apply (Hdup Entry Hin). by left. }
    eapply bind_run.
    { apply (Hset Entry e); [|done]. rewrite HList.
      apply elem_of_app. right. by left. }
    cbn [negb Z.eqb].
    apply (IH (Before ++ [Entry])); [by rewrite <- app_assoc|done|lia].
Qed.

(** X26: adding a dictionary to itself changes nothing.  On a dictionary
    whose keys are Integers or terminated Strings no two of which compare
    as 0, and whose values are live objects, [ChalkDictAdd] with the
    dictionary as both operands walks the entry list to its end and
    returns 0: every key is found at its own entry, nothing is allocated,
    the generation does not move, and the state is as it was. *)
Theorem ChalkDictAdd_self (fuel Rounds : nat) (s : State) (Dict : N)
    (d : CHALK_OBJECT) (EntryList : list N)
    (Entries : list CHALK_DICT_ENTRY) (Count Generation : N) :
  Dict ≠ NULL →
  Heap s !! Dict = Some (Obj d) →
  Payload d = CHALK_DICT EntryList Count Generation →
  EntryNodes (Heap s) EntryList Entries →
  NoDup EntryList →
  Forall (λ e, Key e ≠ NULL ∧
               ∃ k, Heap s !! Key e = Some (Obj k) ∧
                    match Payload k with
                    | CHALK_INT _ => True
                    | CHALK_STRING Text _ => x00 ∈ Text
                    | _ => False
                    end) Entries →
  Forall (λ e, Value e ≠ NULL) Entries →
  LiveObjects (Heap s) (HeldObjects Entries) →
  DistinctKeys fuel (Heap s) Entries →
  (length EntryList ≤ Rounds)%nat →
  ChalkDictAdd (S fuel) Rounds Dict Dict s = Done (0%Z, s) ∧
  Forall2 (λ Entry e,
             ChalkDictLookup (S fuel) (Heap s) Dict (Key e) = Done Entry)
    EntryList Entries.
Proof.
  intros HD Hd Hpay Hnodes Hdup Hkeys Hvalues Hlive Hdistinct Hrounds.
  assert (Hfinds : ∀ i Entry e,
            EntryList !! i = Some Entry → Entries !! i = Some e →
            ChalkDictLookup (S fuel) (Heap s) Dict (Key e) = Done Entry).
  { intros i Entry e Hi Hei. unfold ChalkDictLookup.
    rewrite (LoadObject_Done _ Dict d) by done. cbn [mbind Result_bind].
    rewrite Hpay.
    rewrite <- (take_drop_middle EntryList i Entry Hi).
    unfold EntryNodes in Hnodes.
    destruct (Forall2_lookup_lr _ _ _ _ _ _ Hnodes Hi Hei) as [Hnull He].
    assert (He' : e ∈ Entries) by by eapply list_elem_of_lookup_2.
    destruct (proj1 (Forall_forall _ _) Hkeys e He') as (Hk & k & Hko & Hkind).
    apply (ChalkDictLookupFrom_found _ _ _ _ (take i Entries) _ e);
      try done.
    - by apply Forall2_take.
    - apply Forall_forall. intros eb Heb.
      apply list_elem_of_lookup in Heb as (j & Hj).
      apply lookup_take_Some in Hj as [Hj Hji].
      by apply (Hdistinct j i eb e).
    - by apply (ChalkCompareObjects_scalar_refl fuel _ _ k). }
  split.
  - unfold ChalkDictAdd.
    eapply bind_run; [by apply ReadObject_Done|].
    assert (IsType d ChalkObjectDict = true) as ->
      by (apply IsType_true; unfold HeaderType; by rewrite Hpay).
    eapply bind_run; [apply assert_true|].
    eapply bind_run; [by apply ReadObject_Done|]. rewrite Hpay.
    apply (ChalkDictAddFrom_self fuel s Dict d EntryList Entries Count
             Generation HD Hd Hpay Hdup) with (Before := []); try done.
    + intros Entry e HEntry He.
      apply list_elem_of_lookup in HEntry as (i & Hi).
      unfold EntryNodes in Hnodes.
      destruct (Forall2_lookup_l _ _ _ _ _ Hnodes Hi) as (e' & Hei & Hnull & He').
      rewrite He in He'. injection He' as <-.
      assert (He' : e ∈ Entries) by by eapply list_elem_of_lookup_2.
      destruct (proj1 (Forall_forall _ _) Hkeys e He')
        as (Hk & k & Hko & Hkind).
      pose proof (proj1 (Forall_forall _ _) Hvalues e He') as Hv.
      destruct (Hlive (Value e)) as (v & Hvo & Hvalid & Hpos & Hmax);
        [by apply HeldObjects_value | done |].
      assert (2 ≤ N.of_nat (length (HeldObjects Entries))).
      { destruct Entries as [|e0 Entries]; [by apply elem_of_nil in He'|].
        rewrite HeldObjects_cons. cbn [length]. lia. }
      apply (ChalkDictSetElement_same_value fuel s Dict (Key e) Entry d k v e
               EntryList Count Generation); try done.
      * unfold HeaderType. destruct (Payload k); try done; auto.
      * by apply (Hfinds i).
      * lia.
    + apply Forall_forall. intros Entry HEntry.
      apply list_elem_of_lookup in HEntry as (i & Hi).
      unfold EntryNodes in Hnodes.
      destruct (Forall2_lookup_l _ _ _ _ _ Hnodes Hi) as (e' & _ & Hnull & He').
      eauto.
  - apply Forall2_same_length_lookup. split.
    + unfold EntryNodes in Hnodes. by apply Forall2_length in Hnodes.
    + intros i Entry e. apply Hfinds.
Qed.

Lemma ChalkDictAdd_self_witness :
  ChalkDictAdd 1 1 2 2 IteratingState = Done (0%Z, IteratingState).
Proof.
  destruct (ChalkDictAdd_self 0 1 IteratingState 2
              {| ReferenceCount := 1; Payload := CHALK_DICT [5] 1 1 |} [5]
              [{| Key := 3; Value := 4 |}] 1 1)
    as [Hrun _];
    [done | reflexivity | reflexivity | by repeat constructor
    | apply NoDup_singleton | | by repeat constructor | | | cbn; lia |].
  - constructor; [|constructor]. split; [done|].
    eexists. split; [reflexivity|]. cbn. right. by left.
  - intros p Hp _. cbn in Hp.
    apply elem_of_cons in Hp as [->|Hp].
    { eexists. split; [reflexivity|]. split; [done|]. by vm_compute. }
    apply elem_of_cons in Hp as [->|Hp].
    { eexists. split; [reflexivity|]. split; [done|]. by vm_compute. }
    by apply elem_of_nil in Hp.
  - intros i j ei ej Hij Hi Hj. destruct j as [|j]; [lia|]. discriminate.
  - exact Hrun.
Defined.
(** ** Releases end, and only take away *)

(** X27: on every heap, also one with objects that hold themselves, a
    release ends: each nested release lowers the sum of the reference
    counts of the heap, which bounds their number.  When it returns, that
    sum is smaller than it was, and what is left was there before: every
    object with the payload it had (only counts differ), every entry node
    as it was, and the same iterators.  A release creates nothing and
    rewrites no content of what it leaves. *)
Theorem ChalkObjectReleaseReference_ends (fuel : nat) (Object : N)
    (s : State) :
  TotalReferences (Heap s) < N.of_nat fuel →
  ChalkObjectReleaseReference fuel Object s ≠ Fault OutOfFuel ∧
  ∀ s', ChalkObjectReleaseReference fuel Object s = Done (tt, s') →
        TotalReferences (Heap s') < TotalReferences (Heap s) ∧
        Keeps Nowhere s s'.
Proof.
  intros Hs.
  destruct (ChalkObjectReleaseReference_Spends fuel Object s Hs)
    as [Hfuel Hless].
  split; [done|]. intros s' Hrun. split.
  - by apply (Hless tt).
  - by apply (ChalkObjectReleaseReference_Keeps fuel Object s s' tt).
Qed.

Lemma ChalkObjectReleaseReference_ends_witness :
  ChalkObjectReleaseReference 8 2 IteratingState ≠ Fault OutOfFuel.
Proof.
  destruct (ChalkObjectReleaseReference_ends 8 2 IteratingState) as [H _];
    [by vm_compute | exact H].
Defined.
(** ** Adding a dictionary with other keys *)

Lemma ChalkDictAddFrom_appends (fuel : nat) (Destination Addition : N)
    (AddList : list N) :
  Destination ≠ NULL →
  Addition ≠ NULL →
  Destination ≠ Addition →
  NoDup AddList →
  ∀ (Todo : list CHALK_DICT_ENTRY) (TodoList : list N) (s : State)
    (d a : CHALK_OBJECT) (NewList : list N) (Taken : list CHALK_DICT_ENTRY)
    (Before : list N) (Rounds : nat) (Count Generation ca ga : N),
    AddList = Before ++ TodoList →
    Heap s !! Addition = Some (Obj a) →
    Payload a = CHALK_DICT AddList ca ga →
    Heap s !! Destination = Some (Obj d) →
    Payload d = CHALK_DICT NewList Count Generation →
    Count + N.of_nat (length Todo) ≤ MAX_ULONG →
    Generation + N.of_nat (length Todo) ≤ MAX_UINTN →
    EntryNodes (Heap s) NewList Taken →
    EntryNodes (Heap s) TodoList Todo →
    ScalarKeys (Heap s) (Taken ++ Todo) →
    Forall (λ e, Value e ≠ NULL) Todo →
    LiveObjects (Heap s) (HeldObjects Todo) →
    DistinctKeys fuel (Heap s) (Taken ++ Todo) →
    Destination ∉ HeldObjects Todo →
    Forall (λ b, b = true) (Allocations s) →
    (length TodoList ≤ Rounds)%nat →
    ∃ s' Added d',
      ChalkDictAddFrom (S fuel) Rounds Destination Addition
        match TodoList with
        | [] => NULL
        | First :: _ => First
        end s
      = Done (0%Z, s') ∧
      Stderr s' = Stderr s ∧
      Heap s' !! Destination = Some (Obj d') ∧
      ReferenceCount d' = ReferenceCount d ∧
      Payload d' = CHALK_DICT (NewList ++ Added)
                     (Count + N.of_nat (length Todo))
                     (Generation + N.of_nat (length Todo)) ∧
      EntryNodes (Heap s') (NewList ++ Added) (Taken ++ Todo) ∧
      (∀ p, p ∈ Added → Heap s !! p = None) ∧
      ∀ p, p ≠ Destination → p ∉ Added →
           Heap s' !! p
           = AddToReferenceCount (References p (HeldObjects Todo))
               <$> Heap s !! p.
Proof.
  intros HD HA Hne Hdup.
  induction Todo as [|e Todo IH];
    intros TodoList s d a NewList Taken Before Rounds Count Generation ca ga
      HList Ha Hapay Hd Hpay HCount HGeneration Hnew Htodo Hscalar Hvalues
      Hlive Hdistinct Hnotheld Hallocs Hrounds.
  - apply Forall2_nil_inv_r in Htodo as ->.
    exists s, [], d. rewrite !app_nil_r. cbn [length]. rewrite !N.add_0_r.
    split; [by destruct Rounds|].
    split; [done|]. split; [done|]. split; [done|].
    split; [done|]. split; [done|].
    split; [intros p Hp; by apply elem_of_nil in Hp|].
    intros p _ _. cbn [HeldObjects flat_map]. rewrite References_nil.
    destruct (Heap s !! p) as [b|]; [|done].
    cbn [fmap option_fmap option_map]. by rewrite AddToReferenceCount_0.
  - apply Forall2_cons_inv_r in Htodo
      as (Entry & TodoList' & [Hentry He] & Htodo & ->).
    apply Forall_cons in Hvalues as [Hvalue Hvalues].
    cbn [length] in HCount, HGeneration, Hrounds.
    destruct Rounds as [|Rounds]; [lia|].
    destruct (ChalkDictSetElement_insert_step fuel Destination e Todo s d
                NewList Taken Count Generation)
      as (s1 & d1 & Hrun & Hstderr1 & Hallocs1 & Hfresh & HF1 & Hd1 & Hcount1
          & Hpay1 & H1 & Hscalar1 & Hlive1 & Hdistinct1);
      try done; [lia | lia |].
    set (F := FreshAddress (Heap s)) in *.
    assert (Hnotheld' : Destination ∉ HeldObjects Todo).
    { intros Hin. apply Hnotheld. rewrite HeldObjects_cons. by do 2 right. }
    assert (Ha1 : ∃ a1, Heap s1 !! Addition = Some (Obj a1) ∧
                        Payload a1 = CHALK_DICT AddList ca ga).
    { rewrite H1, Ha; [|done|intros Heq; rewrite Heq in Ha; congruence].
      eexists. split; [done|]. exact Hapay. }
    destruct Ha1 as (a1 & Ha1 & Hapay1).
    destruct (IH TodoList' s1 d1 a1 (NewList ++ [F]) (Taken ++ [e])
                (Before ++ [Entry]) Rounds (Count + 1) (Generation + 1) ca ga)
      as (s' & Added & d' & Hloop & Hstderr & Hd' & Hcount' & Hpay' & Hnodes'
          & Hadded & Hothers); try done;
      [by rewrite <- app_assoc | lia | lia | | | lia |].
    { apply Forall2_app.
      - by apply (EntryNodes_insert_step (Heap s) _ Destination F
                    [Key e; Value e] d).
      - constructor; [|constructor]. split; [|done].
        intros Heq. rewrite Heq in HF1.
        destruct (FreshAddress_spec (Heap s)) as (_ & Hfnull & _). done. }
    { by apply (EntryNodes_insert_step (Heap s) _ Destination F
                  [Key e; Value e] d). }
    exists s', (F :: Added), d'.
    replace (NewList ++ F :: Added) with ((NewList ++ [F]) ++ Added)
      by by rewrite <- app_assoc.
    replace (Taken ++ e :: Todo) with ((Taken ++ [e]) ++ Todo)
      by by rewrite <- app_assoc.
    split; [|split; [congruence|split; [done|split; [congruence|split;
             [|split; [done|split]]]]]].
    + cbn [ChalkDictAddFrom]. rewrite (NULL_eqb Entry) by done.
      eapply bind_run; [by apply ReadEntry_Done|].
      eapply bind_run; [by apply ReadObject_Done|]. rewrite Hapay.
      eapply bind_run.
      { unfold read. rewrite HList, ListEntryNext_middle; [done|].
        rewrite HList in Hdup. apply NoDup_app in Hdup as (_ & Hdup & _).
        intros Hin. apply (Hdup Entry Hin). by left. }
      eapply bind_run; [exact Hrun|].
      cbn [negb Z.eqb]. exact Hloop.
    + rewrite Hpay'. cbn [length]. f_equal; lia.
    + intros p Hp. apply elem_of_cons in Hp as [->|Hp]; [done|].
      specialize (Hadded p Hp).
      destruct (Heap s !! p) as [b|] eqn:Hb; [|done].
      destruct (decide (p = Destination)) as [->|HpD]; [congruence|].
      rewrite H1, Hb in Hadded; [done|done|]. intros ->. congruence.
    + intros p HpD Hp. apply not_elem_of_cons in Hp as [HpF Hp].
      rewrite Hothers by done. rewrite H1 by done.
      destruct (Heap s !! p) as [b|]; [|done].
      cbn [fmap option_fmap option_map].
      rewrite AddToReferenceCount_add. do 2 f_equal.
      by rewrite References_HeldObjects_cons.
Qed.

(** X28: [ChalkDictAdd] of a dictionary none of whose keys the
    destination has (the keys of both are Integers or Strings no two of
    which compare as 0), with live values and an allocator that has
    memory, returns 0 and appends: the destination gets a newly allocated
    node at the tail of its entry list for every entry of the addition,
    in order, holding the key and the value of that entry, and its count
    and generation go up by the number of entries.  Each key and value
    has one more reference per entry of the addition holding it, and
    nothing else changes: the addition and its nodes are as they were. *)
Theorem ChalkDictAdd_appends (fuel Rounds : nat) (s : State)
    (Destination Addition : N) (d a : CHALK_OBJECT)
    (DestinationList AdditionList : list N)
    (DestinationEntries AdditionEntries : list CHALK_DICT_ENTRY)
    (Count Generation AdditionCount AdditionGeneration : N) :
  Destination ≠ NULL →
  Addition ≠ NULL →
  Destination ≠ Addition →
  Heap s !! Destination = Some (Obj d) →
  Payload d = CHALK_DICT DestinationList Count Generation →
  Heap s !! Addition = Some (Obj a) →
  Payload a = CHALK_DICT AdditionList AdditionCount AdditionGeneration →
  EntryNodes (Heap s) DestinationList DestinationEntries →
  EntryNodes (Heap s) AdditionList AdditionEntries →
  NoDup AdditionList →
  Count + N.of_nat (length AdditionEntries) ≤ MAX_ULONG →
  Generation + N.of_nat (length AdditionEntries) ≤ MAX_UINTN →
  ScalarKeys (Heap s) (DestinationEntries ++ AdditionEntries) →
  Forall (λ e, Value e ≠ NULL) AdditionEntries →
  LiveObjects (Heap s) (HeldObjects AdditionEntries) →
  DistinctKeys fuel (Heap s) (DestinationEntries ++ AdditionEntries) →
  Destination ∉ HeldObjects AdditionEntries →
  Forall (λ b, b = true) (Allocations s) →
  (length AdditionList ≤ Rounds)%nat →
  ∃ s' Added d',
    ChalkDictAdd (S fuel) Rounds Destination Addition s = Done (0%Z, s') ∧
    Stderr s' = Stderr s ∧
    Heap s' !! Destination = Some (Obj d') ∧
    ReferenceCount d' = ReferenceCount d ∧
    Payload d' = CHALK_DICT (DestinationList ++ Added)
                   (Count + N.of_nat (length AdditionEntries))
                   (Generation + N.of_nat (length AdditionEntries)) ∧
    EntryNodes (Heap s') (DestinationList ++ Added)
      (DestinationEntries ++ AdditionEntries) ∧
    (∀ Entry, Entry ∈ Added → Heap s !! Entry = None) ∧
    ∀ p, p ≠ Destination → p ∉ Added →
         Heap s' !! p
         = AddToReferenceCount (References p (HeldObjects AdditionEntries))
             <$> Heap s !! p.
Proof.
  intros HD HA Hne Hd Hpay Ha Hapay Hdest Hadd Hdup HCount HGeneration
    Hscalar Hvalues Hlive Hdistinct Hnotheld Hallocs Hrounds.
  destruct (ChalkDictAddFrom_appends fuel Destination Addition AdditionList
              HD HA Hne Hdup AdditionEntries AdditionList s d a
              DestinationList DestinationEntries [] Rounds Count Generation
              AdditionCount AdditionGeneration)
    as (s' & Added & d' & Hloop & Hrest); try done.
  exists s', Added, d'. split; [|done].
  unfold ChalkDictAdd.
  eapply bind_run; [by apply ReadObject_Done|].
  assert (IsType d ChalkObjectDict = true) as ->
    by (apply IsType_true; unfold HeaderType; by rewrite Hpay).
  eapply bind_run; [apply assert_true|].
  eapply bind_run; [by apply ReadObject_Done|]. rewrite Hapay.
  exact Hloop.
Qed.

Lemma ChalkDictAdd_appends_witness :
  let s := WithHeap IteratingState
             (<[9 := Obj {| ReferenceCount := 1;
                            Payload := CHALK_DICT [] 0 0 |}]>
                (Heap IteratingState)) in
  ∃ s' Added,
    ChalkDictAdd 1 1 9 2 s = Done (0%Z, s') ∧
    Heap s' !! 9 = Some (Obj {| ReferenceCount := 1;
                                Payload := CHALK_DICT Added 1 1 |}) ∧
    EntryNodes (Heap s') Added [{| Key := 3; Value := 4 |}].
Proof.
  intros s.
  destruct (ChalkDictAdd_appends 0 1 s 9 2
              {| ReferenceCount := 1; Payload := CHALK_DICT [] 0 0 |}
              {| ReferenceCount := 1; Payload := CHALK_DICT [5] 1 1 |}
              [] [5] [] [{| Key := 3; Value := 4 |}] 0 0 1 1)
    as (s' & Added & d' & Hrun & _ & Hd' & Hcount & Hpay & Hnodes & _);
    [done | done | done | reflexivity | reflexivity | reflexivity
    | reflexivity | constructor | by repeat constructor
    | apply NoDup_singleton | by vm_compute | by vm_compute | |
    | | | | constructor | cbn; lia |].
  - constructor; [|constructor]. split; [done|].
    eexists. split; [reflexivity|]. by right.
  - by repeat constructor.
  - intros p Hp _. cbn in Hp.
    apply elem_of_cons in Hp as [->|Hp].
    { eexists. split; [reflexivity|]. split; [done|]. by vm_compute. }
    apply elem_of_cons in Hp as [->|Hp].
    { eexists. split; [reflexivity|]. split; [done|]. by vm_compute. }
    by apply elem_of_nil in Hp.
  - intros i j ei ej Hij Hi Hj. destruct j as [|j]; [lia|]. discriminate.
  - cbn. intros Hin. repeat (apply elem_of_cons in Hin as [Hin|Hin]; [done|]).
    by apply elem_of_nil in Hin.
  - exists s', Added. split; [exact Hrun|]. split; [|exact Hnodes].
    rewrite Hd'. destruct d' as [c p]. cbn in Hcount, Hpay.
    by rewrite Hcount, Hpay.
Defined.

(** ** Strings are compared up to their first zero byte *)

Lemma strcmp_common_prefix (Prefix LeftRest RightRest : list byte) :
  strcmp (Prefix ++ x00 :: LeftRest) (Prefix ++ x00 :: RightRest)
  = Done 0%Z.
Proof.
  induction Prefix as [|c Prefix IH]; [done|].
  cbn [app strcmp]. rewrite N.eqb_refl. cbn [negb].
  by destruct (Byte.to_N c =? 0).
Qed.

(** What follows the first zero byte of its second operand plays no part
    in a comparison. *)

Lemma strcmp_up_to_zero (Text Prefix LeftRest RightRest : list byte) :
  strcmp Text (Prefix ++ x00 :: LeftRest)
  = strcmp Text (Prefix ++ x00 :: RightRest).
Proof.
  revert Text. induction Prefix as [|c Prefix IH]; intros [|t Text]; try done.
  - cbn [app strcmp].
    destruct (N.eqb_spec (Byte.to_N t) (Byte.to_N x00)) as [Heq|_]; [|done].
    cbn [negb]. rewrite Heq. done.
  - cbn [app strcmp].
    destruct (negb (Byte.to_N t =? Byte.to_N c)); [done|].
    destruct (Byte.to_N t =? 0); [done|]. apply IH.
Qed.

Lemma ChalkDictLookupFrom_same_key (Compare : N → N → Result Z)
    (h : gmap N Block) (EntryList : list N) (Left Right : N) :
  (∀ Other, Compare Other Left = Compare Other Right) →
  ChalkDictLookupFrom Compare h EntryList Left
  = ChalkDictLookupFrom Compare h EntryList Right.
Proof.
  intros Hsame. induction EntryList as [|Entry EntryList IH]; [done|].
  cbn [ChalkDictLookupFrom].
  destruct (LoadEntry h Entry) as [e|c]; [|done]. cbn [mbind Result_bind].
  rewrite Hsame. destruct (Compare (Key e) Right) as [z|c]; [|done].
  cbn [mbind Result_bind]. by rewrite IH.
Qed.

(** X20: two Strings whose buffers agree up to a zero byte compare as 0,
    whatever follows that byte and whatever their sizes are: a String
    with an embedded zero byte equals every String with the same bytes
    before it, and every object compares with the one as it does with the
    other.  As dictionary keys the two are one key: in every dictionary
    the lookup of the one returns what the lookup of the other returns,
    and in a dictionary that has the one as a key (no key before it on
    the entry list comparing as 0 with it) the lookup of the other
    returns the entry of the one. *)
Theorem ChalkCompareObjects_embedded_zero (fuel : nat) (h : gmap N Block)
    (Left Right : N) (l r : CHALK_OBJECT)
    (Prefix LeftRest RightRest : list byte) (LeftSize RightSize : N) :
  Left ≠ NULL →
  Right ≠ NULL →
  h !! Left = Some (Obj l) →
  h !! Right = Some (Obj r) →
  Payload l = CHALK_STRING (Prefix ++ x00 :: LeftRest) LeftSize →
  Payload r = CHALK_STRING (Prefix ++ x00 :: RightRest) RightSize →
  ChalkCompareObjects (S fuel) h Left Right = Done 0%Z ∧
  (∀ Other, ChalkCompareObjects (S fuel) h Other Left
            = ChalkCompareObjects (S fuel) h Other Right) ∧
  (∀ Dict, ChalkDictLookup (S fuel) h Dict Left
           = ChalkDictLookup (S fuel) h Dict Right) ∧
  ∀ Dict d Before Entry After EntriesBefore e Count Generation,
    Dict ≠ NULL →
    h !! Dict = Some (Obj d) →
    Payload d = CHALK_DICT (Before ++ Entry :: After) Count Generation →
    EntryNodes h Before EntriesBefore →
    Forall (λ eb, ∃ z, ChalkCompareObjects (S fuel) h (Key eb) Left = Done z ∧
                       z ≠ 0%Z) EntriesBefore →
    Entry ≠ NULL →
    h !! Entry = Some (DictEntry e) →
    Key e = Left →
    ChalkDictLookup (S fuel) h Dict Right = Done Entry.
Proof.
  intros HL HR Hl Hr Hlpay Hrpay.
  assert (Hzero : ChalkCompareObjects (S fuel) h Left Right = Done 0%Z).
  { cbn [ChalkCompareObjects].
    rewrite (LoadObject_Done h Left l), (LoadObject_Done h Right r) by done.
    cbn [mbind Result_bind]. unfold HeaderType. rewrite Hlpay, Hrpay.
    cbn [TypeValue]. rewrite N.eqb_refl. cbn [negb].
    by rewrite strcmp_common_prefix. }
  assert (Hsame : ∀ Other, ChalkCompareObjects (S fuel) h Other Left
                           = ChalkCompareObjects (S fuel) h Other Right).
  { intros Other. cbn [ChalkCompareObjects].
    destruct (LoadObject h Other) as [o|c]; [|done].
    rewrite (LoadObject_Done h Left l), (LoadObject_Done h Right r) by done.
    cbn [mbind Result_bind]. unfold HeaderType. rewrite Hlpay, Hrpay.
    destruct (Payload o) as [| | |Text Size| | |]; try done.
    cbn [TypeValue]. rewrite N.eqb_refl. cbn [negb].
    by rewrite (strcmp_up_to_zero Text Prefix LeftRest RightRest). }
  assert (Hlookups : ∀ Dict, ChalkDictLookup (S fuel) h Dict Left
                             = ChalkDictLookup (S fuel) h Dict Right).
  { intros Dict. unfold ChalkDictLookup.
    destruct (LoadObject h Dict) as [d|c]; [|done]. cbn [mbind Result_bind].
    destruct (Payload d); try done.
    by apply ChalkDictLookupFrom_same_key. }
  split; [done|]. split; [done|]. split; [done|].
  intros Dict d Before Entry After EntriesBefore e Count Generation HD Hd
    Hdpay Hbefore Hdistinct HE He Hkey.
  rewrite <- Hlookups. unfold ChalkDictLookup.
  rewrite (LoadObject_Done h Dict d) by done. cbn [mbind Result_bind].
  rewrite Hdpay.
  apply (ChalkDictLookupFrom_found _ _ _ _ EntriesBefore _ e); try done.
  rewrite Hkey.
  apply (ChalkCompareObjects_scalar_refl fuel h Left l); try done.
  rewrite Hlpay. apply elem_of_app. right. by left.
Qed.

Lemma ChalkCompareObjects_embedded_zero_witness :
  let h := <[5 := DictEntry {| Key := 2; Value := 3 |}]>
          (<[4 := Obj {| ReferenceCount := 1;
                         Payload := CHALK_DICT [5] 1 1 |}]>
          (<[3 := Obj {| ReferenceCount := 1;
                         Payload := CHALK_STRING [x61; x00] 1 |}]>
             (Heap EmbeddedZeroState))) in
  ChalkCompareObjects 1 h 2 3 = Done 0%Z ∧
  ChalkDictLookup 1 h 4 3 = Done 5.
Proof.
  intros h.
  destruct (ChalkCompareObjects_embedded_zero 0 h 2 3
              {| ReferenceCount := 1;
                 Payload := CHALK_STRING [x61; x00; x62; x00] 3 |}
              {| ReferenceCount := 1; Payload := CHALK_STRING [x61; x00] 1 |}
              [x61] [x62; x00] [] 3 1)
    as (Hzero & _ & _ & Hfound); [done | done | reflexivity | reflexivity
                                 | reflexivity | reflexivity |].
  split; [exact Hzero|].
  apply (Hfound 4 {| ReferenceCount := 1; Payload := CHALK_DICT [5] 1 1 |}
           [] 5 [] [] {| Key := 2; Value := 3 |} 1 1);
    [done | reflexivity | reflexivity | constructor | constructor | done
    | reflexivity | reflexivity].
Defined.
